(** * Autoregressive regression forecaster

    A shallow embedding of [darts/models/regression_model.py]: the
    [RegressionModel] class that wraps a tabular estimator (anything with
    [fit] and [predict]) and turns it into an autoregressive forecaster by
    building lagged feature tables and re-feeding its own forecasts.

    Conventions of the embedding.
    - Timestamps and the frequency (step size) are integers.
    - A cell of a frame is [option Z]: [None] is pandas' NaN.  The forecaster
      never computes with the values, it only moves them around and tests
      them for NaN, so integers stand in for the floating-point payload.
    - Python exceptions are values of [exn]; a computation that may raise
      returns a [result].
    - In-place mutation of [self] by [fit] is explicit state passing: [fit]
      returns the object as the call leaves it together with the outcome. *)

From Stdlib Require Import ZArith String Bool DecimalString DecimalZ DecimalPos.
From Stdlib Require Import Sorted Lia List.
Import ListNotations.

Local Open Scope string_scope.
Local Open Scope list_scope.
Local Open Scope Z_scope.

(** String concatenation, Python's [+] on [str]. *)
Infix "+++" := String.append (at level 60, right associativity).

(** ** Exceptions and results *)

Inductive exn : Type :=
| ConfigurationError (msg : string)
| PyException (msg : string)
| NotFittedError
| ValueError (msg : string)
| KeyError (key : string)
| IndexError
| AttributeError
| TypeError
| UnboundLocalError
| EstimatorError (msg : string).

Inductive result (A : Type) : Type :=
| Ok (a : A)
| Raise (e : exn).

Arguments Ok {A} a.
Arguments Raise {A} e.

Definition bind {A B : Type} (r : result A) (k : A -> result B) : result B :=
  match r with
  | Ok a => k a
  | Raise e => Raise e
  end.

Declare Scope py_scope.
Delimit Scope py_scope with py.
Notation "x <- c1 ;; c2" := (bind c1 (fun x => c2))
  (at level 61, c1 at next level, right associativity) : py_scope.
Notation "c1 ;;; c2" := (bind c1 (fun _ => c2))
  (at level 61, right associativity) : py_scope.
Local Open Scope py_scope.

(** Modelled from the spec: [raise_if] and [raise_if_not] live in the
    logging module, which is not part of this file.  Section 7 of the
    specification classifies every failure they signal here (lag
    parameters unset or non-positive, exogenous presence mismatch,
    misaligned exogenous start, multivariate target) as a
    [ConfigurationError] carrying the message. *)
Definition raise_if (condition : bool) (message : string) : result unit :=
  if condition then Raise (ConfigurationError message) else Ok tt.

Definition raise_if_not (condition : bool) (message : string) : result unit :=
  raise_if (negb condition) message.

(** Modelled from the spec: [raise_log] is the logging module's replacement
    for the [raise] statement: it logs the exception it is given and raises
    it.  The two call sites pass a plain [Exception]. *)
Definition raise_log {A : Type} (e : exn) : result A := Raise e.

(** ** Formatting, as [str.format] does it for integers and lists *)

Definition show_Z (z : Z) : string := NilZero.string_of_int (Z.to_int z).

Fixpoint show_items (l : list Z) : string :=
  match l with
  | [] => ""
  | [x] => show_Z x
  | x :: r => show_Z x +++ ", " +++ show_items r
  end.

Definition show_list (l : list Z) : string := "[" +++ show_items l +++ "]".

(** [sub] occurs in [s]. *)
Definition mentions (s sub : string) : Prop :=
  exists pre post : string, s = pre +++ sub +++ post.

(** ** Python built-ins used by the class *)

(** [list(range(a, b))] *)
Definition py_range (a b : Z) : list Z :=
  map (fun i => a + Z.of_nat i) (seq 0 (Z.to_nat (b - a))).

(** [max(l)]: raises on an empty sequence. *)
Definition py_max (l : list Z) : result Z :=
  match l with
  | [] => Raise (ValueError "max() arg is an empty sequence")
  | x :: r => Ok (fold_left Z.max r x)
  end.

(** [l[start:]] and [l[:stop]] with Python's treatment of negative bounds. *)
Definition slice_from {A : Type} (start : Z) (l : list A) : list A :=
  if start <? 0
  then skipn (Z.to_nat (Z.max 0 (Z.of_nat (length l) + start))) l
  else skipn (Z.to_nat start) l.

Definition slice_to {A : Type} (stop : Z) (l : list A) : list A :=
  if stop <? 0
  then firstn (Z.to_nat (Z.max 0 (Z.of_nat (length l) + stop))) l
  else firstn (Z.to_nat stop) l.

(** [for x in l: body(x)], stopping at the first exception. *)
Fixpoint for_each {A : Type} (body : A -> result unit) (l : list A) : result unit :=
  match l with
  | [] => Ok tt
  | x :: r => body x ;;; for_each body r
  end.

(** [l[i]] for a non-negative position. *)
Definition item {A : Type} (l : list A) (i : nat) : result A :=
  match nth_error l i with
  | Some x => Ok x
  | None => Raise IndexError
  end.

(** ** Frames: the part of pandas the class relies on *)

Abbreviation cell := (option Z) (only parsing).

Definition notna (c : cell) : bool :=
  match c with Some _ => true | None => false end.

(** A frame is stored by column: a time index and named columns, each as
    long as the index. *)
Record DataFrame : Type := {
  df_index : list Z;
  df_cols : list (string * list cell)
}.

Definition df_columns (df : DataFrame) : list string := map fst (df_cols df).
Definition df_width (df : DataFrame) : nat := length (df_cols df).
Definition df_len (df : DataFrame) : nat := length (df_index df).

(** [col.shift(periods)]: values move [periods] rows down (up when
    negative), the vacated rows hold NaN, the length is unchanged. *)
Definition shift (periods : Z) (col : list cell) : list cell :=
  let n := length col in
  if 0 <=? periods
  then firstn n (repeat None (Z.to_nat periods) ++ col)
  else skipn (Z.to_nat (- periods)) col
       ++ repeat None (Nat.min n (Z.to_nat (- periods))).

(** [df[name]] for a column label; a label carried by several columns
    yields a frame, which cannot be assigned to one column. *)
Definition df_getcol (name : string) (df : DataFrame) : result (list cell) :=
  match filter (fun c => String.eqb (fst c) name) (df_cols df) with
  | [] => Raise (KeyError name)
  | [c] => Ok (snd c)
  | _ => Raise (ValueError "Cannot set a DataFrame with multiple columns")
  end.

(** [df[name] = values]: overwrite the column when the label exists,
    append a new last column otherwise. *)
Fixpoint set_col (name : string) (values : list cell)
         (cols : list (string * list cell)) : list (string * list cell) :=
  match cols with
  | [] => [(name, values)]
  | c :: r => if String.eqb (fst c) name
              then (name, values) :: r
              else c :: set_col name values r
  end.

Definition df_setcol (name : string) (values : list cell) (df : DataFrame)
  : DataFrame :=
  {| df_index := df_index df; df_cols := set_col name values (df_cols df) |}.

(** [df.drop(name, axis=1)] *)
Definition df_drop (name : string) (df : DataFrame) : DataFrame :=
  {| df_index := df_index df;
     df_cols := filter (fun c => negb (String.eqb (fst c) name)) (df_cols df) |}.

(** Row [i] has no NaN in any column. *)
Definition row_complete (cols : list (string * list cell)) (i : nat) : bool :=
  forallb (fun c => match nth_error (snd c) i with
                    | Some v => notna v
                    | None => false
                    end) cols.

(** The entries of [l] at the positions [ps], in that order. *)
Definition take_rows {A : Type} (ps : list nat) (l : list A) : list A :=
  flat_map (fun i => match nth_error l i with
                     | Some x => [x]
                     | None => []
                     end) ps.

(** [df.dropna()]: keep the rows without NaN. *)
Definition dropna (df : DataFrame) : DataFrame :=
  let keep := filter (row_complete (df_cols df)) (seq 0 (df_len df)) in
  {| df_index := take_rows keep (df_index df);
     df_cols := map (fun c => (fst c, take_rows keep (snd c))) (df_cols df) |}.

(** Union of two increasing time indexes, increasing again. *)
Fixpoint index_union (a : list Z) : list Z -> list Z :=
  fix merge (b : list Z) : list Z :=
    match a, b with
    | [], _ => b
    | _, [] => a
    | x :: a', y :: b' =>
        if x <? y then x :: index_union a' b
        else if y <? x then y :: merge b'
        else x :: index_union a' b'
    end.

Fixpoint position (t : Z) (idx : list Z) : option nat :=
  match idx with
  | [] => None
  | u :: r => if t =? u then Some O else option_map S (position t r)
  end.

(** The columns of [df] re-read on the index [idx]: NaN where [df] has no
    row for a timestamp. *)
Definition reindex (idx : list Z) (df : DataFrame) : list (string * list cell) :=
  map (fun c =>
         (fst c,
          map (fun t => match position t (df_index df) with
                        | Some p => nth p (snd c) None
                        | None => None
                        end) idx))
      (df_cols df).

(** [pd.concat(frames, axis=1)]: side by side, aligned on the union of the
    indexes. *)
Definition pd_concat (frames : list DataFrame) : result DataFrame :=
  match frames with
  | [] => Raise (ValueError "No objects to concatenate")
  | _ =>
      let idx := fold_right (fun f acc => index_union (df_index f) acc) [] frames in
      Ok {| df_index := idx; df_cols := flat_map (reindex idx) frames |}
  end.

(** The labels of the two axes of a frame: timestamps on the index, strings
    on the columns. *)
Inductive label : Type :=
| LTime (t : Z)
| LStr (s : string).

Definition label_eqb (a b : label) : bool :=
  match a, b with
  | LTime t, LTime u => t =? u
  | LStr s, LStr u => String.eqb s u
  | _, _ => false
  end.

(** Apply a dict mapper to a label: labels that are not keys stay. *)
Fixpoint map_label (mapper : list (label * label)) (l : label) : label :=
  match mapper with
  | [] => l
  | (k, v) :: r => if label_eqb k l then v else map_label r l
  end.

(** The axis a [rename] mapper targets. *)
Inductive axis : Type := AxisIndex | AxisColumns.

(** [df.rename(mapper)]: when the call names neither [index=], [columns=]
    nor [axis=], pandas applies the mapper to the index (axis 0).  A
    timestamp stays a timestamp under the mappers used here; a label
    mapped to something else would change the type of the axis, which the
    frame type here does not hold, so it is left alone. *)
Definition df_rename (mapper : list (label * label)) (ax : axis) (df : DataFrame)
  : DataFrame :=
  match ax with
  | AxisIndex =>
      {| df_index := map (fun t => match map_label mapper (LTime t) with
                                   | LTime u => u
                                   | LStr _ => t
                                   end) (df_index df);
         df_cols := df_cols df |}
  | AxisColumns =>
      {| df_index := df_index df;
         df_cols := map (fun c => (match map_label mapper (LStr (fst c)) with
                                   | LStr s => s
                                   | LTime _ => fst c
                                   end, snd c)) (df_cols df) |}
  end.

Definition default_rename_axis : axis := AxisIndex.

(** The rows of a frame, each across the columns. *)
Definition df_row (df : DataFrame) (i : nat) : list cell :=
  map (fun c => nth i (snd c) None) (df_cols df).

(** [df.iloc[i, :].values] *)
Definition df_iloc (df : DataFrame) (i : nat) : result (list cell) :=
  if (i <? df_len df)%nat then Ok (df_row df i) else Raise IndexError.

(** [df.values.ravel()]: row-major flattening. *)
Definition df_ravel (df : DataFrame) : list cell :=
  flat_map (df_row df) (seq 0 (df_len df)).

(** [pd.DataFrame(columns=names)]: no rows. *)
Definition df_empty (names : list string) : DataFrame :=
  {| df_index := []; df_cols := map (fun s => (s, [])) names |}.

(** [pd.DataFrame([row], columns=names, index=[t])] *)
Definition df_one_row (row : list cell) (names : list string) (t : Z)
  : result DataFrame :=
  if (length row =? length names)%nat
  then Ok {| df_index := [t];
             df_cols := map (fun p => (fst p, [snd p])) (combine names row) |}
  else Raise (ValueError "Shape of passed values does not match the columns").

(** A frame on the rows of [idx] from position [m] on, with at least one
    column and without NaN. *)
Definition complete_from (idx : list Z) (m : nat) (df : DataFrame) : Prop :=
  df_index df = skipn m idx
  /\ df_cols df <> []
  /\ Forall (fun c => length (snd c) = (length idx - m)%nat
                      /\ Forall (fun v => notna v = true) (snd c))
            (df_cols df).

(** A series on the index [idx] whose columns have distinct names, hold
    one cell per timestamp and no NaN. *)
Definition clean_on (idx : list Z) (df : DataFrame) : Prop :=
  df_index df = idx
  /\ NoDup (df_columns df)
  /\ Forall (fun c => length (snd c) = length idx
                      /\ Forall (fun v => notna v = true) (snd c))
            (df_cols df).

(** At row [p], every column of [df] shifted by every lag of [lags] holds
    a value. *)
Definition shifted_defined (df : DataFrame) (lags : list Z) (p : nat) : Prop :=
  forall c lag, In c (df_cols df) -> In lag lags ->
                exists v, nth_error (shift lag (snd c)) p = Some (Some v).

(** The name of the column that holds [target_name] shifted by [lag]. *)
Definition lag_name (target_name : string) (lag : Z) : string :=
  target_name +++ "_lag" +++ show_Z lag.

(** The columns while the loop of [_create_lagged_data] runs: the
    variable itself, once, and one shifted copy for every lag in [done]. *)
Definition lag_cols (target_name : string) (values : list (option Z))
           (done : Z -> Prop) (cols : list (string * list (option Z))) : Prop :=
  filter (fun c => String.eqb (fst c) target_name) cols = [(target_name, values)]
  /\ (forall c, In c cols ->
                c = (target_name, values)
                \/ exists lag, done lag
                               /\ c = (lag_name target_name lag, shift lag values))
  /\ (forall lag, done lag ->
                  In (lag_name target_name lag, shift lag values) cols).

(** The largest lag of a list, as a number of rows. *)
Definition lag_depth (lags : list Z) : nat := list_max (map Z.to_nat lags).

(** ** Time series: the collaborator of the class

    Modelled from the spec: the [TimeSeries] class is not part of this
    file.  Section 6 of the specification lists what the forecaster
    consumes from it: column access by name, slicing by position or time,
    side-by-side concatenation ([stack]), appending new rows, and the
    frequency accessor.  A series is a frame with a frequency. *)

Record TimeSeries : Type := {
  ts_df : DataFrame;
  ts_freq : Z
}.

Definition pd_dataframe (ts : TimeSeries) : DataFrame := ts_df ts.
Definition columns (ts : TimeSeries) : list string := df_columns (ts_df ts).
Definition width (ts : TimeSeries) : nat := df_width (ts_df ts).
Definition time_index (ts : TimeSeries) : list Z := df_index (ts_df ts).
Definition freq (ts : TimeSeries) : Z := ts_freq ts.
Definition ts_len (ts : TimeSeries) : nat := df_len (ts_df ts).

Definition start_time (ts : TimeSeries) : result Z := item (time_index ts) 0.

Definition end_time (ts : TimeSeries) : result Z :=
  item (time_index ts) (pred (ts_len ts)).

(** [ts[[name1, ...]]] and [ts[name]]: the columns carrying one of the
    labels, label by label. *)
Fixpoint select_cols (names : list string) (cols : list (string * list cell))
  : result (list (string * list cell)) :=
  match names with
  | [] => Ok []
  | s :: r =>
      match filter (fun c => String.eqb (fst c) s) cols with
      | [] => Raise (KeyError s)
      | found => rest <- select_cols r cols ;; Ok (found ++ rest)
      end
  end.

Definition getitem_cols (names : list string) (ts : TimeSeries) : result TimeSeries :=
  cols <- select_cols names (df_cols (ts_df ts)) ;;
  Ok {| ts_df := {| df_index := time_index ts; df_cols := cols |};
        ts_freq := ts_freq ts |}.

(** [ts[time_index]]: the rows at the given timestamps. *)
Definition getitem_times (idx : list Z) (ts : TimeSeries) : TimeSeries :=
  let ps := flat_map (fun t => match position t (time_index ts) with
                               | Some p => [p]
                               | None => []
                               end) idx in
  {| ts_df := {| df_index := take_rows ps (time_index ts);
                 df_cols := map (fun c => (fst c, take_rows ps (snd c)))
                                (df_cols (ts_df ts)) |};
     ts_freq := ts_freq ts |}.

(** [ts[start:]] and [ts[:stop]] by position. *)
Definition getitem_from (start : Z) (ts : TimeSeries) : TimeSeries :=
  {| ts_df := {| df_index := slice_from start (time_index ts);
                 df_cols := map (fun c => (fst c, slice_from start (snd c)))
                                (df_cols (ts_df ts)) |};
     ts_freq := ts_freq ts |}.

Definition getitem_to (stop : Z) (ts : TimeSeries) : TimeSeries :=
  {| ts_df := {| df_index := slice_to stop (time_index ts);
                 df_cols := map (fun c => (fst c, slice_to stop (snd c)))
                                (df_cols (ts_df ts)) |};
     ts_freq := ts_freq ts |}.

(** [ts.stack(other)]: the columns of both, on the index of [ts]. *)
Definition stack (ts other : TimeSeries) : TimeSeries :=
  {| ts_df := {| df_index := time_index ts;
                 df_cols := df_cols (ts_df ts) ++ df_cols (ts_df other) |};
     ts_freq := ts_freq ts |}.

(** [ts.append_values(values)]: one new row per entry of [values], at the
    timestamps that continue the index at the series' frequency. *)
Definition append_values (values : list (list cell)) (ts : TimeSeries)
  : result TimeSeries :=
  match values with
  | [] => Ok ts
  | _ =>
      last <- end_time ts ;;
      if forallb (fun row => (length row =? width ts)%nat) values
      then
        Ok {| ts_df :=
                {| df_index :=
                     time_index ts
                     ++ map (fun i => last + Z.of_nat i * ts_freq ts)
                            (seq 1 (length values));
                   df_cols :=
                     map (fun jc => (fst (snd jc),
                                     snd (snd jc)
                                     ++ map (fun row => nth (fst jc) row None) values))
                         (combine (seq 0 (width ts)) (df_cols (ts_df ts))) |};
              ts_freq := ts_freq ts |}
      else Raise (ValueError "Shape of passed values does not match the series")
  end.

(** The rows of a series, oldest first. *)
Definition ts_rows (ts : TimeSeries) : list (list cell) :=
  map (df_row (ts_df ts)) (seq 0 (ts_len ts)).

(** The series has exactly [k] rows: [k] timestamps, and [k] cells in
    every column. *)
Definition rows_exactly (k : nat) (ts : TimeSeries) : Prop :=
  length (time_index ts) = k
  /\ Forall (fun c => length (snd c) = k) (df_cols (ts_df ts)).

(** A well-formed rolling window: the columns [names], the frequency [fr],
    exactly [k] rows at increasing timestamps, and no NaN. *)
Definition window_ok (names : list string) (fr : Z) (k : nat) (w : TimeSeries)
  : Prop :=
  columns w = names
  /\ ts_freq w = fr
  /\ rows_exactly k w
  /\ StronglySorted Z.lt (time_index w)
  /\ Forall (fun c => Forall (fun v => notna v = true) (snd c)) (df_cols (ts_df w)).

(** Training input the forecaster is meant for: a target with the single
    column [tc], on strictly increasing timestamps at a positive
    frequency, without NaN; and, when there is one, an exogenous series on
    the same timestamps, without NaN, with at least one column and no
    column called [tc]. *)
Definition trainable (series : TimeSeries) (exog : option TimeSeries) (tc : string)
  : Prop :=
  columns series = [tc]
  /\ StronglySorted Z.lt (time_index series)
  /\ clean_on (time_index series) (ts_df series)
  /\ 0 < freq series
  /\ (forall e, exog = Some e ->
                clean_on (time_index series) (ts_df e)
                /\ columns e <> []
                /\ ~ In tc (columns e)).

(** The exogenous argument of [predict] that goes with the exogenous
    series of [fit]: none when there was none; otherwise a series that
    starts at [start], has as many columns, at least [n] rows and no
    NaN. *)
Definition usable_exog (exog exog' : option TimeSeries) (start : Z) (n : nat)
  : Prop :=
  match exog with
  | None => exog' = None
  | Some e =>
      exists e',
        exog' = Some e'
        /\ start_time e' = Ok start
        /\ (n <= ts_len e')%nat
        /\ width e' = width e
        /\ Forall (fun c => length (snd c) = ts_len e'
                            /\ Forall (fun v => notna v = true) (snd c))
                  (df_cols (ts_df e'))
  end.

(** A table of one row without NaN: what the estimator is asked to
    predict from. *)
Definition feature_row (X : DataFrame) : Prop :=
  df_len X = 1%nat
  /\ Forall (fun c => exists v : Z, snd c = [Some v]) (df_cols X).

(** ** The wrapped estimator

    Anything exposing [fit(X, y, **kwargs)] and [predict(X, **kwargs)].
    [E] is the universe of objects that can be passed as [model], [Kw] the
    keyword arguments handed through.  Training mutates the estimator in
    place and may raise; prediction returns one entry per input row, each
    a scalar or an array. *)

Inductive row_pred : Type :=
| RScalar (v : cell)
| RArray (a : list cell).

Class Estimator (E Kw : Type) : Type := {
  (** [callable(getattr(model, "fit", None))] *)
  has_fit : E -> bool;
  (** [callable(getattr(model, "predict", None))] *)
  has_predict : E -> bool;
  est_fit : E -> DataFrame -> list cell -> Kw -> E * result unit;
  est_predict : E -> DataFrame -> Kw -> result (list row_pred);
  (** [sklearn.linear_model.LinearRegression(n_jobs=..., fit_intercept=...)] *)
  LinearRegression : Z -> bool -> E
}.

(** ** A state-and-exception monad

    [fit] mutates [self] and may raise after some of the assignments;
    [predict] calls the estimator and may raise after some of the calls.
    Both are computations that thread a state and keep it when they
    raise. *)

Definition stateful (S A : Type) : Type := S -> S * result A.

Definition sret {S A : Type} (a : A) : stateful S A := fun s => (s, Ok a).

Definition sbind {S A B : Type} (m : stateful S A) (k : A -> stateful S B)
  : stateful S B :=
  fun s => match m s with
           | (s', Ok a) => k a s'
           | (s', Raise e) => (s', Raise e)
           end.

Definition lift {S A : Type} (r : result A) : stateful S A := fun s => (s, r).
Definition get {S : Type} : stateful S S := fun s => (s, Ok s).
Definition modify {S : Type} (f : S -> S) : stateful S unit := fun s => (f s, Ok tt).

Declare Scope stateful_scope.
Delimit Scope stateful_scope with st.
Notation "x <~ c1 ;; c2" := (sbind c1 (fun x => c2))
  (at level 61, c1 at next level, right associativity) : stateful_scope.
Notation "c1 ~> c2" := (sbind c1 (fun _ => c2))
  (at level 61, right associativity) : stateful_scope.

(** [for x in l: body(x)] threading the loop-carried value [a]. *)
Fixpoint for_loop {S X A : Type} (body : X -> A -> stateful S A) (l : list X) (a : A)
  : stateful S A :=
  match l with
  | [] => sret a
  | x :: r => sbind (body x a) (for_loop body r)
  end.

(** ** The class *)

(** The [lags] argument of the constructor: an integer, a list, or a value
    of another type. *)
Inductive LagsArg : Type :=
| LagsInt (k : Z)
| LagsList (l : list Z)
| LagsOther.

(** The [lags_exog] argument: [True]/[False], an integer, a list, or a
    value of another type. *)
Inductive LagsExogArg : Type :=
| ExogBool (b : bool)
| ExogInt (k : Z)
| ExogList (l : list Z)
| ExogOther.

(** [self.prediction_data] is a bare frame when [max_lag == 0] and a series
    otherwise. *)
Inductive seed : Type :=
| AsFrame (df : DataFrame)
| AsSeries (ts : TimeSeries).

Definition is_none {A : Type} (o : option A) : bool :=
  match o with None => true | Some _ => false end.

Definition is_some {A : Type} (o : option A) : bool := negb (is_none o).

(** Reading an attribute that no assignment has created yet. *)
Definition attr {A : Type} (o : option A) : result A :=
  match o with
  | Some a => Ok a
  | None => Raise AttributeError
  end.

(** Reading a local variable that no assignment has bound yet. *)
Definition local {A : Type} (o : option A) : result A :=
  match o with
  | Some a => Ok a
  | None => Raise UnboundLocalError
  end.

Section RegressionModel.

Context {E Kw : Type} `{Estimator E Kw}.

(** The instance attributes.  Those of the first block are set by the
    constructor; the others do not exist until [fit] assigns them
    ([None] here), and [exog_columns] may then hold Python's [None]. *)
Record RegressionModel : Type := {
  lags : option (list Z);
  lags_exog : option (list Z);
  model : E;
  max_lag : Z;
  _fit_called : bool;

  training_series : option TimeSeries;
  exog_columns : option (option (list string));
  nr_exog : option Z;
  target_column : option string;
  prediction_data : option seed
}.

Definition set_fit_called (v : bool) (self : RegressionModel) : RegressionModel :=
  {| lags := lags self; lags_exog := lags_exog self; model := model self;
     max_lag := max_lag self; _fit_called := v;
     training_series := training_series self; exog_columns := exog_columns self;
     nr_exog := nr_exog self; target_column := target_column self;
     prediction_data := prediction_data self |}.

Definition set_model (v : E) (self : RegressionModel) : RegressionModel :=
  {| lags := lags self; lags_exog := lags_exog self; model := v;
     max_lag := max_lag self; _fit_called := _fit_called self;
     training_series := training_series self; exog_columns := exog_columns self;
     nr_exog := nr_exog self; target_column := target_column self;
     prediction_data := prediction_data self |}.

Definition set_training_series (v : TimeSeries) (self : RegressionModel)
  : RegressionModel :=
  {| lags := lags self; lags_exog := lags_exog self; model := model self;
     max_lag := max_lag self; _fit_called := _fit_called self;
     training_series := Some v; exog_columns := exog_columns self;
     nr_exog := nr_exog self; target_column := target_column self;
     prediction_data := prediction_data self |}.

Definition set_exog_columns (v : option (list string)) (self : RegressionModel)
  : RegressionModel :=
  {| lags := lags self; lags_exog := lags_exog self; model := model self;
     max_lag := max_lag self; _fit_called := _fit_called self;
     training_series := training_series self; exog_columns := Some v;
     nr_exog := nr_exog self; target_column := target_column self;
     prediction_data := prediction_data self |}.

Definition set_nr_exog (v : Z) (self : RegressionModel) : RegressionModel :=
  {| lags := lags self; lags_exog := lags_exog self; model := model self;
     max_lag := max_lag self; _fit_called := _fit_called self;
     training_series := training_series self; exog_columns := exog_columns self;
     nr_exog := Some v; target_column := target_column self;
     prediction_data := prediction_data self |}.

Definition set_target_column (v : string) (self : RegressionModel)
  : RegressionModel :=
  {| lags := lags self; lags_exog := lags_exog self; model := model self;
     max_lag := max_lag self; _fit_called := _fit_called self;
     training_series := training_series self; exog_columns := exog_columns self;
     nr_exog := nr_exog self; target_column := Some v;
     prediction_data := prediction_data self |}.

Definition set_prediction_data (v : seed) (self : RegressionModel)
  : RegressionModel :=
  {| lags := lags self; lags_exog := lags_exog self; model := model self;
     max_lag := max_lag self; _fit_called := _fit_called self;
     training_series := training_series self; exog_columns := exog_columns self;
     nr_exog := nr_exog self; target_column := target_column self;
     prediction_data := Some v |}.

(** *** Construction (lines 57 to 110) *)

(** [callable(getattr(model, name, None))]: [None] has neither method. *)
Definition callable_attr (method : E -> bool) (model_arg : option E) : bool :=
  match model_arg with
  | Some m => method m
  | None => false
  end.

Definition __init__ (lags_arg : option LagsArg) (lags_exog_arg : option LagsExogArg)
           (model_arg : option E) : result RegressionModel :=
  raise_if (is_none lags_arg && is_none lags_exog_arg)
    "At least one of 'lags' or 'lags_exog' must be not None." ;;;
  raise_if_not (match lags_arg with Some LagsOther => false | _ => true end)
    "`lags` must be of type int or list." ;;;
  raise_if_not (match lags_exog_arg with Some ExogOther => false | _ => true end)
    "`lags_exog` must be of type int, list or bool." ;;;
  raise_if (is_none lags_arg
            && match lags_exog_arg with Some (ExogBool true) => true | _ => false end)
    "`lags_exog` must not be True if `lags` is None." ;;;
  (if negb (callable_attr has_fit model_arg)
   then raise_log (PyException "Provided model object must have a fit() method")
   else Ok tt) ;;;
  (if negb (callable_attr has_predict model_arg)
   then raise_log (PyException "Provided model object must have a predict() method")
   else Ok tt) ;;;
  let model_v := match model_arg with
                 | None => LinearRegression (-1) false
                 | Some m => m
                 end in
  self_lags <-
    match lags_arg with
    | Some (LagsInt k) =>
        raise_if_not (0 <? k)
          ("`lags` must be strictly positive. Given: " +++ show_Z k +++ ".") ;;;
        Ok (Some (py_range 1 (k + 1)))
    | Some (LagsList l) =>
        for_each (fun lag =>
                    raise_if (lag <=? 0)
                      ("Every element of `lags` must be a strictly positive integer. Given: "
                       +++ show_list l +++ ".")) l ;;;
        Ok (Some l)
    | Some LagsOther => Raise TypeError
    | None => Ok None
    end ;;
  self_lags_exog <-
    match lags_exog_arg with
    | Some (ExogBool true) =>
        match self_lags with
        | Some l => Ok (Some l)
        | None => Raise TypeError
        end
    | Some (ExogBool false) => Ok (Some [0])
    | Some (ExogInt k) =>
        raise_if_not (0 <? k)
          ("`lags_exog` must be strictly positive. Given: " +++ show_Z k +++ ".") ;;;
        Ok (Some (py_range 1 (k + 1)))
    | Some (ExogList l) =>
        for_each (fun lag =>
                    raise_if (lag <? 0)
                      ("Every element of `lags_exog` must be a positive integer. Given: "
                       +++ show_list l +++ ".")) l ;;;
        Ok (Some l)
    | Some ExogOther => Raise TypeError
    | None => Ok None
    end ;;
  self_max_lag <-
    match self_lags, self_lags_exog with
    | Some l, None => py_max l
    | None, Some le => py_max le
    | Some l, Some le => a <- py_max l ;; b <- py_max le ;; py_max [a; b]
    | None, None => Raise TypeError
    end ;;
  Ok {| lags := self_lags; lags_exog := self_lags_exog; model := model_v;
        max_lag := self_max_lag; _fit_called := false;
        training_series := None; exog_columns := None; nr_exog := None;
        target_column := None; prediction_data := None |}.

(** *** The lag-feature builder (lines 157 to 217) *)

(** The loop of [_create_lagged_data]: one new column per lag, named after
    the variable and the lag, holding the variable shifted by the lag. *)
Fixpoint lag_columns (target_name : string) (lags : list Z) (lagged_series : DataFrame)
  : result DataFrame :=
  match lags with
  | [] => Ok lagged_series
  | lag :: r =>
      let new_column_name := target_name +++ "_lag" +++ show_Z lag in
      col <- df_getcol target_name lagged_series ;;
      lag_columns target_name r
                  (df_setcol new_column_name (shift lag col) lagged_series)
  end.

Definition _create_lagged_data (series : TimeSeries) (lags : list Z)
  : result DataFrame :=
  let lagged_series := pd_dataframe series in
  target_name <- item (df_columns lagged_series) 0 ;;
  lagged_series <- lag_columns target_name lags lagged_series ;;
  Ok (df_drop target_name (dropna lagged_series)).

(** The loop over the exogenous columns in [_create_training_data]. *)
Fixpoint exog_lagged_data (exog : TimeSeries) (lags : list Z) (cols : list string)
  : result (list DataFrame) :=
  match cols with
  | [] => Ok []
  | col :: r =>
      exog_col <- getitem_cols [col] exog ;;
      lagged_data <- _create_lagged_data exog_col lags ;;
      rest <- exog_lagged_data exog lags r ;;
      Ok (lagged_data :: rest)
  end.

Definition _create_training_data (self : RegressionModel) (series : TimeSeries)
           (exog : option TimeSeries) : result TimeSeries :=
  raise_if (1 <? width series)%nat
    "Series must not be multivariate. Pass exogenous variables to 'exog' parameter." ;;;
  target_part <-
    match lags self with
    | Some l => lagged_data <- _create_lagged_data series l ;; Ok [lagged_data]
    | None => Ok []
    end ;;
  exog_part <-
    match lags_exog self with
    | Some le => e <- attr exog ;; exog_lagged_data e le (columns e)
    | None => Ok []
    end ;;
  training_data <- pd_concat (target_part ++ exog_part) ;;
  Ok {| ts_df := dropna training_data; ts_freq := freq series |}.

(** *** Base-class hooks *)

(** Modelled from the spec: the base class's [fit] is not part of this
    file and its argument validation is outside the specification's scope.
    What the class relies on is that it records the training series, whose
    end and frequency [predict] reads (section 4.3). *)
Definition super_fit (series : TimeSeries) (exog : option TimeSeries)
  : stateful RegressionModel unit :=
  modify (set_training_series series).

(** Modelled from the spec: the base class's [predict] is not part of this
    file.  Section 3 of the specification has [predict] fail when no Fitted
    State exists, with the [NotFittedError] of section 7. *)
Definition super_predict (self : RegressionModel) (n : nat) (exog : option TimeSeries)
  : result unit :=
  if _fit_called self then Ok tt else Raise NotFittedError.

(** Modelled from the spec: [_build_forecast_series] belongs to the base
    class.  Section 4.3, step 3: the recorded values become a series that
    begins one step after the end of the training series, at the training
    frequency. *)
Definition _build_forecast_series (self : RegressionModel) (forecasts : list cell)
  : result TimeSeries :=
  ts <- attr (training_series self) ;;
  last <- end_time ts ;;
  Ok {| ts_df :=
          {| df_index := map (fun i => last + Z.of_nat i * freq ts)
                             (seq 1 (length forecasts));
             df_cols := [("0", forecasts)] |};
        ts_freq := freq ts |}.

(** *** Training (lines 122 to 155) *)

(** [self.model.fit(X, y, **kwargs)]: the estimator is mutated in place
    whether or not its training raises. *)
Definition call_fit (X : DataFrame) (y : list cell) (kwargs : Kw)
  : stateful RegressionModel unit :=
  fun self =>
    let (m, outcome) := est_fit (model self) X y kwargs in
    (set_model m self, outcome).

Local Open Scope stateful_scope.

Definition fit (series : TimeSeries) (exog : option TimeSeries) (kwargs : Kw)
  : stateful RegressionModel unit :=
  super_fit series exog ~>
  self <~ get ;;
  lift (raise_if (is_some exog && is_none (lags_exog self))
          "`exog` not None in `fit()` method call, but `lags_exog` is None in constructor. ") ~>
  lift (raise_if (is_none exog && is_some (lags_exog self))
          "`exog` is None in `fit()` method call, but `lags_exog` is not None in constructor. ") ~>
  modify (set_exog_columns (option_map columns exog)) ~>
  nr <~ lift (match exog with
              | Some e => le <- attr (lags_exog self) ;;
                          Ok (Z.of_nat (width e) * Z.of_nat (length le))
              | None => Ok 0
              end) ;;
  modify (set_nr_exog nr) ~>
  (* Rename column if necessary *)
  target_column_v <~ lift (item (columns series) 0) ;;
  self <~ get ;;
  let series :=
    if match exog_columns self with
       | Some (Some cols) => existsb (String.eqb target_column_v) cols
       | _ => false
       end
    then {| ts_df := df_rename [(LStr target_column_v, LStr "Target")]
                               default_rename_axis (pd_dataframe series);
            ts_freq := ts_freq series |}
    else series in
  tc <~ lift (item (columns series) 0) ;;
  modify (set_target_column tc) ~>
  (* Prepare data *)
  self <~ get ;;
  training_x <~ lift (_create_training_data self series exog) ;;
  let training_y := getitem_times (time_index training_x) series in
  (* Fit model *)
  call_fit (pd_dataframe training_x) (df_ravel (pd_dataframe training_y)) kwargs ~>
  self <~ get ;;
  (if max_lag self =? 0
   then e <~ lift (attr exog) ;;
        modify (set_prediction_data (AsFrame (df_empty (columns (stack series e)))))
   else match exog with
        | Some e =>
            modify (set_prediction_data
                      (AsSeries (getitem_from (- max_lag self) (stack series e))))
        | None =>
            modify (set_prediction_data
                      (AsSeries (getitem_from (- max_lag self) series)))
        end) ~>
  modify (set_fit_called true).

(** The seed window a returning [fit] has stored: the two branches of
    lines 148 to 153, as a function of the arguments. *)
Definition seed_of (max_lag_v : Z) (series : TimeSeries) (exog : option TimeSeries)
  : option seed :=
  if max_lag_v =? 0
  then option_map (fun e => AsFrame (df_empty (columns (stack series e)))) exog
  else Some (AsSeries (getitem_from (- max_lag_v)
                                    (match exog with
                                     | Some e => stack series e
                                     | None => series
                                     end))).

(** *** Prediction (lines 238 to 285) *)

(** [self.model.predict(X, **kwargs)], recorded in the trace of estimator
    invocations. *)
Definition call_predict (self : RegressionModel) (X : DataFrame) (kwargs : Kw)
  : stateful (list DataFrame) (list row_pred) :=
  fun calls => (calls ++ [X], est_predict (model self) X kwargs).

(** Line 274: [forecast[0] if isinstance(forecast[0], np.ndarray) else forecast]. *)
Definition unwrap_forecast (forecast : list row_pred) : result (list row_pred) :=
  (first <- item forecast 0 ;;
   match first with
   | RArray a => Ok (map RScalar a)
   | RScalar _ => Ok forecast
   end)%py.

(** [forecast[0]] where a number is needed. *)
Definition forecast0 (forecast : list row_pred) : result cell :=
  (first <- item forecast 0 ;;
   match first with
   | RScalar v => Ok v
   | RArray _ => Raise TypeError
   end)%py.

(** [forecast] used as one row of values. *)
Fixpoint forecast_row (forecast : list row_pred) : result (list cell) :=
  match forecast with
  | [] => Ok []
  | RScalar v :: r => (rest <- forecast_row r ;; Ok (v :: rest))%py
  | RArray _ :: _ => Raise (ValueError "setting an array element with a sequence")
  end.

(** [l[i] = v] *)
Definition setitem {A : Type} (l : list A) (i : nat) (v : A) : result (list A) :=
  if (i <? length l)%nat
  then Ok (firstn i l ++ v :: skipn (S i) l)
  else Raise IndexError.

(** What the loop carries from one step to the next: the rolling window
    (the local [prediction_data], unbound when [max_lag == 0] until a step
    binds it) and the list [forecasts]. *)
Definition loop_state : Type := (option TimeSeries * list cell)%type.

(** Lines 257 to 267: with exogenous lag 0 configured, put this step's
    exogenous values in the placeholder row. *)
Definition prepare_window (self : RegressionModel) (exog : option DataFrame)
           (i : nat) (prediction_data_v : option TimeSeries)
  : result (option TimeSeries) :=
  (if match lags_exog self with
      | Some le => existsb (Z.eqb 0) le
      | None => false
      end
   then
     e <- attr exog ;;
     values <- df_iloc e i ;;
     let append_row := [Some 0 :: values] in
     if max_lag self =? 0
     then
       sd <- attr (prediction_data self) ;;
       names <- match sd with
                | AsFrame df => Ok (df_columns df)
                | AsSeries _ => Raise TypeError
                end ;;
       t <- item (df_index e) i ;;
       df <- df_one_row (Some 0 :: values) names t ;;
       ts <- attr (training_series self) ;;
       Ok (Some {| ts_df := df; ts_freq := freq ts |})
     else
       w <- local prediction_data_v ;;
       w' <- append_values append_row (getitem_to (-1) w) ;;
       Ok (Some w')
   else Ok prediction_data_v)%py.

(** Lines 270 to 272: the single-row feature table of this step. *)
Definition forecasting_data (self : RegressionModel) (w : TimeSeries)
  : result DataFrame :=
  (tc <- attr (target_column self) ;;
   target_data <- getitem_cols [tc] w ;;
   ec <- attr (exog_columns self) ;;
   exog_data <- match ec with
                | Some cols => e <- getitem_cols cols w ;; Ok (Some e)
                | None => Ok None
                end ;;
   x <- _create_training_data self target_data exog_data ;;
   Ok (pd_dataframe x))%py.

(** Lines 276 to 281: replace the placeholder by the forecast row, append a
    fresh placeholder, drop the oldest row. *)
Definition advance_window (self : RegressionModel) (exog : option DataFrame)
           (dummy_row : option (list (list cell))) (i : nat)
           (forecast : list row_pred) (w : TimeSeries) : result TimeSeries :=
  (if 0 <? max_lag self
   then
     let w1 := getitem_to (-1) w in
     ec <- attr (exog_columns self) ;;
     append_row <- match ec with
                   | Some _ =>
                       f <- forecast0 forecast ;;
                       e <- attr exog ;;
                       values <- df_iloc e i ;;
                       Ok [f :: values]
                   | None =>
                       r <- forecast_row forecast ;; Ok [r]
                   end ;;
     w2 <- append_values append_row w1 ;;
     d <- local dummy_row ;;
     w3 <- append_values d w2 ;;
     Ok (getitem_from 1 w3)
   else Ok w)%py.

(** The body of the loop at step [i]. *)
Definition predict_step (self : RegressionModel) (exog : option DataFrame)
           (kwargs : Kw) (dummy_row : option (list (list cell)))
           (i : nat) (st : loop_state) : stateful (list DataFrame) loop_state :=
  let (prediction_data_v, forecasts) := st in
  w0 <~ lift (prepare_window self exog i prediction_data_v) ;;
  w <~ lift (local w0) ;;
  (* Make prediction *)
  X <~ lift (forecasting_data self w) ;;
  forecast <~ call_predict self X kwargs ;;
  forecast <~ lift (unwrap_forecast forecast) ;;
  (* Prepare prediction data *)
  w' <~ lift (advance_window self exog dummy_row i forecast w) ;;
  (* Append forecast *)
  f <~ lift (forecast0 forecast) ;;
  forecasts' <~ lift (setitem forecasts i f) ;;
  sret (Some w', forecasts').

(** Lines 240 to 243: the seed window plus one placeholder row of zeros. *)
Definition initial_window (self : RegressionModel)
  : result (option TimeSeries * option (list (list cell))) :=
  (if negb (max_lag self =? 0)
   then
     sd <- attr (prediction_data self) ;;
     w <- match sd with
          | AsSeries ts => Ok ts
          | AsFrame _ => Raise AttributeError
          end ;;
     let dummy_row := [repeat (Some 0) (width w)] in
     w' <- append_values dummy_row w ;;
     Ok (Some w', Some dummy_row)
   else Ok (None, None))%py.

(** Lines 245 to 250: an exogenous series must start one step after the
    end of the training series. *)
Definition check_exog_start (self : RegressionModel) (exog : option TimeSeries)
  : result unit :=
  match exog with
  | Some e =>
      (ts <- attr (training_series self) ;;
       last <- end_time ts ;;
       let required_start := last + freq ts in
       given <- start_time e ;;
       raise_if_not (given =? required_start)
         ("`exog` first date must be equal to self.training_series.end_time()+1*freq. "
          +++ ("Given: " +++ show_Z given +++ ". Needed: "
               +++ show_Z required_start +++ ".")))%py
  | None => Ok tt
  end.

Definition predict (self : RegressionModel) (n : nat) (exog : option TimeSeries)
           (kwargs : Kw) : stateful (list DataFrame) TimeSeries :=
  lift (super_predict self n exog) ~>
  init <~ lift (initial_window self) ;;
  lift (check_exog_start self exog) ~>
  let exog_df := option_map pd_dataframe exog in
  let forecasts := map (fun i => Some (Z.of_nat i)) (seq 0 n) in
  final <~ for_loop (predict_step self exog_df kwargs (snd init))
                    (seq 0 n) (fst init, forecasts) ;;
  lift (_build_forecast_series self (snd final)).

(** *** Well-formed configurations and inputs *)

(** The lags a model uses: those of the target, then those of the
    exogenous variables. *)
Definition lags_used (self : RegressionModel) : list Z :=
  match lags self with Some l => l | None => [] end
  ++ match lags_exog self with Some le => le | None => [] end.

(** What the constructor establishes about the configuration: target lags
    strictly positive, exogenous lags non-negative, neither list empty,
    not both absent, and [max_lag] the largest lag of all. *)
Definition configured (self : RegressionModel) : Prop :=
  (forall l, lags self = Some l -> l <> [] /\ Forall (fun x => 0 < x) l)
  /\ (forall le, lags_exog self = Some le -> le <> [] /\ Forall (fun x => 0 <= x) le)
  /\ (lags self <> None \/ lags_exog self <> None)
  /\ max_lag self = Z.of_nat (lag_depth (lags_used self)).

End RegressionModel.

Arguments RegressionModel E : clear implicits.

(** ** Estimators used in the examples

    A stand-in regressor that predicts, for each feature row, the sum of
    the row.  Its training records the number of training rows; like
    regressors for counts it refuses a negative or missing label, and like
    any tabular regressor an empty training table.  It can answer one
    scalar per row or one length-1 array per row. *)

Module Doubles.

Inductive double : Type :=
| SumModel (per_row_array : bool) (trained_rows : nat)
| Sklearn (n_jobs : Z) (fit_intercept : bool)
| Plain.

Definition sum_cells (l : list cell) : cell :=
  fold_left (fun acc c => match acc, c with
                          | Some a, Some b => Some (a + b)
                          | _, _ => None
                          end) l (Some 0).

Definition double_fit (m : double) (X : DataFrame) (y : list cell) (kwargs : unit)
  : double * result unit :=
  match m with
  | SumModel a t =>
      if (df_len X =? 0)%nat
      then (m, Raise (EstimatorError "Found array with 0 sample(s)"))
      else if forallb (fun label => match label with
                                    | Some v => 0 <=? v
                                    | None => false
                                    end) y
           then (SumModel a (df_len X), Ok tt)
           else (m, Raise (EstimatorError "Some value(s) of y are negative"))
  | Sklearn _ _ => (m, Raise (EstimatorError "least squares is not modelled"))
  | Plain => (m, Raise AttributeError)
  end.

Definition double_predict (m : double) (X : DataFrame) (kwargs : unit)
  : result (list row_pred) :=
  match m with
  | SumModel a _ =>
      Ok (map (fun i => let v := sum_cells (df_row X i) in
                        if a then RArray [v] else RScalar v)
              (seq 0 (df_len X)))
  | Sklearn _ _ => Raise (EstimatorError "least squares is not modelled")
  | Plain => Raise AttributeError
  end.

#[export] Instance double_estimator : Estimator double unit := {
  has_fit m := match m with Plain => false | _ => true end;
  has_predict m := match m with Plain => false | _ => true end;
  est_fit := double_fit;
  est_predict := double_predict;
  LinearRegression := Sklearn
}.

(** A one-column series named [name] at unit frequency from [start]. *)
Definition series_of (name : string) (start : Z) (values : list Z) : TimeSeries :=
  {| ts_df := {| df_index := map (fun i => start + Z.of_nat i)
                                 (seq 0 (length values));
                 df_cols := [(name, map Some values)] |};
     ts_freq := 1 |}.

(** The scenario of the specification: the integers 0..9 on days 1..10. *)
Definition ten_days : TimeSeries := series_of "y" 1 [0; 1; 2; 3; 4; 5; 6; 7; 8; 9].

Definition ten_days_exog (name : string) : TimeSeries :=
  series_of name 1 [10; 11; 12; 13; 14; 15; 16; 17; 18; 19].

(** The object the constructor returns for [lags=[1, 2]],
    [lags_exog=False] and a sum regressor. *)
Definition ar2_exog0 : RegressionModel double :=
  {| lags := Some [1; 2]; lags_exog := Some [0]; model := SumModel false 0;
     max_lag := 2; _fit_called := false; training_series := None;
     exog_columns := None; nr_exog := None; target_column := None;
     prediction_data := None |}.

(** The object the constructor returns for [lags=[1, 2]] alone. *)
Definition ar2 (per_row_array : bool) : RegressionModel double :=
  {| lags := Some [1; 2]; lags_exog := None; model := SumModel per_row_array 0;
     max_lag := 2; _fit_called := false; training_series := None;
     exog_columns := None; nr_exog := None; target_column := None;
     prediction_data := None |}.

(** The object the constructor returns for [lags=1], [lags_exog=2]. *)
Definition ar1_exog12 : RegressionModel double :=
  {| lags := Some [1]; lags_exog := Some [1; 2]; model := SumModel false 0;
     max_lag := 2; _fit_called := false; training_series := None;
     exog_columns := None; nr_exog := None; target_column := None;
     prediction_data := None |}.

(** Construct, then fit: the object as [fit] leaves it, when both succeed. *)
Definition fitted (lags_arg : option LagsArg) (lags_exog_arg : option LagsExogArg)
           (m : double) (series : TimeSeries) (exog : option TimeSeries)
  : option (RegressionModel double) :=
  match __init__ lags_arg lags_exog_arg (Some m) with
  | Ok self =>
      match fit series exog tt self with
      | (self', Ok _) => Some self'
      | (_, Raise _) => None
      end
  | Raise _ => None
  end.

End Doubles.

Import Doubles.

(** ** Closed forms

    The definitions of this section are not translations of the source.
    They say directly, without frames being shifted, concatenated and
    cleared of NaN, what the lag-feature builder is proved to compute. *)

(** Row [i] of a column holds a number. *)
Definition defined_at (col : list (option Z)) (i : nat) : bool :=
  match nth_error col i with
  | Some v => notna v
  | None => false
  end.

(** The lags of [lags] that are not in [seen], each once, in the order of
    their first occurrence. *)
Fixpoint fresh_lags (seen lags : list Z) : list Z :=
  match lags with
  | [] => []
  | lag :: r =>
      if existsb (Z.eqb lag) seen
      then fresh_lags seen r
      else lag :: fresh_lags (seen ++ [lag]) r
  end.

Definition distinct_lags (lags : list Z) : list Z := fresh_lags [] lags.

(** The rows [_create_lagged_data] keeps: the variable and every shifted copy
    hold a number there. *)
Definition kept_rows (values : list (option Z)) (lags : list Z) (n : nat) : list nat :=
  filter (fun i => defined_at values i
                   && forallb (fun lag => defined_at (shift lag values) i) lags)
         (seq 0 n).

(** The lag columns of one variable, each read from row [M] on: one
    column per distinct lag, named after the variable and the lag. *)
Definition lag_features (M : nat) (lags : list Z) (c : string * list (option Z))
  : list (string * list (option Z)) :=
  map (fun lag => (lag_name (fst c) lag, skipn M (shift lag (snd c))))
      (distinct_lags lags).

(** The feature table written directly: the rows of the target from row
    [M] on; the lag columns of the target, then those of every exogenous
    column in the order of the series. *)
Definition expected_features (M : nat) (target_lags exog_lags : option (list Z))
           (series : TimeSeries) (exog : option TimeSeries) : TimeSeries :=
  {| ts_df :=
       {| df_index := skipn M (time_index series);
          df_cols :=
            match target_lags with
            | Some l => flat_map (lag_features M l) (df_cols (ts_df series))
            | None => []
            end
            ++ match exog_lags, exog with
               | Some le, Some e => flat_map (lag_features M le) (df_cols (ts_df e))
               | _, _ => []
               end |};
     ts_freq := freq series |}.

(** *** The steps of [predict] *)

(** Row [p] of a frame, as a frame of one row (of no row when the frame
    has no row [p]). *)
Definition row_at (df : DataFrame) (p : nat) : DataFrame :=
  {| df_index := firstn 1 (skipn p (df_index df));
     df_cols := map (fun c => (fst c, firstn 1 (skipn p (snd c)))) (df_cols df) |}.

(** A series continued by further rows: the timestamps [times] after its
    own and, column by column, the cells [more] after its own. *)
Definition continued (ts : TimeSeries) (times : list Z) (more : list (list (option Z)))
  : TimeSeries :=
  {| ts_df :=
       {| df_index := time_index ts ++ times;
          df_cols := map (fun cm => (fst (fst cm), snd (fst cm) ++ snd cm))
                         (combine (df_cols (ts_df ts)) more) |};
     ts_freq := ts_freq ts |}.

(** The last [k] rows of a table given by its columns [Hc] and its index
    [Hi], as a series of frequency [fr]. *)
Definition last_rows_of (fr : Z) (k : nat) (Hc : list (string * list (option Z)))
           (Hi : list Z) : TimeSeries :=
  {| ts_df := {| df_index := skipn (length Hi - k) Hi;
                 df_cols := map (fun c => (fst c, skipn (length (snd c) - k) (snd c)))
                                Hc |};
     ts_freq := fr |}.

(** The columns [Hc] with one more row. *)
Definition add_row (Hc : list (string * list (option Z))) (row : list (option Z))
  : list (string * list (option Z)) :=
  map (fun cx => (fst (fst cx), snd (fst cx) ++ [snd cx])) (combine Hc row).

(** The timestamps of [n] forecasts after [last] at frequency [fr]. *)
Definition forecast_times (last fr : Z) (n : nat) : list Z :=
  map (fun k => last + Z.of_nat k * fr) (seq 1 n).

(** The first [n] values of each column of the series given to
    [predict]. *)
Definition future_rows (n : nat) (exog' : option TimeSeries) : list (list (option Z)) :=
  match exog' with
  | Some e' => map (fun c => firstn n (snd c)) (df_cols (ts_df e'))
  | None => []
  end.

(** The row of [expected_features] for forecast step [i], when the
    target is continued by the values [fs] and the exogenous series by the
    rows given to [predict]. *)
Definition step_table (M : nat) (target_lags exog_lags : option (list Z))
           (series : TimeSeries) (exog exog' : option TimeSeries) (last : Z)
           (n : nat) (fs : list (option Z)) (i : nat) : DataFrame :=
  let times := forecast_times last (freq series) n in
  row_at (pd_dataframe
            (expected_features M target_lags exog_lags
               (continued series times [fs])
               (option_map (fun e => continued e times (future_rows n exog')) exog)))
         (ts_len series + i - M).

(** Row [i] of the frame [e'] as a feature table: its timestamp, and for
    each name of [names] a column [<name>_lag0] holding the value of the
    column of [e'] at the same position. *)
Definition exog_row_table (names : list string) (e' : DataFrame) (i : nat) : DataFrame :=
  {| df_index := firstn 1 (skipn i (df_index e'));
     df_cols := map (fun p => (lag_name (fst p) 0, [snd p]))
                    (combine names (df_row e' i)) |}.

(** ** An estimator that validates its input

    A sum regressor that, like estimators checking the range of their
    input, refuses at prediction a table holding a missing value or a
    value above [limit].  Its training accepts anything. *)

Module Validating.

Inductive limited : Type :=
| Limited (limit : Z).

Definition limited_predict (m : limited) (X : DataFrame) (kwargs : unit)
  : result (list row_pred) :=
  match m with
  | Limited limit =>
      if forallb (fun c => forallb (fun v => match v with
                                             | Some z => z <=? limit
                                             | None => false
                                             end) (snd c)) (df_cols X)
      then Ok (map (fun i => RScalar (sum_cells (df_row X i))) (seq 0 (df_len X)))
      else Raise (EstimatorError "Input contains a value too large")
  end.

#[export] Instance limited_estimator : Estimator limited unit := {
  has_fit _ := true;
  has_predict _ := true;
  est_fit m _ _ _ := (m, Ok tt);
  est_predict := limited_predict;
  LinearRegression _ _ := Limited 0
}.

(** The object the constructor returns for [lags=[1, 2]] and a
    validating regressor. *)
Definition ar2_limited (limit : Z) : RegressionModel limited :=
  {| lags := Some [1; 2]; lags_exog := None; model := Limited limit;
     max_lag := 2; _fit_called := false; training_series := None;
     exog_columns := None; nr_exog := None; target_column := None;
     prediction_data := None |}.

End Validating.

Import Validating.

(** The object the constructor returns for [lags_exog=[0]] alone. *)
Definition lag0_only : RegressionModel double :=
  {| lags := None; lags_exog := Some [0]; model := SumModel false 0;
     max_lag := 0; _fit_called := false; training_series := None;
     exog_columns := None; nr_exog := None; target_column := None;
     prediction_data := None |}.

(** ** An estimator that ignores its input

    A regressor whose training accepts any table, an empty one included,
    and whose prediction is one fixed number whatever table it is given. *)

Module Fixed.

Inductive fixed : Type :=
| Fixed (value : Z).

Definition fixed_predict (m : fixed) (X : DataFrame) (kwargs : unit)
  : result (list row_pred) :=
  match m with
  | Fixed value => Ok [RScalar (Some value)]
  end.

#[export] Instance fixed_estimator : Estimator fixed unit := {
  has_fit _ := true;
  has_predict _ := true;
  est_fit m _ _ _ := (m, Ok tt);
  est_predict := fixed_predict;
  LinearRegression _ _ := Fixed 0
}.

(** The object the constructor returns for [lags=[1, 2]] and such a
    regressor. *)
Definition ar2_fixed (value : Z) : RegressionModel fixed :=
  {| lags := Some [1; 2]; lags_exog := None; model := Fixed value;
     max_lag := 2; _fit_called := false; training_series := None;
     exog_columns := None; nr_exog := None; target_column := None;
     prediction_data := None |}.

End Fixed.

Import Fixed.

(** * Properties *)

(** ** Generic facts about the two monads *)

Lemma bind_ok {A B : Type} (r : result A) (k : A -> result B) (b : B) :
  bind r k = Ok b -> exists a, r = Ok a /\ k a = Ok b.
Proof.
  destruct r as [a|e]; simpl; intros Hk; [exists a; auto | discriminate].
Qed.

Lemma sbind_ok {S A B : Type} (m : stateful S A) (k : A -> stateful S B)
      (s s' : S) (b : B) :
  sbind m k s = (s', Ok b) ->
  exists a s1, m s = (s1, Ok a) /\ k a s1 = (s', Ok b).
Proof.
  unfold sbind. destruct (m s) as [s1 [a|e]]; intros Hk.
  - exists a, s1; auto.
  - discriminate.
Qed.

Lemma sbind_raise {S A B : Type} (m : stateful S A) (k : A -> stateful S B)
      (s s' : S) (e : exn) :
  sbind m k s = (s', Raise e) ->
  m s = (s', Raise e)
  \/ exists a s1, m s = (s1, Ok a) /\ k a s1 = (s', Raise e).
Proof.
  unfold sbind. destruct (m s) as [s1 [a|e1]]; intros Hk.
  - right. exists a, s1; auto.
  - left. inversion Hk. reflexivity.
Qed.

Lemma lift_inv {S A : Type} (r : result A) (s s' : S) (o : result A) :
  @lift S A r s = (s', o) -> s' = s /\ o = r.
Proof. unfold lift. intros Heq. inversion Heq. auto. Qed.

Lemma raise_if_ok (c : bool) (msg : string) (u : unit) :
  raise_if c msg = Ok u -> c = false.
Proof. destruct c; simpl; [discriminate | reflexivity]. Qed.

(** ** Construction *)

Lemma py_range_from_one (k : Z) :
  py_range 1 (k + 1) = map Z.of_nat (seq 1 (Z.to_nat k)).
Proof.
  unfold py_range. replace (k + 1 - 1) with k by lia.
  rewrite <- seq_shift, map_map. apply map_ext. intros i. lia.
Qed.

Lemma py_range_from_one_cons (k : Z) :
  0 < k -> exists r, py_range 1 (k + 1) = 1 :: r.
Proof.
  intros Hk. rewrite py_range_from_one.
  destruct (Z.to_nat k) as [|n] eqn:Hn; [lia|].
  simpl. eexists. reflexivity.
Qed.

Lemma py_max_cons (x : Z) (r : list Z) : exists v, py_max (x :: r) = Ok v.
Proof. simpl. eexists. reflexivity. Qed.

Section Construction.

Context {E Kw : Type} `{Estimator E Kw}.

(** The constructor's result, when it returns, holds the lag lists the
    arguments describe. *)
Lemma init_lags_int (k : Z) lx (ma : option E) self :
  __init__ (Some (LagsInt k)) lx ma = Ok self ->
  0 < k /\ lags self = Some (py_range 1 (k + 1)).
Proof.
  unfold __init__. intros Hinit.
  do 6 (apply bind_ok in Hinit; destruct Hinit as [? [_ Hinit]]).
  apply bind_ok in Hinit. destruct Hinit as [sl [Hsl Hinit]].
  apply bind_ok in Hsl. destruct Hsl as [u [Hpos Hsl]].
  apply raise_if_ok in Hpos. injection Hsl as <-.
  apply bind_ok in Hinit. destruct Hinit as [sle [_ Hinit]].
  apply bind_ok in Hinit. destruct Hinit as [ml [_ Hinit]].
  injection Hinit as <-. simpl. split; [|reflexivity].
  apply negb_false_iff, Z.ltb_lt in Hpos. exact Hpos.
Qed.

Lemma init_exog_true la (ma : option E) self :
  __init__ la (Some (ExogBool true)) ma = Ok self ->
  lags_exog self = lags self /\ lags self <> None.
Proof.
  unfold __init__. intros Hinit.
  do 6 (apply bind_ok in Hinit; destruct Hinit as [? [_ Hinit]]).
  apply bind_ok in Hinit. destruct Hinit as [sl [_ Hinit]].
  apply bind_ok in Hinit. destruct Hinit as [sle [Hsle Hinit]].
  apply bind_ok in Hinit. destruct Hinit as [ml [_ Hinit]].
  injection Hinit as <-. simpl.
  destruct sl as [l|]; [|discriminate].
  injection Hsle as <-. split; [reflexivity | discriminate].
Qed.

Lemma init_exog_false la (ma : option E) self :
  __init__ la (Some (ExogBool false)) ma = Ok self ->
  lags_exog self = Some [0].
Proof.
  unfold __init__. intros Hinit.
  do 6 (apply bind_ok in Hinit; destruct Hinit as [? [_ Hinit]]).
  apply bind_ok in Hinit. destruct Hinit as [sl [_ Hinit]].
  apply bind_ok in Hinit. destruct Hinit as [sle [Hsle Hinit]].
  apply bind_ok in Hinit. destruct Hinit as [ml [_ Hinit]].
  injection Hinit as <-. simpl. injection Hsle as <-. reflexivity.
Qed.

Lemma init_lags_int_returns (k : Z) (lx : option bool) (m : E) :
  0 < k -> has_fit m = true -> has_predict m = true ->
  exists self,
    __init__ (Some (LagsInt k)) (option_map ExogBool lx) (Some m) = Ok self.
Proof.
  intros Hk Hf Hp. unfold __init__.
  destruct (py_range_from_one_cons k Hk) as [r Hr].
  assert (Hpos : (0 <? k) = true) by (apply Z.ltb_lt; exact Hk).
  destruct lx as [[|]|]; simpl; rewrite Hf, Hp; simpl;
    unfold raise_if_not; rewrite Hpos; simpl; rewrite Hr; simpl;
    eexists; reflexivity.
Qed.

End Construction.

(** C10.  For every positive integer [k], constructing with [lags=k]
    yields the target lag list [1, ..., k]; constructing with
    [lags_exog=True] yields an exogenous lag list equal to the target lag
    list; constructing with [lags_exog=False] yields the exogenous lag list
    [[0]].  For an estimator object that has both methods the three
    constructions return, and whenever a construction with these arguments
    returns, the lag lists are these. *)
Theorem constructor_lag_sets {E Kw : Type} `{Estimator E Kw} (k : Z) (m : E) :
  0 < k -> has_fit m = true -> has_predict m = true ->
  (exists self,
      __init__ (Some (LagsInt k)) None (Some m) = Ok self
      /\ lags self = Some (map Z.of_nat (seq 1 (Z.to_nat k))))
  /\ (exists self,
         __init__ (Some (LagsInt k)) (Some (ExogBool true)) (Some m) = Ok self
         /\ lags self = Some (map Z.of_nat (seq 1 (Z.to_nat k)))
         /\ lags_exog self = lags self)
  /\ (exists self,
         __init__ (Some (LagsInt k)) (Some (ExogBool false)) (Some m) = Ok self
         /\ lags self = Some (map Z.of_nat (seq 1 (Z.to_nat k)))
         /\ lags_exog self = Some [0])
  /\ (forall lx ma self,
         __init__ (Some (LagsInt k)) lx ma = Ok self ->
         lags self = Some (map Z.of_nat (seq 1 (Z.to_nat k))))
  /\ (forall la ma self,
         __init__ la (Some (ExogBool true)) ma = Ok self ->
         lags_exog self = lags self)
  /\ (forall la ma self,
         __init__ la (Some (ExogBool false)) ma = Ok self ->
         lags_exog self = Some [0]).
Proof.
  intros Hk Hf Hp.
  assert (Hint : forall lx ma self,
             __init__ (Some (LagsInt k)) lx ma = Ok self ->
             lags self = Some (map Z.of_nat (seq 1 (Z.to_nat k)))).
  { intros lx ma self Hinit. apply init_lags_int in Hinit.
    destruct Hinit as [_ ->]. rewrite py_range_from_one. reflexivity. }
  repeat split.
  - destruct (init_lags_int_returns k None m Hk Hf Hp) as [self Hself].
    exists self. split; [exact Hself | exact (Hint _ _ _ Hself)].
  - destruct (init_lags_int_returns k (Some true) m Hk Hf Hp) as [self Hself].
    exists self. repeat split;
      [exact Hself | exact (Hint _ _ _ Hself) | exact (proj1 (init_exog_true _ _ _ Hself))].
  - destruct (init_lags_int_returns k (Some false) m Hk Hf Hp) as [self Hself].
    exists self. repeat split;
      [exact Hself | exact (Hint _ _ _ Hself) | exact (init_exog_false _ _ _ Hself)].
  - exact Hint.
  - intros la ma self Hinit. exact (proj1 (init_exog_true _ _ _ Hinit)).
  - intros la ma self Hinit. exact (init_exog_false _ _ _ Hinit).
Qed.

Lemma constructor_lag_sets_witness :
  exists self,
    __init__ (Some (LagsInt 3)) (Some (ExogBool true))
             (Some (Doubles.SumModel false 0)) = Ok self
    /\ lags self = Some [1; 2; 3]
    /\ lags_exog self = lags self.
Proof.
  assert (Hpos : 0 < 3) by lia.
  exact (proj1 (proj2 (constructor_lag_sets 3 (Doubles.SumModel false 0)
                                            Hpos eq_refl eq_refl))).
Defined.

(** C3.  Constructing without an estimator ([model=None]) never returns:
    for every choice of the lag arguments the constructor raises.  With
    valid lag arguments the exception is the one of the [fit()]-method
    check of line 71, which [None] fails before line 75 can install the
    default regressor. *)
Theorem init_without_model_raises {E Kw : Type} `{Estimator E Kw} :
  (forall la lx, exists e, __init__ la lx (@None E) = Raise e)
  /\ __init__ (Some (LagsInt 1)) None (@None E)
     = Raise (PyException "Provided model object must have a fit() method")
  /\ __init__ (Some (LagsList [1; 2])) (Some (ExogBool false)) (@None E)
     = Raise (PyException "Provided model object must have a fit() method").
Proof.
  split; [|split; reflexivity].
  intros la lx. unfold __init__.
  destruct (raise_if (is_none la && is_none lx) _) as [u1|e1]; simpl;
    [|eexists; reflexivity].
  destruct (raise_if_not _ _) as [u2|e2]; simpl; [|eexists; reflexivity].
  destruct (raise_if_not _ _) as [u3|e3]; simpl; [|eexists; reflexivity].
  destruct (raise_if _ _) as [u4|e4]; simpl; eexists; reflexivity.
Qed.

(** ** Inverting the steps of a method *)

Lemma modify_inv {S : Type} (f : S -> S) (s s' : S) (o : result unit) :
  modify f s = (s', o) -> s' = f s /\ o = Ok tt.
Proof. unfold modify. intros Heq. inversion Heq. auto. Qed.

Lemma get_inv {S : Type} (s s' : S) (o : result S) :
  get s = (s', o) -> s' = s /\ o = Ok s.
Proof. unfold get. intros Heq. inversion Heq. auto. Qed.

(** Split the first step off a successful run of [sbind]. *)
Ltac sstep H a s Ha :=
  apply sbind_ok in H; destruct H as (a & s & Ha & H).

(** A first step that is [lift], [modify] or [get]. *)
Ltac sstep_lift H a Ha :=
  let s := fresh "s" in
  let Hs := fresh "Hs" in
  sstep H a s Ha; apply lift_inv in Ha; destruct Ha as [Hs Ha]; subst s;
  symmetry in Ha.

Ltac sstep_modify H :=
  let a := fresh "u" in
  let s := fresh "s" in
  let Ha := fresh "Hm" in
  let Hs := fresh "Hs" in
  sstep H a s Ha; apply modify_inv in Ha; destruct Ha as [Hs _]; subst s.

Ltac sstep_get H a :=
  let s := fresh "s" in
  let Ha := fresh "Hg" in
  let Hs := fresh "Hs" in
  let Ho := fresh "Ho" in
  sstep H a s Ha; apply get_inv in Ha; destruct Ha as [Hs Ho]; subst s;
  injection Ho as Ho; subst a.

(** ** Renaming *)

(** A mapper keyed by a column label leaves the index, and so the frame,
    as it is when applied to the index axis. *)
Lemma df_rename_index_noop (old new : string) (df : DataFrame) :
  df_rename [(LStr old, LStr new)] AxisIndex df = df.
Proof.
  destruct df as [idx cols]. unfold df_rename. simpl. f_equal.
  rewrite <- (map_id idx) at 2. apply map_ext. intros t. reflexivity.
Qed.

Lemma fit_rename_noop (old : string) (series : TimeSeries) :
  {| ts_df := df_rename [(LStr old, LStr "Target")] default_rename_axis
                        (pd_dataframe series);
     ts_freq := ts_freq series |} = series.
Proof.
  unfold default_rename_axis, pd_dataframe. rewrite df_rename_index_noop.
  destruct series; reflexivity.
Qed.

Section FitFacts.

Context {E Kw : Type} `{Estimator E Kw}.

(** What a returning [fit] leaves in the object. *)
Lemma fit_ok series exog (kwargs : Kw) (self self' : RegressionModel E) :
  fit series exog kwargs self = (self', Ok tt) ->
  _fit_called self' = true
  /\ training_series self' = Some series
  /\ lags self' = lags self
  /\ lags_exog self' = lags_exog self
  /\ max_lag self' = max_lag self
  /\ is_some exog = is_some (lags_exog self)
  /\ exog_columns self' = Some (option_map columns exog)
  /\ (exists tc, item (columns series) 0 = Ok tc /\ target_column self' = Some tc)
  /\ prediction_data self' = seed_of (max_lag self) series exog.
Proof.
  unfold fit, super_fit. intros Hfit.
  sstep_modify Hfit.
  sstep_get Hfit self1.
  sstep_lift Hfit r1 Hc1. apply raise_if_ok in Hc1.
  sstep_lift Hfit r2 Hc2. apply raise_if_ok in Hc2.
  sstep_modify Hfit.
  sstep_lift Hfit nr Hnr.
  sstep_modify Hfit.
  sstep_lift Hfit tcv Htcv.
  sstep_get Hfit self2.
  rewrite fit_rename_noop in Hfit.
  match type of Hfit with
  | context [if ?c then series else series] =>
      replace (if c then series else series) with series in Hfit
        by (destruct c; reflexivity)
  end.
  sstep_lift Hfit tc Htc.
  sstep_modify Hfit.
  sstep_get Hfit self3.
  sstep_lift Hfit training_x Htx.
  sstep Hfit r3 self4 Hcall.
  unfold call_fit in Hcall.
  destruct (est_fit _ _ _ _) as [m outcome] eqn:Hest.
  injection Hcall as <- ->.
  sstep_get Hfit self5.
  sstep Hfit r4 self6 Hseed.
  apply modify_inv in Hfit. destruct Hfit as [-> _].
  simpl in Hseed.
  assert (Hpres : is_some exog = is_some (lags_exog self)).
  { simpl in Hc1, Hc2. unfold is_some in *.
    destruct exog, (lags_exog self); simpl in *; congruence. }
  assert (Hsd : prediction_data self6 = seed_of (max_lag self) series exog
                /\ _fit_called self6 = _fit_called self
                /\ training_series self6 = Some series
                /\ lags self6 = lags self /\ lags_exog self6 = lags_exog self
                /\ max_lag self6 = max_lag self
                /\ exog_columns self6 = Some (option_map columns exog)
                /\ target_column self6 = Some tc).
  { unfold seed_of. destruct (max_lag self =? 0) eqn:Hml.
    - sstep_lift Hseed e He. destruct exog as [e0|]; [|discriminate].
      injection He as <-.
      apply modify_inv in Hseed. destruct Hseed as [-> _]. simpl. tauto.
    - destruct exog as [e0|];
        apply modify_inv in Hseed; destruct Hseed as [-> _]; simpl; tauto. }
  destruct Hsd as (Hs1 & Hs2 & Hs3 & Hs4 & Hs5 & Hs6 & Hs7 & Hs8).
  simpl. repeat split; auto.
  exists tc. split; [congruence | assumption].
Qed.

End FitFacts.

(** ** Substrings *)

Lemma append_assoc (a b c : string) : (a +++ b) +++ c = a +++ (b +++ c).
Proof. induction a as [|ch a IH]; simpl; [reflexivity | rewrite IH; reflexivity]. Qed.

Lemma mentions_prefix (sub post : string) : mentions (sub +++ post) sub.
Proof. exists ""%string, post. reflexivity. Qed.

Lemma mentions_right (p s sub : string) : mentions s sub -> mentions (p +++ s) sub.
Proof.
  intros [pre [post ->]]. exists (p +++ pre), post.
  rewrite append_assoc. reflexivity.
Qed.

(** ** Before the loop of [predict] *)

Lemma sbind_lift_ok {S A B : Type} (a : A) (k : A -> stateful S B) (s : S) :
  sbind (lift (Ok a)) k s = k a s.
Proof. reflexivity. Qed.

Lemma sbind_lift_raise {S A B : Type} (e : exn) (k : A -> stateful S B) (s : S) :
  sbind (@lift S A (Raise e)) k s = (s, Raise e).
Proof. reflexivity. Qed.

Lemma item_ok_nonempty {A : Type} (l : list A) (i : nat) (x : A) :
  item l i = Ok x -> l <> [].
Proof. destruct l; [destruct i; discriminate | discriminate]. Qed.

Lemma end_time_defined (ts : TimeSeries) :
  time_index ts <> [] -> exists t, end_time ts = Ok t.
Proof.
  unfold end_time, ts_len, df_len, time_index, item. intros Hne.
  destruct (nth_error (df_index (ts_df ts)) (pred (length (df_index (ts_df ts)))))
    as [t|] eqn:Hnth.
  - exists t; reflexivity.
  - apply nth_error_None in Hnth.
    destruct (df_index (ts_df ts)); [congruence | simpl in Hnth; lia].
Qed.

Lemma slice_from_neg_length {A : Type} (m : Z) (l : list A) :
  0 < m -> length (slice_from (- m) l) = Nat.min (Z.to_nat m) (length l).
Proof.
  intros Hm. unfold slice_from.
  destruct (- m <? 0) eqn:Hneg; [|apply Z.ltb_ge in Hneg; lia].
  rewrite length_skipn. lia.
Qed.

Lemma slice_from_neg_nonempty {A : Type} (m : Z) (l : list A) :
  0 < m -> l <> [] -> slice_from (- m) l <> [].
Proof.
  intros Hm Hl Hnil. apply (f_equal (@length A)) in Hnil.
  rewrite slice_from_neg_length in Hnil by exact Hm.
  destruct l; [congruence | simpl in Hnil; lia].
Qed.

Section BeforeTheLoop.

Context {E Kw : Type} `{Estimator E Kw}.

Lemma seed_index (ml : Z) series exog w :
  seed_of ml series exog = Some (AsSeries w) ->
  (ml =? 0) = false
  /\ time_index w = slice_from (- ml) (time_index series).
Proof.
  unfold seed_of. destruct (ml =? 0).
  - destruct exog; discriminate.
  - intros Hw. injection Hw as <-. split; [reflexivity|].
    destruct exog; reflexivity.
Qed.

(** For a model that a returning [fit] has left, on a series that is not
    empty, the statements before the alignment check do not raise. *)
Lemma initial_window_defined series exog (kwargs : Kw) (self0 self : RegressionModel E) :
  0 <= max_lag self0 ->
  time_index series <> [] ->
  fit series exog kwargs self0 = (self, Ok tt) ->
  exists init, initial_window self = Ok init
               /\ (max_lag self = 0 -> init = (None, None)).
Proof.
  intros Hml Hne Hfit. apply fit_ok in Hfit.
  destruct Hfit as (_ & _ & _ & _ & Hmax & _ & _ & _ & Hseed).
  unfold initial_window. rewrite Hmax, Hseed.
  destruct (max_lag self0 =? 0) eqn:Hz; simpl.
  - eexists; split; [reflexivity | reflexivity].
  - apply Z.eqb_neq in Hz.
    unfold seed_of. apply Z.eqb_neq in Hz. rewrite Hz. simpl.
    apply Z.eqb_neq in Hz.
    set (w := getitem_from _ _).
    assert (Hidx : time_index w <> []).
    { subst w. unfold getitem_from, time_index at 1. simpl.
      apply slice_from_neg_nonempty; [lia|].
      destruct exog; exact Hne. }
    destruct (end_time_defined w Hidx) as [t Ht].
    unfold append_values. rewrite Ht. simpl.
    rewrite repeat_length, Nat.eqb_refl. simpl.
    eexists; split; [reflexivity | intros; lia].
Qed.

Lemma super_predict_fitted (self : RegressionModel E) n exog :
  _fit_called self = true -> super_predict self n exog = Ok tt.
Proof. unfold super_predict. intros ->. reflexivity. Qed.

End BeforeTheLoop.

(** C9.  For a model left by a returning [fit] (here of any
    configuration, so in particular one with exogenous lags), calling
    [predict] with an exogenous series whose first timestamp is not the end
    of the training series plus one frequency step raises a
    [ConfigurationError] before any estimator call, and the message
    contains both the given and the required start timestamp. *)
Theorem misaligned_exog_raises {E Kw : Type} `{Estimator E Kw}
        series exog (kwargs kwargs' : Kw) (self0 self : RegressionModel E)
        (e : TimeSeries) (n : nat) (calls : list DataFrame) (given last : Z) :
  0 <= max_lag self0 ->
  fit series exog kwargs self0 = (self, Ok tt) ->
  end_time series = Ok last ->
  start_time e = Ok given ->
  given <> last + freq series ->
  exists msg,
    predict self n (Some e) kwargs' calls = (calls, Raise (ConfigurationError msg))
    /\ mentions msg (show_Z given)
    /\ mentions msg (show_Z (last + freq series)).
Proof.
  intros Hml Hfit Hend Hstart Hneq.
  assert (Hne : time_index series <> []).
  { unfold end_time in Hend. eapply item_ok_nonempty; exact Hend. }
  destruct (initial_window_defined _ _ _ _ _ Hml Hne Hfit) as [init [Hinit _]].
  apply fit_ok in Hfit.
  destruct Hfit as (Hcalled & Htrain & _).
  exists ("`exog` first date must be equal to self.training_series.end_time()+1*freq. "
          +++ ("Given: " +++ show_Z given +++ ". Needed: "
               +++ show_Z (last + freq series) +++ ".")).
  split; [|split].
  - unfold predict.
    rewrite (super_predict_fitted _ _ _ Hcalled), sbind_lift_ok.
    rewrite Hinit, sbind_lift_ok.
    unfold check_exog_start. rewrite Htrain. simpl. rewrite Hend. simpl.
    rewrite Hstart. simpl.
    apply Z.eqb_neq in Hneq. unfold raise_if_not. rewrite Hneq. reflexivity.
  - apply mentions_right, mentions_right, mentions_prefix.
  - do 4 apply mentions_right. apply mentions_prefix.
Qed.

Lemma misaligned_exog_raises_witness :
  let self0 := ar2_exog0 in
  let self := fst (fit ten_days (Some (ten_days_exog "a")) tt self0) in
  exists msg,
    __init__ (Some (LagsList [1; 2])) (Some (ExogBool false))
             (Some (SumModel false 0)) = Ok self0
    /\ fit ten_days (Some (ten_days_exog "a")) tt self0 = (self, Ok tt)
    /\ predict self 2 (Some (series_of "a" 12 [20; 21])) tt []
       = ([], Raise (ConfigurationError msg))
    /\ mentions msg "12"
    /\ mentions msg "11".
Proof.
  intros self0 self.
  assert (Hml : 0 <= max_lag self0) by (simpl; lia).
  assert (Hneq : 12 <> 10 + freq ten_days) by (simpl; lia).
  assert (Hfit : fit ten_days (Some (ten_days_exog "a")) tt self0 = (self, Ok tt))
    by (vm_compute; reflexivity).
  assert (Hend : end_time ten_days = Ok 10) by reflexivity.
  assert (Hstart : start_time (series_of "a" 12 [20; 21]) = Ok 12) by reflexivity.
  destruct (misaligned_exog_raises
              ten_days (Some (ten_days_exog "a")) tt tt self0 self
              (series_of "a" 12 [20; 21]) 2 [] 12 10
              Hml Hfit Hend Hstart Hneq)
    as [msg Hmsg].
  exists msg. split; [reflexivity|]. split; [exact Hfit|]. exact Hmsg.
Defined.

(** ** The size of the rolling window *)

Arguments append_values : simpl never.
Arguments getitem_to : simpl never.
Arguments getitem_from : simpl never.
Arguments getitem_cols : simpl never.
Arguments df_iloc : simpl never.
Arguments _create_training_data : simpl never.


Lemma slice_to_minus_one_length {A : Type} (l : list A) :
  length (slice_to (-1) l) = pred (length l).
Proof.
  unfold slice_to. replace (-1 <? 0) with true by reflexivity.
  rewrite length_firstn. lia.
Qed.

Lemma slice_from_one_length {A : Type} (l : list A) :
  length (slice_from 1 l) = pred (length l).
Proof.
  unfold slice_from. replace (1 <? 0) with false by reflexivity.
  rewrite length_skipn. lia.
Qed.

Lemma rows_getitem_to (k : nat) (ts : TimeSeries) :
  rows_exactly (S k) ts -> rows_exactly k (getitem_to (-1) ts).
Proof.
  intros [Hidx Hcols]. split.
  - unfold getitem_to, time_index in *. cbn [ts_df df_index].
    rewrite slice_to_minus_one_length. lia.
  - unfold getitem_to. cbn [ts_df df_cols]. apply Forall_map.
    eapply Forall_impl; [|exact Hcols]. intros c Hc. simpl in *.
    rewrite slice_to_minus_one_length. lia.
Qed.

Lemma rows_getitem_from (k : nat) (ts : TimeSeries) :
  rows_exactly (S k) ts -> rows_exactly k (getitem_from 1 ts).
Proof.
  intros [Hidx Hcols]. split.
  - unfold getitem_from, time_index in *. cbn [ts_df df_index].
    rewrite slice_from_one_length. lia.
  - unfold getitem_from. cbn [ts_df df_cols]. apply Forall_map.
    eapply Forall_impl; [|exact Hcols]. intros c Hc. simpl in *.
    rewrite slice_from_one_length. lia.
Qed.

(** What [append_values] returns, when it returns. *)
Lemma append_values_ok (values : list (list cell)) (ts ts' : TimeSeries) :
  values <> [] ->
  append_values values ts = Ok ts' ->
  exists last,
    end_time ts = Ok last
    /\ Forall (fun row => length row = width ts) values
    /\ time_index ts'
       = time_index ts
         ++ map (fun i => last + Z.of_nat i * ts_freq ts) (seq 1 (length values))
    /\ df_cols (ts_df ts')
       = map (fun jc => (fst (snd jc),
                         snd (snd jc) ++ map (fun row => nth (fst jc) row None) values))
             (combine (seq 0 (width ts)) (df_cols (ts_df ts)))
    /\ ts_freq ts' = ts_freq ts.
Proof.
  intros Hne. unfold append_values. destruct values as [|r rs]; [congruence|].
  intros Happ. apply bind_ok in Happ. destruct Happ as [last [Hlast Happ]].
  destruct (forallb _ _) eqn:Hshape; [|discriminate].
  injection Happ as <-. exists last. split; [exact Hlast|]. split.
  - apply Forall_forall. intros row Hrow.
    rewrite forallb_forall in Hshape. apply Nat.eqb_eq. apply Hshape. exact Hrow.
  - simpl. auto.
Qed.

Lemma rows_append_values (k : nat) (values : list (list cell)) (ts ts' : TimeSeries) :
  values <> [] ->
  append_values values ts = Ok ts' ->
  rows_exactly k ts ->
  rows_exactly (k + length values) ts'.
Proof.
  intros Hne Happ [Hidx Hcols].
  destruct (append_values_ok _ _ _ Hne Happ) as (last & _ & _ & Hi & Hc & _).
  split.
  - rewrite Hi, length_app, length_map, length_seq. lia.
  - rewrite Hc. apply Forall_map. apply Forall_forall. intros [j c] Hin. simpl.
    apply in_combine_r in Hin. rewrite Forall_forall in Hcols.
    specialize (Hcols c Hin). simpl in Hcols.
    rewrite length_app, length_map, Hcols. reflexivity.
Qed.

Section WindowSize.

Context {E Kw : Type} `{Estimator E Kw}.

Lemma prepare_window_rows (self : RegressionModel E) exog i (k : nat) w0 w :
  max_lag self <> 0 ->
  rows_exactly (S k) w0 ->
  prepare_window self exog i (Some w0) = Ok (Some w) ->
  rows_exactly (S k) w.
Proof.
  intros Hml Hrows. unfold prepare_window.
  destruct (match lags_exog self with Some le => existsb (Z.eqb 0) le | None => false end).
  - intros Hp. apply bind_ok in Hp. destruct Hp as [e [_ Hp]].
    apply bind_ok in Hp. destruct Hp as [values [_ Hp]].
    apply Z.eqb_neq in Hml. rewrite Hml in Hp.
    simpl in Hp. apply bind_ok in Hp. destruct Hp as [w' [Happ Hp]].
    injection Hp as <-.
    apply (rows_append_values k) in Happ;
      [|discriminate | apply rows_getitem_to; exact Hrows].
    simpl in Happ. replace (k + 1)%nat with (S k) in Happ by lia. exact Happ.
  - intros Hp. injection Hp as <-. exact Hrows.
Qed.

Lemma advance_window_rows (self : RegressionModel E) exog d i forecast (k : nat) w w' :
  rows_exactly (S k) w ->
  advance_window self exog (Some [d]) i forecast w = Ok w' ->
  rows_exactly (S k) w'.
Proof.
  intros Hrows. unfold advance_window.
  destruct (0 <? max_lag self).
  - intros Ha. apply bind_ok in Ha. destruct Ha as [ec [_ Ha]].
    apply bind_ok in Ha. destruct Ha as [append_row [Hrow Ha]].
    assert (Hlen : length append_row = 1%nat).
    { destruct ec.
      - apply bind_ok in Hrow. destruct Hrow as [f [_ Hrow]].
        apply bind_ok in Hrow. destruct Hrow as [e [_ Hrow]].
        apply bind_ok in Hrow. destruct Hrow as [values [_ Hrow]].
        injection Hrow as <-. reflexivity.
      - apply bind_ok in Hrow. destruct Hrow as [r [_ Hrow]].
        injection Hrow as <-. reflexivity. }
    apply bind_ok in Ha. destruct Ha as [w2 [Hw2 Ha]].
    apply bind_ok in Ha. destruct Ha as [d' [Hd Ha]].
    injection Hd as <-.
    apply bind_ok in Ha. destruct Ha as [w3 [Hw3 Ha]].
    injection Ha as <-.
    apply (rows_append_values k) in Hw2;
      [| destruct append_row; [discriminate Hlen | discriminate]
       | apply rows_getitem_to; exact Hrows].
    rewrite Hlen in Hw2.
    apply (rows_append_values (k + 1)) in Hw3; [|discriminate | exact Hw2].
    simpl in Hw3. apply rows_getitem_from.
    replace (S (S k)) with (k + 1 + 1)%nat by lia. exact Hw3.
  - intros Ha. injection Ha as <-. exact Hrows.
Qed.

End WindowSize.

(** ** One step of the loop *)

Lemma setitem_ok {A : Type} (l l' : list A) (i : nat) (v : A) :
  setitem l i v = Ok l' ->
  (i < length l)%nat /\ length l' = length l /\ nth_error l' i = Some v
  /\ forall j, j <> i -> nth_error l' j = nth_error l j.
Proof.
  unfold setitem. destruct (i <? length l)%nat eqn:Hlt; [|discriminate].
  apply Nat.ltb_lt in Hlt. intros Hset.
  assert (Hl' : l' = firstn i l ++ v :: skipn (S i) l) by congruence.
  subst l'. clear Hset.
  assert (Hfl : length (firstn i l) = i) by (rewrite length_firstn; lia).
  repeat split.
  - exact Hlt.
  - rewrite length_app. cbn [length]. rewrite length_firstn, length_skipn. lia.
  - rewrite nth_error_app2 by lia. rewrite Hfl, Nat.sub_diag. reflexivity.
  - intros j Hj. destruct (Nat.lt_ge_cases j i) as [Hlo|Hhi].
    + rewrite nth_error_app1 by lia. rewrite nth_error_firstn.
      apply Nat.ltb_lt in Hlo. rewrite Hlo. reflexivity.
    + rewrite nth_error_app2 by lia. rewrite Hfl.
      destruct (j - i)%nat as [|d] eqn:Hd; [lia|]. cbn [nth_error].
      rewrite nth_error_skipn. f_equal. lia.
Qed.

(** The number the step records for an estimator answer [out]: the
    scalar of its first entry, or the first cell of the array that is its
    first entry. *)
Lemma extraction_ok (out forecast : list row_pred) (f : cell) :
  unwrap_forecast out = Ok forecast ->
  forecast0 forecast = Ok f ->
  hd_error out = Some (RScalar f)
  \/ exists a, hd_error out = Some (RArray (f :: a)).
Proof.
  unfold unwrap_forecast, forecast0, item.
  destruct out as [|[v|a] rest]; simpl; try discriminate.
  - intros Hu. injection Hu as <-. simpl. intros Hf. injection Hf as <-.
    left. reflexivity.
  - intros Hu. injection Hu as <-. destruct a as [|v a]; simpl; [discriminate|].
    intros Hf. injection Hf as <-. right. exists a. reflexivity.
Qed.

Section Step.

Context {E Kw : Type} `{Estimator E Kw}.

(** A step that returns has gone through every statement of the body. *)
Lemma predict_step_ok (self : RegressionModel E) exog (kwargs : Kw) dummy_row
      i w0 forecasts calls calls' st' :
  predict_step self exog kwargs dummy_row i (w0, forecasts) calls = (calls', Ok st') ->
  exists w X out forecast w' f forecasts',
    prepare_window self exog i w0 = Ok (Some w)
    /\ forecasting_data self w = Ok X
    /\ calls' = calls ++ [X]
    /\ est_predict (model self) X kwargs = Ok out
    /\ unwrap_forecast out = Ok forecast
    /\ advance_window self exog dummy_row i forecast w = Ok w'
    /\ forecast0 forecast = Ok f
    /\ setitem forecasts i f = Ok forecasts'
    /\ st' = (Some w', forecasts').
Proof.
  unfold predict_step. intros Hstep.
  sstep_lift Hstep ow Hprep.
  sstep_lift Hstep w Hw.
  destruct ow as [w1|]; [|discriminate]. injection Hw as <-.
  sstep_lift Hstep X HX.
  sstep Hstep out calls1 Hcall.
  unfold call_predict in Hcall. injection Hcall as <- Hout.
  sstep_lift Hstep forecast Hun.
  sstep_lift Hstep w' Hadv.
  sstep_lift Hstep f Hf.
  sstep_lift Hstep forecasts' Hset.
  unfold sret in Hstep. injection Hstep as <- <-.
  exists w1, X, out, forecast, w', f, forecasts'. repeat split; auto.
Qed.

(** Running the loop body over [k] consecutive steps leaves [forecasts]
    as long as it was and makes exactly [k] estimator calls. *)
Lemma loop_counts (self : RegressionModel E) exog (kwargs : Kw) dummy_row (k : nat) :
  forall a w0 forecasts calls calls' w1 forecasts',
    for_loop (predict_step self exog kwargs dummy_row) (seq a k) (w0, forecasts) calls
    = (calls', Ok (w1, forecasts')) ->
    length forecasts' = length forecasts
    /\ length calls' = (length calls + k)%nat.
Proof.
  induction k as [|k IH]; intros a w0 forecasts calls calls' w1 forecasts' Hloop.
  - simpl in Hloop. unfold sret in Hloop. injection Hloop as <- _ <-.
    split; [reflexivity | lia].
  - simpl in Hloop. sstep Hloop st1 calls1 Hstep.
    apply predict_step_ok in Hstep.
    destruct Hstep as (w & X & out & forecast & w' & f & fc1 & _ & _ & Hcalls
                       & _ & _ & _ & _ & Hset & ->).
    apply IH in Hloop. destruct Hloop as [Hlen Hcount].
    apply setitem_ok in Hset. destruct Hset as (_ & Hlen1 & _).
    split; [congruence|].
    rewrite Hcount, Hcalls, length_app. simpl. lia.
Qed.

(** With a positive [max_lag], a window of [k + 1] rows is a window of
    [k + 1] rows again after a step. *)
Lemma predict_step_rows (self : RegressionModel E) exog (kwargs : Kw) d
      i (k : nat) w0 forecasts calls calls' w1 forecasts' :
  0 < max_lag self ->
  rows_exactly (S k) w0 ->
  predict_step self exog kwargs (Some [d]) i (Some w0, forecasts) calls
  = (calls', Ok (w1, forecasts')) ->
  exists w', w1 = Some w' /\ rows_exactly (S k) w'.
Proof.
  intros Hml Hrows Hstep. apply predict_step_ok in Hstep.
  destruct Hstep as (w & X & out & forecast & w' & f & fc1 & Hprep & _ & _
                     & _ & _ & Hadv & _ & _ & Hst).
  injection Hst as -> ->. exists w'. split; [reflexivity|].
  apply prepare_window_rows with (k := k) in Hprep; [|lia | exact Hrows].
  eapply advance_window_rows; [exact Hprep | exact Hadv].
Qed.

Lemma loop_rows (self : RegressionModel E) exog (kwargs : Kw) d (k n : nat) :
  0 < max_lag self ->
  forall a w0 forecasts calls calls' w1 forecasts',
    rows_exactly (S k) w0 ->
    for_loop (predict_step self exog kwargs (Some [d])) (seq a n)
             (Some w0, forecasts) calls
    = (calls', Ok (w1, forecasts')) ->
    exists w', w1 = Some w' /\ rows_exactly (S k) w'.
Proof.
  intros Hml. induction n as [|n IH];
    intros a w0 forecasts calls calls' w1 forecasts' Hrows Hloop.
  - simpl in Hloop. unfold sret in Hloop. injection Hloop as _ <- _.
    exists w0. split; [reflexivity | exact Hrows].
  - simpl in Hloop. sstep Hloop st1 calls1 Hstep. destruct st1 as [w2 fc2].
    apply (predict_step_rows _ _ _ _ _ k) in Hstep; [|exact Hml | exact Hrows].
    destruct Hstep as (w' & -> & Hrows').
    eapply IH; [exact Hrows' | exact Hloop].
Qed.

End Step.

(** ** Lists: rows taken by position, shifted columns *)

Lemma take_rows_cons {A : Type} (i : nat) (ps : list nat) (l : list A) :
  take_rows (i :: ps) l
  = match nth_error l i with Some x => [x] | None => [] end ++ take_rows ps l.
Proof. reflexivity. Qed.

Lemma skipn_cons_nth {A : Type} (a : nat) :
  forall (l : list A) (x : A),
    nth_error l a = Some x -> skipn a l = x :: skipn (S a) l.
Proof.
  induction a as [|a IH]; intros [|y l] x Hnth; try discriminate.
  - injection Hnth as ->. reflexivity.
  - simpl in Hnth. change (skipn (S a) (y :: l)) with (skipn a l).
    rewrite (IH l x Hnth). reflexivity.
Qed.

Lemma take_rows_seq {A : Type} (k : nat) :
  forall (a : nat) (l : list A), take_rows (seq a k) l = firstn k (skipn a l).
Proof.
  induction k as [|k IH]; intros a l.
  - reflexivity.
  - cbn [seq]. rewrite take_rows_cons, IH.
    destruct (nth_error l a) as [x|] eqn:Hnth.
    + rewrite (skipn_cons_nth a l x Hnth). reflexivity.
    + apply nth_error_None in Hnth.
      rewrite (skipn_all2 l (n := S a)) by lia.
      rewrite (skipn_all2 l (n := a)) by lia.
      rewrite !firstn_nil. reflexivity.
Qed.

Lemma take_rows_suffix {A : Type} (m : nat) (l : list A) :
  take_rows (seq m (length l - m)) l = skipn m l.
Proof.
  rewrite take_rows_seq. apply firstn_all2. rewrite length_skipn. lia.
Qed.

Lemma filter_seq_from (m n : nat) :
  filter (fun i => m <=? i)%nat (seq 0 n) = seq m (n - m).
Proof.
  induction n as [|n IH]; [reflexivity|].
  rewrite seq_S, filter_app, IH. cbn [filter Nat.add].
  destruct (m <=? n)%nat eqn:Hle.
  - apply Nat.leb_le in Hle.
    replace (S n - m)%nat with (S (n - m)) by lia.
    rewrite seq_S. f_equal. f_equal. lia.
  - apply Nat.leb_gt in Hle.
    replace (S n - m)%nat with O by lia. replace (n - m)%nat with O by lia.
    reflexivity.
Qed.

Lemma shift_length (lag : Z) (col : list cell) :
  0 <= lag -> length (shift lag col) = length col.
Proof.
  intros Hlag. unfold shift. cbv zeta.
  destruct (0 <=? lag) eqn:Hle; [|apply Z.leb_gt in Hle; lia].
  rewrite length_firstn, length_app, repeat_length. lia.
Qed.

Lemma shift_nth_error (lag : Z) (col : list cell) (i : nat) :
  0 <= lag -> (i < length col)%nat ->
  nth_error (shift lag col) i
  = if (i <? Z.to_nat lag)%nat then Some None
    else nth_error col (i - Z.to_nat lag).
Proof.
  intros Hlag Hi. unfold shift. cbv zeta.
  destruct (0 <=? lag) eqn:Hle; [|apply Z.leb_gt in Hle; lia].
  rewrite nth_error_firstn.
  apply Nat.ltb_lt in Hi. rewrite Hi.
  rewrite nth_error_app, repeat_length.
  destruct (i <? Z.to_nat lag)%nat eqn:Hlt; [|reflexivity].
  apply nth_error_repeat. apply Nat.ltb_lt. exact Hlt.
Qed.

(** On a column without NaN, the value shifted by [lag] is defined at
    row [i] exactly when [i] has [lag] rows before it. *)
Lemma shift_defined (lag : Z) (col : list cell) (i : nat) :
  0 <= lag -> (i < length col)%nat -> Forall (fun c => notna c = true) col ->
  match nth_error (shift lag col) i with
  | Some v => notna v
  | None => false
  end = (Z.to_nat lag <=? i)%nat.
Proof.
  intros Hlag Hi Hdef. rewrite shift_nth_error by assumption.
  destruct (i <? Z.to_nat lag)%nat eqn:Hlt.
  - apply Nat.ltb_lt in Hlt. simpl. symmetry. apply Nat.leb_gt. exact Hlt.
  - apply Nat.ltb_ge in Hlt.
    destruct (nth_error col (i - Z.to_nat lag)) as [v|] eqn:Hnth.
    + rewrite Forall_forall in Hdef. rewrite (Hdef v (nth_error_In _ _ Hnth)).
      symmetry. apply Nat.leb_le. exact Hlt.
    + apply nth_error_None in Hnth. lia.
Qed.

(** ** Column names *)

Lemma append_cancel_l (s a b : string) : s +++ a = s +++ b -> a = b.
Proof.
  induction s as [|ch s IH]; simpl; intros Heq; [exact Heq|].
  injection Heq as Heq. apply IH. exact Heq.
Qed.

Lemma append_length (a b : string) :
  String.length (a +++ b) = (String.length a + String.length b)%nat.
Proof. induction a as [|ch a IH]; simpl; [reflexivity | rewrite IH; reflexivity]. Qed.

Lemma to_int_not_nil (z : Z) :
  Z.to_int z <> Decimal.Pos Decimal.Nil /\ Z.to_int z <> Decimal.Neg Decimal.Nil.
Proof.
  destruct z as [|p|p]; simpl; split; try discriminate;
    intros Heq; injection Heq as Heq; exact (Unsigned.to_uint_nonnil p Heq).
Qed.

Lemma show_Z_inj (a b : Z) : show_Z a = show_Z b -> a = b.
Proof.
  unfold show_Z. intros Heq.
  apply (f_equal NilZero.int_of_string) in Heq.
  destruct (to_int_not_nil a) as [Ha1 Ha2]. destruct (to_int_not_nil b) as [Hb1 Hb2].
  rewrite !NilZero.isi in Heq by assumption.
  injection Heq as Heq. apply to_int_inj. exact Heq.
Qed.

(** The name of a lag column differs from the name of its variable, and
    two lags of one variable have different names. *)
Lemma lag_name_fresh (name : string) (lag : Z) :
  String.eqb (name +++ "_lag" +++ show_Z lag) name = false.
Proof.
  apply String.eqb_neq. intros Heq.
  apply (f_equal String.length) in Heq. rewrite !append_length in Heq.
  simpl in Heq. lia.
Qed.

Lemma lag_name_inj (name : string) (a b : Z) :
  name +++ "_lag" +++ show_Z a = name +++ "_lag" +++ show_Z b -> a = b.
Proof.
  intros Heq. apply append_cancel_l in Heq. apply append_cancel_l in Heq.
  apply show_Z_inj. exact Heq.
Qed.

(** ** The lagged frame of one variable *)

Lemma set_col_in name values cols c :
  In c (set_col name values cols) -> c = (name, values) \/ In c cols.
Proof.
  induction cols as [|c0 r IH]; simpl.
  - intros [<-|[]]. left. reflexivity.
  - destruct (String.eqb (fst c0) name); simpl.
    + intros [<-|Hin]; [left; reflexivity | right; right; exact Hin].
    + intros [<-|Hin]; [right; left; reflexivity|].
      destruct (IH Hin) as [->|Hr]; [left; reflexivity | right; right; exact Hr].
Qed.

Lemma set_col_new name values cols : In (name, values) (set_col name values cols).
Proof.
  induction cols as [|c0 r IH]; simpl; [left; reflexivity|].
  destruct (String.eqb (fst c0) name); simpl; [left; reflexivity | right; exact IH].
Qed.

Lemma set_col_keep name values cols c :
  In c cols -> fst c <> name -> In c (set_col name values cols).
Proof.
  intros Hin Hne. induction cols as [|c0 r IH]; simpl; [contradiction|].
  destruct Hin as [->|Hin].
  - apply String.eqb_neq in Hne. rewrite Hne. left. reflexivity.
  - destruct (String.eqb (fst c0) name); simpl; right; [exact Hin | exact (IH Hin)].
Qed.

Lemma set_col_filter name values cols target :
  String.eqb name target = false ->
  filter (fun c => String.eqb (fst c) target) (set_col name values cols)
  = filter (fun c => String.eqb (fst c) target) cols.
Proof.
  intros Hne. induction cols as [|c0 r IH]; simpl.
  - rewrite Hne. reflexivity.
  - destruct (String.eqb (fst c0) name) eqn:Hc0; simpl.
    + apply String.eqb_eq in Hc0. rewrite Hc0, Hne. reflexivity.
    + rewrite IH. reflexivity.
Qed.

Section LaggedColumns.

Variable target_name : string.
Variable values : list (option Z).

Lemma lag_cols_ext (P Q : Z -> Prop) cols :
  (forall lag, P lag <-> Q lag) -> lag_cols target_name values P cols -> lag_cols target_name values Q cols.
Proof.
  intros Hpq (Hf & Hin & Hall). split; [exact Hf|]. split.
  - intros c Hc. destruct (Hin c Hc) as [->|[lag [Hl ->]]]; [left; reflexivity|].
    right. exists lag. split; [apply Hpq; exact Hl | reflexivity].
  - intros lag Hl. apply Hall. apply Hpq. exact Hl.
Qed.

Lemma lag_cols_step (done : Z -> Prop) cols (lag : Z) :
  lag_cols target_name values done cols ->
  lag_cols target_name values (fun l => l = lag \/ done l)
           (set_col (lag_name target_name lag) (shift lag values) cols).
Proof.
  intros (Hf & Hin & Hall). split; [|split].
  - rewrite set_col_filter; [exact Hf | apply lag_name_fresh].
  - intros c Hc. apply set_col_in in Hc. destruct Hc as [->|Hc].
    + right. exists lag. split; [left; reflexivity | reflexivity].
    + destruct (Hin c Hc) as [->|[l [Hl ->]]]; [left; reflexivity|].
      right. exists l. split; [right; exact Hl | reflexivity].
  - intros l [->|Hl]; [apply set_col_new|].
    destruct (String.eqb (lag_name target_name l) (lag_name target_name lag)) eqn:Hname.
    + apply String.eqb_eq in Hname. apply lag_name_inj in Hname. subst l.
      apply set_col_new.
    + apply set_col_keep; [exact (Hall l Hl)|].
      simpl. apply String.eqb_neq. exact Hname.
Qed.

Lemma lag_columns_ok (lags : list Z) :
  forall (done : Z -> Prop) (df : DataFrame),
    lag_cols target_name values done (df_cols df) ->
    exists df',
      lag_columns target_name lags df = Ok df'
      /\ df_index df' = df_index df
      /\ lag_cols target_name values (fun l => In l lags \/ done l) (df_cols df').
Proof.
  induction lags as [|lag r IH]; intros done df Hinv.
  - exists df. split; [reflexivity|]. split; [reflexivity|].
    eapply lag_cols_ext; [|exact Hinv]. intros l. simpl. tauto.
  - cbn [lag_columns]. unfold df_getcol.
    destruct Hinv as (Hf & Hin & Hall). rewrite Hf. cbn [bind snd].
    destruct (IH (fun l => l = lag \/ done l)
                 (df_setcol (lag_name target_name lag) (shift lag values) df))
      as (df' & Hrun & Hidx & Hinv').
    { apply lag_cols_step. split; [exact Hf|]. split; assumption. }
    exists df'. split; [exact Hrun|]. split; [exact Hidx|].
    eapply lag_cols_ext; [|exact Hinv']. intros l. simpl. intuition congruence.
Qed.

End LaggedColumns.

Lemma row_complete_iff cols i :
  row_complete cols i = true
  <-> forall c, In c cols ->
                match nth_error (snd c) i with
                | Some v => notna v
                | None => false
                end = true.
Proof. unfold row_complete. apply forallb_forall. Qed.

Lemma lag_depth_le (lags : list Z) (i : nat) :
  (lag_depth lags <= i)%nat <-> forall lag, In lag lags -> (Z.to_nat lag <= i)%nat.
Proof.
  unfold lag_depth. rewrite list_max_le, Forall_forall. split.
  - intros Hall lag Hin. apply Hall. apply in_map. exact Hin.
  - intros Hall k Hk. apply in_map_iff in Hk. destruct Hk as [lag [<- Hin]].
    apply Hall. exact Hin.
Qed.

(** Once the lag columns are in place, a row is complete exactly when it
    has as many rows before it as the largest lag. *)
Lemma lag_cols_row_complete name values (lags : list Z) cols (i : nat) :
  lag_cols name values (fun l => In l lags \/ False) cols ->
  Forall (fun v => notna v = true) values ->
  Forall (fun l => 0 <= l) lags ->
  (i < length values)%nat ->
  row_complete cols i = (lag_depth lags <=? i)%nat.
Proof.
  intros (Hf & Hin & Hall) Hdef Hpos Hi.
  rewrite Forall_forall in Hpos.
  apply eq_true_iff_eq. rewrite row_complete_iff, Nat.leb_le, lag_depth_le. split.
  - intros Hrow lag Hlag.
    specialize (Hrow _ (Hall lag (or_introl Hlag))). cbn [snd] in Hrow.
    rewrite shift_defined in Hrow by auto. apply Nat.leb_le. exact Hrow.
  - intros Hle c Hc. destruct (Hin c Hc) as [->|[lag [[Hlag|[]] ->]]]; cbn [snd].
    + destruct (nth_error values i) as [v|] eqn:Hnth.
      * rewrite Forall_forall in Hdef. apply Hdef. eapply nth_error_In. exact Hnth.
      * apply nth_error_None in Hnth. lia.
    + rewrite shift_defined by auto. apply Nat.leb_le. apply Hle. exact Hlag.
Qed.

(** The lagged frame of a variable without NaN: the rows from the largest
    lag on, and no NaN. *)
Lemma create_lagged_data_ok (idx : list Z) (name : string) (values : list (option Z))
      (fr : Z) (lags : list Z) :
  length values = length idx ->
  Forall (fun v => notna v = true) values ->
  lags <> [] ->
  Forall (fun l => 0 <= l) lags ->
  exists F,
    _create_lagged_data
      {| ts_df := {| df_index := idx; df_cols := [(name, values)] |}; ts_freq := fr |}
      lags = Ok F
    /\ complete_from idx (lag_depth lags) F.
Proof.
  intros Hlen Hdef Hne Hpos. unfold _create_lagged_data, pd_dataframe.
  cbn [ts_df df_columns df_cols map fst item nth_error bind].
  destruct (lag_columns_ok name values lags (fun _ => False)
                           {| df_index := idx; df_cols := [(name, values)] |})
    as (df' & Hrun & Hidx & Hinv).
  { split; [|split].
    - cbn [df_cols filter fst]. rewrite String.eqb_refl. reflexivity.
    - intros c [<-|[]]. left. reflexivity.
    - intros lag []. }
  rewrite Hrun. cbn [bind]. eexists. split; [reflexivity|].
  cbn [df_index] in Hidx.
  set (m := lag_depth lags).
  assert (Hkeep : filter (row_complete (df_cols df')) (seq 0 (df_len df'))
                  = seq m (length idx - m)).
  { unfold df_len. rewrite Hidx, <- filter_seq_from.
    apply filter_ext_in. intros i Hi. apply in_seq in Hi.
    apply (lag_cols_row_complete name values lags); auto. lia. }
  unfold complete_from, df_drop, dropna. cbn [df_index df_cols].
  rewrite Hkeep, Hidx. split; [apply take_rows_suffix|].
  rewrite Forall_forall in Hpos.
  destruct Hinv as (Hf & Hin & Hall). split.
  - destruct lags as [|lag r]; [congruence|].
    assert (Hcol : In (lag_name name lag, shift lag values) (df_cols df')).
    { apply Hall. left. left. reflexivity. }
    intros Hnil.
    assert (Hmem : In (lag_name name lag,
                       take_rows (seq m (length idx - m)) (shift lag values))
                      (filter (fun c => negb (String.eqb (fst c) name))
                              (map (fun c => (fst c,
                                              take_rows (seq m (length idx - m)) (snd c)))
                                   (df_cols df')))).
    { apply filter_In. split.
      - apply in_map_iff. eexists. split; [|exact Hcol]. reflexivity.
      - cbn [fst]. unfold lag_name. rewrite lag_name_fresh. reflexivity. }
    rewrite Hnil in Hmem. exact Hmem.
  - apply Forall_forall. intros c' Hc'. apply filter_In in Hc'.
    destruct Hc' as [Hc' Hkeepc]. apply in_map_iff in Hc'.
    destruct Hc' as [c [<- Hc]]. cbn [fst snd] in *.
    destruct (Hin c Hc) as [->|[lag [[Hlag|[]] ->]]].
    + cbn [fst] in Hkeepc. rewrite String.eqb_refl in Hkeepc. discriminate.
    + cbn [snd]. rewrite take_rows_seq. split.
      * rewrite length_firstn, length_skipn, shift_length by auto. lia.
      * apply Forall_forall. intros v Hv. apply In_nth_error in Hv.
        destruct Hv as [j Hj]. rewrite nth_error_firstn in Hj.
        destruct (j <? length idx - m)%nat eqn:Hlt; [|discriminate].
        apply Nat.ltb_lt in Hlt. rewrite nth_error_skipn in Hj.
        pose proof (shift_defined lag values (m + j)) as Hsd.
        rewrite Hj in Hsd. rewrite Hsd; [| auto | lia | exact Hdef].
        apply Nat.leb_le.
        assert (Hm : (Z.to_nat lag <= m)%nat).
        { apply (proj1 (lag_depth_le lags m) (Nat.le_refl _)). exact Hlag. }
        lia.
Qed.

(** ** Increasing time indexes *)

Lemma index_union_nil_l (b : list Z) : index_union [] b = b.
Proof. destruct b; reflexivity. Qed.

Lemma index_union_nil_r (a : list Z) : index_union a [] = a.
Proof. destruct a; reflexivity. Qed.

Lemma index_union_same (l : list Z) : index_union l l = l.
Proof.
  induction l as [|x l IH]; [reflexivity|].
  cbn [index_union]. rewrite Z.ltb_irrefl. f_equal. exact IH.
Qed.

Lemma sorted_skipn (m : nat) :
  forall l : list Z, StronglySorted Z.lt l -> StronglySorted Z.lt (skipn m l).
Proof.
  induction m as [|m IH]; intros l Hs; [exact Hs|].
  destruct l as [|x l]; [exact Hs|].
  apply StronglySorted_inv in Hs. apply IH. exact (proj1 Hs).
Qed.

Lemma skipn_in {A : Type} (m : nat) :
  forall (l : list A) (x : A), In x (skipn m l) -> In x l.
Proof.
  induction m as [|m IH]; intros l x Hin; [exact Hin|].
  destruct l as [|y l]; [exact Hin|]. right. apply IH. exact Hin.
Qed.

(** The union of an increasing index with one of its suffixes is the
    index. *)
Lemma index_union_suffix_l (l : list Z) :
  StronglySorted Z.lt l -> forall k, index_union (skipn k l) l = l.
Proof.
  induction 1 as [|x l Hs IH Hx]; intros k.
  - rewrite skipn_nil. reflexivity.
  - destruct k as [|k]; [apply index_union_same|].
    change (skipn (S k) (x :: l)) with (skipn k l).
    destruct (skipn k l) as [|y s] eqn:Hsk; [reflexivity|].
    assert (Hxy : x < y).
    { rewrite Forall_forall in Hx. apply Hx. apply (skipn_in k).
      rewrite Hsk. left. reflexivity. }
    cbn [index_union].
    replace (y <? x) with false by (symmetry; apply Z.ltb_ge; lia).
    replace (x <? y) with true by (symmetry; apply Z.ltb_lt; lia).
    f_equal. rewrite <- Hsk. specialize (IH k). rewrite Hsk in *.
    destruct l as [|z l'].
    + rewrite skipn_nil in Hsk. discriminate.
    + exact IH.
Qed.

Lemma index_union_suffix_r (l : list Z) :
  StronglySorted Z.lt l -> forall k, index_union l (skipn k l) = l.
Proof.
  induction 1 as [|x l Hs IH Hx]; intros k.
  - rewrite skipn_nil. reflexivity.
  - destruct k as [|k]; [apply index_union_same|].
    change (skipn (S k) (x :: l)) with (skipn k l).
    destruct (skipn k l) as [|y s] eqn:Hsk; [reflexivity|].
    assert (Hxy : x < y).
    { rewrite Forall_forall in Hx. apply Hx. apply (skipn_in k).
      rewrite Hsk. left. reflexivity. }
    cbn [index_union].
    replace (x <? y) with true by (symmetry; apply Z.ltb_lt; lia).
    f_equal. rewrite <- Hsk. apply IH.
Qed.

Lemma index_union_suffixes (l : list Z) (a b : nat) :
  StronglySorted Z.lt l ->
  index_union (skipn a l) (skipn b l) = skipn (Nat.min a b) l.
Proof.
  intros Hs. destruct (Nat.le_ge_cases a b) as [Hab|Hba].
  - rewrite (Nat.min_l _ _ Hab).
    replace b with ((b - a) + a)%nat at 1 by lia. rewrite <- skipn_skipn.
    apply index_union_suffix_r. apply sorted_skipn. exact Hs.
  - rewrite (Nat.min_r _ _ Hba).
    replace a with ((a - b) + b)%nat at 1 by lia. rewrite <- skipn_skipn.
    apply index_union_suffix_l. apply sorted_skipn. exact Hs.
Qed.

Lemma sorted_nth_lt (l : list Z) :
  StronglySorted Z.lt l ->
  forall p q t u, nth_error l p = Some t -> nth_error l q = Some u ->
                  (p < q)%nat -> t < u.
Proof.
  induction 1 as [|x l Hs IH Hx]; intros p q t u Hp Hq Hlt.
  - destruct p; discriminate.
  - destruct q as [|q]; [lia|]. cbn [nth_error] in Hq.
    destruct p as [|p].
    + injection Hp as <-. rewrite Forall_forall in Hx. apply Hx.
      eapply nth_error_In. exact Hq.
    + cbn [nth_error] in Hp. apply (IH p q); auto. lia.
Qed.

Lemma position_found (l : list Z) :
  StronglySorted Z.lt l ->
  forall p t, nth_error l p = Some t -> position t l = Some p.
Proof.
  induction 1 as [|x l Hs IH Hx]; intros p t Hp.
  - destruct p; discriminate.
  - destruct p as [|p]; cbn [nth_error] in Hp; cbn [position].
    + injection Hp as <-. rewrite Z.eqb_refl. reflexivity.
    + assert (Hxt : x < t).
      { rewrite Forall_forall in Hx. apply Hx. eapply nth_error_In. exact Hp. }
      replace (t =? x) with false by (symmetry; apply Z.eqb_neq; lia).
      rewrite (IH p t Hp). reflexivity.
Qed.

Lemma position_absent (l : list Z) (t : Z) : ~ In t l -> position t l = None.
Proof.
  induction l as [|x l IH]; intros Hnot; [reflexivity|].
  cbn [position]. destruct (t =? x) eqn:Heq.
  - apply Z.eqb_eq in Heq. subst x. exfalso. apply Hnot. left. reflexivity.
  - rewrite IH; [reflexivity|]. intros Hin. apply Hnot. right. exact Hin.
Qed.

(** Where a timestamp of an increasing index sits in a suffix of it. *)
Lemma position_in_suffix (l : list Z) (m p : nat) (t : Z) :
  StronglySorted Z.lt l ->
  nth_error l p = Some t ->
  position t (skipn m l) = if (m <=? p)%nat then Some (p - m)%nat else None.
Proof.
  intros Hs Hp. destruct (m <=? p)%nat eqn:Hmp.
  - apply Nat.leb_le in Hmp. apply position_found; [apply sorted_skipn; exact Hs|].
    rewrite nth_error_skipn. replace (m + (p - m))%nat with p by lia. exact Hp.
  - apply Nat.leb_gt in Hmp. apply position_absent. intros Hin.
    apply In_nth_error in Hin. destruct Hin as [j Hj].
    rewrite nth_error_skipn in Hj.
    pose proof (sorted_nth_lt l Hs p (m + j) t t Hp Hj). lia.
Qed.

(** ** Side-by-side concatenation of lagged frames *)

Lemma forallb_const {A : Type} (f : A -> bool) (l : list A) (b : bool) :
  l <> [] -> (forall x, In x l -> f x = b) -> forallb f l = b.
Proof.
  intros Hne Hall. destruct b.
  - apply forallb_forall. exact Hall.
  - destruct l as [|x l]; [congruence|]. cbn [forallb].
    rewrite (Hall x (or_introl eq_refl)). reflexivity.
Qed.

Lemma row_complete_app cols1 cols2 i :
  row_complete (cols1 ++ cols2) i = row_complete cols1 i && row_complete cols2 i.
Proof. unfold row_complete. apply forallb_app. Qed.

Section Concat.

Variable idx : list Z.
Hypothesis idx_sorted : StronglySorted Z.lt idx.

Lemma union_of_suffixes (ms : list nat) (frames : list DataFrame) :
  Forall2 (complete_from idx) ms frames ->
  frames <> [] ->
  exists a,
    fold_right (fun f acc => index_union (df_index f) acc) [] frames = skipn a idx
    /\ In a ms
    /\ Forall (fun m => (a <= m)%nat) ms.
Proof.
  induction 1 as [|m F ms frames HF Hrest IH]; intros Hne; [congruence|].
  destruct HF as (Hidx & _ & _). cbn [fold_right]. rewrite Hidx.
  destruct frames as [|F' frames].
  - inversion Hrest; subst. cbn [fold_right]. rewrite index_union_nil_r.
    exists m. repeat split; [left; reflexivity | constructor; [lia | constructor]].
  - destruct IH as (a & Ha & Hin & Hle); [discriminate|].
    rewrite Ha, index_union_suffixes by exact idx_sorted.
    exists (Nat.min m a). split; [reflexivity|]. split.
    + destruct (Nat.min_spec m a) as [[_ ->]|[_ ->]]; [left; reflexivity | right; exact Hin].
    + constructor; [lia|]. eapply Forall_impl; [|exact Hle].
      intros k Hk. simpl in Hk. lia.
Qed.

Lemma reindex_row_complete (m a i : nat) (F : DataFrame) :
  complete_from idx m F ->
  (a + i < length idx)%nat ->
  row_complete (reindex (skipn a idx) F) i = (m <=? a + i)%nat.
Proof.
  intros (Hidx & Hne & Hcols) Hi.
  destruct (nth_error idx (a + i)) as [t|] eqn:Ht;
    [|apply nth_error_None in Ht; lia].
  unfold row_complete, reindex. apply forallb_const.
  - destruct (df_cols F); [congruence | discriminate].
  - intros c' Hc'. apply in_map_iff in Hc'. destruct Hc' as [c [<- Hc]].
    cbn [snd]. rewrite nth_error_map, nth_error_skipn, Ht. cbn [option_map].
    rewrite Hidx, (position_in_suffix idx m (a + i) t idx_sorted Ht).
    destruct (m <=? a + i)%nat eqn:Hm; [|reflexivity].
    apply Nat.leb_le in Hm.
    rewrite Forall_forall in Hcols. destruct (Hcols c Hc) as [Hlen Hdef].
    rewrite Forall_forall in Hdef. apply Hdef. apply nth_In. lia.
Qed.

Lemma concat_row_complete (a i : nat) (ms : list nat) (frames : list DataFrame) :
  Forall2 (complete_from idx) ms frames ->
  (a + i < length idx)%nat ->
  row_complete (flat_map (reindex (skipn a idx)) frames) i
  = (list_max ms <=? a + i)%nat.
Proof.
  intros Hall Hi. induction Hall as [|m F ms frames HF Hrest IH].
  - reflexivity.
  - cbn [flat_map]. rewrite row_complete_app, IH.
    rewrite (reindex_row_complete m a i F HF Hi).
    change (list_max (m :: ms)) with (Nat.max m (list_max ms)).
    apply eq_true_iff_eq. rewrite andb_true_iff, !Nat.leb_le. lia.
Qed.

(** Lagged frames that start at the rows [ms] of one increasing index,
    put side by side and cleared of NaN, start at the largest of [ms]. *)
Lemma concat_dropna_index (ms : list nat) (frames : list DataFrame) :
  Forall2 (complete_from idx) ms frames ->
  frames <> [] ->
  exists D,
    pd_concat frames = Ok D
    /\ df_index (dropna D) = skipn (list_max ms) idx.
Proof.
  intros Hall Hne.
  destruct (union_of_suffixes ms frames Hall Hne) as (a & Hu & Hin & Hle).
  assert (Hab : (a <= list_max ms)%nat).
  { pose proof (proj1 (list_max_le ms (list_max ms)) (Nat.le_refl _)) as Hmax.
    rewrite Forall_forall in Hmax. apply Hmax. exact Hin. }
  unfold pd_concat. destruct frames as [|F frames]; [congruence|].
  eexists. split; [reflexivity|].
  unfold dropna, df_len. cbn [df_index df_cols]. rewrite Hu.
  set (b := list_max ms) in *.
  assert (Hkeep : filter (row_complete (flat_map (reindex (skipn a idx)) (F :: frames)))
                         (seq 0 (length (skipn a idx)))
                  = seq (b - a) (length (skipn a idx) - (b - a))).
  { rewrite <- filter_seq_from. apply filter_ext_in. intros i Hi.
    apply in_seq in Hi. rewrite length_skipn in Hi.
    rewrite (concat_row_complete a i ms (F :: frames) Hall) by lia.
    fold b. apply eq_true_iff_eq. rewrite !Nat.leb_le. lia. }
  rewrite Hkeep, take_rows_suffix, skipn_skipn. f_equal. lia.
Qed.

End Concat.

(** ** The configuration a constructed model has *)

Lemma fold_max_depth (r : list Z) :
  forall x, 0 <= x -> Forall (fun l => 0 <= l) r ->
            fold_left Z.max r x = Z.of_nat (lag_depth (x :: r)).
Proof.
  unfold lag_depth. induction r as [|y r IH]; intros x Hx Hr.
  - cbn [fold_left map list_max fold_right]. lia.
  - apply Forall_cons_iff in Hr. destruct Hr as [Hy Hr].
    cbn [fold_left]. rewrite IH by (auto; lia).
    cbn [map list_max fold_right]. lia.
Qed.

Lemma py_max_depth (l : list Z) (v : Z) :
  Forall (fun x => 0 <= x) l -> py_max l = Ok v ->
  l <> [] /\ v = Z.of_nat (lag_depth l).
Proof.
  destruct l as [|x r]; [discriminate|]. intros Hall Hmax.
  apply Forall_cons_iff in Hall. destruct Hall as [Hx Hr].
  cbn [py_max] in Hmax. injection Hmax as <-.
  split; [discriminate | apply fold_max_depth; assumption].
Qed.

Lemma for_each_raise_if (cond : Z -> bool) (msg : string) (l : list Z) :
  for_each (fun lag => raise_if (cond lag) msg) l = Ok tt ->
  Forall (fun x => cond x = false) l.
Proof.
  induction l as [|x r IH]; intros Hrun; [constructor|].
  cbn [for_each] in Hrun. apply bind_ok in Hrun. destruct Hrun as [u [Hx Hr]].
  apply raise_if_ok in Hx. constructor; [exact Hx | apply IH].
  destruct (for_each _ r) as [[]|]; [reflexivity | discriminate].
Qed.

Lemma py_range_positive (k : Z) : Forall (fun x => 0 < x) (py_range 1 (k + 1)).
Proof.
  unfold py_range. apply Forall_forall. intros x Hx.
  apply in_map_iff in Hx. destruct Hx as [i [<- _]]. lia.
Qed.

Lemma lag_depth_app (a b : list Z) :
  lag_depth (a ++ b) = Nat.max (lag_depth a) (lag_depth b).
Proof. unfold lag_depth. rewrite map_app. apply list_max_app. Qed.

Section Configured.

Context {E Kw : Type} `{Estimator E Kw}.

Lemma init_configured la lx (ma : option E) self :
  __init__ la lx ma = Ok self -> configured self.
Proof.
  unfold __init__. intros Hinit.
  do 6 (apply bind_ok in Hinit; destruct Hinit as [? [_ Hinit]]).
  apply bind_ok in Hinit. destruct Hinit as [sl [Hsl Hinit]].
  apply bind_ok in Hinit. destruct Hinit as [sle [Hsle Hinit]].
  apply bind_ok in Hinit. destruct Hinit as [ml [Hml Hinit]].
  injection Hinit as <-.
  assert (Hlp : forall l, sl = Some l -> Forall (fun x => 0 < x) l).
  { intros l ->. destruct la as [[k|l0|]|]; try discriminate.
    - apply bind_ok in Hsl. destruct Hsl as [u [_ Hsl]]. injection Hsl as <-.
      apply py_range_positive.
    - apply bind_ok in Hsl. destruct Hsl as [[] [Hfor Hsl]]. injection Hsl as <-.
      apply for_each_raise_if in Hfor.
      eapply Forall_impl; [|exact Hfor]. intros z Hz. simpl in Hz.
      apply Z.leb_gt in Hz. exact Hz. }
  assert (Hlep : forall le, sle = Some le -> Forall (fun x => 0 <= x) le).
  { intros le ->. destruct lx as [[[|]|k|l0|]|]; try discriminate.
    - destruct sl as [l|]; [|discriminate]. injection Hsle as <-.
      eapply Forall_impl; [|exact (Hlp l eq_refl)]. intros z Hz. simpl in Hz. lia.
    - injection Hsle as <-. constructor; [lia | constructor].
    - apply bind_ok in Hsle. destruct Hsle as [u [_ Hsle]]. injection Hsle as <-.
      eapply Forall_impl; [|apply py_range_positive]. intros z Hz. simpl in Hz. lia.
    - apply bind_ok in Hsle. destruct Hsle as [[] [Hfor Hsle]]. injection Hsle as <-.
      apply for_each_raise_if in Hfor.
      eapply Forall_impl; [|exact Hfor]. intros z Hz. simpl in Hz.
      apply Z.ltb_ge in Hz. exact Hz. }
  assert (Hnn : forall l, sl = Some l -> Forall (fun x => 0 <= x) l).
  { intros l Hl. eapply Forall_impl; [|exact (Hlp l Hl)].
    intros z Hz. simpl in Hz. lia. }
  unfold configured, lags_used. cbn [lags lags_exog max_lag].
  destruct sl as [l|], sle as [le|]; try discriminate.
  - apply bind_ok in Hml. destruct Hml as [a [Ha Hml]].
    apply bind_ok in Hml. destruct Hml as [b [Hb Hml]].
    apply py_max_depth in Ha; [|apply Hnn; reflexivity].
    apply py_max_depth in Hb; [|apply Hlep; reflexivity].
    destruct Ha as [Hl ->]. destruct Hb as [Hle ->].
    cbn [py_max fold_left] in Hml. injection Hml as <-.
    split; [|split; [|split]].
    + intros l1 Hl1. injection Hl1 as <-. split; [exact Hl | apply Hlp; reflexivity].
    + intros l1 Hl1. injection Hl1 as <-. split; [exact Hle | apply Hlep; reflexivity].
    + left. discriminate.
    + rewrite lag_depth_app. lia.
  - apply py_max_depth in Hml; [|apply Hnn; reflexivity]. destruct Hml as [Hl ->].
    split; [|split; [|split]].
    + intros l1 Hl1. injection Hl1 as <-. split; [exact Hl | apply Hlp; reflexivity].
    + intros l1 Hl1. discriminate.
    + left. discriminate.
    + rewrite app_nil_r. reflexivity.
  - apply py_max_depth in Hml; [|apply Hlep; reflexivity]. destruct Hml as [Hle ->].
    split; [|split; [|split]].
    + intros l1 Hl1. discriminate.
    + intros l1 Hl1. injection Hl1 as <-. split; [exact Hle | apply Hlep; reflexivity].
    + right. discriminate.
    + reflexivity.
Qed.

End Configured.

(** ** What [dropna] leaves *)

Lemma take_rows_length {A : Type} (ps : list nat) (l : list A) :
  Forall (fun i => (i < length l)%nat) ps -> length (take_rows ps l) = length ps.
Proof.
  induction 1 as [|i ps Hi Hps IH]; [reflexivity|].
  rewrite take_rows_cons, length_app, IH.
  destruct (nth_error l i) eqn:Hnth; [reflexivity|].
  apply nth_error_None in Hnth. lia.
Qed.

Lemma take_rows_in {A : Type} (ps : list nat) (l : list A) (x : A) :
  In x (take_rows ps l) -> exists i, In i ps /\ nth_error l i = Some x.
Proof.
  unfold take_rows. intros Hin. apply in_flat_map in Hin.
  destruct Hin as (i & Hi & Hx). exists i. split; [exact Hi|].
  destruct (nth_error l i) as [y|]; [|contradiction].
  destruct Hx as [->|[]]. reflexivity.
Qed.

(** After [dropna], a frame whose columns were as long as its index has
    columns as long as its new index, and no NaN. *)
Lemma dropna_complete (df : DataFrame) :
  Forall (fun c => length (snd c) = df_len df) (df_cols df) ->
  Forall (fun c => length (snd c) = df_len (dropna df)
                   /\ Forall (fun v => notna v = true) (snd c))
         (df_cols (dropna df)).
Proof.
  intros Hrect. unfold dropna, df_len. cbn [df_index df_cols].
  set (keep := filter (row_complete (df_cols df)) (seq 0 (length (df_index df)))).
  assert (Hkeep : forall i, In i keep ->
                            (i < length (df_index df))%nat
                            /\ row_complete (df_cols df) i = true).
  { intros i Hi. subst keep. apply filter_In in Hi. destruct Hi as [Hi Hrow].
    apply in_seq in Hi. split; [lia | exact Hrow]. }
  apply Forall_map. apply Forall_forall. intros c Hc. cbn [snd].
  rewrite Forall_forall in Hrect. specialize (Hrect c Hc). unfold df_len in Hrect.
  split.
  - rewrite !take_rows_length; [reflexivity | |];
      apply Forall_forall; intros i Hi; destruct (Hkeep i Hi); lia.
  - apply Forall_forall. intros v Hv. apply take_rows_in in Hv.
    destruct Hv as (i & Hi & Hnth). destruct (Hkeep i Hi) as [_ Hrow].
    rewrite row_complete_iff in Hrow. specialize (Hrow c Hc).
    rewrite Hnth in Hrow. exact Hrow.
Qed.

Lemma pd_concat_rectangular (frames : list DataFrame) (D : DataFrame) :
  pd_concat frames = Ok D ->
  Forall (fun c => length (snd c) = df_len D) (df_cols D).
Proof.
  intros HD.
  assert (Hshape :
            let idx := fold_right (fun f acc => index_union (df_index f) acc)
                                  [] frames in
            D = {| df_index := idx; df_cols := flat_map (reindex idx) frames |}).
  { unfold pd_concat in HD. destruct frames; [discriminate|].
    cbv zeta in *. symmetry. assert (Hinj : forall a b : DataFrame, Ok a = Ok b -> a = b)
      by (intros a b Hab; congruence).
    apply Hinj. exact HD. }
  cbv zeta in Hshape. rewrite Hshape. unfold df_len. cbn [df_index df_cols].
  apply Forall_forall. intros c Hc. apply in_flat_map in Hc.
  destruct Hc as (F' & _ & Hc). unfold reindex in Hc. apply in_map_iff in Hc.
  destruct Hc as (c0 & <- & _). cbn [snd]. apply length_map.
Qed.

Lemma one_row_cells (df : DataFrame) :
  df_len df = 1%nat ->
  Forall (fun c => length (snd c) = df_len df
                   /\ Forall (fun v => notna v = true) (snd c))
         (df_cols df) ->
  feature_row df.
Proof.
  intros Hone Hcells. split; [exact Hone|].
  eapply Forall_impl; [|exact Hcells]. intros c [Hlen Hdef]. cbn beta.
  rewrite Hone in Hlen. destruct (snd c) as [|[v|] [|y r]]; try discriminate.
  - exists v. reflexivity.
  - apply Forall_inv in Hdef. discriminate.
Qed.

(** ** The lag-feature builder on series without NaN *)

Lemma filter_none {A : Type} (f : A -> bool) (l : list A) :
  (forall x, In x l -> f x = false) -> filter f l = [].
Proof.
  induction l as [|x l IH]; intros Hall; [reflexivity|].
  cbn [filter]. rewrite (Hall x (or_introl eq_refl)).
  apply IH. intros y Hy. apply Hall. right. exact Hy.
Qed.

Lemma filter_unique (cols : list (string * list (option Z))) c :
  NoDup (map fst cols) -> In c cols ->
  filter (fun c' => String.eqb (fst c') (fst c)) cols = [c].
Proof.
  induction cols as [|c0 r IH]; intros Hnd Hin; [contradiction|].
  cbn [map] in Hnd. apply NoDup_cons_iff in Hnd. destruct Hnd as [Hnot Hnd].
  cbn [filter]. destruct Hin as [->|Hin].
  - rewrite String.eqb_refl. f_equal. apply filter_none.
    intros c' Hc'. apply String.eqb_neq. intros Heq. apply Hnot.
    rewrite <- Heq. apply in_map. exact Hc'.
  - replace (String.eqb (fst c0) (fst c)) with false.
    + apply IH; assumption.
    + symmetry. apply String.eqb_neq. intros Heq. apply Hnot.
      rewrite Heq. apply in_map. exact Hin.
Qed.

Lemma getitem_one_col (ts : TimeSeries) c :
  NoDup (columns ts) -> In c (df_cols (ts_df ts)) ->
  getitem_cols [fst c] ts
  = Ok {| ts_df := {| df_index := time_index ts; df_cols := [c] |};
          ts_freq := ts_freq ts |}.
Proof.
  intros Hnd Hin. unfold getitem_cols. cbn [select_cols].
  rewrite (filter_unique _ c Hnd Hin). reflexivity.
Qed.

Lemma exog_lagged_data_ok (idx : list Z) (e : TimeSeries) (le : list Z) :
  clean_on idx (ts_df e) ->
  le <> [] ->
  Forall (fun l => 0 <= l) le ->
  forall names,
    (forall nm, In nm names -> In nm (columns e)) ->
    exists frames,
      exog_lagged_data e le names = Ok frames
      /\ Forall (complete_from idx (lag_depth le)) frames
      /\ length frames = length names.
Proof.
  intros (Hidx & Hnd & Hcols) Hne Hpos. induction names as [|nm names IH]; intros Hin.
  - exists []. repeat split. constructor.
  - destruct IH as (frames & Hrun & Hall & Hlen).
    { intros nm' Hnm'. apply Hin. right. exact Hnm'. }
    assert (Hnm : In nm (columns e)) by (apply Hin; left; reflexivity).
    unfold columns, df_columns in Hnm. apply in_map_iff in Hnm.
    destruct Hnm as [[nm' vals] [Hfst Hc]]. cbn [fst] in Hfst. subst nm'.
    cbn [exog_lagged_data].
    change nm with (fst (nm, vals)) at 1.
    rewrite (getitem_one_col e (nm, vals) Hnd Hc). cbn [bind].
    rewrite Forall_forall in Hcols. destruct (Hcols _ Hc) as [Hl Hdef].
    cbn [snd] in Hl, Hdef.
    unfold time_index. rewrite Hidx.
    destruct (create_lagged_data_ok idx nm vals (ts_freq e) le Hl Hdef Hne Hpos)
      as (F & HF & Hcf).
    rewrite HF. cbn [bind]. rewrite Hrun. cbn [bind].
    exists (F :: frames). repeat split.
    + constructor; assumption.
    + cbn [length]. rewrite Hlen. reflexivity.
Qed.

Lemma Forall2_repeat {A B : Type} (P : A -> B -> Prop) (a : A) (l : list B) :
  Forall (P a) l -> Forall2 P (repeat a (length l)) l.
Proof. induction 1; cbn [length repeat]; constructor; assumption. Qed.

Lemma list_max_repeat (m k : nat) : (0 < k)%nat -> list_max (repeat m k) = m.
Proof.
  induction k as [|k IH]; intros Hk; [lia|].
  cbn [repeat]. change (list_max (m :: repeat m k)) with (Nat.max m (list_max (repeat m k))).
  destruct k as [|k]; [cbn; lia|]. rewrite IH by lia. lia.
Qed.

Section Builder.

Context {E Kw : Type} `{Estimator E Kw}.

Variable self : RegressionModel E.
Variable idx : list Z.
Variable series : TimeSeries.
Variable exog : option TimeSeries.

Hypothesis self_configured : configured self.
Hypothesis idx_sorted : StronglySorted Z.lt idx.
Hypothesis series_clean : clean_on idx (ts_df series).
Hypothesis series_univariate : width series = 1%nat.
Hypothesis exog_presence : is_some exog = is_some (lags_exog self).
Hypothesis exog_clean :
  forall e, exog = Some e -> clean_on idx (ts_df e) /\ (1 <= width e)%nat.

(** The feature table is built, on the rows from the largest lag on. *)
Lemma training_data_index :
  exists x,
    _create_training_data self series exog = Ok x
    /\ time_index x = skipn (lag_depth (lags_used self)) idx
    /\ freq x = freq series
    /\ Forall (fun c => length (snd c) = ts_len x
                        /\ Forall (fun v => notna v = true) (snd c))
              (df_cols (ts_df x)).
Proof.
  destruct self_configured as (Hl & Hle & Hsome & _).
  unfold _create_training_data. rewrite series_univariate. cbn [Nat.ltb Nat.leb raise_if bind].
  (* the target part *)
  assert (Htarget :
            exists part,
              match lags self with
              | Some l => (lagged_data <- _create_lagged_data series l ;; Ok [lagged_data])%py
              | None => Ok []
              end = Ok part
              /\ Forall (complete_from idx
                           (lag_depth match lags self with Some l => l | None => [] end))
                        part
              /\ length part = match lags self with Some _ => 1%nat | None => 0%nat end).
  { destruct (lags self) as [l|] eqn:Hlags.
    - destruct (Hl l eq_refl) as [Hne Hpos].
      destruct series as [[sidx scols] sfreq].
      destruct series_clean as (Hsi & _ & Hsc). cbn [ts_df df_index df_cols] in *.
      unfold width, df_width in series_univariate. cbn [ts_df df_cols] in series_univariate.
      destruct scols as [|[name vals] [|c2 r]]; try discriminate.
      apply Forall_inv in Hsc. destruct Hsc as [Hlen Hdef]. cbn [snd] in *. subst sidx.
      destruct (create_lagged_data_ok idx name vals sfreq l Hlen Hdef Hne)
        as (F & HF & Hcf).
      { eapply Forall_impl; [|exact Hpos]. intros z Hz. simpl in Hz. lia. }
      rewrite HF. cbn [bind]. exists [F]. repeat split. constructor; [exact Hcf | constructor].
    - exists []. repeat split. constructor. }
  destruct Htarget as (tpart & -> & Htall & Htlen). cbn [bind].
  (* the exogenous part *)
  assert (Hexog :
            exists part,
              match lags_exog self with
              | Some le => (e <- attr exog ;; exog_lagged_data e le (columns e))%py
              | None => Ok []
              end = Ok part
              /\ Forall (complete_from idx
                           (lag_depth match lags_exog self with Some le => le | None => [] end))
                        part
              /\ (lags_exog self <> None -> part <> [])
              /\ (lags_exog self = None -> part = [])).
  { destruct (lags_exog self) as [le|] eqn:Hlex.
    - destruct exog as [e|]; [|discriminate exog_presence].
      destruct (exog_clean e eq_refl) as [Hclean Hw].
      destruct (Hle le eq_refl) as [Hne Hpos].
      destruct (exog_lagged_data_ok idx e le Hclean Hne Hpos (columns e))
        as (frames & Hrun & Hall & Hlen); [auto|].
      cbn [attr bind]. rewrite Hrun. exists frames.
      split; [reflexivity|]. split; [exact Hall|]. split; [|discriminate].
      intros _ Hnil. subst frames. cbn [length] in Hlen.
      unfold columns, df_columns in Hlen. rewrite length_map in Hlen.
      unfold width, df_width in Hw. lia.
    - exists []. split; [reflexivity|]. split; [constructor|].
      split; [congruence | reflexivity]. }
  destruct Hexog as (epart & -> & Heall & Hene & Henone). cbn [bind].
  set (mt := lag_depth match lags self with Some l => l | None => [] end) in *.
  set (me := lag_depth match lags_exog self with Some le => le | None => [] end) in *.
  assert (Hall2 : Forall2 (complete_from idx)
                          (repeat mt (length tpart) ++ repeat me (length epart))
                          (tpart ++ epart)).
  { apply Forall2_app; apply Forall2_repeat; assumption. }
  assert (Hne : tpart ++ epart <> []).
  { destruct Hsome as [Hs|Hs].
    - destruct (lags self); [|congruence].
      destruct tpart; [discriminate Htlen | discriminate].
    - specialize (Hene Hs). destruct tpart; [exact Hene | discriminate]. }
  destruct (concat_dropna_index idx idx_sorted _ _ Hall2 Hne) as (D & HD & Hidx).
  rewrite HD. cbn [bind]. eexists. split; [reflexivity|].
  split; [|split; [reflexivity|]];
    [|unfold ts_len; cbn [ts_df]; apply dropna_complete;
      eapply pd_concat_rectangular; exact HD].
  unfold time_index. cbn [ts_df]. rewrite Hidx. f_equal.
  rewrite list_max_app. unfold lags_used. rewrite lag_depth_app. fold mt me.
  assert (Ht : list_max (repeat mt (length tpart)) = mt).
  { rewrite Htlen. subst mt. destruct (lags self); [cbn; lia | reflexivity]. }
  assert (He : list_max (repeat me (length epart)) = me).
  { subst me. destruct (lags_exog self) as [le|] eqn:Hlex.
    - apply list_max_repeat.
      assert (Hp : epart <> []) by (apply Hene; discriminate).
      destruct epart; [congruence | cbn; lia].
    - rewrite (Henone eq_refl). reflexivity. }
  rewrite Ht, He. reflexivity.
Qed.

End Builder.

Lemma shifted_cell_defined (lag : Z) (col : list (option Z)) (p : nat) :
  0 <= lag -> (p < length col)%nat -> Forall (fun v => notna v = true) col ->
  (exists v, nth_error (shift lag col) p = Some (Some v)) <-> (Z.to_nat lag <= p)%nat.
Proof.
  intros Hlag Hp Hdef. pose proof (shift_defined lag col p Hlag Hp Hdef) as Hsd.
  rewrite <- Nat.leb_le, <- Hsd. split.
  - intros [v ->]. reflexivity.
  - destruct (nth_error (shift lag col) p) as [[v|]|]; try discriminate.
    intros _. exists v. reflexivity.
Qed.

(** C6.  For a constructed model, a one-column target series without
    missing values on a strictly increasing time index and, when
    exogenous lags are configured, an exogenous series on the same index
    without missing values, the lag-feature builder returns a table whose
    row count is the input row count minus [max_lag] (the largest
    configured lag; no row is left when the input has fewer), whose rows
    are the input rows from position [max_lag] on, and whose timestamps
    are exactly those at which every requested shifted value is
    defined. *)
Theorem builder_row_count {E Kw : Type} `{Estimator E Kw}
        (self : RegressionModel E) (series : TimeSeries) (exog : option TimeSeries) :
  configured self ->
  StronglySorted Z.lt (time_index series) ->
  clean_on (time_index series) (ts_df series) ->
  width series = 1%nat ->
  is_some exog = is_some (lags_exog self) ->
  (forall e, exog = Some e ->
             clean_on (time_index series) (ts_df e) /\ (1 <= width e)%nat) ->
  exists x,
    _create_training_data self series exog = Ok x
    /\ ts_len x = (ts_len series - Z.to_nat (max_lag self))%nat
    /\ time_index x = skipn (Z.to_nat (max_lag self)) (time_index series)
    /\ (forall t,
           In t (time_index x)
           <-> exists p,
               nth_error (time_index series) p = Some t
               /\ (forall l, lags self = Some l ->
                             shifted_defined (ts_df series) l p)
               /\ (forall le e, lags_exog self = Some le -> exog = Some e ->
                                shifted_defined (ts_df e) le p)).
Proof.
  intros Hconf Hsorted Hclean Hwidth Hpres Hexog.
  destruct (training_data_index self (time_index series) series exog
                                Hconf Hsorted Hclean Hwidth Hpres Hexog)
    as (x & Hrun & Hidx & _).
  destruct Hconf as (Hl & Hle & Hsome & Hmax).
  assert (HM : Z.to_nat (max_lag self) = lag_depth (lags_used self))
    by (rewrite Hmax; apply Nat2Z.id).
  rewrite HM. set (M := lag_depth (lags_used self)) in *.
  set (idx := time_index series) in *.
  exists x. split; [exact Hrun|]. split; [|split; [exact Hidx|]].
  { unfold ts_len, df_len. fold (time_index x). fold (time_index series).
    fold idx. rewrite Hidx, length_skipn. reflexivity. }
  assert (Hcol : forall ts lagsl c lag p,
             clean_on idx (ts_df ts) -> Forall (fun z => 0 <= z) lagsl ->
             In c (df_cols (ts_df ts)) -> In lag lagsl -> (p < length idx)%nat ->
             (exists v, nth_error (shift lag (snd c)) p = Some (Some v))
             <-> (Z.to_nat lag <= p)%nat).
  { intros ts lagsl c lag p (_ & _ & Hcols) Hpos Hc Hlag Hp.
    rewrite Forall_forall in Hcols, Hpos. destruct (Hcols c Hc) as [Hlen Hdef].
    apply shifted_cell_defined; [apply Hpos; exact Hlag | lia | exact Hdef]. }
  assert (Hlnn : forall l, lags self = Some l -> Forall (fun z => 0 <= z) l).
  { intros l Hlags. eapply Forall_impl; [|exact (proj2 (Hl l Hlags))].
    intros z Hz. simpl in Hz. lia. }
  intros t. rewrite Hidx. split.
  - intros Hin. apply In_nth_error in Hin. destruct Hin as [j Hj].
    rewrite nth_error_skipn in Hj. exists (M + j)%nat.
    assert (Hp : (M + j < length idx)%nat) by (apply nth_error_Some; congruence).
    assert (Hdepth : forall lag, In lag (lags_used self) -> (Z.to_nat lag <= M + j)%nat).
    { intros lag Hlag.
      pose proof (proj1 (lag_depth_le (lags_used self) M) (Nat.le_refl _) lag Hlag).
      lia. }
    split; [exact Hj|]. split.
    + intros l Hlags c lag Hc Hlag.
      apply (Hcol series l c lag (M + j)%nat Hclean (Hlnn l Hlags) Hc Hlag Hp).
      apply Hdepth. unfold lags_used. rewrite Hlags. apply in_or_app. left. exact Hlag.
    + intros le e Hlex He c lag Hc Hlag.
      apply (Hcol e le c lag (M + j)%nat (proj1 (Hexog e He)) (proj2 (Hle le Hlex))
                  Hc Hlag Hp).
      apply Hdepth. unfold lags_used. rewrite Hlex. apply in_or_app. right. exact Hlag.
  - intros (p & Hp & Htarget & Hexo).
    assert (Hplt : (p < length idx)%nat) by (apply nth_error_Some; congruence).
    assert (HMp : (M <= p)%nat).
    { apply lag_depth_le. intros lag Hlag. unfold lags_used in Hlag.
      apply in_app_or in Hlag. destruct Hlag as [Hlag|Hlag].
      - destruct (lags self) as [l|] eqn:Hlags; [|contradiction].
        destruct (df_cols (ts_df series)) as [|c r] eqn:Hcols;
          [unfold width, df_width in Hwidth; rewrite Hcols in Hwidth; discriminate|].
        assert (Hc : In c (df_cols (ts_df series))) by (rewrite Hcols; left; reflexivity).
        apply (Hcol series l c lag p Hclean (Hlnn l eq_refl) Hc Hlag Hplt).
        apply (Htarget l eq_refl c lag Hc Hlag).
      - destruct (lags_exog self) as [le|] eqn:Hlex; [|contradiction].
        destruct exog as [e|]; [|discriminate Hpres].
        destruct (Hexog e eq_refl) as [Heclean Hw].
        destruct (df_cols (ts_df e)) as [|c r] eqn:Hcols;
          [unfold width, df_width in Hw; rewrite Hcols in Hw; cbn in Hw; lia|].
        assert (Hc : In c (df_cols (ts_df e))) by (rewrite Hcols; left; reflexivity).
        apply (Hcol e le c lag p Heclean (proj2 (Hle le eq_refl)) Hc Hlag Hplt).
        apply (Hexo le e eq_refl eq_refl c lag Hc Hlag). }
    apply (nth_error_In _ (p - M)). rewrite nth_error_skipn.
    replace (M + (p - M))%nat with p by lia. exact Hp.
Qed.

Lemma ten_days_sorted : StronglySorted Z.lt (time_index ten_days).
Proof. repeat (constructor; try reflexivity). Qed.

Lemma series_of_clean (name : string) (values : list Z) :
  clean_on (map (fun i => 1 + Z.of_nat i) (seq 0 (length values)))
           (ts_df (series_of name 1 values)).
Proof.
  split; [reflexivity|]. split.
  - constructor; [intros [] | constructor].
  - constructor; [|constructor]. cbn [snd]. split.
    + rewrite !length_map, length_seq. reflexivity.
    + apply Forall_map. apply Forall_forall. intros v _. reflexivity.
Qed.

Lemma builder_row_count_witness :
  exists x,
    _create_training_data ar2_exog0 ten_days (Some (ten_days_exog "a")) = Ok x
    /\ ts_len x = 8%nat
    /\ time_index x = [3; 4; 5; 6; 7; 8; 9; 10].
Proof.
  assert (Hconf : configured ar2_exog0).
  { apply (init_configured (Some (LagsList [1; 2])) (Some (ExogBool false))
                           (Some (SumModel false 0))).
    reflexivity. }
  assert (Hexog : forall e, Some (ten_days_exog "a") = Some e ->
                            clean_on (time_index ten_days) (ts_df e)
                            /\ (1 <= width e)%nat).
  { intros e He. injection He as <-. split; [apply series_of_clean | cbn; lia]. }
  destruct (builder_row_count ar2_exog0 ten_days (Some (ten_days_exog "a"))
                              Hconf ten_days_sorted (series_of_clean "y" _)
                              eq_refl eq_refl Hexog)
    as (x & Hrun & Hlen & Hidx & _).
  exists x. split; [exact Hrun|]. split; [exact Hlen | exact Hidx].
Defined.

(** ** The rows of the rolling window *)

Lemma removelast_seq (a k : nat) : removelast (seq a k) = seq a (pred k).
Proof.
  destruct k as [|k]; [reflexivity|].
  rewrite seq_S, removelast_last. reflexivity.
Qed.

Lemma removelast_map {A B : Type} (f : A -> B) (l : list A) :
  removelast (map f l) = map f (removelast l).
Proof.
  induction l as [|x l IH]; [reflexivity|].
  destruct l as [|y l]; [reflexivity|].
  cbn [map removelast] in *. rewrite IH. reflexivity.
Qed.

Lemma nth_slice_to_minus_one (l : list (option Z)) (i : nat) :
  (i < pred (length l))%nat -> nth i (slice_to (-1) l) None = nth i l None.
Proof.
  intros Hi. unfold slice_to. replace (-1 <? 0) with true by reflexivity.
  rewrite nth_firstn.
  replace (i <? Z.to_nat (Z.max 0 (Z.of_nat (length l) + -1)))%nat with true;
    [reflexivity|].
  symmetry. apply Nat.ltb_lt. lia.
Qed.

Lemma nth_slice_from_one (l : list (option Z)) (i : nat) :
  nth i (slice_from 1 l) None = nth (S i) l None.
Proof.
  unfold slice_from. replace (1 <? 0) with false by reflexivity.
  change (Z.to_nat 1) with 1%nat. destruct l as [|x l]; [destruct i; reflexivity|].
  reflexivity.
Qed.

Lemma rows_of_getitem_to (k : nat) (ts : TimeSeries) :
  rows_exactly k ts ->
  ts_rows (getitem_to (-1) ts) = removelast (ts_rows ts).
Proof.
  intros [Hidx Hcols]. unfold ts_rows, ts_len, df_len, getitem_to.
  cbn [ts_df df_index df_cols]. unfold time_index in *.
  rewrite slice_to_minus_one_length, Hidx, removelast_map, removelast_seq.
  apply map_ext_in. intros i Hi. apply in_seq in Hi.
  unfold df_row. cbn [df_cols]. rewrite map_map. apply map_ext_in.
  intros c Hc. cbn [snd]. apply nth_slice_to_minus_one.
  rewrite Forall_forall in Hcols. rewrite (Hcols c Hc). lia.
Qed.

Lemma rows_of_getitem_from (k : nat) (ts : TimeSeries) :
  rows_exactly k ts ->
  ts_rows (getitem_from 1 ts) = tl (ts_rows ts).
Proof.
  intros [Hidx Hcols]. unfold ts_rows, ts_len, df_len, getitem_from.
  cbn [ts_df df_index df_cols]. unfold time_index in *.
  rewrite slice_from_one_length, Hidx.
  destruct k as [|k]; [reflexivity|].
  cbn [pred seq map tl]. rewrite <- seq_shift, map_map.
  apply map_ext. intros i.
  unfold df_row. cbn [df_cols]. rewrite map_map. apply map_ext.
  intros c. cbn [snd]. apply nth_slice_from_one.
Qed.

Lemma combine_seq_map {A B : Type} (f : nat -> B) (l : list A) :
  forall a, map (fun jc => f (fst jc)) (combine (seq a (length l)) l)
            = map f (seq a (length l)).
Proof.
  induction l as [|x l IH]; intros a; [reflexivity|].
  cbn [length seq combine map fst]. rewrite IH. reflexivity.
Qed.

Lemma map_combine_seq {A B : Type} (g : nat * A -> B) (f : A -> B) (l : list A) :
  forall a,
    (forall j c, In (j, c) (combine (seq a (length l)) l) -> g (j, c) = f c) ->
    map g (combine (seq a (length l)) l) = map f l.
Proof.
  induction l as [|x l IH]; intros a Hall; [reflexivity|].
  cbn [length seq combine map]. f_equal.
  - apply Hall. left. reflexivity.
  - apply IH. intros j c Hjc. apply Hall. right. exact Hjc.
Qed.

Lemma map_nth_seq (r : list (option Z)) :
  map (fun j => nth j r None) (seq 0 (length r)) = r.
Proof.
  apply nth_ext with (d := None) (d' := None).
  - rewrite length_map, length_seq. reflexivity.
  - intros i Hi. rewrite length_map, length_seq in Hi.
    rewrite (nth_indep _ None (nth 0 r None)) by (rewrite length_map, length_seq; lia).
    rewrite (map_nth (fun j => nth j r None)), seq_nth by lia. reflexivity.
Qed.

Lemma rows_of_append_one (k : nat) (r : list (option Z)) (ts ts' : TimeSeries) :
  rows_exactly k ts ->
  append_values [r] ts = Ok ts' ->
  ts_rows ts' = ts_rows ts ++ [r].
Proof.
  intros Hrows Happ.
  pose proof (rows_append_values k [r] ts ts' ltac:(discriminate) Happ Hrows)
    as [Hidx' _].
  destruct (append_values_ok [r] ts ts' ltac:(discriminate) Happ)
    as (last & _ & Hshape & _ & Hc & _).
  destruct Hrows as [Hidx Hcols]. apply Forall_inv in Hshape.
  unfold ts_rows, ts_len, df_len. unfold time_index in *.
  rewrite Hidx', Hidx. cbn [length]. rewrite Nat.add_1_r, seq_S, map_app.
  cbn [map Nat.add]. f_equal.
  - apply map_ext_in. intros i Hi. apply in_seq in Hi.
    unfold df_row. rewrite Hc, map_map. cbn [snd].
    unfold width, df_width. apply map_combine_seq.
    intros j c Hjc. cbn [fst snd].
    apply in_combine_r in Hjc. rewrite Forall_forall in Hcols.
    apply app_nth1. rewrite (Hcols c Hjc). lia.
  - f_equal. unfold df_row. rewrite Hc, map_map. cbn [snd fst].
    unfold width, df_width in *.
    transitivity (map (fun jc : nat * (string * list (option Z)) => nth (fst jc) r None)
                      (combine (seq 0 (length (df_cols (ts_df ts))))
                               (df_cols (ts_df ts)))).
    + apply map_ext_in. intros [j c] Hjc. cbn [fst snd].
      apply in_combine_r in Hjc. rewrite Forall_forall in Hcols.
      rewrite app_nth2 by (rewrite (Hcols c Hjc); lia).
      rewrite (Hcols c Hjc), Nat.sub_diag. reflexivity.
    + rewrite (combine_seq_map (fun j => nth j r None)), <- Hshape.
      apply map_nth_seq.
Qed.

Lemma removelast_app_one {A : Type} (l : list A) (x : A) :
  removelast (l ++ [x]) = l.
Proof. apply removelast_last. Qed.

Section WindowRows.

Context {E Kw : Type} `{Estimator E Kw}.

(** Putting this step's exogenous values in the placeholder row changes
    the last row of the window only. *)
Lemma prepare_window_keeps_history (self : RegressionModel E) exog i (k : nat) w0 w :
  max_lag self <> 0 ->
  rows_exactly (S k) w0 ->
  prepare_window self exog i (Some w0) = Ok (Some w) ->
  removelast (ts_rows w) = removelast (ts_rows w0).
Proof.
  intros Hml Hrows. unfold prepare_window.
  destruct (match lags_exog self with Some le => existsb (Z.eqb 0) le | None => false end).
  - intros Hp. apply bind_ok in Hp. destruct Hp as [e [_ Hp]].
    apply bind_ok in Hp. destruct Hp as [values [_ Hp]].
    apply Z.eqb_neq in Hml. rewrite Hml in Hp.
    simpl in Hp. apply bind_ok in Hp. destruct Hp as [w' [Happ Hp]].
    injection Hp as <-.
    apply (rows_of_append_one k) in Happ; [|apply rows_getitem_to; exact Hrows].
    rewrite Happ, removelast_app_one. apply (rows_of_getitem_to (S k)). exact Hrows.
  - intros Hp. injection Hp as <-. reflexivity.
Qed.

Lemma forecast_row_head (forecast : list row_pred) (r : list (option Z)) (f : option Z) :
  forecast_row forecast = Ok r -> forecast0 forecast = Ok f -> hd_error r = Some f.
Proof.
  unfold forecast0, item. destruct forecast as [|[v|a] rest]; try discriminate.
  cbn [nth_error bind forecast_row]. intros Hr Hf. injection Hf as <-.
  destruct (forecast_row rest) as [rest'|]; [|discriminate].
  injection Hr as <-. reflexivity.
Qed.

(** The window after a step: the history without its oldest row, the row
    of the new forecast, and a fresh placeholder. *)
Lemma advance_window_rows_content (self : RegressionModel E) exog d i forecast
      (k : nat) w w' f :
  0 < max_lag self ->
  rows_exactly (S k) w ->
  advance_window self exog (Some [d]) i forecast w = Ok w' ->
  forecast0 forecast = Ok f ->
  exists row,
    ts_rows w' = tl (removelast (ts_rows w) ++ [row; d])
    /\ hd_error row = Some f.
Proof.
  intros Hml Hrows. unfold advance_window.
  apply Z.ltb_lt in Hml. rewrite Hml.
  intros Ha Hf. apply bind_ok in Ha. destruct Ha as [ec [_ Ha]].
  apply bind_ok in Ha. destruct Ha as [append_row [Hrow Ha]].
  assert (Hone : exists row, append_row = [row] /\ hd_error row = Some f).
  { destruct ec.
    - apply bind_ok in Hrow. destruct Hrow as [f' [Hf' Hrow]].
      apply bind_ok in Hrow. destruct Hrow as [e [_ Hrow]].
      apply bind_ok in Hrow. destruct Hrow as [values [_ Hrow]].
      injection Hrow as <-. eexists. split; [reflexivity|]. cbn. congruence.
    - apply bind_ok in Hrow. destruct Hrow as [r [Hr Hrow]].
      injection Hrow as <-. exists r. split; [reflexivity|].
      eapply forecast_row_head; eassumption. }
  destruct Hone as (row & -> & Hhd).
  apply bind_ok in Ha. destruct Ha as [w2 [Hw2 Ha]].
  apply bind_ok in Ha. destruct Ha as [d' [Hd Ha]]. injection Hd as <-.
  apply bind_ok in Ha. destruct Ha as [w3 [Hw3 Ha]]. injection Ha as <-.
  pose proof (rows_getitem_to k w Hrows) as Hr1.
  pose proof (rows_append_values k [row] _ w2 ltac:(discriminate) Hw2 Hr1) as Hr2.
  pose proof (rows_append_values _ [d] _ w3 ltac:(discriminate) Hw3 Hr2) as Hr3.
  exists row. split; [|exact Hhd].
  rewrite (rows_of_getitem_from _ w3 Hr3).
  rewrite (rows_of_append_one _ d w2 w3 Hr2 Hw3).
  rewrite (rows_of_append_one _ row _ w2 Hr1 Hw2).
  rewrite (rows_of_getitem_to _ w Hrows), <- app_assoc. reflexivity.
Qed.

Lemma predict_step_window (self : RegressionModel E) exog (kwargs : Kw) d
      i (k : nat) w0 forecasts calls calls' w1 forecasts' :
  0 < max_lag self ->
  rows_exactly (S k) w0 ->
  predict_step self exog kwargs (Some [d]) i (Some w0, forecasts) calls
  = (calls', Ok (w1, forecasts')) ->
  exists w' row f,
    w1 = Some w'
    /\ rows_exactly (S k) w'
    /\ ts_rows w' = tl (removelast (ts_rows w0) ++ [row; d])
    /\ hd_error row = Some f
    /\ nth_error forecasts' i = Some f.
Proof.
  intros Hml Hrows Hstep. apply predict_step_ok in Hstep.
  destruct Hstep as (w & X & out & forecast & w' & f & fc1 & Hprep & _ & _
                     & _ & _ & Hadv & Hf & Hset & Hst).
  injection Hst as -> ->.
  assert (Hml' : max_lag self <> 0) by lia.
  pose proof (prepare_window_rows self exog i k w0 w Hml' Hrows Hprep) as Hrw.
  pose proof (prepare_window_keeps_history self exog i k w0 w Hml' Hrows Hprep) as Hhist.
  destruct (advance_window_rows_content self exog d i forecast k w w' f
                                        Hml Hrw Hadv Hf) as (row & Hcontent & Hhd).
  exists w', row, f. split; [reflexivity|]. split.
  - eapply advance_window_rows; [exact Hrw | exact Hadv].
  - rewrite <- Hhist. split; [exact Hcontent|]. split; [exact Hhd|].
    apply setitem_ok in Hset. tauto.
Qed.

(** The seed window [fit] stores has [max_lag] rows when the training
    series has at least that many. *)
Lemma fit_seed_rows series exog (kwargs : Kw) (self0 self : RegressionModel E) (n : nat) :
  0 < max_lag self0 ->
  fit series exog kwargs self0 = (self, Ok tt) ->
  rows_exactly n series ->
  (forall e, exog = Some e -> rows_exactly n e) ->
  (Z.to_nat (max_lag self0) <= n)%nat ->
  exists sd,
    prediction_data self = Some (AsSeries sd)
    /\ rows_exactly (Z.to_nat (max_lag self0)) sd.
Proof.
  intros Hml Hfit [Hsi Hsc] Hexog Hn. apply fit_ok in Hfit.
  destruct Hfit as (_ & _ & _ & _ & _ & _ & _ & _ & Hseed).
  rewrite Hseed. unfold seed_of.
  replace (max_lag self0 =? 0) with false by (symmetry; apply Z.eqb_neq; lia).
  eexists. split; [reflexivity|].
  set (X := match exog with Some e => stack series e | None => series end).
  assert (HX : rows_exactly n X).
  { subst X. destruct exog as [e|]; [|split; assumption].
    destruct (Hexog e eq_refl) as [Hei Hec]. split; [exact Hsi|].
    unfold stack. cbn [ts_df df_cols]. apply Forall_app. split; assumption. }
  destruct HX as [HXi HXc]. unfold getitem_from, rows_exactly, time_index in *.
  cbn [ts_df df_index df_cols]. split.
  - rewrite slice_from_neg_length by lia. lia.
  - apply Forall_map. eapply Forall_impl; [|exact HXc]. intros c Hc. cbn [snd] in *.
    rewrite slice_from_neg_length by lia. lia.
Qed.

End WindowRows.

(** C7.  With [max_lag > 0], for a model fitted on a series of at least
    [max_lag] rows: the window the loop starts from has exactly
    [max_lag + 1] rows (the seed plus a placeholder row of zeros); after
    any number of steps of the loop the window again has exactly
    [max_lag + 1] rows; and a step turns the window into the old one
    without its placeholder and without its oldest row, followed by the
    row that starts with the new forecast and by a fresh placeholder. *)
Theorem rolling_window_size {E Kw : Type} `{Estimator E Kw}
        series exog (kwargs : Kw) (self0 self : RegressionModel E) (n : nat) :
  0 < max_lag self0 ->
  fit series exog kwargs self0 = (self, Ok tt) ->
  rows_exactly n series ->
  (forall e, exog = Some e -> rows_exactly n e) ->
  (Z.to_nat (max_lag self0) <= n)%nat ->
  exists w d,
    initial_window self = Ok (Some w, Some [d])
    /\ Forall (fun c => c = Some 0) d
    /\ rows_exactly (Z.to_nat (max_lag self) + 1) w
    /\ (forall exog' kwargs' j forecasts calls calls' w1 forecasts',
           for_loop (predict_step self exog' kwargs' (Some [d])) (seq 0 j)
                    (Some w, forecasts) calls
           = (calls', Ok (w1, forecasts')) ->
           exists w', w1 = Some w'
                      /\ rows_exactly (Z.to_nat (max_lag self) + 1) w')
    /\ (forall exog' kwargs' i w0 forecasts calls calls' w1 forecasts',
           rows_exactly (Z.to_nat (max_lag self) + 1) w0 ->
           predict_step self exog' kwargs' (Some [d]) i (Some w0, forecasts) calls
           = (calls', Ok (w1, forecasts')) ->
           exists w' row f,
             w1 = Some w'
             /\ rows_exactly (Z.to_nat (max_lag self) + 1) w'
             /\ ts_rows w' = tl (removelast (ts_rows w0) ++ [row; d])
             /\ hd_error row = Some f
             /\ nth_error forecasts' i = Some f).
Proof.
  intros Hml Hfit Hrows Hexog Hn.
  destruct (fit_seed_rows series exog kwargs self0 self n Hml Hfit Hrows Hexog Hn)
    as (sd & Hsd & Hsdrows).
  apply fit_ok in Hfit. destruct Hfit as (_ & _ & _ & _ & Hmax & _).
  rewrite Hmax. set (M := Z.to_nat (max_lag self0)) in *.
  assert (HM : (0 < M)%nat) by (subst M; lia).
  assert (Hidx : time_index sd <> []).
  { destruct Hsdrows as [Hi _]. destruct (time_index sd); [cbn in Hi; lia | discriminate]. }
  destruct (end_time_defined sd Hidx) as [t Ht].
  assert (Hinit : exists w, append_values [repeat (Some 0) (width sd)] sd = Ok w).
  { unfold append_values. rewrite Ht. cbn [bind forallb].
    rewrite repeat_length, Nat.eqb_refl. cbn [andb]. eexists. reflexivity. }
  destruct Hinit as [w Hw].
  assert (Hwrows : rows_exactly (M + 1) w).
  { apply (rows_append_values M [repeat (Some 0) (width sd)] sd w);
      [discriminate | exact Hw | exact Hsdrows]. }
  assert (Hself : 0 < max_lag self) by lia.
  exists w, (repeat (Some 0) (width sd)). split; [|split; [|split; [|split]]].
  - unfold initial_window. rewrite Hmax, Hsd.
    replace (max_lag self0 =? 0) with false by (symmetry; apply Z.eqb_neq; lia).
    cbn [negb attr bind]. rewrite Hw. reflexivity.
  - apply Forall_forall. intros c Hc. apply repeat_spec in Hc. exact Hc.
  - exact Hwrows.
  - intros exog' kwargs' j forecasts calls calls' w1 forecasts' Hloop.
    rewrite Nat.add_1_r in *.
    eapply loop_rows; [exact Hself | exact Hwrows | exact Hloop].
  - intros exog' kwargs' i w0 forecasts calls calls' w1 forecasts' Hw0 Hstep.
    rewrite Nat.add_1_r in *.
    eapply predict_step_window; [exact Hself | exact Hw0 | exact Hstep].
Qed.

Lemma ten_days_rows : rows_exactly 10 ten_days.
Proof. split; [reflexivity|]. constructor; [reflexivity | constructor]. Qed.

Lemma rolling_window_size_witness :
  let self := fst (fit ten_days None tt (ar2 false)) in
  exists w d,
    initial_window self = Ok (Some w, Some [d])
    /\ Forall (fun c => c = Some 0) d
    /\ rows_exactly 3 w.
Proof.
  intros self.
  assert (Hml : 0 < max_lag (ar2 false)) by (simpl; lia).
  assert (Hfit : fit ten_days None tt (ar2 false) = (self, Ok tt))
    by (vm_compute; reflexivity).
  assert (Hexog : forall e, @None TimeSeries = Some e -> rows_exactly 10 e)
    by (intros e He; discriminate He).
  assert (Hn : (Z.to_nat (max_lag (ar2 false)) <= 10)%nat) by (simpl; lia).
  destruct (rolling_window_size ten_days None tt (ar2 false) self 10
                                Hml Hfit ten_days_rows Hexog Hn)
    as (w & d & Hinit & Hzero & Hrows & _).
  exists w, d. split; [exact Hinit|]. split; [exact Hzero | exact Hrows].
Defined.

(** C7, as stated, fails.  [fit] does not look at the length of the
    training series, and line 153 takes the last [max_lag] rows of whatever
    there is: a model with lags 1 and 2 fitted on a series of one row
    stores a seed window of one row.  The loop then starts from a window
    of two rows, and a step that completes (here with an estimator that
    answers whatever table it is given) ends with a window of two rows
    again, not of [max_lag + 1 = 3]; [predict] returns. *)
Lemma short_history_window_has_fewer_rows :
  let one_day := series_of "y" 1 [5] in
  let self := fst (fit one_day None tt (ar2_fixed 7)) in
  let w0 := {| ts_df := {| df_index := [1; 2]; df_cols := [("y", [Some 5; Some 0])] |};
               ts_freq := 1 |} in
  let w1 := {| ts_df := {| df_index := [2; 3]; df_cols := [("y", [Some 7; Some 0])] |};
               ts_freq := 1 |} in
  fit one_day None tt (ar2_fixed 7) = (self, Ok tt)
  /\ max_lag self = 2
  /\ initial_window self = Ok (Some w0, Some [[Some 0]])
  /\ predict_step self None tt (Some [[Some 0]]) 0 (Some w0, [Some 0; Some 1; Some 2]) []
     = ([{| df_index := []; df_cols := [("y_lag1", []); ("y_lag2", [])] |}],
        Ok (Some w1, [Some 7; Some 1; Some 2]))
  /\ ts_len w1 = 2%nat
  /\ ~ rows_exactly (Z.to_nat (max_lag self) + 1) w1
  /\ predict self 3 None tt []
     = ([{| df_index := []; df_cols := [("y_lag1", []); ("y_lag2", [])] |};
         {| df_index := []; df_cols := [("y_lag1", []); ("y_lag2", [])] |};
         {| df_index := []; df_cols := [("y_lag1", []); ("y_lag2", [])] |}],
        Ok {| ts_df := {| df_index := [2; 3; 4];
                          df_cols := [("0", [Some 7; Some 7; Some 7])] |};
              ts_freq := 1 |}).
Proof.
  cbv zeta. repeat (split; [vm_compute; reflexivity|]). split.
  - intros [Hidx _]. vm_compute in Hidx. discriminate Hidx.
  - vm_compute. reflexivity.
Qed.

Section Forecast.

Context {E Kw : Type} `{Estimator E Kw}.

Lemma predict_ok (self : RegressionModel E) (n : nat) exog (kwargs : Kw)
      calls calls' out :
  predict self n exog kwargs calls = (calls', Ok out) ->
  exists forecasts',
    _build_forecast_series self forecasts' = Ok out
    /\ length forecasts' = n
    /\ length calls' = (length calls + n)%nat.
Proof.
  unfold predict. intros Hp.
  sstep_lift Hp u1 Hsuper.
  sstep_lift Hp init Hinit.
  sstep_lift Hp u2 Hcheck.
  sstep Hp final calls1 Hloop. destruct final as [w1 fc'].
  apply lift_inv in Hp. destruct Hp as [-> Hbuild].
  apply loop_counts in Hloop. destruct Hloop as [Hlen Hcount].
  exists fc'. split; [symmetry; exact Hbuild|]. split; [|exact Hcount].
  rewrite Hlen, length_map, length_seq. reflexivity.
Qed.

End Forecast.

(** ** A [fit] that raises *)

(** Split the first step off a run of [sbind] that raises: the first goal
    is the case where that step raises, the second goes on. *)
Ltac rstep_modify H :=
  let Hm := fresh "Hm" in
  let u := fresh "u" in
  let s := fresh "s" in
  apply sbind_raise in H; destruct H as [Hm|(u & s & Hm & H)];
  [ apply modify_inv in Hm; destruct Hm as [_ Hm]; discriminate Hm
  | apply modify_inv in Hm; destruct Hm as [Hm _]; subst s ].

Ltac rstep_get H a :=
  let Hm := fresh "Hm" in
  let s := fresh "s" in
  let Ho := fresh "Ho" in
  apply sbind_raise in H; destruct H as [Hm|(a & s & Hm & H)];
  [ apply get_inv in Hm; destruct Hm as [_ Hm]; discriminate Hm
  | apply get_inv in Hm; destruct Hm as [Hm Ho]; subst s;
    injection Ho as Ho; subst a ].

Ltac rstep_lift H a Ha :=
  let s := fresh "s" in
  let Hs := fresh "Hs" in
  apply sbind_raise in H; destruct H as [Ha|(a & s & Ha & H)];
  [ apply lift_inv in Ha; destruct Ha as [Hs Ha]; subst
  | apply lift_inv in Ha; destruct Ha as [Hs Ha]; subst s; symmetry in Ha ].

Lemma raise_if_raise (c : bool) (msg : string) (e : exn) :
  Raise e = raise_if c msg -> c = true.
Proof. destruct c; [reflexivity | discriminate]. Qed.

Section FailedFit.

Context {E Kw : Type} `{Estimator E Kw}.

Lemma presence_of_checks (exog : option TimeSeries) (le : option (list Z)) :
  is_some exog && is_none le = false ->
  is_none exog && is_some le = false ->
  is_some exog = is_some le.
Proof. destruct exog, le; cbn; congruence. Qed.

(** C2 (amended).  A [fit] that raises leaves the prediction seed window,
    the fitted flag and the configuration exactly as they were before the
    call (a never-fitted model remains not fitted), but it is not atomic:
    the recorded training series is already that of the failed call; and
    when the call passed the exogenous-presence checks and the target has
    a first column (so the failure came from feature construction, from
    the estimator's training or later), the exogenous column identifiers,
    the width of the exogenous block and the target column identifier
    already hold the values of the failed call.  Only a call that fails
    the presence checks leaves these three and the estimator untouched. *)
Theorem failed_fit_state series exog (kwargs : Kw) (self after : RegressionModel E)
        (e : exn) :
  fit series exog kwargs self = (after, Raise e) ->
  (prediction_data after = prediction_data self
   /\ _fit_called after = _fit_called self
   /\ lags after = lags self
   /\ lags_exog after = lags_exog self
   /\ max_lag after = max_lag self
   /\ training_series after = Some series)
  /\ (is_some exog = is_some (lags_exog self) ->
      forall tc, item (columns series) 0 = Ok tc ->
                 exog_columns after = Some (option_map columns exog)
                 /\ nr_exog after
                    = Some (match exog, lags_exog self with
                            | Some ex, Some le =>
                                Z.of_nat (width ex) * Z.of_nat (length le)
                            | _, _ => 0
                            end)
                 /\ target_column after = Some tc)
  /\ (is_some exog <> is_some (lags_exog self) ->
      exog_columns after = exog_columns self
      /\ nr_exog after = nr_exog self
      /\ target_column after = target_column self
      /\ model after = model self).
Proof.
  unfold fit, super_fit. intros Hfit.
  rstep_modify Hfit.
  rstep_get Hfit self1.
  rstep_lift Hfit r1 Hc1.
  { apply raise_if_raise in Hc1. cbn [lags_exog set_training_series] in Hc1.
    split; [cbn; tauto|]. split.
    - intros Hpres. rewrite Hpres in Hc1. unfold is_some in Hc1.
      destruct (is_none (lags_exog self)); discriminate.
    - intros _. cbn. tauto. }
  apply raise_if_ok in Hc1.
  rstep_lift Hfit r2 Hc2.
  { apply raise_if_raise in Hc2. cbn [lags_exog set_training_series] in Hc2.
    split; [cbn; tauto|]. split.
    - intros Hpres. unfold is_some in *. rewrite <- Hpres in Hc2.
      destruct (is_none exog); discriminate.
    - intros _. cbn. tauto. }
  apply raise_if_ok in Hc2. cbn [lags_exog set_training_series] in Hc1, Hc2.
  pose proof (presence_of_checks _ _ Hc1 Hc2) as Hpres.
  rstep_modify Hfit.
  rstep_lift Hfit nr Hnr.
  { exfalso. cbn [lags_exog set_training_series] in Hnr.
    destruct exog as [ex|]; [|discriminate].
    destruct (lags_exog self); [discriminate | discriminate Hpres]. }
  assert (Hnrv : nr = match exog, lags_exog self with
                      | Some ex, Some le => Z.of_nat (width ex) * Z.of_nat (length le)
                      | _, _ => 0
                      end).
  { cbn [lags_exog set_training_series] in Hnr.
    destruct exog as [ex|]; [|congruence].
    destruct (lags_exog self); [cbn in Hnr; congruence | discriminate]. }
  rstep_modify Hfit.
  rstep_lift Hfit tcv Htcv.
  { split; [cbn; tauto|]. split.
    - intros _ tc Htc. congruence.
    - intros Hmis. congruence. }
  rstep_get Hfit self2.
  rewrite fit_rename_noop in Hfit.
  match type of Hfit with
  | context [if ?c then series else series] =>
      replace (if c then series else series) with series in Hfit
        by (destruct c; reflexivity)
  end.
  rstep_lift Hfit tc0 Htc0; [congruence|].
  assert (tc0 = tcv) by congruence. subst tc0.
  rstep_modify Hfit.
  rstep_get Hfit self3.
  assert (Hgoal : forall after',
             prediction_data after' = prediction_data self ->
             _fit_called after' = _fit_called self ->
             lags after' = lags self -> lags_exog after' = lags_exog self ->
             max_lag after' = max_lag self ->
             training_series after' = Some series ->
             exog_columns after' = Some (option_map columns exog) ->
             nr_exog after' = Some nr ->
             target_column after' = Some tcv ->
             (prediction_data after' = prediction_data self
              /\ _fit_called after' = _fit_called self
              /\ lags after' = lags self
              /\ lags_exog after' = lags_exog self
              /\ max_lag after' = max_lag self
              /\ training_series after' = Some series)
             /\ (is_some exog = is_some (lags_exog self) ->
                 forall tc, item (columns series) 0 = Ok tc ->
                            exog_columns after' = Some (option_map columns exog)
                            /\ nr_exog after'
                               = Some (match exog, lags_exog self with
                                       | Some ex, Some le =>
                                           Z.of_nat (width ex) * Z.of_nat (length le)
                                       | _, _ => 0
                                       end)
                            /\ target_column after' = Some tc)
             /\ (is_some exog <> is_some (lags_exog self) ->
                 exog_columns after' = exog_columns self
                 /\ nr_exog after' = nr_exog self
                 /\ target_column after' = target_column self
                 /\ model after' = model self)).
  { intros after' H1 H2 H3 H4 H5 H6 H7 H8 H9. split; [tauto|]. split.
    - intros _ tc Htc. rewrite <- Hnrv. repeat split; congruence.
    - intros Hmis. congruence. }
  rstep_lift Hfit training_x Htx; [apply Hgoal; reflexivity|].
  apply sbind_raise in Hfit. destruct Hfit as [Hcall|(r3 & self4 & Hcall & Hfit)].
  { unfold call_fit in Hcall. destruct (est_fit _ _ _ _) as [m outcome].
    injection Hcall as <- _. apply Hgoal; reflexivity. }
  unfold call_fit in Hcall. destruct (est_fit _ _ _ _) as [m outcome].
  injection Hcall as <- _.
  rstep_get Hfit self5.
  apply sbind_raise in Hfit. destruct Hfit as [Hseed|(r4 & self6 & Hseed & Hfit)].
  - cbn [max_lag set_model set_target_column set_nr_exog set_exog_columns
                 set_training_series] in Hseed.
    destruct (max_lag self =? 0).
    + rstep_lift Hseed exg Hexg; [apply Hgoal; reflexivity|].
      apply modify_inv in Hseed. destruct Hseed as [_ Hseed]. discriminate.
    + destruct exog; apply modify_inv in Hseed; destruct Hseed as [_ Hseed];
        discriminate.
  - apply modify_inv in Hfit. destruct Hfit as [_ Hfit]. discriminate.
Qed.

End FailedFit.

(** A fitted model is fitted again, on a target with a negative value:
    the estimator's training raises after lines 129 to 136 have run. *)
Lemma failed_fit_state_witness :
  let before := fst (fit ten_days None tt (ar2 false)) in
  let losses := series_of "z" 1 [3; 1; 4; 1; -5; 9; 2; 6; 5; 3] in
  exists after e,
    fit losses None tt before = (after, Raise e)
    /\ prediction_data after = prediction_data before
    /\ _fit_called after = _fit_called before
    /\ training_series after = Some losses
    /\ target_column after = Some "z".
Proof.
  intros before losses.
  assert (Hfail : exists after e, fit losses None tt before = (after, Raise e)).
  { eexists. eexists. vm_compute. reflexivity. }
  destruct Hfail as (after & e & Hfail).
  destruct (failed_fit_state losses None tt before after e Hfail)
    as ((Hseed & Hflag & _ & _ & _ & Htrain) & Hover & _).
  destruct (Hover eq_refl "z" eq_refl) as (_ & _ & Htc).
  exists after, e. repeat split; assumption.
Defined.

(** C2, as stated, fails.  First a model that [fit] has left for the
    series "y" is fitted again on the series "z", and the estimator's
    training raises: afterwards the target column identifier is "z" while
    the seed window and the fitted flag are still those of "y".  Then the
    same call on a never-fitted model: it raises and leaves the model not
    fitted, but with the target column identifier, the exogenous column
    identifiers and the exogenous block width populated. *)
Lemma failed_fit_leaves_partial_state :
  let losses := series_of "z" 1 [3; 1; 4; 1; -5; 9; 2; 6; 5; 3] in
  let before := fst (fit ten_days None tt (ar2 false)) in
  let after := fst (fit losses None tt before) in
  let fresh := fst (fit losses None tt (ar2 false)) in
  fit ten_days None tt (ar2 false) = (before, Ok tt)
  /\ fit losses None tt before
     = (after, Raise (EstimatorError "Some value(s) of y are negative"))
  /\ target_column before = Some "y"
  /\ target_column after = Some "z"
  /\ prediction_data after
     = Some (AsSeries {| ts_df := {| df_index := [9; 10];
                                     df_cols := [("y", [Some 8; Some 9])] |};
                         ts_freq := 1 |})
  /\ _fit_called after = true
  /\ fit losses None tt (ar2 false)
     = (fresh, Raise (EstimatorError "Some value(s) of y are negative"))
  /\ target_column (ar2 false) = None
  /\ target_column fresh = Some "z"
  /\ exog_columns fresh = Some None
  /\ nr_exog fresh = Some 0
  /\ prediction_data fresh = None
  /\ _fit_called fresh = false.
Proof.
  cbv zeta. repeat (split; [vm_compute; reflexivity|]). vm_compute. reflexivity.
Qed.

(** A failure in feature construction has the same effect: the builder
    refuses a target with two columns after lines 129 to 136 have run. *)
Example failed_builder_leaves_partial_state :
  let wide := {| ts_df := {| df_index := [1; 2; 3];
                             df_cols := [("z", [Some 1; Some 2; Some 3]);
                                         ("u", [Some 4; Some 5; Some 6])] |};
                 ts_freq := 1 |} in
  let before := fst (fit ten_days None tt (ar2 false)) in
  let after := fst (fit wide None tt before) in
  fit wide None tt before
  = (after,
     Raise (ConfigurationError
              "Series must not be multivariate. Pass exogenous variables to 'exog' parameter."))
  /\ target_column after = Some "z"
  /\ prediction_data after = prediction_data before.
Proof.
  cbv zeta. repeat (split; [vm_compute; reflexivity|]). vm_compute. reflexivity.
Qed.

(** ** The target whose name is also an exogenous name *)

(** Whatever the names, a returning [fit] keeps the name of the target's
    first column as the target column identifier. *)
Lemma fit_keeps_target_name {E Kw : Type} `{Estimator E Kw}
      series exog (kwargs : Kw) (self self' : RegressionModel E) :
  fit series exog kwargs self = (self', Ok tt) ->
  exists tc, hd_error (columns series) = Some tc /\ target_column self' = Some tc.
Proof.
  intros Hfit. apply fit_ok in Hfit.
  destruct Hfit as (_ & _ & _ & _ & _ & _ & _ & (tc & Htc & Htarget) & _).
  exists tc. split; [|exact Htarget].
  unfold item in Htc. destruct (columns series); [discriminate|].
  cbn in *. congruence.
Qed.

(** C4.  The target "y" is fitted together with an exogenous series whose
    column is also called "y".  The statement of line 135 passes its
    mapper to [rename] without naming the column axis, so the mapper is
    applied to the index and the series comes back unchanged: after [fit]
    the target column identifier is still "y", not the sentinel; the
    feature table has two columns called "y_lag1"; the seed window has two
    columns called "y"; and [predict], which selects the target by that
    name, gets both columns and raises. *)
Theorem colliding_target_is_not_renamed :
  let exog := ten_days_exog "y" in
  let self := fst (fit ten_days (Some exog) tt ar1_exog12) in
  __init__ (Some (LagsInt 1)) (Some (ExogInt 2)) (Some (SumModel false 0))
  = Ok ar1_exog12
  /\ {| ts_df := df_rename [(LStr "y", LStr "Target")] default_rename_axis
                           (pd_dataframe ten_days);
        ts_freq := ts_freq ten_days |} = ten_days
  /\ fit ten_days (Some exog) tt ar1_exog12 = (self, Ok tt)
  /\ exog_columns self = Some (Some ["y"])
  /\ target_column self = Some "y"
  /\ bind (_create_training_data self ten_days (Some exog))
          (fun x => Ok (columns x))
     = Ok ["y_lag1"; "y_lag1"; "y_lag2"]
  /\ prediction_data self
     = Some (AsSeries {| ts_df := {| df_index := [9; 10];
                                     df_cols := [("y", [Some 8; Some 9]);
                                                 ("y", [Some 18; Some 19])] |};
                         ts_freq := 1 |})
  /\ predict self 1 (Some (series_of "y" 11 [20])) tt []
     = ([],
        Raise (ConfigurationError
                 "Series must not be multivariate. Pass exogenous variables to 'exog' parameter."))
  /\ columns ten_days = ["y"].
Proof.
  cbv zeta. repeat (split; [vm_compute; reflexivity|]). vm_compute. reflexivity.
Qed.

(** ** An exogenous series shorter than the horizon *)

(** C1.  A model with exogenous lag 0 is fitted, and three steps are
    requested with an exogenous series of two rows that starts where it
    must.  No check precedes the loop: the estimator is called for the
    first two steps, and the third step raises [IndexError] at line 259,
    where it reads row 2 of the exogenous frame.  With exogenous lags 1
    and 2 instead, the third step calls the estimator as well and raises
    at line 279. *)
Theorem short_exog_raises_index_error_in_loop :
  let self := fst (fit ten_days (Some (ten_days_exog "a")) tt ar2_exog0) in
  let self' := fst (fit ten_days (Some (ten_days_exog "a")) tt ar1_exog12) in
  let short := series_of "a" 11 [20; 21] in
  fit ten_days (Some (ten_days_exog "a")) tt ar2_exog0 = (self, Ok tt)
  /\ check_exog_start self (Some short) = Ok tt
  /\ predict self 3 (Some short) tt []
     = ([{| df_index := [11];
            df_cols := [("y_lag1", [Some 9]); ("y_lag2", [Some 8]);
                        ("a_lag0", [Some 20])] |};
         {| df_index := [12];
            df_cols := [("y_lag1", [Some 37]); ("y_lag2", [Some 9]);
                        ("a_lag0", [Some 21])] |}],
        Raise IndexError)
  /\ fit ten_days (Some (ten_days_exog "a")) tt ar1_exog12 = (self', Ok tt)
  /\ predict self' 3 (Some short) tt []
     = ([{| df_index := [11];
            df_cols := [("y_lag1", [Some 9]); ("a_lag1", [Some 19]);
                        ("a_lag2", [Some 18])] |};
         {| df_index := [12];
            df_cols := [("y_lag1", [Some 46]); ("a_lag1", [Some 20]);
                        ("a_lag2", [Some 19])] |};
         {| df_index := [13];
            df_cols := [("y_lag1", [Some 85]); ("a_lag1", [Some 21]);
                        ("a_lag2", [Some 20])] |}],
        Raise IndexError)
  /\ predict self 2 (Some short) tt []
     = ([{| df_index := [11];
            df_cols := [("y_lag1", [Some 9]); ("y_lag2", [Some 8]);
                        ("a_lag0", [Some 20])] |};
         {| df_index := [12];
            df_cols := [("y_lag1", [Some 37]); ("y_lag2", [Some 9]);
                        ("a_lag0", [Some 21])] |}],
        Ok {| ts_df := {| df_index := [11; 12];
                          df_cols := [("0", [Some 37; Some 67])] |};
              ts_freq := 1 |}).
Proof.
  cbv zeta. repeat (split; [vm_compute; reflexivity|]). vm_compute. reflexivity.
Qed.

(** ** Well-formed windows *)

Lemma sorted_firstn (m : nat) :
  forall l : list Z, StronglySorted Z.lt l -> StronglySorted Z.lt (firstn m l).
Proof.
  induction m as [|m IH]; intros l Hs; [constructor|].
  destruct l as [|x l]; [constructor|].
  apply StronglySorted_inv in Hs. destruct Hs as [Hs Hx].
  cbn [firstn]. constructor; [apply IH; exact Hs|].
  rewrite Forall_forall in *. intros y Hy. apply Hx.
  rewrite <- (firstn_skipn m l). apply in_or_app. left. exact Hy.
Qed.

Lemma sorted_snoc (l : list Z) (y : Z) :
  StronglySorted Z.lt l -> Forall (fun x => x < y) l ->
  StronglySorted Z.lt (l ++ [y]).
Proof.
  induction 1 as [|x l Hs IH Hx]; intros Hall.
  - repeat constructor.
  - apply Forall_cons_iff in Hall. destruct Hall as [Hxy Hall].
    cbn [app]. constructor; [apply IH; exact Hall|].
    apply Forall_app. split; [exact Hx | constructor; [exact Hxy | constructor]].
Qed.

Lemma sorted_below_last (l : list Z) (last : Z) :
  StronglySorted Z.lt l ->
  nth_error l (pred (length l)) = Some last ->
  Forall (fun x => x <= last) l.
Proof.
  intros Hs Hlast. apply Forall_forall. intros x Hx.
  apply In_nth_error in Hx. destruct Hx as [p Hp].
  assert (Hplt : (p < length l)%nat) by (apply nth_error_Some; congruence).
  destruct (Nat.eq_dec p (pred (length l))) as [->|Hne].
  - assert (x = last) by congruence. lia.
  - pose proof (sorted_nth_lt l Hs p (pred (length l)) x last Hp Hlast). lia.
Qed.

Lemma Forall_firstn {A : Type} (P : A -> Prop) (m : nat) (l : list A) :
  Forall P l -> Forall P (firstn m l).
Proof.
  intros Hall. rewrite Forall_forall in *. intros x Hx. apply Hall.
  rewrite <- (firstn_skipn m l). apply in_or_app. left. exact Hx.
Qed.

Lemma Forall_skipn {A : Type} (P : A -> Prop) (m : nat) (l : list A) :
  Forall P l -> Forall P (skipn m l).
Proof.
  intros Hall. rewrite Forall_forall in *. intros x Hx. apply Hall.
  eapply skipn_in. exact Hx.
Qed.

Lemma getitem_to_columns (stop : Z) (w : TimeSeries) :
  columns (getitem_to stop w) = columns w.
Proof.
  unfold getitem_to, columns, df_columns. cbn [ts_df df_cols].
  rewrite map_map. reflexivity.
Qed.

Lemma getitem_from_columns (start : Z) (w : TimeSeries) :
  columns (getitem_from start w) = columns w.
Proof.
  unfold getitem_from, columns, df_columns. cbn [ts_df df_cols].
  rewrite map_map. reflexivity.
Qed.

Lemma window_getitem_to names fr (k : nat) (w : TimeSeries) :
  window_ok names fr (S k) w -> window_ok names fr k (getitem_to (-1) w).
Proof.
  intros (Hc & Hf & Hr & Hs & Hd). split; [|split; [|split; [|split]]].
  - rewrite getitem_to_columns. exact Hc.
  - exact Hf.
  - apply rows_getitem_to. exact Hr.
  - unfold getitem_to, time_index, slice_to. cbn [ts_df df_index].
    replace (-1 <? 0) with true by reflexivity. apply sorted_firstn. exact Hs.
  - unfold getitem_to, slice_to. cbn [ts_df df_cols].
    replace (-1 <? 0) with true by reflexivity.
    apply Forall_map. eapply Forall_impl; [|exact Hd].
    intros c Hcd. cbn [snd]. apply Forall_firstn. exact Hcd.
Qed.

Lemma window_getitem_from names fr (k : nat) (w : TimeSeries) :
  window_ok names fr (S k) w -> window_ok names fr k (getitem_from 1 w).
Proof.
  intros (Hc & Hf & Hr & Hs & Hd). split; [|split; [|split; [|split]]].
  - rewrite getitem_from_columns. exact Hc.
  - exact Hf.
  - apply rows_getitem_from. exact Hr.
  - unfold getitem_from, time_index, slice_from. cbn [ts_df df_index].
    replace (1 <? 0) with false by reflexivity. apply sorted_skipn. exact Hs.
  - unfold getitem_from, slice_from. cbn [ts_df df_cols].
    replace (1 <? 0) with false by reflexivity.
    apply Forall_map. eapply Forall_impl; [|exact Hd].
    intros c Hcd. cbn [snd]. apply Forall_skipn. exact Hcd.
Qed.

Lemma combine_seq_fst {A : Type} (l : list A) :
  forall a, map (fun jc : nat * A => snd jc) (combine (seq a (length l)) l) = l.
Proof.
  induction l as [|x l IH]; intros a; [reflexivity|].
  cbn [length seq combine map snd]. rewrite IH. reflexivity.
Qed.

(** Appending one row without NaN, of the window's width, to a window
    that is not empty. *)
Lemma window_append_row names fr (k : nat) (row : list (option Z)) (w : TimeSeries) :
  window_ok names fr (S k) w ->
  0 < fr ->
  length row = length names ->
  Forall (fun v => notna v = true) row ->
  exists w', append_values [row] w = Ok w' /\ window_ok names fr (S (S k)) w'.
Proof.
  intros (Hc & Hf & Hr & Hs & Hd) Hfr Hlen Hrow.
  assert (Hidx : time_index w <> []).
  { destruct Hr as [Hi _]. destruct (time_index w); [discriminate Hi | discriminate]. }
  destruct (end_time_defined w Hidx) as [last Hlast].
  assert (Hw : width w = length names).
  { unfold width, df_width. rewrite <- Hc. unfold columns, df_columns.
    rewrite length_map. reflexivity. }
  assert (Hrun : exists w', append_values [row] w = Ok w').
  { unfold append_values. rewrite Hlast. cbn [bind forallb].
    rewrite Hw, Hlen, Nat.eqb_refl. cbn [andb]. eexists. reflexivity. }
  destruct Hrun as [w' Hw']. exists w'. split; [exact Hw'|].
  pose proof (rows_append_values (S k) [row] w w' ltac:(discriminate) Hw' Hr) as Hr'.
  destruct (append_values_ok [row] w w' ltac:(discriminate) Hw')
    as (last' & Hlast' & _ & Hi & Hcols & Hfreq).
  assert (last' = last) by congruence. subst last'.
  split; [|split; [|split; [|split]]].
  - unfold columns, df_columns. rewrite Hcols, map_map. cbn [fst].
    rewrite <- (map_map (fun jc : nat * (string * list (option Z)) => snd jc) fst).
    unfold width, df_width. rewrite combine_seq_fst. exact Hc.
  - congruence.
  - replace (S (S k)) with (S k + length [row])%nat by (cbn; lia). exact Hr'.
  - rewrite Hi. cbn [length seq map]. apply sorted_snoc; [exact Hs|].
    unfold end_time, item, ts_len, df_len in Hlast. fold (time_index w) in Hlast.
    destruct (nth_error (time_index w) (pred (length (time_index w)))) as [t|] eqn:Hn;
      [|discriminate].
    injection Hlast as ->.
    eapply Forall_impl; [|exact (sorted_below_last _ _ Hs Hn)].
    intros x Hx. simpl in Hx. rewrite Hf. lia.
  - rewrite Hcols. apply Forall_map. apply Forall_forall. intros [j c] Hjc.
    cbn [fst snd]. pose proof (in_combine_l _ _ _ _ Hjc) as Hj.
    apply in_combine_r in Hjc. rewrite Forall_forall in Hd.
    apply Forall_app. split; [apply Hd; exact Hjc|].
    constructor; [|constructor].
    apply in_seq in Hj. rewrite Hw, <- Hlen in Hj.
    rewrite Forall_forall in Hrow. apply Hrow. apply nth_In. lia.
Qed.

Lemma window_clean names fr (k : nat) (w : TimeSeries) :
  NoDup names -> window_ok names fr k w -> clean_on (time_index w) (ts_df w).
Proof.
  intros Hnd (Hc & _ & [Hi Hcols] & _ & Hd). split; [reflexivity|]. split.
  - unfold columns in Hc. rewrite Hc. exact Hnd.
  - rewrite Forall_forall in *. intros c Hcin. rewrite Hi. split.
    + apply Hcols. exact Hcin.
    + apply Hd. exact Hcin.
Qed.

(** ** The feature table of a step *)

Lemma select_cols_sublist (cols found : list (string * list (option Z))) :
  NoDup (map fst cols) ->
  (forall c, In c found -> In c cols) ->
  select_cols (map fst found) cols = Ok found.
Proof.
  intros Hnd. induction found as [|c found IH]; intros Hin; [reflexivity|].
  cbn [map select_cols].
  rewrite (filter_unique cols c Hnd (Hin c (or_introl eq_refl))).
  rewrite IH by (intros c' Hc'; apply Hin; right; exact Hc').
  reflexivity.
Qed.

Section FeatureRow.

Context {E Kw : Type} `{Estimator E Kw}.

Variable self : RegressionModel E.
Variable tc : string.
Variable exog_names : list string.
Variable fr : Z.

Hypothesis self_configured : configured self.
Hypothesis names_distinct : NoDup (tc :: exog_names).
Hypothesis self_target : target_column self = Some tc.
Hypothesis self_exog :
  exog_columns self
  = Some (match lags_exog self with Some _ => Some exog_names | None => None end).
Hypothesis exog_nonempty : lags_exog self <> None -> exog_names <> [].

(** On a well-formed window of [max_lag + 1] rows, the builder returns a
    table of exactly one row. *)
Lemma forecasting_data_one_row (w : TimeSeries) :
  window_ok (tc :: exog_names) fr (S (Z.to_nat (max_lag self))) w ->
  exists X, forecasting_data self w = Ok X /\ feature_row X.
Proof.
  intros Hw. pose proof (window_clean _ _ _ _ names_distinct Hw) as Hclean.
  destruct Hw as (Hc & Hf & [Hi Hcols] & Hs & Hd).
  destruct Hclean as (_ & Hnd & Hcl).
  unfold columns, df_columns in Hc.
  destruct (df_cols (ts_df w)) as [|c rest] eqn:Hdf; [discriminate|].
  cbn [map] in Hc. injection Hc as Hc1 Hc2.
  unfold forecasting_data. rewrite self_target. cbn [attr bind].
  rewrite <- Hc1.
  assert (Hndw : NoDup (columns w)).
  { unfold columns, df_columns. rewrite Hdf. cbn [map]. rewrite Hc1, Hc2.
    exact names_distinct. }
  rewrite (getitem_one_col w c Hndw) by (rewrite Hdf; left; reflexivity).
  cbn [bind]. rewrite self_exog. cbn [attr bind].
  set (target_data := {| ts_df := {| df_index := time_index w; df_cols := [c] |};
                         ts_freq := ts_freq w |}).
  assert (Hexog :
            exists exog_data,
              match match lags_exog self with
                    | Some _ => Some exog_names
                    | None => None
                    end with
              | Some cols => (e <- getitem_cols cols w ;; Ok (Some e))%py
              | None => Ok None
              end = Ok exog_data
              /\ is_some exog_data = is_some (lags_exog self)
              /\ (forall e, exog_data = Some e ->
                            clean_on (time_index w) (ts_df e) /\ (1 <= width e)%nat)).
  { destruct (lags_exog self) as [le|] eqn:Hle.
    - unfold getitem_cols. rewrite Hdf, <- Hc2.
      rewrite (select_cols_sublist (c :: rest) rest).
      + cbn [bind]. eexists. split; [reflexivity|]. split; [reflexivity|].
        intros e He. injection He as <-. cbn [ts_df]. split.
        * split; [reflexivity|]. split.
          -- unfold df_columns. cbn [df_cols]. rewrite Hc2.
             apply NoDup_cons_iff in names_distinct. tauto.
          -- cbn [df_cols]. apply Forall_inv_tail in Hcl. exact Hcl.
        * unfold width, df_width. cbn [ts_df df_cols].
          assert (Hne : exog_names <> []) by (apply exog_nonempty; discriminate).
          rewrite <- Hc2 in Hne. destruct rest; [cbn in Hne; congruence | cbn; lia].
      + cbn [map]. rewrite Hc1, Hc2. exact names_distinct.
      + intros c' Hc'. right. exact Hc'.
    - exists None. split; [reflexivity|]. split; [reflexivity|].
      intros e0 He0. discriminate. }
  destruct Hexog as (exog_data & -> & Hpres & Hec). cbn [bind].
  destruct (training_data_index self (time_index w) target_data exog_data
                                self_configured Hs)
    as (x & Hrun & Hidx & _ & Hcells); auto.
  { subst target_data. cbn [ts_df]. split; [reflexivity|]. split.
    - unfold df_columns. cbn [df_cols map]. constructor; [intros [] | constructor].
    - cbn [df_cols]. constructor; [|constructor]. apply Forall_inv in Hcl. exact Hcl. }
  rewrite Hrun. cbn [bind]. eexists. split; [reflexivity|].
  unfold pd_dataframe. apply one_row_cells; [|exact Hcells].
  unfold df_len. fold (time_index x). rewrite Hidx, length_skipn, Hi.
  destruct self_configured as (_ & _ & _ & Hmax). rewrite Hmax, Nat2Z.id. lia.
Qed.

End FeatureRow.

(** ** Every step of the loop returns *)

Lemma lag_depth_ge (lags : list Z) (lag : Z) :
  In lag lags -> (Z.to_nat lag <= lag_depth lags)%nat.
Proof.
  intros Hin. exact (proj1 (lag_depth_le lags (lag_depth lags)) (Nat.le_refl _) lag Hin).
Qed.

Lemma map_fst_combine {A B : Type} (l : list A) :
  forall (r : list B) (f : A * B -> A * list B),
    (forall p, fst (f p) = fst p) ->
    length r = length l ->
    map fst (map f (combine l r)) = l.
Proof.
  induction l as [|x l IH]; intros r f Hf Hlen; [reflexivity|].
  destruct r as [|y r]; [discriminate|].
  cbn [combine map]. rewrite Hf. cbn [fst]. f_equal.
  apply IH; [exact Hf | cbn in Hlen; lia].
Qed.

Lemma max_lag_positive_without_lag0 {E : Type} (self : RegressionModel E) :
  configured self ->
  match lags_exog self with
  | Some le => existsb (Z.eqb 0) le
  | None => false
  end = false ->
  0 < max_lag self.
Proof.
  intros (Hl & Hle & Hsome & Hmax) Hno.
  assert (Hex : exists lag, In lag (lags_used self) /\ 0 < lag).
  { unfold lags_used. destruct (lags self) as [l|] eqn:Hlags.
    - destruct (Hl l eq_refl) as [Hne Hpos]. destruct l as [|x l]; [congruence|].
      exists x. split; [left; reflexivity | exact (Forall_inv Hpos)].
    - destruct (lags_exog self) as [le|] eqn:Hlex; [|destruct Hsome; congruence].
      destruct (Hle le eq_refl) as [Hne Hpos]. destruct le as [|x le]; [congruence|].
      exists x. split; [left; reflexivity|].
      cbn [existsb] in Hno. apply orb_false_iff in Hno. destruct Hno as [Hx _].
      apply Z.eqb_neq in Hx. pose proof (Forall_inv Hpos) as Hx0. simpl in Hx0. lia. }
  destruct Hex as (lag & Hin & Hpos). apply lag_depth_ge in Hin. lia.
Qed.

Section Progress.

Context {E Kw : Type} `{Estimator E Kw}.

Variable self : RegressionModel E.
Variable series : TimeSeries.
Variable exog : option TimeSeries.
Variable tc : string.

Let exog_names : list string :=
  match exog with Some e => columns e | None => [] end.
Let names : list string := tc :: exog_names.
Let fr : Z := freq series.
Let M : nat := Z.to_nat (max_lag self).

Hypothesis self_configured : configured self.
Hypothesis self_target : target_column self = Some tc.
Hypothesis self_exog : exog_columns self = Some (option_map columns exog).
Hypothesis self_presence : is_some exog = is_some (lags_exog self).
Hypothesis self_training : training_series self = Some series.
Hypothesis self_seed : prediction_data self = seed_of (max_lag self) series exog.
Hypothesis series_columns : columns series = [tc].
Hypothesis names_distinct : NoDup names.
Hypothesis exog_nonempty : forall e, exog = Some e -> columns e <> [].
Hypothesis freq_positive : 0 < fr.

Variable exog_df : option DataFrame.
Variable n : nat.
Variable kwargs : Kw.

Hypothesis exog_rows :
  lags_exog self <> None ->
  exists e',
    exog_df = Some e'
    /\ (n <= df_len e')%nat
    /\ df_width e' = length exog_names
    /\ Forall (fun c => length (snd c) = df_len e'
                        /\ Forall (fun v => notna v = true) (snd c))
              (df_cols e').

Hypothesis estimator_answers :
  forall X, feature_row X ->
            exists v, est_predict (model self) X kwargs = Ok [RScalar (Some v)]
                      \/ est_predict (model self) X kwargs = Ok [RArray [Some v]].

Lemma exog_names_length : length names = S (length exog_names).
Proof. reflexivity. Qed.

(** Row [i] of the exogenous frame passed to [predict]. *)
Lemma exog_row_defined (i : nat) :
  lags_exog self <> None -> (i < n)%nat ->
  exists e' values t,
    exog_df = Some e'
    /\ df_iloc e' i = Ok values
    /\ item (df_index e') i = Ok t
    /\ length values = length exog_names
    /\ Forall (fun v => notna v = true) values.
Proof.
  intros Hle Hi. destruct (exog_rows Hle) as (e' & He' & Hn & Hw & Hcols).
  assert (Hlt : (i < df_len e')%nat) by lia.
  destruct (nth_error (df_index e') i) as [t|] eqn:Ht;
    [|apply nth_error_None in Ht; unfold df_len in Hlt; lia].
  exists e', (df_row e' i), t. split; [exact He'|]. split.
  - unfold df_iloc. apply Nat.ltb_lt in Hlt. rewrite Hlt. reflexivity.
  - split; [unfold item; rewrite Ht; reflexivity|]. split.
    + unfold df_row. rewrite length_map. exact Hw.
    + unfold df_row. apply Forall_map. eapply Forall_impl; [|exact Hcols].
      intros c [Hlen Hdef]. cbn beta. rewrite Forall_forall in Hdef.
      apply Hdef. apply nth_In. lia.
Qed.

Lemma max_lag_nonneg : 0 <= max_lag self.
Proof. destruct self_configured as (_ & _ & _ & ->). lia. Qed.

Lemma df_empty_columns (l : list string) : df_columns (df_empty l) = l.
Proof.
  unfold df_columns, df_empty. cbn [df_cols]. rewrite map_map. cbn [fst].
  apply map_id.
Qed.

Lemma stack_columns (a b : TimeSeries) : columns (stack a b) = columns a ++ columns b.
Proof. unfold columns, df_columns, stack. cbn [ts_df df_cols]. apply map_app. Qed.

(** The window on which the features of step [i] are built. *)
Lemma prepare_window_ok (i : nat) (ow : option TimeSeries) :
  (i < n)%nat ->
  (0 < max_lag self -> exists w0, ow = Some w0 /\ window_ok names fr (S M) w0) ->
  exists w,
    prepare_window self exog_df i ow = Ok (Some w)
    /\ window_ok names fr (S M) w.
Proof.
  intros Hi Hcarried. unfold prepare_window.
  destruct (match lags_exog self with
            | Some le => existsb (Z.eqb 0) le
            | None => false
            end) eqn:Hlag0.
  - assert (Hle : lags_exog self <> None).
    { destruct (lags_exog self); [discriminate | discriminate Hlag0]. }
    destruct (exog_row_defined i Hle Hi)
      as (e' & values & t & -> & Hrow & Ht & Hlen & Hdef).
    cbn [attr bind]. rewrite Hrow. cbn [bind].
    assert (Hrowlen : length (Some 0 :: values) = length names).
    { cbn [length]. rewrite Hlen. reflexivity. }
    assert (Hrowdef : Forall (fun v => notna v = true) (Some 0 :: values)).
    { constructor; [reflexivity | exact Hdef]. }
    destruct (max_lag self =? 0) eqn:Hz.
    + apply Z.eqb_eq in Hz. rewrite self_seed, Hz. unfold seed_of. cbn [Z.eqb].
      assert (Hex : exists e, exog = Some e).
      { destruct exog as [e|]; [exists e; reflexivity|].
        destruct (lags_exog self); [discriminate self_presence | congruence]. }
      destruct Hex as [e He]. 
      assert (Hnames : df_columns (df_empty (columns (stack series e))) = names).
      { rewrite df_empty_columns, stack_columns, series_columns.
        subst names exog_names. rewrite He. reflexivity. }
      rewrite He. cbn [option_map attr bind]. rewrite Hnames, Ht. cbn [bind].
      unfold df_one_row. rewrite Hrowlen, Nat.eqb_refl. cbn [bind].
      rewrite self_training. cbn [attr bind]. eexists. split; [reflexivity|].
      assert (HM : M = 0%nat) by (subst M; rewrite Hz; reflexivity).
      rewrite HM. split; [|split; [|split; [|split]]].
      * unfold columns, df_columns. cbn [ts_df df_cols].
        apply map_fst_combine; [reflexivity | exact Hrowlen].
      * reflexivity.
      * split; [reflexivity|]. cbn [ts_df df_cols]. apply Forall_map.
        apply Forall_forall. intros p _. reflexivity.
      * unfold time_index. cbn [ts_df df_index]. repeat constructor.
      * cbn [ts_df df_cols]. apply Forall_map. apply Forall_forall.
        intros [nm v] Hp. cbn [snd]. constructor; [|constructor].
        apply in_combine_r in Hp. rewrite Forall_forall in Hrowdef.
        apply Hrowdef. exact Hp.
    + apply Z.eqb_neq in Hz. pose proof max_lag_nonneg as Hnn.
      destruct Hcarried as (w0 & -> & Hw0); [lia|]. cbn [local bind].
      assert (HM : exists M', M = S M').
      { exists (pred M). subst M. lia. }
      destruct HM as [M' HM]. rewrite HM in *.
      pose proof (window_getitem_to names fr (S M') w0 Hw0) as Hw1.
      destruct (window_append_row names fr M' (Some 0 :: values) _ Hw1
                                  freq_positive Hrowlen Hrowdef)
        as (w' & Happ & Hw').
      rewrite Happ. cbn [bind]. exists w'. split; [reflexivity | exact Hw'].
  - destruct Hcarried as (w0 & -> & Hw0);
      [apply max_lag_positive_without_lag0; [exact self_configured | exact Hlag0]|].
    exists w0. split; [reflexivity | exact Hw0].
Qed.

Lemma exog_presence_names :
  exog_columns self
  = Some (match lags_exog self with Some _ => Some exog_names | None => None end).
Proof.
  rewrite self_exog. subst exog_names.
  destruct exog, (lags_exog self); try reflexivity; discriminate self_presence.
Qed.

Lemma exog_names_nonempty : lags_exog self <> None -> exog_names <> [].
Proof.
  intros Hle. subst exog_names. destruct exog as [e|] eqn:He.
  - apply (exog_nonempty e). reflexivity.
  - destruct (lags_exog self); [discriminate self_presence | congruence].
Qed.

(** Lines 276 to 281 on a well-formed window and a one-scalar answer. *)
Lemma advance_window_ok dr (i : nat) (v : Z) (w : TimeSeries) :
  (0 < max_lag self -> dr = Some [repeat (Some 0) (length names)]) ->
  (i < n)%nat ->
  window_ok names fr (S M) w ->
  exists w',
    advance_window self exog_df dr i [RScalar (Some v)] w = Ok w'
    /\ (0 < max_lag self -> window_ok names fr (S M) w').
Proof.
  intros Hdr Hi Hw. unfold advance_window.
  destruct (0 <? max_lag self) eqn:Hpos.
  - apply Z.ltb_lt in Hpos. rewrite (Hdr Hpos).
    assert (HM : exists M', M = S M') by (exists (pred M); subst M; lia).
    destruct HM as [M' HM]. rewrite HM in *.
    rewrite exog_presence_names. cbn [attr bind].
    assert (Hrow : exists row,
               match match lags_exog self with
                     | Some _ => Some exog_names
                     | None => None
                     end with
               | Some _ =>
                   (f <- forecast0 [RScalar (Some v)] ;;
                    e <- attr exog_df ;;
                    values <- df_iloc e i ;; Ok [f :: values])%py
               | None => (r <- forecast_row [RScalar (Some v)] ;; Ok [r])%py
               end = Ok [row]
               /\ length row = length names
               /\ Forall (fun c => notna c = true) row).
    { pose proof (exog_row_defined i) as Herd.
      pose proof self_presence as Hpres.
      destruct (lags_exog self) as [le|] eqn:Hle.
      - destruct (Herd ltac:(discriminate) Hi)
          as (e' & values & t & -> & Hiloc & _ & Hlen & Hdef).
        cbn [forecast0 item nth_error bind attr]. rewrite Hiloc. cbn [bind].
        eexists. split; [reflexivity|]. split.
        + cbn [length]. rewrite Hlen. reflexivity.
        + constructor; [reflexivity | exact Hdef].
      - cbn [forecast_row bind]. eexists. split; [reflexivity|]. split.
        + subst names exog_names. destruct exog; [discriminate Hpres|].
          reflexivity.
        + repeat constructor. }
    destruct Hrow as (row & -> & Hlen & Hdef). cbn [bind].
    pose proof (window_getitem_to names fr (S M') w Hw) as Hw1.
    destruct (window_append_row names fr M' row _ Hw1 freq_positive Hlen Hdef)
      as (w2 & Hw2 & Hok2).
    rewrite Hw2. cbn [bind local].
    destruct (window_append_row names fr (S M') (repeat (Some 0) (length names))
                                w2 Hok2 freq_positive)
      as (w3 & Hw3 & Hok3).
    { apply repeat_length. }
    { apply Forall_forall. intros c Hc. apply repeat_spec in Hc. subst c. reflexivity. }
    rewrite Hw3. cbn [bind]. eexists. split; [reflexivity|].
    intros _. apply window_getitem_from. exact Hok3.
  - exists w. split; [reflexivity|]. apply Z.ltb_ge in Hpos. lia.
Qed.

Lemma predict_step_returns dr (i : nat) ow forecasts calls :
  (0 < max_lag self -> dr = Some [repeat (Some 0) (length names)]) ->
  (i < n)%nat ->
  length forecasts = n ->
  (0 < max_lag self -> exists w0, ow = Some w0 /\ window_ok names fr (S M) w0) ->
  exists calls' w1 forecasts',
    predict_step self exog_df kwargs dr i (ow, forecasts) calls
    = (calls', Ok (Some w1, forecasts'))
    /\ length forecasts' = n
    /\ (0 < max_lag self -> window_ok names fr (S M) w1).
Proof.
  intros Hdr Hi Hlen Hcarried.
  destruct (prepare_window_ok i ow Hi Hcarried) as (w & Hprep & Hw).
  destruct (forecasting_data_one_row self tc exog_names fr self_configured
                                     names_distinct self_target exog_presence_names
                                     exog_names_nonempty w Hw)
    as (X & HX & Hone).
  destruct (estimator_answers X Hone) as [v Hest].
  destruct (advance_window_ok dr i v w Hdr Hi Hw) as (w' & Hadv & Hw').
  assert (Hset : exists forecasts', setitem forecasts i (Some v) = Ok forecasts').
  { unfold setitem. replace (i <? length forecasts)%nat with true; [eexists; reflexivity|].
    symmetry. apply Nat.ltb_lt. lia. }
  destruct Hset as [forecasts' Hset].
  exists (calls ++ [X]), w', forecasts'. split; [|split; [|exact Hw']].
  - unfold predict_step. rewrite Hprep, sbind_lift_ok. cbn [local].
    rewrite sbind_lift_ok, HX, sbind_lift_ok.
    unfold sbind at 1. unfold call_predict.
    destruct Hest as [Hest|Hest]; rewrite Hest;
      cbn [unwrap_forecast item nth_error bind map];
      rewrite sbind_lift_ok, Hadv, sbind_lift_ok;
      cbn [forecast0 item nth_error bind];
      rewrite sbind_lift_ok, Hset, sbind_lift_ok; reflexivity.
  - apply setitem_ok in Hset. destruct Hset as (_ & Hl & _). congruence.
Qed.

Lemma loop_returns dr :
  (0 < max_lag self -> dr = Some [repeat (Some 0) (length names)]) ->
  forall (k a : nat) ow forecasts calls,
    (a + k = n)%nat ->
    length forecasts = n ->
    (0 < max_lag self -> exists w0, ow = Some w0 /\ window_ok names fr (S M) w0) ->
    exists calls' final,
      for_loop (predict_step self exog_df kwargs dr) (seq a k) (ow, forecasts) calls
      = (calls', Ok final).
Proof.
  intros Hdr. induction k as [|k IH]; intros a ow forecasts calls Hak Hlen Hcarried.
  - eexists. eexists. reflexivity.
  - destruct (predict_step_returns dr a ow forecasts calls Hdr ltac:(lia) Hlen Hcarried)
      as (calls1 & w1 & fc1 & Hstep & Hlen1 & Hw1).
    destruct (IH (S a) (Some w1) fc1 calls1 ltac:(lia) Hlen1)
      as (calls' & final & Hloop).
    { intros Hpos. exists w1. split; [reflexivity | exact (Hw1 Hpos)]. }
    exists calls', final. cbn [seq for_loop]. unfold sbind at 1.
    rewrite Hstep. exact Hloop.
Qed.

End Progress.

(** ** The window the loop starts from *)

Lemma window_getitem_from_neg names fr (k : nat) (m : Z) (w : TimeSeries) :
  window_ok names fr k w ->
  0 < m -> (Z.to_nat m <= k)%nat ->
  window_ok names fr (Z.to_nat m) (getitem_from (- m) w).
Proof.
  intros (Hc & Hf & [Hi Hcols] & Hs & Hd) Hm Hk. split; [|split; [|split; [|split]]].
  - rewrite getitem_from_columns. exact Hc.
  - exact Hf.
  - unfold getitem_from, rows_exactly, time_index in *. cbn [ts_df df_index df_cols].
    split.
    + rewrite slice_from_neg_length by exact Hm. lia.
    + apply Forall_map. eapply Forall_impl; [|exact Hcols]. intros c Hcl.
      cbn [snd] in *. rewrite slice_from_neg_length by exact Hm. lia.
  - unfold getitem_from, time_index, slice_from. cbn [ts_df df_index].
    replace (- m <? 0) with true by (symmetry; apply Z.ltb_lt; lia).
    apply sorted_skipn. exact Hs.
  - unfold getitem_from, slice_from. cbn [ts_df df_cols].
    replace (- m <? 0) with true by (symmetry; apply Z.ltb_lt; lia).
    apply Forall_map. eapply Forall_impl; [|exact Hd].
    intros c Hcd. cbn [snd]. apply Forall_skipn. exact Hcd.
Qed.

Lemma trainable_names series exog tc :
  trainable series exog tc ->
  NoDup (tc :: match exog with Some e => columns e | None => [] end).
Proof.
  intros (_ & _ & _ & _ & Hexog). destruct exog as [e|].
  - destruct (Hexog e eq_refl) as ((_ & Hnd & _) & _ & Hnot).
    constructor; [exact Hnot | exact Hnd].
  - constructor; [intros [] | constructor].
Qed.

(** The training data, target and exogenous columns side by side, as a
    window. *)
Lemma trainable_window series exog tc :
  trainable series exog tc ->
  window_ok (tc :: match exog with Some e => columns e | None => [] end)
            (freq series) (ts_len series)
            (match exog with Some e => stack series e | None => series end).
Proof.
  intros (Hcols & Hs & (_ & _ & Hcl) & _ & Hexog).
  assert (Hrows : Forall (fun c => length (snd c) = ts_len series)
                         (df_cols (ts_df series))).
  { eapply Forall_impl; [|exact Hcl]. intros c [Hl _]. exact Hl. }
  assert (Hdef : Forall (fun c => Forall (fun v => notna v = true) (snd c))
                        (df_cols (ts_df series))).
  { eapply Forall_impl; [|exact Hcl]. intros c [_ Hd]. exact Hd. }
  destruct exog as [e|].
  - destruct (Hexog e eq_refl) as ((_ & _ & Hecl) & _ & _).
    split; [|split; [|split; [|split]]].
    + rewrite stack_columns, Hcols. reflexivity.
    + reflexivity.
    + split; [reflexivity|]. unfold stack. cbn [ts_df df_cols].
      apply Forall_app. split; [exact Hrows|].
      eapply Forall_impl; [|exact Hecl]. intros c [Hl _]. exact Hl.
    + exact Hs.
    + unfold stack. cbn [ts_df df_cols]. apply Forall_app. split; [exact Hdef|].
      eapply Forall_impl; [|exact Hecl]. intros c [_ Hd]. exact Hd.
  - split; [exact Hcols|]. split; [reflexivity|]. split; [|split; assumption].
    split; [reflexivity | exact Hrows].
Qed.

Section InitialWindow.

Context {E Kw : Type} `{Estimator E Kw}.

Lemma initial_window_ok (self : RegressionModel E) series exog tc :
  trainable series exog tc ->
  0 < max_lag self ->
  (Z.to_nat (max_lag self) <= ts_len series)%nat ->
  prediction_data self = seed_of (max_lag self) series exog ->
  let names := tc :: match exog with Some e => columns e | None => [] end in
  exists w,
    initial_window self = Ok (Some w, Some [repeat (Some 0) (length names)])
    /\ window_ok names (freq series) (S (Z.to_nat (max_lag self))) w.
Proof.
  intros Htr Hml Hlen Hseed names.
  pose proof (trainable_window series exog tc Htr) as HX.
  pose proof (window_getitem_from_neg _ _ _ (max_lag self) _ HX Hml Hlen) as Hsd.
  destruct Htr as (_ & _ & _ & Hfr & _).
  assert (HM : exists M', Z.to_nat (max_lag self) = S M')
    by (exists (pred (Z.to_nat (max_lag self))); lia).
  destruct HM as [M' HM]. rewrite HM in *.
  set (sd := getitem_from (- max_lag self)
                          (match exog with Some e => stack series e | None => series end))
    in *.
  assert (Hw : width sd = length names).
  { destruct Hsd as (Hc & _). unfold width, df_width. fold names in Hc.
    rewrite <- Hc. unfold columns, df_columns. rewrite length_map. reflexivity. }
  destruct (window_append_row names (freq series) M' (repeat (Some 0) (length names))
                              sd Hsd Hfr)
    as (w & Happ & Hok).
  { apply repeat_length. }
  { apply Forall_forall. intros c Hc. apply repeat_spec in Hc. subst c. reflexivity. }
  exists w. split; [|exact Hok].
  unfold initial_window. rewrite Hseed. unfold seed_of.
  replace (max_lag self =? 0) with false by (symmetry; apply Z.eqb_neq; lia).
  cbn [negb attr bind]. fold sd. rewrite Hw, Happ. reflexivity.
Qed.

End InitialWindow.

(** ** [predict] returns *)

Section Total.

Context {E Kw : Type} `{Estimator E Kw}.

Lemma configured_same (a b : RegressionModel E) :
  lags b = lags a -> lags_exog b = lags_exog a -> max_lag b = max_lag a ->
  configured a -> configured b.
Proof.
  intros Hl Hle Hm. unfold configured, lags_used. rewrite Hl, Hle, Hm. tauto.
Qed.

(** On training input the forecaster is meant for, with at least
    [max_lag] rows, and for an estimator that answers a one-row table
    without NaN with one number (as a scalar or as a length-1 array),
    [predict] returns for every horizon [n]. *)
Lemma predict_total series exog (kwargs kwargs' : Kw) (self0 self : RegressionModel E)
      (tc : string) (last : Z) (n : nat) exog' calls :
  configured self0 ->
  fit series exog kwargs self0 = (self, Ok tt) ->
  trainable series exog tc ->
  (Z.to_nat (max_lag self0) <= ts_len series)%nat ->
  end_time series = Ok last ->
  usable_exog exog exog' (last + freq series) n ->
  (forall X, feature_row X ->
             exists v, est_predict (model self) X kwargs' = Ok [RScalar (Some v)]
                       \/ est_predict (model self) X kwargs' = Ok [RArray [Some v]]) ->
  exists calls' out, predict self n exog' kwargs' calls = (calls', Ok out).
Proof.
  intros Hconf0 Hfit Htr Hlen Hend Husable Hest.
  apply fit_ok in Hfit.
  destruct Hfit as (Hcalled & Htrain & Hl & Hle & Hmax & Hpres & Hec
                    & (tc' & Htc' & Htarget) & Hseed).
  assert (Hconf : configured self) by (eapply configured_same; eassumption).
  pose proof (trainable_names series exog tc Htr) as Hnd.
  pose proof Htr as (Hcols & _ & _ & Hfr & Hexog).
  assert (tc' = tc).
  { rewrite Hcols in Htc'. cbn in Htc'. congruence. }
  subst tc'. rewrite <- Hle in Hpres. rewrite <- Hmax in Hseed, Hlen.
  set (names := tc :: match exog with Some e => columns e | None => [] end) in *.
  (* the statements before the loop *)
  assert (Hinit : exists init,
             initial_window self = Ok init
             /\ (0 < max_lag self ->
                 snd init = Some [repeat (Some 0) (length names)]
                 /\ exists w0, fst init = Some w0
                               /\ window_ok names (freq series)
                                            (S (Z.to_nat (max_lag self))) w0)).
  { destruct (Z.eq_dec (max_lag self) 0) as [Hz|Hnz].
    - exists (None, None). split; [|intros; lia].
      unfold initial_window. rewrite Hz. reflexivity.
    - assert (Hpos : 0 < max_lag self).
      { destruct Hconf as (_ & _ & _ & Hm). lia. }
      destruct (initial_window_ok self series exog tc Htr Hpos Hlen Hseed)
        as (w & Hw & Hok).
      eexists. split; [exact Hw|]. intros _. split; [reflexivity|].
      exists w. split; [reflexivity | exact Hok]. }
  destruct Hinit as (init & Hinit & Hinit_ok).
  assert (Hcheck : check_exog_start self exog' = Ok tt).
  { unfold usable_exog in Husable. destruct exog as [e|].
    - destruct Husable as (e' & -> & Hstart & _).
      unfold check_exog_start. rewrite Htrain. cbn [attr bind].
      rewrite Hend. cbn [bind]. rewrite Hstart. cbn [bind].
      unfold raise_if_not. rewrite Z.eqb_refl. reflexivity.
    - rewrite Husable. reflexivity. }
  (* the loop *)
  assert (Hexog_rows :
            lags_exog self <> None ->
            exists e',
              option_map pd_dataframe exog' = Some e'
              /\ (n <= df_len e')%nat
              /\ df_width e'
                 = length match exog with Some e => columns e | None => [] end
              /\ Forall (fun c => length (snd c) = df_len e'
                                  /\ Forall (fun v => notna v = true) (snd c))
                        (df_cols e')).
  { intros Hlex. unfold usable_exog in Husable. destruct exog as [e|].
    - destruct Husable as (e' & -> & _ & Hn & Hw & Hcells).
      exists (ts_df e'). split; [reflexivity|]. split; [exact Hn|].
      split; [|exact Hcells].
      unfold width, df_width, columns, df_columns in *. rewrite length_map.
      exact Hw.
    - destruct (lags_exog self); [discriminate Hpres | congruence]. }
  destruct (loop_returns self series exog tc Hconf Htarget Hec Hpres Htrain Hseed
                         Hcols Hnd
                         (fun e He => proj1 (proj2 (Hexog e He))) Hfr
                         (option_map pd_dataframe exog') n kwargs'
                         Hexog_rows Hest (snd init)
                         (fun Hpos => proj1 (Hinit_ok Hpos))
                         n 0%nat (fst init)
                         (map (fun i => Some (Z.of_nat i)) (seq 0 n)) calls
                         eq_refl)
    as (calls' & final & Hloop).
  { rewrite length_map, length_seq. reflexivity. }
  { intros Hpos. exact (proj2 (Hinit_ok Hpos)). }
  exists calls'.
  unfold predict. rewrite (super_predict_fitted _ _ _ Hcalled), sbind_lift_ok.
  rewrite Hinit, sbind_lift_ok, Hcheck, sbind_lift_ok.
  unfold sbind at 1. rewrite Hloop.
  unfold _build_forecast_series. rewrite Htrain. cbn [attr bind].
  rewrite Hend. cbn [bind]. eexists. reflexivity.
Qed.

End Total.

(** ** The forecast of a step, and the forecast series *)

(** C5.  The value a step records in [forecasts] is the scalar of the
    estimator's answer to the feature table of that step: the first entry
    of the answer when that entry is a scalar, and the first cell of the
    first entry when that entry is an array.  The estimator is called
    once, on the table the lag-feature builder makes from the window.  In
    particular the extraction returns [v] both for an answer with one
    scalar per row, [[v]], and for an answer with one length-1 array per
    row, [[[v]]].  On a well-formed window of [max_lag + 1] rows that
    table has exactly one row, without NaN. *)
Theorem step_records_estimator_scalar {E Kw : Type} `{Estimator E Kw}
        (self : RegressionModel E) exog (kwargs : Kw) dummy_row
        (i : nat) w0 forecasts calls calls' w1 forecasts' :
  predict_step self exog kwargs dummy_row i (w0, forecasts) calls
  = (calls', Ok (w1, forecasts')) ->
  (exists w X out v,
      prepare_window self exog i w0 = Ok (Some w)
      /\ forecasting_data self w = Ok X
      /\ calls' = calls ++ [X]
      /\ est_predict (model self) X kwargs = Ok out
      /\ (hd_error out = Some (RScalar v)
          \/ exists a, hd_error out = Some (RArray (v :: a)))
      /\ nth_error forecasts' i = Some v)
  /\ (forall v, bind (unwrap_forecast [RScalar v]) forecast0 = Ok v)
  /\ (forall v, bind (unwrap_forecast [RArray [v]]) forecast0 = Ok v)
  /\ (forall tc exog_names fr w,
         configured self ->
         NoDup (tc :: exog_names) ->
         target_column self = Some tc ->
         exog_columns self
         = Some (match lags_exog self with
                 | Some _ => Some exog_names
                 | None => None
                 end) ->
         (lags_exog self <> None -> exog_names <> []) ->
         window_ok (tc :: exog_names) fr (S (Z.to_nat (max_lag self))) w ->
         exists X, forecasting_data self w = Ok X /\ feature_row X).
Proof.
  intros Hstep. split; [|split; [|split]]; try (intros v; reflexivity).
  - apply predict_step_ok in Hstep.
    destruct Hstep as (w & X & out & forecast & w' & f & fc1 & Hprep & HX & Hcalls
                       & Hout & Hun & _ & Hf & Hset & Hst).
    injection Hst as -> ->.
    exists w, X, out, f. repeat split; auto.
    + eapply extraction_ok; eassumption.
    + apply setitem_ok in Hset. tauto.
  - intros tc exog_names fr w Hconf Hnd Htc Hec Hne Hw.
    eapply forecasting_data_one_row; eassumption.
Qed.

Lemma step_records_estimator_scalar_witness :
  let self := fst (fit ten_days None tt (ar2 true)) in
  let w0 := {| ts_df := {| df_index := [9; 10; 11];
                           df_cols := [("y", [Some 8; Some 9; Some 0])] |};
               ts_freq := 1 |} in
  exists calls' w1 forecasts' X out v,
    predict_step self None tt (Some [[Some 0]]) 0 (Some w0, [Some 0; Some 1]) []
    = (calls', Ok (w1, forecasts'))
    /\ calls' = [] ++ [X]
    /\ est_predict (model self) X tt = Ok out
    /\ (hd_error out = Some (RScalar v)
        \/ exists a, hd_error out = Some (RArray (v :: a)))
    /\ nth_error forecasts' 0 = Some v.
Proof.
  intros self w0.
  assert (Hstep : exists calls' w1 forecasts',
             predict_step self None tt (Some [[Some 0]]) 0
                          (Some w0, [Some 0; Some 1]) []
             = (calls', Ok (w1, forecasts'))).
  { eexists. eexists. eexists. vm_compute. reflexivity. }
  destruct Hstep as (calls' & w1 & forecasts' & Hstep).
  destruct (step_records_estimator_scalar self None tt (Some [[Some 0]]) 0
                                          (Some w0) [Some 0; Some 1] [] calls' w1
                                          forecasts' Hstep)
    as [(w & X & out & v & Hprep & HX & Hcalls & Hout & Hhd & Hnth) _].
  exists calls', w1, forecasts', X, out, v.
  split; [exact Hstep|]. split; [exact Hcalls|]. split; [exact Hout|].
  split; [exact Hhd | exact Hnth].
Defined.

(** The same step, evaluated: the sum regressor answers one length-1
    array per row, and the step records its cell. *)
Example step_with_array_answer :
  let self := fst (fit ten_days None tt (ar2 true)) in
  let w0 := {| ts_df := {| df_index := [9; 10; 11];
                           df_cols := [("y", [Some 8; Some 9; Some 0])] |};
               ts_freq := 1 |} in
  let X := {| df_index := [11];
              df_cols := [("y_lag1", [Some 9]); ("y_lag2", [Some 8])] |} in
  est_predict (model self) X tt = Ok [RArray [Some 17]]
  /\ predict_step self None tt (Some [[Some 0]]) 0 (Some w0, [Some 0; Some 1]) []
     = ([X],
        Ok (Some {| ts_df := {| df_index := [10; 11; 12];
                                df_cols := [("y", [Some 9; Some 17; Some 0])] |};
                    ts_freq := 1 |},
            [Some 17; Some 1])).
Proof. cbv zeta. split; vm_compute; reflexivity. Qed.

(** C8.  For a constructed model left by a returning [fit]: (1) whenever
    [predict(n, ...)] returns, it returns a series of exactly [n] values at
    the timestamps that begin one frequency step after the end of the
    training series and advance by the training frequency, and it has
    called the estimator's [predict] exactly [n] times; (2)
    [predict(0, ...)], without an exogenous series or with one that starts
    one step after the end of the training series, returns the empty
    forecast series at the training frequency without calling the
    estimator; (3) [predict(n, ...)] does return, for every [n], when the
    training input was a clean univariate target (with a clean exogenous
    series if configured) of at least [max_lag] rows, the exogenous
    argument is aligned, clean and at least [n] rows long, and the
    estimator answers a one-row table without NaN with one number. *)
Theorem predict_returns_n_values {E Kw : Type} `{Estimator E Kw}
        series exog (kwargs : Kw) (self0 self : RegressionModel E) (last : Z) :
  configured self0 ->
  fit series exog kwargs self0 = (self, Ok tt) ->
  end_time series = Ok last ->
  (forall n exog' kwargs' calls calls' out,
      predict self n exog' kwargs' calls = (calls', Ok out) ->
      time_index out
      = map (fun i => last + Z.of_nat i * freq series) (seq 1 n)
      /\ (exists values, df_cols (ts_df out) = [("0", values)] /\ length values = n)
      /\ freq out = freq series
      /\ length calls' = (length calls + n)%nat)
  /\ (forall exog' kwargs' calls,
         exog' = None
         \/ (exists e, exog' = Some e /\ start_time e = Ok (last + freq series)) ->
         predict self 0 exog' kwargs' calls
         = (calls,
            Ok {| ts_df := {| df_index := []; df_cols := [("0", [])] |};
                  ts_freq := freq series |}))
  /\ (forall tc n exog' kwargs' calls,
         trainable series exog tc ->
         (Z.to_nat (max_lag self0) <= ts_len series)%nat ->
         usable_exog exog exog' (last + freq series) n ->
         (forall X, feature_row X ->
                    exists v,
                      est_predict (model self) X kwargs' = Ok [RScalar (Some v)]
                      \/ est_predict (model self) X kwargs' = Ok [RArray [Some v]]) ->
         exists calls' out,
           predict self n exog' kwargs' calls = (calls', Ok out)).
Proof.
  intros Hconf Hfit Hend.
  assert (Hml : 0 <= max_lag self0).
  { destruct Hconf as (_ & _ & _ & ->). lia. }
  assert (Hne : time_index series <> []).
  { unfold end_time in Hend. eapply item_ok_nonempty; exact Hend. }
  destruct (initial_window_defined _ _ _ _ _ Hml Hne Hfit) as [init [Hinit _]].
  pose proof Hfit as Hfit0.
  apply fit_ok in Hfit. destruct Hfit as (Hcalled & Htrain & _).
  split; [|split].
  - intros n exog' kwargs' calls calls' out Hp. apply predict_ok in Hp.
    destruct Hp as (fc' & Hbuild & Hlen & Hcount).
    unfold _build_forecast_series in Hbuild. rewrite Htrain in Hbuild.
    cbn [attr bind] in Hbuild. rewrite Hend in Hbuild. cbn [bind] in Hbuild.
    injection Hbuild as <-. unfold time_index. cbn [ts_df df_index df_cols].
    rewrite Hlen. split; [reflexivity|]. split; [|split; [reflexivity | exact Hcount]].
    exists fc'. split; [reflexivity | exact Hlen].
  - intros exog' kwargs' calls Hexog. unfold predict.
    rewrite (super_predict_fitted _ _ _ Hcalled), sbind_lift_ok.
    rewrite Hinit, sbind_lift_ok.
    assert (Hcheck : check_exog_start self exog' = Ok tt).
    { destruct Hexog as [->|(e & -> & Hstart)]; [reflexivity|].
      unfold check_exog_start. rewrite Htrain. cbn [attr bind].
      rewrite Hend. cbn [bind]. rewrite Hstart. cbn [bind].
      unfold raise_if_not. rewrite Z.eqb_refl. reflexivity. }
    rewrite Hcheck, sbind_lift_ok. cbn [seq for_loop map].
    unfold sbind, sret, lift. cbn [snd].
    unfold _build_forecast_series. rewrite Htrain. cbn [attr bind].
    rewrite Hend. reflexivity.
  - intros tc n exog' kwargs' calls Htr Hlen Husable Hest.
    eapply predict_total; eassumption.
Qed.

Lemma sum_cells_defined (l : list (option Z)) :
  Forall (fun c => exists v : Z, c = Some v) l ->
  forall acc : Z, exists s : Z,
    fold_left (fun acc c => match acc, c with
                            | Some a, Some b => Some (a + b)
                            | _, _ => None
                            end) l (Some acc) = Some s.
Proof.
  induction 1 as [|c l [v ->] Hl IH]; intros acc.
  - exists acc. reflexivity.
  - cbn [fold_left]. apply IH.
Qed.

(** The sum regressor answers every one-row table without NaN with one
    number. *)
Lemma sum_model_answers (per_row_array : bool) (trained : nat) (X : DataFrame) :
  feature_row X ->
  exists v,
    est_predict (SumModel per_row_array trained) X tt = Ok [RScalar (Some v)]
    \/ est_predict (SumModel per_row_array trained) X tt = Ok [RArray [Some v]].
Proof.
  intros [Hone Hcells].
  assert (Hrow : Forall (fun c => exists v : Z, c = Some v) (df_row X 0)).
  { unfold df_row. apply Forall_map. eapply Forall_impl; [|exact Hcells].
    intros c [v Hv]. cbn beta. rewrite Hv. exists v. reflexivity. }
  destruct (sum_cells_defined _ Hrow 0) as [s Hs].
  exists s. cbn [est_predict double_estimator double_predict].
  rewrite Hone. cbn [seq map]. unfold sum_cells. rewrite Hs.
  destruct per_row_array; [right | left]; reflexivity.
Qed.

Lemma predict_returns_n_values_witness :
  let self := fst (fit ten_days None tt (ar2 false)) in
  exists calls' out,
    predict self 3 None tt [] = (calls', Ok out)
    /\ time_index out = [11; 12; 13]
    /\ length calls' = 3%nat
    /\ predict self 0 None tt []
       = ([], Ok {| ts_df := {| df_index := []; df_cols := [("0", [])] |};
                    ts_freq := 1 |}).
Proof.
  intros self.
  assert (Hconf : configured (ar2 false)).
  { apply (init_configured (Some (LagsList [1; 2])) None (Some (SumModel false 0))).
    reflexivity. }
  assert (Hfit : fit ten_days None tt (ar2 false) = (self, Ok tt))
    by (vm_compute; reflexivity).
  assert (Hend : end_time ten_days = Ok 10) by reflexivity.
  destruct (predict_returns_n_values ten_days None tt (ar2 false) self 10
                                     Hconf Hfit Hend) as (Hn & H0 & Htotal).
  assert (Htr : trainable ten_days None "y").
  { split; [reflexivity|]. split; [exact ten_days_sorted|].
    split; [apply series_of_clean|]. split; [reflexivity|].
    intros e He. discriminate He. }
  assert (Hlen : (Z.to_nat (max_lag (ar2 false)) <= ts_len ten_days)%nat)
    by (cbn; lia).
  assert (Hest : forall X, feature_row X ->
                           exists v,
                             est_predict (model self) X tt = Ok [RScalar (Some v)]
                             \/ est_predict (model self) X tt = Ok [RArray [Some v]]).
  { intros X HX. apply (sum_model_answers false 8). exact HX. }
  destruct (Htotal "y" 3%nat None tt [] Htr Hlen eq_refl Hest)
    as (calls' & out & Hrun).
  destruct (Hn 3%nat None tt [] calls' out Hrun) as (Hidx & _ & _ & Hcount).
  exists calls', out. split; [exact Hrun|]. split; [exact Hidx|].
  split; [exact Hcount|]. apply (H0 None tt []). left. reflexivity.
Defined.

(** The scenario of the specification: the integers 0..9 on days 1..10,
    lags 1 and 2; three steps give three values at days 11, 12, 13, each
    the sum regressor's answer to the two values before it. *)
Example three_days_ahead :
  let self := fst (fit ten_days None tt (ar2 false)) in
  predict self 3 None tt []
  = ([{| df_index := [11];
         df_cols := [("y_lag1", [Some 9]); ("y_lag2", [Some 8])] |};
      {| df_index := [12];
         df_cols := [("y_lag1", [Some 17]); ("y_lag2", [Some 9])] |};
      {| df_index := [13];
         df_cols := [("y_lag1", [Some 26]); ("y_lag2", [Some 17])] |}],
     Ok {| ts_df := {| df_index := [11; 12; 13];
                       df_cols := [("0", [Some 17; Some 26; Some 43])] |};
           ts_freq := 1 |}).
Proof. cbv zeta. vm_compute. reflexivity. Qed.

(** ** Reading the exogenous frame past its end *)

Lemma loop_step_ran {T A : Type} (body : nat -> A -> stateful T A) (k : nat) :
  forall a st s s' st',
    for_loop body (seq a k) st s = (s', Ok st') ->
    forall i, (a <= i < a + k)%nat ->
              exists st_i s_i s_i' st_i', body i st_i s_i = (s_i', Ok st_i').
Proof.
  induction k as [|k IH]; intros a st s s' st' Hloop i Hi; [lia|].
  cbn [seq for_loop] in Hloop. apply sbind_ok in Hloop.
  destruct Hloop as (st1 & s1 & Hstep & Hloop).
  destruct (Nat.eq_dec i a) as [->|Hne].
  - exists st, s, s1, st1. exact Hstep.
  - apply (IH (S a) st1 s1 s' st' Hloop). lia.
Qed.

Section ShortExog.

Context {E Kw : Type} `{Estimator E Kw}.

(** With exogenous lags configured, every step that returns has read row
    [i] of the exogenous frame: at line 259 when lag 0 is configured, at
    line 279 otherwise. *)
Lemma step_reads_exog (self : RegressionModel E) exog_df (kwargs : Kw) dr
      (i : nat) st calls calls' st' cols :
  configured self ->
  exog_columns self = Some (Some cols) ->
  predict_step self exog_df kwargs dr i st calls = (calls', Ok st') ->
  exists e, exog_df = Some e /\ (i < df_len e)%nat.
Proof.
  intros Hconf Hec Hstep. destruct st as [ow fc].
  apply predict_step_ok in Hstep.
  destruct Hstep as (w & X & out & forecast & w' & f & fc1 & Hprep & _ & _
                     & _ & _ & Hadv & _ & _ & _).
  assert (Hread : forall e values, df_iloc e i = Ok values -> (i < df_len e)%nat).
  { intros e values. unfold df_iloc.
    destruct (i <? df_len e)%nat eqn:Hlt; [|discriminate].
    intros _. apply Nat.ltb_lt. exact Hlt. }
  unfold prepare_window in Hprep.
  destruct (match lags_exog self with
            | Some le => existsb (Z.eqb 0) le
            | None => false
            end) eqn:Hlag0.
  - apply bind_ok in Hprep. destruct Hprep as (e & He & Hprep).
    apply bind_ok in Hprep. destruct Hprep as (values & Hvalues & _).
    destruct exog_df as [e0|]; [|discriminate]. injection He as ->.
    exists e. split; [reflexivity | exact (Hread e values Hvalues)].
  - pose proof (max_lag_positive_without_lag0 self Hconf Hlag0) as Hpos.
    unfold advance_window in Hadv. apply Z.ltb_lt in Hpos. rewrite Hpos in Hadv.
    rewrite Hec in Hadv. cbn [attr bind] in Hadv.
    apply bind_ok in Hadv. destruct Hadv as (append_row & Hrow & _).
    apply bind_ok in Hrow. destruct Hrow as (f' & _ & Hrow).
    apply bind_ok in Hrow. destruct Hrow as (e & He & Hrow).
    apply bind_ok in Hrow. destruct Hrow as (values & Hvalues & _).
    destruct exog_df as [e0|]; [|discriminate]. injection He as ->.
    exists e. split; [reflexivity | exact (Hread e values Hvalues)].
Qed.

(** For a constructed model with exogenous lags, left by a returning
    [fit]: when the exogenous series given to [predict] starts where it
    must but has fewer than [n] rows, nothing before the loop raises, and
    [predict] raises (inside the loop). *)
Lemma short_exog_never_returns series exog (kwargs kwargs' : Kw)
      (self0 self : RegressionModel E) (e' : TimeSeries) (n : nat) calls (last : Z) :
  configured self0 ->
  fit series exog kwargs self0 = (self, Ok tt) ->
  lags_exog self0 <> None ->
  end_time series = Ok last ->
  start_time e' = Ok (last + freq series) ->
  (ts_len e' < n)%nat ->
  (exists init,
      super_predict self n (Some e') = Ok tt
      /\ initial_window self = Ok init
      /\ check_exog_start self (Some e') = Ok tt)
  /\ exists calls' e, predict self n (Some e') kwargs' calls = (calls', Raise e).
Proof.
  intros Hconf0 Hfit Hlex Hend Hstart Hshort.
  assert (Hml : 0 <= max_lag self0).
  { destruct Hconf0 as (_ & _ & _ & ->). lia. }
  assert (Hne : time_index series <> []).
  { unfold end_time in Hend. eapply item_ok_nonempty; exact Hend. }
  destruct (initial_window_defined _ _ _ _ _ Hml Hne Hfit) as [init [Hinit _]].
  apply fit_ok in Hfit.
  destruct Hfit as (Hcalled & Htrain & Hl & Hle & Hmax & Hpres & Hec & _).
  assert (Hconf : configured self) by (eapply configured_same; eassumption).
  assert (Hcheck : check_exog_start self (Some e') = Ok tt).
  { unfold check_exog_start. rewrite Htrain. cbn [attr bind].
    rewrite Hend. cbn [bind]. rewrite Hstart. cbn [bind].
    unfold raise_if_not. rewrite Z.eqb_refl. reflexivity. }
  split.
  { exists init. split; [apply super_predict_fitted; exact Hcalled|].
    split; assumption. }
  assert (Hcols : exists cols, exog_columns self = Some (Some cols)).
  { rewrite Hec. destruct exog as [e|]; [eexists; reflexivity|].
    destruct (lags_exog self0); [discriminate Hpres | congruence]. }
  destruct Hcols as [cols Hcols].
  destruct (predict self n (Some e') kwargs' calls) as [calls' [out|e]] eqn:Hp;
    [|exists calls', e; reflexivity].
  exfalso. unfold predict in Hp.
  sstep_lift Hp u1 Hsuper.
  sstep_lift Hp init' Hinit'.
  sstep_lift Hp u2 Hcheck'.
  sstep Hp final calls1 Hloop.
  destruct (loop_step_ran _ n 0 _ _ _ _ Hloop (ts_len e') ltac:(lia))
    as (st_i & s_i & s_i' & st_i' & Hstep).
  destruct (step_reads_exog self _ kwargs' _ _ _ _ _ _ cols Hconf Hcols Hstep)
    as (e & He & Hlt).
  cbn [option_map] in He. injection He as <-.
  unfold pd_dataframe, ts_len in *. lia.
Qed.

End ShortExog.


(** ** The arguments the constructor accepts *)

Lemma for_each_raise_if_iff (cond : Z -> bool) (msg : string) (l : list Z) :
  for_each (fun lag => raise_if (cond lag) msg) l = Ok tt
  <-> Forall (fun x => cond x = false) l.
Proof.
  split; [apply for_each_raise_if|].
  induction 1 as [|x r Hx Hr IH]; [reflexivity|].
  cbn [for_each]. unfold raise_if at 1. rewrite Hx. cbn [bind]. exact IH.
Qed.

Lemma for_each_raise_if_first (cond : Z -> bool) (msg : string) (l : list Z) :
  Exists (fun x => cond x = true) l ->
  for_each (fun lag => raise_if (cond lag) msg) l = Raise (ConfigurationError msg).
Proof.
  induction l as [|x r IH]; intros Hex; [inversion Hex|].
  cbn [for_each]. unfold raise_if at 1. destruct (cond x) eqn:Hx; [reflexivity|].
  cbn [bind]. apply IH. inversion Hex; subst; [congruence | assumption].
Qed.

Lemma for_each_raise_if_cases (cond : Z -> bool) (msg : string) (l : list Z) :
  (for_each (fun lag => raise_if (cond lag) msg) l = Ok tt
   /\ Forall (fun x => cond x = false) l)
  \/ (for_each (fun lag => raise_if (cond lag) msg) l = Raise (ConfigurationError msg)
      /\ Exists (fun x => cond x = true) l).
Proof.
  induction l as [|x r IH].
  - left. split; [reflexivity | constructor].
  - cbn [for_each]. unfold raise_if at 1 3. destruct (cond x) eqn:Hx.
    + right. split; [reflexivity | left; exact Hx].
    + cbn [bind]. destruct IH as [[-> Hall]|[-> Hex]].
      * left. split; [reflexivity | constructor; assumption].
      * right. split; [reflexivity | right; exact Hex].
Qed.


Lemma Forall_leb_pos (l : list Z) :
  Forall (fun x => (x <=? 0) = false) l <-> Forall (fun x => 0 < x) l.
Proof.
  split; intros Hall; (eapply Forall_impl; [|exact Hall]); intros x Hx; cbn beta in *.
  - apply Z.leb_gt. exact Hx.
  - apply Z.leb_gt. exact Hx.
Qed.

Lemma Forall_ltb_nonneg (l : list Z) :
  Forall (fun x => (x <? 0) = false) l <-> Forall (fun x => 0 <= x) l.
Proof.
  split; intros Hall; (eapply Forall_impl; [|exact Hall]); intros x Hx; cbn beta in *.
  - apply Z.ltb_ge. exact Hx.
  - apply Z.ltb_ge. exact Hx.
Qed.

Lemma Exists_not_Forall (c : Z -> bool) (l : list Z) :
  Exists (fun x => c x = true) l -> Forall (fun x => c x = false) l -> False.
Proof.
  intros Hex Hall. apply Exists_exists in Hex. destruct Hex as (x & Hin & Hx).
  rewrite Forall_forall in Hall. specialize (Hall x Hin). congruence.
Qed.

(** Case analysis on the validation steps of the constructor. *)
Ltac init_int k :=
  let Hk := fresh "Hk" in
  destruct (0 <? k) eqn:Hk;
  [apply Z.ltb_lt in Hk;
   let r := fresh "r" in
   let Hr := fresh "Hr" in
   destruct (py_range_from_one_cons k Hk) as [r Hr]; rewrite ?Hr
  |apply Z.ltb_ge in Hk];
  cbn [raise_if_not raise_if negb bind py_max].

Ltac init_list cond msg l :=
  let Hall := fresh "Hall" in
  let Hex := fresh "Hex" in
  let Hrun := fresh "Hrun" in
  destruct (for_each_raise_if_cases cond msg l) as [[Hrun Hall]|[Hrun Hex]];
  rewrite Hrun; cbn [bind];
  [destruct l; cbn [bind py_max]|].

Section ConstructorChecks.
Context {E Kw : Type} `{Estimator E Kw}.

(** X1.  For an estimator object that has both methods, the constructor
    returns exactly when the lag arguments are acceptable: [lags] is
    absent, a strictly positive integer or a non-empty list of strictly
    positive integers; [lags_exog] is [False], a strictly positive integer
    or a non-empty list of non-negative integers, or it is absent or
    [True] and [lags] is given.  With any other arguments it raises. *)
Theorem init_returns_iff la lx (m : E) :
  has_fit m = true -> has_predict m = true ->
  ((exists self, __init__ la lx (Some m) = Ok self)
   <-> (match la with
        | None => True
        | Some (LagsInt k) => 0 < k
        | Some (LagsList l) => l <> [] /\ Forall (fun x => 0 < x) l
        | Some LagsOther => False
        end
        /\ match lx with
           | None => la <> None
           | Some (ExogBool true) => la <> None
           | Some (ExogBool false) => True
           | Some (ExogInt k) => 0 < k
           | Some (ExogList l) => l <> [] /\ Forall (fun x => 0 <= x) l
           | Some ExogOther => False
           end)).
Proof.
  intros Hf Hp. unfold __init__. cbn [callable_attr]. rewrite Hf, Hp. cbn [negb].
  destruct la as [[k|l|]|], lx as [[[|]|k'|l'|]|];
    cbn [is_none andb raise_if raise_if_not negb bind].
  all: try (split; [intros [self Hs]; discriminate Hs
                   | intros [H1 H2]; solve [contradiction | congruence]]).
  all: repeat match goal with
         | |- context [raise_if_not (0 <? ?k) _] => init_int k
         | |- context [for_each (fun lag => raise_if (lag <=? 0) ?msg) ?l] =>
             init_list (fun lag : Z => lag <=? 0) msg l
         | |- context [for_each (fun lag => raise_if (lag <? 0) ?msg) ?l] =>
             init_list (fun lag : Z => lag <? 0) msg l
         end.
  all: repeat match goal with
         | Hall : Forall (fun x => (x <=? 0) = false) _ |- _ => apply Forall_leb_pos in Hall
         | Hall : Forall (fun x => (x <? 0) = false) _ |- _ => apply Forall_ltb_nonneg in Hall
         end.
  all: split;
    [intros [self Hs]; try discriminate Hs;
     repeat split; try solve [lia | discriminate | assumption]
    |intros [H1 H2]; try (eexists; reflexivity); exfalso;
     repeat match goal with
       | Hc : _ /\ _ |- _ => destruct Hc
       | Hc : Forall (fun x => 0 < x) _ |- _ => apply Forall_leb_pos in Hc
       | Hc : Forall (fun x => 0 <= x) _ |- _ => apply Forall_ltb_nonneg in Hc
       end;
     match goal with
     | Hex : Exists (fun x => (x <? 0) = true) ?l,
       Hall : Forall (fun x => (x <? 0) = false) ?l |- _ =>
         exact (Exists_not_Forall (fun x => x <? 0) l Hex Hall)
     | Hex : Exists (fun x => (x <=? 0) = true) ?l,
       Hall : Forall (fun x => (x <=? 0) = false) ?l |- _ =>
         exact (Exists_not_Forall (fun x => x <=? 0) l Hex Hall)
     | _ => solve [lia | congruence]
     end].
Qed.

(** X2.  A lag value that is not accepted is reported by a
    [ConfigurationError] whose message quotes the argument: a [lags]
    integer that is not strictly positive, a [lags] list with an element
    that is not strictly positive (whatever [lags_exog] holds, since the
    target lags are validated first), a [lags_exog] integer that is not
    strictly positive, and a [lags_exog] list with a negative element. *)
Theorem init_reports_offending_value (m : E) :
  has_fit m = true -> has_predict m = true ->
  (forall k lx,
      k <= 0 -> lx <> Some ExogOther ->
      __init__ (Some (LagsInt k)) lx (Some m)
      = Raise (ConfigurationError
                 ("`lags` must be strictly positive. Given: " +++ show_Z k +++ ".")))
  /\ (forall l lx,
         Exists (fun x => x <= 0) l -> lx <> Some ExogOther ->
         __init__ (Some (LagsList l)) lx (Some m)
         = Raise (ConfigurationError
                    ("Every element of `lags` must be a strictly positive integer. Given: "
                     +++ show_list l +++ ".")))
  /\ (forall la k,
         match la with
         | None => True
         | Some (LagsInt j) => 0 < j
         | Some (LagsList l) => Forall (fun x => 0 < x) l
         | Some LagsOther => False
         end ->
         k <= 0 ->
         __init__ la (Some (ExogInt k)) (Some m)
         = Raise (ConfigurationError
                    ("`lags_exog` must be strictly positive. Given: " +++ show_Z k +++ ".")))
  /\ (forall la le,
         match la with
         | None => True
         | Some (LagsInt j) => 0 < j
         | Some (LagsList l) => Forall (fun x => 0 < x) l
         | Some LagsOther => False
         end ->
         Exists (fun x => x < 0) le ->
         __init__ la (Some (ExogList le)) (Some m)
         = Raise (ConfigurationError
                    ("Every element of `lags_exog` must be a positive integer. Given: "
                     +++ show_list le +++ "."))).
Proof.
  intros Hf Hp.
  assert (Hint : forall k msg, k <= 0 ->
                               raise_if_not (0 <? k) msg = Raise (ConfigurationError msg)).
  { intros k msg Hk. unfold raise_if_not, raise_if.
    replace (0 <? k) with false by (symmetry; apply Z.ltb_ge; exact Hk). reflexivity. }
  assert (Hpos : forall k msg, 0 < k -> raise_if_not (0 <? k) msg = Ok tt).
  { intros k msg Hk. unfold raise_if_not, raise_if.
    replace (0 <? k) with true by (symmetry; apply Z.ltb_lt; exact Hk). reflexivity. }
  assert (Hlist : forall l msg, Forall (fun x => 0 < x) l ->
                    for_each (fun lag => raise_if (lag <=? 0) msg) l = Ok tt).
  { intros l msg Hall. apply for_each_raise_if_iff. apply Forall_leb_pos. exact Hall. }
  split; [|split; [|split]].
  - intros k lx Hk Hlx. unfold __init__. cbn [callable_attr]. rewrite Hf, Hp.
    rewrite Hint by exact Hk.
    destruct lx as [[[|]|k'|l'|]|]; try congruence; reflexivity.
  - intros l lx Hex Hlx. unfold __init__. cbn [callable_attr]. rewrite Hf, Hp.
    rewrite for_each_raise_if_first.
    + destruct lx as [[[|]|k'|l'|]|]; try congruence; reflexivity.
    + eapply Exists_impl; [|exact Hex]. intros x Hx. cbn beta in *.
      apply Z.leb_le. exact Hx.
  - intros la k Hla Hk. unfold __init__. cbn [callable_attr]. rewrite Hf, Hp.
    rewrite (Hint k) by exact Hk.
    destruct la as [[j|l|]|]; try contradiction;
      rewrite ?Hpos, ?Hlist by assumption; reflexivity.
  - intros la le Hla Hex. unfold __init__. cbn [callable_attr]. rewrite Hf, Hp.
    rewrite (for_each_raise_if_first (fun lag => lag <? 0)).
    + destruct la as [[j|l|]|]; try contradiction;
        rewrite ?Hpos, ?Hlist by assumption; reflexivity.
    + eapply Exists_impl; [|exact Hex]. intros x Hx. cbn beta in *.
      apply Z.ltb_lt. exact Hx.
Qed.

(** X3.  An empty lag list passes the validation loops of lines 83 and 97,
    which have nothing to look at, and the constructor then fails in
    lines 104 to 109 with the [ValueError] of [max()] on an empty
    sequence, not with a [ConfigurationError]. *)
Theorem init_empty_list_value_error (m : E) :
  has_fit m = true -> has_predict m = true ->
  (forall lx,
      match lx with
      | None | Some (ExogBool _) => True
      | Some (ExogInt k) => 0 < k
      | Some (ExogList le) => Forall (fun x => 0 <= x) le
      | Some ExogOther => False
      end ->
      __init__ (Some (LagsList [])) lx (Some m)
      = Raise (ValueError "max() arg is an empty sequence"))
  /\ (forall la,
         match la with
         | None => True
         | Some (LagsInt j) => 0 < j
         | Some (LagsList l) => Forall (fun x => 0 < x) l
         | Some LagsOther => False
         end ->
         __init__ la (Some (ExogList [])) (Some m)
         = Raise (ValueError "max() arg is an empty sequence")).
Proof.
  intros Hf Hp.
  assert (Hpos : forall k msg, 0 < k -> raise_if_not (0 <? k) msg = Ok tt).
  { intros k msg Hk. unfold raise_if_not, raise_if.
    replace (0 <? k) with true by (symmetry; apply Z.ltb_lt; exact Hk). reflexivity. }
  split.
  - intros lx Hlx. unfold __init__. cbn [callable_attr]. rewrite Hf, Hp.
    destruct lx as [[[|]|k|le|]|]; try contradiction; try reflexivity.
    + rewrite Hpos by exact Hlx. reflexivity.
    + cbn [is_none andb raise_if raise_if_not negb bind for_each].
      rewrite (proj2 (for_each_raise_if_iff (fun lag => lag <? 0) _ le))
        by (apply Forall_ltb_nonneg; exact Hlx).
      reflexivity.
  - intros la Hla. unfold __init__. cbn [callable_attr]. rewrite Hf, Hp.
    destruct la as [[j|l|]|]; try contradiction; try reflexivity.
    + rewrite Hpos by exact Hla.
      destruct (py_range_from_one_cons j Hla) as [r Hr]. rewrite Hr. reflexivity.
    + cbn [is_none andb raise_if raise_if_not negb bind].
      rewrite (proj2 (for_each_raise_if_iff (fun lag => lag <=? 0) _ l))
        by (apply Forall_leb_pos; exact Hla).
      destruct l; reflexivity.
Qed.

(** X4.  An estimator object without a callable [fit] is refused by the
    constructor with the exception of line 71, and one with [fit] but
    without a callable [predict] with the exception of line 73, for all
    lag arguments that pass the four checks of lines 57 to 68: the lag
    values themselves are not looked at before. *)
Theorem init_requires_estimator_methods la lx (m : E) :
  la <> None \/ lx <> None ->
  la <> Some LagsOther ->
  lx <> Some ExogOther ->
  (la = None -> lx <> Some (ExogBool true)) ->
  (has_fit m = false ->
   __init__ la lx (Some m)
   = Raise (PyException "Provided model object must have a fit() method"))
  /\ (has_fit m = true -> has_predict m = false ->
      __init__ la lx (Some m)
      = Raise (PyException "Provided model object must have a predict() method")).
Proof.
  intros Hsome Hla Hlx Htrue. split.
  - intros Hf. unfold __init__. cbn [callable_attr]. rewrite Hf.
    destruct la as [[k|l|]|], lx as [[[|]|k'|l'|]|]; try congruence; try reflexivity;
      try (destruct Hsome; congruence).
    exfalso. apply Htrue; reflexivity.
  - intros Hf Hp. unfold __init__. cbn [callable_attr]. rewrite Hf, Hp.
    destruct la as [[k|l|]|], lx as [[[|]|k'|l'|]|]; try congruence; try reflexivity;
      try (destruct Hsome; congruence).
    exfalso. apply Htrue; reflexivity.
Qed.


Lemma lag_depth_attained (L : list Z) :
  L <> [] -> Forall (fun x => 0 <= x) L -> In (Z.of_nat (lag_depth L)) L.
Proof.
  unfold lag_depth. induction L as [|x r IH]; intros Hne Hall; [congruence|].
  apply Forall_cons_iff in Hall. destruct Hall as [Hx Hr].
  cbn [map]. change (list_max (Z.to_nat x :: map Z.to_nat r))
    with (Nat.max (Z.to_nat x) (list_max (map Z.to_nat r))).
  destruct r as [|y r'].
  - left. cbn. lia.
  - destruct (Nat.max_spec (Z.to_nat x) (list_max (map Z.to_nat (y :: r'))))
      as [[_ ->]|[_ ->]].
    + right. apply IH; [discriminate | exact Hr].
    + left. lia.
Qed.

(** X5.  In a constructed model [max_lag] is one of the configured lags
    and bounds all of them, none of which is negative; it is 0 exactly
    when there are no target lags and every exogenous lag is 0. *)
Theorem init_max_lag la lx (ma : option E) self :
  __init__ la lx ma = Ok self ->
  In (max_lag self) (lags_used self)
  /\ (forall lag, In lag (lags_used self) -> 0 <= lag <= max_lag self)
  /\ (max_lag self = 0
      <-> lags self = None /\ forall lag, In lag (lags_used self) -> lag = 0).
Proof.
  intros Hinit. apply init_configured in Hinit.
  destruct Hinit as (Hl & Hle & Hsome & Hmax).
  assert (Hnn : Forall (fun x => 0 <= x) (lags_used self)).
  { unfold lags_used. apply Forall_app. split.
    - destruct (lags self) as [l|]; [|constructor].
      destruct (Hl l eq_refl) as [_ Hpos].
      eapply Forall_impl; [|exact Hpos]. intros z Hz. cbn beta in Hz. lia.
    - destruct (lags_exog self) as [le|]; [|constructor].
      exact (proj2 (Hle le eq_refl)). }
  assert (Hne : lags_used self <> []).
  { unfold lags_used. intros Hnil. apply app_eq_nil in Hnil. destruct Hnil as [Ha Hb].
    destruct (lags self) as [l|] eqn:Hlags.
    - destruct (Hl l eq_refl) as [Hlne _]. congruence.
    - destruct (lags_exog self) as [le|] eqn:Hlex.
      + destruct (Hle le eq_refl) as [Hlene _]. congruence.
      + destruct Hsome; congruence. }
  assert (Hin : In (max_lag self) (lags_used self)).
  { rewrite Hmax. apply lag_depth_attained; assumption. }
  assert (Hbound : forall lag, In lag (lags_used self) -> 0 <= lag <= max_lag self).
  { intros lag Hlag. rewrite Forall_forall in Hnn. split; [apply Hnn; exact Hlag|].
    pose proof (proj1 (lag_depth_le (lags_used self) _) (Nat.le_refl _) lag Hlag).
    rewrite Hmax. specialize (Hnn lag Hlag). cbn beta in Hnn. lia. }
  split; [exact Hin|]. split; [exact Hbound|]. split.
  - intros Hzero. split.
    + destruct (lags self) as [l|] eqn:Hlags; [|reflexivity].
      destruct (Hl l eq_refl) as [Hlne Hpos]. destruct l as [|x r]; [congruence|].
      apply Forall_inv in Hpos.
      assert (Hx : In x (lags_used self)).
      { unfold lags_used. rewrite Hlags. left. reflexivity. }
      specialize (Hbound x Hx). lia.
    + intros lag Hlag. specialize (Hbound lag Hlag). lia.
  - intros [_ Hall]. apply Hall. exact Hin.
Qed.

End ConstructorChecks.

Lemma init_returns_iff_witness :
  exists self,
    __init__ (Some (LagsList [1; 3])) (Some (ExogList [0; 2])) (Some (SumModel false 0))
    = Ok self.
Proof.
  assert (Hf : has_fit (SumModel false 0) = true) by reflexivity.
  assert (Hp : has_predict (SumModel false 0) = true) by reflexivity.
  apply (proj2 (init_returns_iff (Some (LagsList [1; 3])) (Some (ExogList [0; 2]))
                                 (SumModel false 0) Hf Hp)).
  split; (split; [discriminate | repeat constructor; lia]).
Defined.

Lemma init_reports_offending_value_witness :
  __init__ (Some (LagsList [2; 0; 1])) None (Some (SumModel false 0))
  = Raise (ConfigurationError
             "Every element of `lags` must be a strictly positive integer. Given: [2, 0, 1].").
Proof.
  assert (Hex : Exists (fun x => x <= 0) [2; 0; 1]) by (right; left; lia).
  assert (Hlx : @None LagsExogArg <> Some ExogOther) by discriminate.
  assert (Hf : has_fit (SumModel false 0) = true) by reflexivity.
  assert (Hp : has_predict (SumModel false 0) = true) by reflexivity.
  exact (proj1 (proj2 (init_reports_offending_value (SumModel false 0) Hf Hp))
               [2; 0; 1] None Hex Hlx).
Defined.

Lemma init_empty_list_value_error_witness :
  __init__ (Some (LagsList [])) (Some (ExogBool false)) (Some (SumModel false 0))
  = Raise (ValueError "max() arg is an empty sequence").
Proof.
  assert (Hf : has_fit (SumModel false 0) = true) by reflexivity.
  assert (Hp : has_predict (SumModel false 0) = true) by reflexivity.
  exact (proj1 (init_empty_list_value_error (SumModel false 0) Hf Hp)
               (Some (ExogBool false)) I).
Defined.

Lemma init_requires_estimator_methods_witness :
  __init__ (Some (LagsInt (-3))) None (Some Plain)
  = Raise (PyException "Provided model object must have a fit() method").
Proof.
  assert (H1 : Some (LagsInt (-3)) <> None \/ @None LagsExogArg <> None)
    by (left; discriminate).
  assert (H2 : Some (LagsInt (-3)) <> Some LagsOther) by discriminate.
  assert (H3 : @None LagsExogArg <> Some ExogOther) by discriminate.
  assert (H4 : Some (LagsInt (-3)) = None -> @None LagsExogArg <> Some (ExogBool true))
    by discriminate.
  assert (Hf : has_fit Plain = false) by reflexivity.
  exact (proj1 (init_requires_estimator_methods (Some (LagsInt (-3))) None Plain
                                                H1 H2 H3 H4)
               Hf).
Defined.

Lemma init_max_lag_witness :
  exists self,
    __init__ (Some (LagsList [2; 5; 3])) (Some (ExogList [0; 7; 1]))
             (Some (SumModel false 0)) = Ok self
    /\ max_lag self = 7
    /\ In (max_lag self) (lags_used self).
Proof.
  eexists. split; [reflexivity|]. split; [reflexivity|].
  exact (proj1 (init_max_lag (Some (LagsList [2; 5; 3])) (Some (ExogList [0; 7; 1]))
                             (Some (SumModel false 0)) _ eq_refl)).
Defined.


(** ** The lagged frame in closed form *)

Lemma fresh_lags_in (lags : list Z) :
  forall seen x, In x (fresh_lags seen lags) <-> In x lags /\ ~ In x seen.
Proof.
  induction lags as [|lag r IH]; intros seen x; cbn [fresh_lags].
  - split; [intros [] | intros [[] _]].
  - destruct (existsb (Z.eqb lag) seen) eqn:Hseen.
    + apply existsb_exists in Hseen. destruct Hseen as (y & Hy & Heq).
      apply Z.eqb_eq in Heq. subst y.
      rewrite IH. split.
      * intros [Hin Hnot]. split; [right; exact Hin | exact Hnot].
      * intros [[->|Hin] Hnot]; [contradiction | split; assumption].
    + assert (Hnot : ~ In lag seen).
      { intros Hin. apply not_true_iff_false in Hseen. apply Hseen.
        apply existsb_exists. exists lag. split; [exact Hin | apply Z.eqb_refl]. }
      cbn [In]. rewrite IH. split.
      * intros [->|[Hin Hn]].
        -- split; [left; reflexivity | exact Hnot].
        -- split; [right; exact Hin|]. intros Hs. apply Hn. apply in_or_app. left. exact Hs.
      * intros [[->|Hin] Hn]; [left; reflexivity|].
        destruct (Z.eq_dec lag x) as [->|Hne]; [left; reflexivity|].
        right. split; [exact Hin|]. intros Hs. apply in_app_or in Hs.
        destruct Hs as [Hs|[Hs|[]]]; [contradiction | congruence].
Qed.

Lemma distinct_lags_in (lags : list Z) (x : Z) : In x (distinct_lags lags) <-> In x lags.
Proof. unfold distinct_lags. rewrite fresh_lags_in. cbn [In]. tauto. Qed.

Lemma fresh_lags_nodup (lags : list Z) :
  forall seen, NoDup lags -> (forall x, In x lags -> ~ In x seen) ->
               fresh_lags seen lags = lags.
Proof.
  induction lags as [|lag r IH]; intros seen Hnd Hnot; [reflexivity|].
  apply NoDup_cons_iff in Hnd. destruct Hnd as [Hlag Hnd]. cbn [fresh_lags].
  replace (existsb (Z.eqb lag) seen) with false.
  - f_equal. apply IH; [exact Hnd|]. intros x Hx Hs. apply in_app_or in Hs.
    destruct Hs as [Hs|[<-|[]]]; [|contradiction].
    apply (Hnot x); [right; exact Hx | exact Hs].
  - symmetry. apply not_true_iff_false. intros Hex. apply existsb_exists in Hex.
    destruct Hex as (y & Hy & Heq). apply Z.eqb_eq in Heq. subst y.
    apply (Hnot lag); [left; reflexivity | exact Hy].
Qed.

Lemma distinct_lags_nodup (lags : list Z) : NoDup lags -> distinct_lags lags = lags.
Proof. intros Hnd. apply fresh_lags_nodup; [exact Hnd | intros x _ []]. Qed.

Lemma set_col_absent name values cols :
  ~ In name (map fst cols) -> set_col name values cols = cols ++ [(name, values)].
Proof.
  induction cols as [|c r IH]; intros Hnot; [reflexivity|].
  cbn [set_col]. replace (String.eqb (fst c) name) with false.
  - cbn [app]. f_equal. apply IH. intros Hin. apply Hnot. right. exact Hin.
  - symmetry. apply String.eqb_neq. intros Heq. apply Hnot. left. exact Heq.
Qed.

Lemma set_col_present name values old cols1 cols2 :
  ~ In name (map fst cols1) ->
  set_col name values (cols1 ++ (name, old) :: cols2) = cols1 ++ (name, values) :: cols2.
Proof.
  induction cols1 as [|c r IH]; intros Hnot.
  - cbn [app set_col fst]. rewrite String.eqb_refl. reflexivity.
  - cbn [app set_col]. replace (String.eqb (fst c) name) with false.
    + f_equal. apply IH. intros Hin. apply Hnot. right. exact Hin.
    + symmetry. apply String.eqb_neq. intros Heq. apply Hnot. left. exact Heq.
Qed.

Lemma filter_all {A : Type} (f : A -> bool) (l : list A) :
  (forall x, In x l -> f x = true) -> filter f l = l.
Proof.
  induction l as [|x l IH]; intros Hall; [reflexivity|].
  cbn [filter]. rewrite (Hall x (or_introl eq_refl)). f_equal.
  apply IH. intros y Hy. apply Hall. right. exact Hy.
Qed.

Section LagFrame.

Variable name : string.
Variable values : list (option Z).

Let lag_col (lag : Z) : string * list (option Z) :=
  (lag_name name lag, shift lag values).

Lemma lag_col_names (seen : list Z) (lag : Z) :
  In (lag_name name lag) (map fst (map lag_col seen)) -> In lag seen.
Proof.
  rewrite map_map. intros Hin. apply in_map_iff in Hin.
  destruct Hin as (x & Hx & Hin). cbn [lag_col fst] in Hx.
  apply lag_name_inj in Hx. subst x. exact Hin.
Qed.

Lemma filter_target (seen : list Z) :
  filter (fun c => String.eqb (fst c) name) ((name, values) :: map lag_col seen)
  = [(name, values)].
Proof.
  cbn [filter fst]. rewrite String.eqb_refl. f_equal.
  apply filter_none. intros c Hc. apply in_map_iff in Hc.
  destruct Hc as (x & <- & _). cbn [lag_col fst]. apply lag_name_fresh.
Qed.

Lemma set_lag_col (seen : list Z) (lag : Z) :
  NoDup seen ->
  set_col (lag_name name lag) (shift lag values) (map lag_col seen)
  = map lag_col (if existsb (Z.eqb lag) seen then seen else seen ++ [lag]).
Proof.
  intros Hnd. destruct (existsb (Z.eqb lag) seen) eqn:Hseen.
  - apply existsb_exists in Hseen. destruct Hseen as (y & Hy & Heq).
    apply Z.eqb_eq in Heq. subst y.
    apply in_split in Hy. destruct Hy as (s1 & s2 & ->).
    rewrite map_app. cbn [map]. unfold lag_col at 2 4.
    apply set_col_present. intros Hin. apply lag_col_names in Hin.
    apply NoDup_remove_2 in Hnd. apply Hnd. apply in_or_app. left. exact Hin.
  - rewrite map_app. cbn [map]. apply set_col_absent.
    intros Hin. apply lag_col_names in Hin.
    apply not_true_iff_false in Hseen. apply Hseen. apply existsb_exists.
    exists lag. split; [exact Hin | apply Z.eqb_refl].
Qed.

Lemma lag_columns_closed (lags : list Z) :
  forall (seen : list Z) (idx : list Z),
    NoDup seen ->
    lag_columns name lags
                {| df_index := idx; df_cols := (name, values) :: map lag_col seen |}
    = Ok {| df_index := idx;
            df_cols := (name, values) :: map lag_col (seen ++ fresh_lags seen lags) |}.
Proof.
  induction lags as [|lag r IH]; intros seen idx Hnd.
  - cbn [lag_columns fresh_lags]. rewrite app_nil_r. reflexivity.
  - cbn [lag_columns]. unfold df_getcol. cbn [df_cols].
    rewrite filter_target. cbn [bind snd]. unfold df_setcol. cbn [df_index df_cols set_col fst].
    replace (String.eqb name (name +++ "_lag" +++ show_Z lag)) with false
      by (symmetry; rewrite String.eqb_sym; apply lag_name_fresh).
    change (name +++ "_lag" +++ show_Z lag) with (lag_name name lag).
    rewrite (set_lag_col seen lag Hnd). cbn [fresh_lags].
    destruct (existsb (Z.eqb lag) seen) eqn:Hseen.
    + apply IH. exact Hnd.
    + rewrite IH.
      * rewrite <- app_assoc. reflexivity.
      * apply NoDup_app; [exact Hnd | constructor; [intros [] | constructor] |].
        intros x Hx [<-|[]]. apply not_true_iff_false in Hseen. apply Hseen.
        apply existsb_exists. exists lag. split; [exact Hx | apply Z.eqb_refl].
Qed.

Lemma row_complete_lag_cols (lags : list Z) (i : nat) :
  row_complete ((name, values) :: map lag_col lags) i
  = defined_at values i && forallb (fun lag => defined_at (shift lag values) i) lags.
Proof.
  unfold row_complete. cbn [forallb snd]. f_equal.
  induction lags as [|lag r IH]; [reflexivity|].
  cbn [map forallb lag_col snd]. rewrite IH. reflexivity.
Qed.

Lemma forallb_same_members {A : Type} (p : A -> bool) (a b : list A) :
  (forall x, In x a <-> In x b) -> forallb p a = forallb p b.
Proof.
  intros Hmem. apply eq_true_iff_eq. rewrite !forallb_forall. split.
  - intros Hall x Hx. apply Hall. apply Hmem. exact Hx.
  - intros Hall x Hx. apply Hall. apply Hmem. exact Hx.
Qed.

Lemma create_lagged_data_closed (idx : list Z) (fr : Z) (lags : list Z) :
  _create_lagged_data
    {| ts_df := {| df_index := idx; df_cols := [(name, values)] |}; ts_freq := fr |} lags
  = Ok {| df_index := take_rows (kept_rows values lags (length idx)) idx;
          df_cols := map (fun lag =>
                            (lag_name name lag,
                             take_rows (kept_rows values lags (length idx))
                                       (shift lag values)))
                         (distinct_lags lags) |}.
Proof.
  unfold _create_lagged_data, pd_dataframe.
  cbn [ts_df df_columns df_cols map fst item nth_error bind].
  change [(name, values)] with ((name, values) :: map lag_col []).
  rewrite (lag_columns_closed lags [] idx (NoDup_nil _)). cbn [bind app].
  fold (distinct_lags lags).
  unfold dropna, df_drop, df_len. cbn [df_index df_cols].
  assert (Hkeep : filter (row_complete ((name, values) :: map lag_col (distinct_lags lags)))
                         (seq 0 (length idx))
                  = kept_rows values lags (length idx)).
  { unfold kept_rows. apply filter_ext. intros i. rewrite row_complete_lag_cols.
    f_equal. apply forallb_same_members. apply distinct_lags_in. }
  rewrite Hkeep. f_equal. f_equal.
  cbn [map filter fst]. rewrite String.eqb_refl. cbn [negb].
  rewrite map_map. cbn [lag_col fst snd].
  rewrite filter_map_swap. cbn [fst].
  rewrite filter_all; [reflexivity|].
  intros lag _. unfold lag_name. rewrite lag_name_fresh. reflexivity.
Qed.

End LagFrame.

Lemma defined_at_shift (lag : Z) (col : list (option Z)) (i : nat) :
  0 <= lag -> (i < length col)%nat -> Forall (fun c => notna c = true) col ->
  defined_at (shift lag col) i = (Z.to_nat lag <=? i)%nat.
Proof. intros Hlag Hi Hdef. unfold defined_at. apply shift_defined; assumption. Qed.

Lemma kept_rows_clean (values : list (option Z)) (lags : list Z) (n : nat) :
  length values = n ->
  Forall (fun v => notna v = true) values ->
  Forall (fun l => 0 <= l) lags ->
  kept_rows values lags n = seq (lag_depth lags) (n - lag_depth lags).
Proof.
  intros Hlen Hdef Hpos. unfold kept_rows. rewrite <- filter_seq_from.
  apply filter_ext_in. intros i Hi. apply in_seq in Hi.
  assert (Hv : defined_at values i = true).
  { unfold defined_at. destruct (nth_error values i) as [v|] eqn:Hnth.
    - rewrite Forall_forall in Hdef. apply Hdef. eapply nth_error_In. exact Hnth.
    - apply nth_error_None in Hnth. lia. }
  rewrite Hv. cbn [andb]. apply eq_true_iff_eq.
  rewrite forallb_forall, Nat.leb_le, lag_depth_le.
  rewrite Forall_forall in Hpos. split.
  - intros Hall lag Hlag. specialize (Hall lag Hlag).
    rewrite defined_at_shift in Hall by (auto; lia). apply Nat.leb_le. exact Hall.
  - intros Hall lag Hlag. rewrite defined_at_shift by (auto; lia).
    apply Nat.leb_le. apply Hall. exact Hlag.
Qed.

(** The lagged frame of a variable without NaN, in closed form. *)
Lemma create_lagged_data_clean (idx : list Z) (name : string)
      (values : list (option Z)) (fr : Z) (lags : list Z) :
  length values = length idx ->
  Forall (fun v => notna v = true) values ->
  Forall (fun l => 0 <= l) lags ->
  _create_lagged_data
    {| ts_df := {| df_index := idx; df_cols := [(name, values)] |}; ts_freq := fr |} lags
  = Ok {| df_index := skipn (lag_depth lags) idx;
          df_cols := map (fun lag => (lag_name name lag,
                                      skipn (lag_depth lags) (shift lag values)))
                         (distinct_lags lags) |}.
Proof.
  intros Hlen Hdef Hpos. rewrite create_lagged_data_closed.
  rewrite (kept_rows_clean values lags (length idx) Hlen Hdef Hpos).
  rewrite take_rows_suffix. f_equal. f_equal.
  apply map_ext_in. intros lag Hlag. f_equal.
  apply (proj1 (distinct_lags_in _ _)) in Hlag. rewrite Forall_forall in Hpos.
  rewrite <- (shift_length lag values (Hpos lag Hlag)) in Hlen.
  rewrite <- Hlen. apply take_rows_suffix.
Qed.

(** ** Lagged frames side by side, in closed form *)

Section ConcatClosed.

Variable idx : list Z.
Hypothesis idx_sorted : StronglySorted Z.lt idx.

(** A column of a frame on the rows from [d] on, re-read on the rows from
    [b] on. *)
Lemma reindex_suffix_col (d b : nat) (v : list (option Z)) :
  (d <= b)%nat -> length v = length idx ->
  map (fun t => match position t (skipn d idx) with
                | Some p => nth p (skipn d v) None
                | None => None
                end) (skipn b idx)
  = skipn b v.
Proof.
  intros Hdb Hlen. apply nth_error_ext. intros j.
  rewrite nth_error_map, !nth_error_skipn.
  destruct (nth_error idx (b + j)) as [t|] eqn:Ht; cbn [option_map].
  - rewrite (position_in_suffix idx d (b + j) t idx_sorted Ht).
    replace (d <=? b + j)%nat with true by (symmetry; apply Nat.leb_le; lia).
    rewrite nth_skipn. replace (d + (b + j - d))%nat with (b + j)%nat by lia.
    assert (Hj : (b + j < length v)%nat).
    { rewrite Hlen. apply nth_error_Some. congruence. }
    destruct (nth_error v (b + j)) as [x|] eqn:Hx.
    + rewrite (nth_error_nth v (b + j) None Hx). reflexivity.
    + apply nth_error_None in Hx. lia.
  - apply nth_error_None in Ht. symmetry. apply nth_error_None. lia.
Qed.

Lemma reindexed_cols_from (a b : nat)
      (specs : list (nat * list (string * list (option Z)))) (frames : list DataFrame) :
  (a <= b)%nat ->
  Forall2 (fun spec F =>
             complete_from idx (fst spec) F
             /\ df_cols F = map (fun c => (fst c, skipn (fst spec) (snd c))) (snd spec)
             /\ Forall (fun c => length (snd c) = length idx) (snd spec))
          specs frames ->
  Forall (fun spec => (fst spec <= b)%nat) specs ->
  map (fun c => (fst c,
                 take_rows (seq (b - a) (length (skipn a idx) - (b - a))) (snd c)))
      (flat_map (reindex (skipn a idx)) frames)
  = flat_map (fun spec => map (fun c => (fst c, skipn b (snd c))) (snd spec)) specs.
Proof.
  intros Hab Hall Hdb.
  induction Hall as [|spec F specs frames HF Hrest IH]; [reflexivity|].
  apply Forall_cons_iff in Hdb. destruct Hdb as [Hd Hdb].
  cbn [flat_map]. rewrite map_app, IH by exact Hdb. f_equal.
  destruct HF as ((Hidx & _) & Hcols & Hlen). unfold reindex. rewrite Hcols, !map_map.
  apply map_ext_in. intros c Hc. cbn [fst snd]. f_equal.
  rewrite Forall_forall in Hlen.
  assert (Hl : length (map (fun t => match position t (df_index F) with
                                    | Some p => nth p (skipn (fst spec) (snd c)) None
                                    | None => None
                                    end) (skipn a idx))
               = length (skipn a idx)) by apply length_map.
  rewrite <- Hl at 1. rewrite take_rows_suffix, skipn_map, skipn_skipn.
  replace (b - a + a)%nat with b by lia.
  rewrite Hidx. apply reindex_suffix_col; [exact Hd | apply Hlen; exact Hc].
Qed.

Lemma concat_dropna_closed
      (specs : list (nat * list (string * list (option Z)))) (frames : list DataFrame) :
  Forall2 (fun spec F =>
             complete_from idx (fst spec) F
             /\ df_cols F = map (fun c => (fst c, skipn (fst spec) (snd c))) (snd spec)
             /\ Forall (fun c => length (snd c) = length idx) (snd spec))
          specs frames ->
  frames <> [] ->
  exists D,
    pd_concat frames = Ok D
    /\ dropna D
       = {| df_index := skipn (list_max (map fst specs)) idx;
            df_cols := flat_map (fun spec =>
                                   map (fun c => (fst c,
                                                  skipn (list_max (map fst specs)) (snd c)))
                                       (snd spec))
                                specs |}.
Proof.
  intros Hall Hne.
  assert (Hcf : Forall2 (complete_from idx) (map fst specs) frames).
  { clear Hne. induction Hall as [|spec F specs frames HF Hrest IH]; [constructor|].
    cbn [map]. constructor; [exact (proj1 HF) | exact IH]. }
  destruct (union_of_suffixes idx idx_sorted _ frames Hcf Hne) as (a & Hu & Hin & Hle).
  set (b := list_max (map fst specs)) in *.
  assert (Hab : (a <= b)%nat).
  { pose proof (proj1 (list_max_le (map fst specs) b) (Nat.le_refl _)) as Hmax.
    rewrite Forall_forall in Hmax. apply Hmax. exact Hin. }
  assert (Hdb : Forall (fun spec => (fst spec <= b)%nat) specs).
  { pose proof (proj1 (list_max_le (map fst specs) b) (Nat.le_refl _)) as Hmax.
    rewrite Forall_forall in Hmax. apply Forall_forall. intros spec Hs.
    apply Hmax. apply in_map. exact Hs. }
  unfold pd_concat. destruct frames as [|F0 frames0] eqn:Hfr; [congruence|].
  rewrite <- Hfr in *. eexists. split; [reflexivity|].
  unfold dropna, df_len. cbn [df_index df_cols]. rewrite Hu.
  assert (Hkeep : filter (row_complete (flat_map (reindex (skipn a idx)) frames))
                         (seq 0 (length (skipn a idx)))
                  = seq (b - a) (length (skipn a idx) - (b - a))).
  { rewrite <- filter_seq_from. apply filter_ext_in. intros i Hi.
    apply in_seq in Hi. rewrite length_skipn in Hi.
    rewrite (concat_row_complete idx idx_sorted a i _ frames Hcf) by lia.
    fold b. apply eq_true_iff_eq. rewrite !Nat.leb_le. lia. }
  rewrite Hkeep, take_rows_suffix, skipn_skipn.
  replace (b - a + a)%nat with b by lia. f_equal.
  apply reindexed_cols_from; assumption.
Qed.

End ConcatClosed.

(** ** The feature table in closed form *)

Lemma lag_frame_spec (idx : list Z) (name : string) (values : list (option Z))
      (fr : Z) (lags : list Z) :
  length values = length idx ->
  Forall (fun v => notna v = true) values ->
  lags <> [] ->
  Forall (fun l => 0 <= l) lags ->
  exists F,
    _create_lagged_data
      {| ts_df := {| df_index := idx; df_cols := [(name, values)] |}; ts_freq := fr |}
      lags = Ok F
    /\ complete_from idx (lag_depth lags) F
    /\ df_cols F
       = map (fun c => (fst c, skipn (lag_depth lags) (snd c)))
             (map (fun lag => (lag_name name lag, shift lag values)) (distinct_lags lags))
    /\ Forall (fun c => length (snd c) = length idx)
              (map (fun lag => (lag_name name lag, shift lag values))
                   (distinct_lags lags)).
Proof.
  intros Hlen Hdef Hne Hpos.
  destruct (create_lagged_data_ok idx name values fr lags Hlen Hdef Hne Hpos)
    as (F & HF & Hcf).
  exists F. split; [exact HF|]. split; [exact Hcf|].
  rewrite (create_lagged_data_clean idx name values fr lags Hlen Hdef Hpos) in HF.
  assert (HFeq : F = {| df_index := skipn (lag_depth lags) idx;
                        df_cols := map (fun lag => (lag_name name lag,
                                                    skipn (lag_depth lags)
                                                          (shift lag values)))
                                       (distinct_lags lags) |}) by congruence.
  split.
  - rewrite HFeq. cbn [df_cols]. rewrite map_map. reflexivity.
  - apply Forall_map. apply Forall_forall. intros lag Hlag. cbn [snd].
    apply (proj1 (distinct_lags_in _ _)) in Hlag. rewrite Forall_forall in Hpos.
    rewrite shift_length by (apply Hpos; exact Hlag). exact Hlen.
Qed.

Lemma exog_lagged_data_spec (idx : list Z) (e : TimeSeries) (le : list Z) :
  clean_on idx (ts_df e) ->
  le <> [] ->
  Forall (fun l => 0 <= l) le ->
  forall cs,
    (forall c, In c cs -> In c (df_cols (ts_df e))) ->
    exists frames,
      exog_lagged_data e le (map fst cs) = Ok frames
      /\ Forall2 (fun spec F =>
                    complete_from idx (fst spec) F
                    /\ df_cols F
                       = map (fun c => (fst c, skipn (fst spec) (snd c))) (snd spec)
                    /\ Forall (fun c => length (snd c) = length idx) (snd spec))
                 (map (fun c => (lag_depth le,
                                 map (fun lag => (lag_name (fst c) lag,
                                                  shift lag (snd c)))
                                     (distinct_lags le)))
                      cs)
                 frames.
Proof.
  intros (Hidx & Hnd & Hcols) Hne Hpos. induction cs as [|c cs IH]; intros Hin.
  - exists []. split; [reflexivity | constructor].
  - destruct IH as (frames & Hrun & Hall).
    { intros c' Hc'. apply Hin. right. exact Hc'. }
    assert (Hc : In c (df_cols (ts_df e))) by (apply Hin; left; reflexivity).
    cbn [map exog_lagged_data].
    rewrite (getitem_one_col e c Hnd Hc). cbn [bind].
    rewrite Forall_forall in Hcols. destruct (Hcols _ Hc) as [Hl Hdef].
    unfold time_index. rewrite Hidx. destruct c as [nm vals]. cbn [fst snd] in *.
    destruct (lag_frame_spec idx nm vals (ts_freq e) le Hl Hdef Hne Hpos)
      as (F & HF & Hcf & Hcs & Hlen).
    rewrite HF. cbn [bind]. rewrite Hrun. cbn [bind].
    exists (F :: frames). split; [reflexivity|].
    constructor; [|exact Hall]. cbn [fst snd]. split; [exact Hcf|].
    split; [exact Hcs | exact Hlen].
Qed.

Lemma training_data_closed {E Kw : Type} `{Estimator E Kw}
      (self : RegressionModel E) (series : TimeSeries) (exog : option TimeSeries) :
  configured self ->
  StronglySorted Z.lt (time_index series) ->
  clean_on (time_index series) (ts_df series) ->
  width series = 1%nat ->
  is_some exog = is_some (lags_exog self) ->
  (forall e, exog = Some e ->
             clean_on (time_index series) (ts_df e) /\ (1 <= width e)%nat) ->
  _create_training_data self series exog
  = Ok (expected_features (Z.to_nat (max_lag self)) (lags self) (lags_exog self)
                          series exog).
Proof.
  intros self_configured idx_sorted series_clean series_univariate exog_presence
         exog_clean.
  destruct self_configured as (Hl & Hle & Hsome & Hmax).
  assert (HM : Z.to_nat (max_lag self) = lag_depth (lags_used self))
    by (rewrite Hmax; apply Nat2Z.id).
  rewrite HM.
  unfold _create_training_data. rewrite series_univariate.
  cbn [Nat.ltb Nat.leb raise_if bind].
  destruct series as [[idx scols] sfreq].
  unfold width, df_width in series_univariate. cbn [ts_df df_cols] in series_univariate.
  destruct scols as [|[name vals] [|c2 r]]; try discriminate.
  unfold time_index in *. cbn [ts_df df_index df_cols] in *.
  destruct series_clean as (_ & _ & Hsc). cbn [ts_df df_index df_cols] in *.
  apply Forall_inv in Hsc. destruct Hsc as [Hlen Hdef]. cbn [snd] in *.
  (* the target part *)
  assert (Htarget :
            exists part,
              match lags self with
              | Some l => (lagged_data <- _create_lagged_data
                                            {| ts_df := {| df_index := idx;
                                                           df_cols := [(name, vals)] |};
                                               ts_freq := sfreq |} l ;;
                           Ok [lagged_data])%py
              | None => Ok []
              end = Ok part
              /\ Forall2 (fun spec F =>
                            complete_from idx (fst spec) F
                            /\ df_cols F
                               = map (fun c => (fst c, skipn (fst spec) (snd c)))
                                     (snd spec)
                            /\ Forall (fun c => length (snd c) = length idx) (snd spec))
                         match lags self with
                         | Some l => [(lag_depth l,
                                       map (fun lag => (lag_name name lag, shift lag vals))
                                           (distinct_lags l))]
                         | None => []
                         end
                         part).
  { destruct (lags self) as [l|] eqn:Hlags.
    - destruct (Hl l eq_refl) as [Hne Hpos].
      destruct (lag_frame_spec idx name vals sfreq l Hlen Hdef Hne)
        as (F & HF & Hcf & Hcs & Hlens).
      { eapply Forall_impl; [|exact Hpos]. intros z Hz. cbn beta in Hz. lia. }
      rewrite HF. cbn [bind]. exists [F]. split; [reflexivity|].
      constructor; [|constructor]. cbn [fst snd]. auto.
    - exists []. split; [reflexivity | constructor]. }
  destruct Htarget as (tpart & -> & Htall). cbn [bind].
  (* the exogenous part *)
  assert (Hexog :
            exists part,
              match lags_exog self with
              | Some le => (e <- attr exog ;; exog_lagged_data e le (columns e))%py
              | None => Ok []
              end = Ok part
              /\ Forall2 (fun spec F =>
                            complete_from idx (fst spec) F
                            /\ df_cols F
                               = map (fun c => (fst c, skipn (fst spec) (snd c)))
                                     (snd spec)
                            /\ Forall (fun c => length (snd c) = length idx) (snd spec))
                         match lags_exog self, exog with
                         | Some le, Some e =>
                             map (fun c => (lag_depth le,
                                            map (fun lag => (lag_name (fst c) lag,
                                                             shift lag (snd c)))
                                                (distinct_lags le)))
                                 (df_cols (ts_df e))
                         | _, _ => []
                         end
                         part
              /\ (lags_exog self <> None -> part <> [])).
  { destruct (lags_exog self) as [le|] eqn:Hlex.
    - destruct exog as [e|]; [|discriminate exog_presence].
      destruct (exog_clean e eq_refl) as [Hclean Hw].
      destruct (Hle le eq_refl) as [Hne Hpos].
      destruct (exog_lagged_data_spec idx e le Hclean Hne Hpos (df_cols (ts_df e)))
        as (frames & Hrun & Hall); [auto|].
      cbn [attr bind]. unfold columns, df_columns. rewrite Hrun. exists frames.
      split; [reflexivity|]. split; [exact Hall|].
      intros _ Hnil. subst frames. inversion Hall as [Hmap|]; subst.
      unfold width, df_width in Hw. symmetry in Hmap. apply map_eq_nil in Hmap.
      rewrite Hmap in Hw. cbn in Hw. lia.
    - exists []. split; [reflexivity|]. split; [constructor | congruence]. }
  destruct Hexog as (epart & -> & Heall & Hene). cbn [bind].
  pose proof (Forall2_app Htall Heall) as Hall2.
  assert (Hne : tpart ++ epart <> []).
  { destruct Hsome as [Hs|Hs].
    - destruct (lags self); [|congruence]. inversion Htall; subst. discriminate.
    - specialize (Hene Hs). destruct tpart; [exact Hene | discriminate]. }
  destruct (concat_dropna_closed idx idx_sorted _ _ Hall2 Hne) as (D & HD & Hdrop).
  rewrite HD. cbn [bind]. rewrite Hdrop. unfold expected_features, freq, time_index.
  cbn [ts_df df_index df_cols ts_freq].
  set (M := lag_depth (lags_used self)).
  match goal with
  | |- context [skipn (list_max ?ms) idx] =>
      assert (HMs : list_max ms = M); [|rewrite HMs]
  end.
  { subst M. unfold lags_used. rewrite lag_depth_app, map_app, list_max_app.
    f_equal.
    - destruct (lags self); [cbn; lia | reflexivity].
    - destruct (lags_exog self) as [le|] eqn:Hlex; [|reflexivity].
      destruct exog as [e|]; [|discriminate exog_presence].
      destruct (exog_clean e eq_refl) as [_ Hw]. unfold width, df_width in Hw.
      rewrite map_map. cbn [fst].
      destruct (df_cols (ts_df e)) as [|c cs]; [cbn in Hw; lia|].
      clear. induction cs as [|c' cs IH]; [cbn; lia|].
      cbn [map] in *.
      change (list_max (lag_depth le :: lag_depth le :: map (fun _ => lag_depth le) cs))
        with (Nat.max (lag_depth le)
                      (list_max (lag_depth le :: map (fun _ => lag_depth le) cs))).
      rewrite IH. lia. }
  f_equal. f_equal. f_equal. rewrite flat_map_app. f_equal.
  - destruct (lags self) as [l|]; [|reflexivity].
    cbn [flat_map snd]. unfold lag_features. rewrite map_map. reflexivity.
  - destruct (lags_exog self) as [le|]; [|reflexivity].
    destruct exog as [e|]; [|reflexivity].
    match goal with
    | |- flat_map ?f (map ?g ?cs) = flat_map ?h ?cs =>
        assert (Hfm : forall xs, flat_map f (map g xs) = flat_map h xs); [|apply Hfm]
    end.
    intros xs. induction xs as [|c cs IH]; [reflexivity|].
    cbn [map flat_map snd]. rewrite IH. f_equal.
    unfold lag_features. rewrite map_map. reflexivity.
Qed.

(** ** What [fit] hands to the estimator *)

Lemma positions_of_suffix (idx : list Z) (m : nat) :
  StronglySorted Z.lt idx ->
  flat_map (fun t => match position t idx with
                     | Some p => [p]
                     | None => []
                     end) (skipn m idx)
  = seq m (length idx - m).
Proof.
  intros Hs.
  assert (Hgen : forall k a, (a + k = length idx)%nat ->
                   flat_map (fun t => match position t idx with
                                      | Some p => [p]
                                      | None => []
                                      end) (skipn a idx)
                   = seq a k).
  { induction k as [|k IH]; intros a Hak.
    - rewrite skipn_all2 by lia. reflexivity.
    - destruct (nth_error idx a) as [t|] eqn:Ht;
        [|apply nth_error_None in Ht; lia].
      rewrite (skipn_cons_nth a idx t Ht). cbn [flat_map seq].
      rewrite (position_found idx Hs a t Ht). cbn [app]. f_equal.
      apply IH. lia. }
  destruct (Nat.le_gt_cases m (length idx)) as [Hle|Hgt].
  - apply Hgen. lia.
  - rewrite skipn_all2 by lia. replace (length idx - m)%nat with O by lia. reflexivity.
Qed.

Lemma ravel_one_column (idx : list Z) (name : string) (col : list (option Z)) :
  length col = length idx ->
  df_ravel {| df_index := idx; df_cols := [(name, col)] |} = col.
Proof.
  intros Hlen. unfold df_ravel, df_len, df_row. cbn [df_index df_cols map snd].
  rewrite <- Hlen. rewrite <- (map_nth_seq col) at 2.
  induction (seq 0 (length col)) as [|i r IH]; [reflexivity|].
  cbn [flat_map map app]. rewrite IH. reflexivity.
Qed.

(** The labels: the target's values at the timestamps of the feature
    table. *)
Lemma training_labels (idx : list Z) (name : string) (vals : list (option Z))
      (fr : Z) (m : nat) :
  StronglySorted Z.lt idx ->
  length vals = length idx ->
  df_ravel (pd_dataframe
              (getitem_times (skipn m idx)
                             {| ts_df := {| df_index := idx; df_cols := [(name, vals)] |};
                                ts_freq := fr |}))
  = skipn m vals.
Proof.
  intros Hs Hlen. unfold getitem_times, pd_dataframe, time_index.
  cbn [ts_df df_index df_cols map fst snd].
  rewrite (positions_of_suffix idx m Hs).
  rewrite take_rows_suffix. rewrite <- Hlen at 1. rewrite take_rows_suffix.
  apply ravel_one_column. rewrite !length_skipn. lia.
Qed.

Section FitRun.

Context {E Kw : Type} `{Estimator E Kw}.

(** [fit], once the presence checks pass and the feature table is built:
    one call of the estimator's training, whose outcome is the outcome of
    [fit]. *)
Lemma fit_runs_estimator (series : TimeSeries) (exog : option TimeSeries) (kwargs : Kw)
      (self : RegressionModel E) (tc : string) (x : TimeSeries) (m' : E)
      (r : result unit) :
  is_some exog = is_some (lags_exog self) ->
  item (columns series) 0 = Ok tc ->
  _create_training_data self series exog = Ok x ->
  (max_lag self = 0 -> exog <> None) ->
  est_fit (model self) (pd_dataframe x)
          (df_ravel (pd_dataframe (getitem_times (time_index x) series))) kwargs
  = (m', r) ->
  exists self',
    fit series exog kwargs self = (self', r)
    /\ model self' = m'
    /\ training_series self' = Some series
    /\ target_column self' = Some tc
    /\ (r = Ok tt ->
        _fit_called self' = true
        /\ prediction_data self' = seed_of (max_lag self) series exog)
    /\ (r <> Ok tt ->
        _fit_called self' = _fit_called self
        /\ prediction_data self' = prediction_data self).
Proof.
  intros Hpres Htc Hx Hzero Hest.
  unfold fit, super_fit.
  unfold sbind at 1. cbn [modify].
  unfold sbind at 1. cbn [get].
  cbn [lags_exog set_training_series].
  assert (Hc1 : raise_if (is_some exog && is_none (lags_exog self))
                  "`exog` not None in `fit()` method call, but `lags_exog` is None in constructor. "
                = Ok tt).
  { unfold is_some in *. destruct exog, (lags_exog self); cbn in *; congruence. }
  assert (Hc2 : raise_if (is_none exog && is_some (lags_exog self))
                  "`exog` is None in `fit()` method call, but `lags_exog` is not None in constructor. "
                = Ok tt).
  { unfold is_some in *. destruct exog, (lags_exog self); cbn in *; congruence. }
  rewrite Hc1, sbind_lift_ok, Hc2, sbind_lift_ok.
  unfold sbind at 1. cbn [modify].
  assert (Hnr : exists nr,
             match exog with
             | Some e => (le <- attr (lags_exog self) ;;
                          Ok (Z.of_nat (width e) * Z.of_nat (length le)))%py
             | None => Ok 0
             end = Ok nr).
  { destruct exog as [e|]; [|eexists; reflexivity].
    destruct (lags_exog self) as [le|]; [eexists; reflexivity | discriminate Hpres]. }
  destruct Hnr as [nr Hnr]. rewrite Hnr, sbind_lift_ok.
  unfold sbind at 1. cbn [modify].
  rewrite Htc, sbind_lift_ok.
  unfold sbind at 1. cbn [get].
  rewrite fit_rename_noop.
  match goal with
  | |- context [if ?c then series else series] =>
      replace (if c then series else series) with series by (destruct c; reflexivity)
  end.
  rewrite Htc, sbind_lift_ok.
  unfold sbind at 1. cbn [modify].
  unfold sbind at 1. cbn [get].
  match goal with
  | |- context [_create_training_data ?s series exog] =>
      replace (_create_training_data s series exog)
        with (_create_training_data self series exog) by reflexivity
  end.
  rewrite Hx, sbind_lift_ok.
  unfold sbind at 1. unfold call_fit at 1. cbn [model set_target_column set_nr_exog
    set_exog_columns set_training_series].
  rewrite Hest.
  destruct r as [[]|e].
  - unfold sbind at 1. cbn [get].
    cbn [max_lag set_model set_target_column set_nr_exog set_exog_columns
                 set_training_series].
    destruct (max_lag self =? 0) eqn:Hz.
    + apply Z.eqb_eq in Hz. specialize (Hzero Hz).
      destruct exog as [e0|]; [|congruence].
      cbn [attr]. unfold sbind at 1. rewrite sbind_lift_ok. cbn [modify].
      eexists. split; [reflexivity|]. cbn.
      unfold seed_of. rewrite Hz. cbn. repeat split; congruence.
    + destruct exog as [e0|]; unfold sbind at 1; cbn [modify];
        (eexists; split; [reflexivity|]); cbn; unfold seed_of; rewrite Hz;
        repeat split; congruence.
  - eexists. split; [reflexivity|]. cbn. repeat split; congruence.
Qed.

End FitRun.

Lemma fresh_lags_distinct (lags : list Z) : forall seen, NoDup (fresh_lags seen lags).
Proof.
  induction lags as [|lag r IH]; intros seen; cbn [fresh_lags]; [constructor|].
  destruct (existsb (Z.eqb lag) seen); [apply IH|].
  constructor; [|apply IH].
  intros Hin. apply fresh_lags_in in Hin. destruct Hin as [_ Hnot].
  apply Hnot. apply in_or_app. right. left. reflexivity.
Qed.

Lemma kept_rows_in (values : list (option Z)) (lags : list Z) (n i : nat) :
  In i (kept_rows values lags n)
  <-> (i < n)%nat
      /\ defined_at values i = true
      /\ forall lag, In lag lags -> defined_at (shift lag values) i = true.
Proof.
  unfold kept_rows. rewrite filter_In, in_seq, andb_true_iff, forallb_forall.
  split; [intros [Hi [Hv Hl]] | intros [Hi [Hv Hl]]]; repeat split; auto; lia.
Qed.

Lemma lag_feature_cell (M : nat) (lag : Z) (col : list (option Z)) (j : nat) :
  0 <= lag -> (Z.to_nat lag <= M)%nat -> (M + j < length col)%nat ->
  nth_error (skipn M (shift lag col)) j = nth_error col (M + j - Z.to_nat lag).
Proof.
  intros Hlag HM Hj. rewrite nth_error_skipn, shift_nth_error by assumption.
  replace (M + j <? Z.to_nat lag)%nat with false; [reflexivity|].
  symmetry. apply Nat.ltb_ge. lia.
Qed.

(** X6.  The lagged frame of a one-column variable, for any values and
    lags: one column per distinct lag, in the order of first occurrence,
    named after the variable and the lag and holding the variable shifted
    by the lag; the rows kept are those at which the variable itself and
    every shifted copy hold a number, so a row where the variable is NaN
    is dropped even when lag 0 is not requested.  A repeated lag adds no
    column. *)
Theorem lagged_frame_closed_form (idx : list Z) (name : string)
        (values : list (option Z)) (fr : Z) (lags : list Z) :
  _create_lagged_data
    {| ts_df := {| df_index := idx; df_cols := [(name, values)] |}; ts_freq := fr |} lags
  = Ok {| df_index := take_rows (kept_rows values lags (length idx)) idx;
          df_cols := map (fun lag =>
                            (lag_name name lag,
                             take_rows (kept_rows values lags (length idx))
                                       (shift lag values)))
                         (distinct_lags lags) |}
  /\ (forall i,
         In i (kept_rows values lags (length idx))
         <-> (i < length idx)%nat
             /\ defined_at values i = true
             /\ forall lag, In lag lags -> defined_at (shift lag values) i = true)
  /\ NoDup (distinct_lags lags)
  /\ (forall lag, In lag (distinct_lags lags) <-> In lag lags)
  /\ (NoDup lags -> distinct_lags lags = lags).
Proof.
  split; [apply create_lagged_data_closed|].
  split; [intros i; apply kept_rows_in|].
  split; [apply fresh_lags_distinct|].
  split; [intros lag; apply distinct_lags_in | apply distinct_lags_nodup].
Qed.

(** X7.  On a variable without NaN and non-negative lags the lagged frame
    keeps the rows from the largest lag on, and the cell of the column of
    lag [L] at a kept row is the variable's value [L] rows earlier. *)
Theorem lagged_frame_values (idx : list Z) (name : string)
        (values : list (option Z)) (fr : Z) (lags : list Z) :
  length values = length idx ->
  Forall (fun v => notna v = true) values ->
  Forall (fun l => 0 <= l) lags ->
  exists F,
    _create_lagged_data
      {| ts_df := {| df_index := idx; df_cols := [(name, values)] |}; ts_freq := fr |}
      lags = Ok F
    /\ df_index F = skipn (lag_depth lags) idx
    /\ df_columns F = map (lag_name name) (distinct_lags lags)
    /\ (forall lag, In lag lags ->
                    exists col,
                      In (lag_name name lag, col) (df_cols F)
                      /\ forall j, (lag_depth lags + j < length idx)%nat ->
                                   nth_error col j
                                   = nth_error values
                                               (lag_depth lags + j - Z.to_nat lag)).
Proof.
  intros Hlen Hdef Hpos. eexists. split.
  - apply create_lagged_data_clean; assumption.
  - cbn [df_index df_cols]. split; [reflexivity|]. split.
    + unfold df_columns. cbn [df_cols]. rewrite map_map. reflexivity.
    + intros lag Hlag. eexists. split.
      * apply in_map_iff. exists lag. split; [reflexivity|].
        apply distinct_lags_in. exact Hlag.
      * intros j Hj. apply lag_feature_cell.
        -- rewrite Forall_forall in Hpos. apply Hpos. exact Hlag.
        -- apply lag_depth_ge. exact Hlag.
        -- rewrite Hlen. exact Hj.
Qed.

Lemma lagged_frame_values_witness :
  exists F,
    _create_lagged_data ten_days [1; 3] = Ok F
    /\ df_index F = [4; 5; 6; 7; 8; 9; 10]
    /\ df_columns F = ["y_lag1"; "y_lag3"].
Proof.
  destruct (lagged_frame_values
              [1; 2; 3; 4; 5; 6; 7; 8; 9; 10] "y"
              (map Some [0; 1; 2; 3; 4; 5; 6; 7; 8; 9]) 1 [1; 3])
    as (F & Hrun & Hidx & Hcols & _).
  - reflexivity.
  - apply Forall_map. apply Forall_forall. intros v _. reflexivity.
  - repeat constructor; lia.
  - exists F. split; [exact Hrun|]. split; [exact Hidx | exact Hcols].
Defined.

Lemma max_lag_zero_has_exog_lags {E : Type} (self : RegressionModel E) :
  configured self -> max_lag self = 0 -> lags_exog self <> None.
Proof.
  intros Hconf Hz Hnone.
  pose proof (max_lag_positive_without_lag0 self Hconf) as Hpos.
  rewrite Hnone in Hpos. specialize (Hpos eq_refl). lia.
Qed.

Lemma trainable_builder_input series exog tc :
  trainable series exog tc ->
  StronglySorted Z.lt (time_index series)
  /\ clean_on (time_index series) (ts_df series)
  /\ width series = 1%nat
  /\ (forall e, exog = Some e ->
                clean_on (time_index series) (ts_df e) /\ (1 <= width e)%nat).
Proof.
  intros (Hcols & Hs & Hclean & _ & Hexog). split; [exact Hs|]. split; [exact Hclean|].
  split.
  - unfold width, df_width. unfold columns, df_columns in Hcols.
    rewrite <- (length_map fst), Hcols. reflexivity.
  - intros e He. destruct (Hexog e He) as (Hec & Hne & _). split; [exact Hec|].
    unfold width, df_width. unfold columns, df_columns in Hne.
    destruct (df_cols (ts_df e)); [cbn in Hne; congruence | cbn; lia].
Qed.

(** X8.  For a constructed model and training input without NaN on one
    increasing time index, the table [_create_training_data] returns is
    [expected_features]: the rows from [max_lag] on; the lag columns of
    the target in the order of [lags], then those of every exogenous
    column, in the order of the series, each in the order of
    [lags_exog].  The cell of a column of lag [L] at row [j] of the table
    is the variable's value at row [max_lag + j - L] of the input. *)
Theorem feature_table_closed_form {E Kw : Type} `{Estimator E Kw}
        (self : RegressionModel E) (series : TimeSeries) (exog : option TimeSeries) :
  configured self ->
  StronglySorted Z.lt (time_index series) ->
  clean_on (time_index series) (ts_df series) ->
  width series = 1%nat ->
  is_some exog = is_some (lags_exog self) ->
  (forall e, exog = Some e ->
             clean_on (time_index series) (ts_df e) /\ (1 <= width e)%nat) ->
  _create_training_data self series exog
  = Ok (expected_features (Z.to_nat (max_lag self)) (lags self) (lags_exog self)
                          series exog)
  /\ (forall (col : list (option Z)) lag j,
         In lag (lags_used self) ->
         (Z.to_nat (max_lag self) + j < length col)%nat ->
         nth_error (skipn (Z.to_nat (max_lag self)) (shift lag col)) j
         = nth_error col (Z.to_nat (max_lag self) + j - Z.to_nat lag)).
Proof.
  intros Hconf Hs Hclean Hw Hpres Hexog. split.
  - apply training_data_closed; assumption.
  - intros col lag j Hlag Hj. destruct Hconf as (Hl & Hle & _ & Hmax).
    assert (HM : Z.to_nat (max_lag self) = lag_depth (lags_used self))
      by (rewrite Hmax; apply Nat2Z.id).
    apply lag_feature_cell; [|rewrite HM; apply lag_depth_ge; exact Hlag | exact Hj].
    unfold lags_used in Hlag. apply in_app_or in Hlag. destruct Hlag as [Hlag|Hlag].
    + destruct (lags self) as [l|]; [|contradiction].
      destruct (Hl l eq_refl) as [_ Hpos]. rewrite Forall_forall in Hpos.
      specialize (Hpos lag Hlag). cbn beta in Hpos. lia.
    + destruct (lags_exog self) as [le|]; [|contradiction].
      destruct (Hle le eq_refl) as [_ Hpos]. rewrite Forall_forall in Hpos.
      exact (Hpos lag Hlag).
Qed.

Lemma feature_table_closed_form_witness :
  _create_training_data ar2_exog0 ten_days (Some (ten_days_exog "a"))
  = Ok {| ts_df :=
            {| df_index := [3; 4; 5; 6; 7; 8; 9; 10];
               df_cols :=
                 [("y_lag1", map Some [1; 2; 3; 4; 5; 6; 7; 8]);
                  ("y_lag2", map Some [0; 1; 2; 3; 4; 5; 6; 7]);
                  ("a_lag0", map Some [12; 13; 14; 15; 16; 17; 18; 19])] |};
          ts_freq := 1 |}.
Proof.
  assert (Hconf : configured ar2_exog0).
  { apply (init_configured (Some (LagsList [1; 2])) (Some (ExogBool false))
                           (Some (SumModel false 0))).
    reflexivity. }
  assert (Hexog : forall e, Some (ten_days_exog "a") = Some e ->
                            clean_on (time_index ten_days) (ts_df e)
                            /\ (1 <= width e)%nat).
  { intros e He. injection He as <-. split; [apply series_of_clean | cbn; lia]. }
  exact (proj1 (feature_table_closed_form ar2_exog0 ten_days (Some (ten_days_exog "a"))
                                          Hconf ten_days_sorted (series_of_clean "y" _)
                                          eq_refl eq_refl Hexog)).
Defined.

Section FitOutcomes.

Context {E Kw : Type} `{Estimator E Kw}.

(** X9.  On training input the forecaster is meant for, [fit] calls the
    estimator's training once, on the feature table and on the target's
    values from row [max_lag] on: one label per row of the table, the
    label of a row being the target's value at the row's timestamp.  The
    outcome of [fit] is the outcome of that call: the estimator's
    exception is raised unchanged and the model is marked fitted only
    when the call returns. *)
Theorem fit_trains_on_aligned_rows (self : RegressionModel E) (series : TimeSeries)
        (exog : option TimeSeries) (kwargs : Kw) (tc : string)
        (tvals : list (option Z)) :
  configured self ->
  trainable series exog tc ->
  is_some exog = is_some (lags_exog self) ->
  df_cols (ts_df series) = [(tc, tvals)] ->
  exists X y,
    _create_training_data self series exog
    = Ok {| ts_df := X; ts_freq := freq series |}
    /\ df_index X = skipn (Z.to_nat (max_lag self)) (time_index series)
    /\ y = skipn (Z.to_nat (max_lag self)) tvals
    /\ length y = df_len X
    /\ (forall m' r,
           est_fit (model self) X y kwargs = (m', r) ->
           exists self',
             fit series exog kwargs self = (self', r)
             /\ model self' = m'
             /\ (r = Ok tt -> _fit_called self' = true)
             /\ (r <> Ok tt ->
                 _fit_called self' = _fit_called self
                 /\ prediction_data self' = prediction_data self)).
Proof.
  intros Hconf Htr Hpres Hcols.
  destruct (trainable_builder_input series exog tc Htr) as (Hs & Hclean & Hw & Hexog).
  pose proof (training_data_closed self series exog Hconf Hs Hclean Hw Hpres Hexog)
    as Hx.
  set (M := Z.to_nat (max_lag self)) in *.
  assert (Hlen : length tvals = length (time_index series)).
  { destruct Hclean as (_ & _ & Hcl). rewrite Hcols in Hcl.
    apply Forall_inv in Hcl. exact (proj1 Hcl). }
  exists (pd_dataframe (expected_features M (lags self) (lags_exog self) series exog)),
         (skipn M tvals).
  split; [exact Hx|]. split; [reflexivity|]. split; [reflexivity|]. split.
  - unfold df_len, expected_features, pd_dataframe. cbn [ts_df df_index].
    rewrite !length_skipn, Hlen. reflexivity.
  - intros m' r Hest.
    assert (Htc : item (columns series) 0 = Ok tc).
    { destruct Htr as (Hc & _). rewrite Hc. reflexivity. }
    assert (Hy : df_ravel (pd_dataframe
                             (getitem_times
                                (time_index (expected_features M (lags self)
                                                               (lags_exog self)
                                                               series exog))
                                series))
                 = skipn M tvals).
    { unfold expected_features at 1. unfold time_index at 1. cbn [ts_df df_index].
      destruct series as [[idx scols] sfreq]. cbn [ts_df df_cols] in Hcols. subst scols.
      unfold time_index in *. cbn [ts_df df_index] in *.
      apply training_labels; assumption. }
    destruct (fit_runs_estimator
                series exog kwargs self tc
                (expected_features M (lags self) (lags_exog self) series exog) m' r
                Hpres Htc Hx)
      as (self' & Hfit & Hmodel & _ & _ & Hok & Hraise).
    + intros Hz Hnone. apply (max_lag_zero_has_exog_lags self Hconf Hz).
      subst exog. destruct (lags_exog self); [discriminate Hpres | reflexivity].
    + rewrite Hy. exact Hest.
    + exists self'. split; [exact Hfit|]. split; [exact Hmodel|]. split.
      * intros Hr. exact (proj1 (Hok Hr)).
      * exact Hraise.
Qed.


(** X10.  [fit] does not check that the training series is longer than
    [max_lag]: on a series of at most [max_lag] rows the feature table
    has no row and the estimator is trained on it and on an empty label
    vector; whatever the estimator does with them is the outcome of
    [fit]. *)
Theorem fit_short_series_trains_on_nothing (self : RegressionModel E)
        (series : TimeSeries) (exog : option TimeSeries) (kwargs : Kw) (tc : string) :
  configured self ->
  trainable series exog tc ->
  is_some exog = is_some (lags_exog self) ->
  (ts_len series <= Z.to_nat (max_lag self))%nat ->
  exists X,
    _create_training_data self series exog
    = Ok {| ts_df := X; ts_freq := freq series |}
    /\ df_index X = []
    /\ Forall (fun c => snd c = []) (df_cols X)
    /\ (forall m' r,
           est_fit (model self) X [] kwargs = (m', r) ->
           exists self', fit series exog kwargs self = (self', r) /\ model self' = m').
Proof.
  intros Hconf Htr Hpres Hshort.
  destruct (trainable_builder_input series exog tc Htr) as (Hs & Hclean & Hw & Hexog).
  pose proof (training_data_closed self series exog Hconf Hs Hclean Hw Hpres Hexog)
    as Hx.
  set (M := Z.to_nat (max_lag self)) in *.
  assert (Hshift : forall lag col, In lag (lags_used self) ->
                                   length col = length (time_index series) ->
                                   skipn M (shift lag col) = []).
  { intros lag col Hlag Hlen. apply skipn_all2. rewrite shift_length.
    - rewrite Hlen. exact Hshort.
    - destruct Hconf as (Hl & Hle & _). unfold lags_used in Hlag.
      apply in_app_or in Hlag. destruct Hlag as [Hlag|Hlag].
      + destruct (lags self) as [l|]; [|contradiction].
        destruct (Hl l eq_refl) as [_ Hpos]. rewrite Forall_forall in Hpos.
        specialize (Hpos lag Hlag). cbn beta in Hpos. lia.
      + destruct (lags_exog self) as [le|]; [|contradiction].
        destruct (Hle le eq_refl) as [_ Hpos]. rewrite Forall_forall in Hpos.
        exact (Hpos lag Hlag). }
  exists (pd_dataframe (expected_features M (lags self) (lags_exog self) series exog)).
  split; [exact Hx|]. split; [|split].
  - unfold expected_features, pd_dataframe. cbn [ts_df df_index].
    apply skipn_all2. exact Hshort.
  - unfold expected_features, pd_dataframe. cbn [ts_df df_cols].
    apply Forall_app. split.
    + destruct (lags self) as [l|] eqn:Hlags; [|constructor].
      apply Forall_forall. intros c Hc. apply in_flat_map in Hc.
      destruct Hc as (src & Hsrc & Hc). unfold lag_features in Hc.
      apply in_map_iff in Hc. destruct Hc as (lag & <- & Hlag). cbn [snd].
      apply Hshift.
      * unfold lags_used. rewrite Hlags. apply in_or_app. left.
        apply distinct_lags_in. exact Hlag.
      * destruct Hclean as (_ & _ & Hcl). rewrite Forall_forall in Hcl.
        exact (proj1 (Hcl src Hsrc)).
    + destruct (lags_exog self) as [le|] eqn:Hlex; [|constructor].
      destruct exog as [e|]; [|constructor].
      apply Forall_forall. intros c Hc. apply in_flat_map in Hc.
      destruct Hc as (src & Hsrc & Hc). unfold lag_features in Hc.
      apply in_map_iff in Hc. destruct Hc as (lag & <- & Hlag). cbn [snd].
      apply Hshift.
      * unfold lags_used. rewrite Hlex. apply in_or_app. right.
        apply distinct_lags_in. exact Hlag.
      * destruct (Hexog e eq_refl) as ((_ & _ & Hcl) & _). rewrite Forall_forall in Hcl.
        exact (proj1 (Hcl src Hsrc)).
  - intros m' r Hest.
    assert (Htc : item (columns series) 0 = Ok tc).
    { destruct Htr as (Hc & _). rewrite Hc. reflexivity. }
    assert (Hy : df_ravel (pd_dataframe
                             (getitem_times
                                (time_index (expected_features M (lags self)
                                                               (lags_exog self)
                                                               series exog))
                                series))
                 = []).
    { unfold expected_features at 1. unfold time_index at 1. cbn [ts_df df_index].
      rewrite (skipn_all2 (time_index series)) by exact Hshort.
      unfold getitem_times, df_ravel, df_len, pd_dataframe. reflexivity. }
    destruct (fit_runs_estimator
                series exog kwargs self tc
                (expected_features M (lags self) (lags_exog self) series exog) m' r
                Hpres Htc Hx)
      as (self' & Hfit & Hmodel & _).
    + intros Hz Hnone. apply (max_lag_zero_has_exog_lags self Hconf Hz).
      subst exog. destruct (lags_exog self); [discriminate Hpres | reflexivity].
    + rewrite Hy. exact Hest.
    + exists self'. split; [exact Hfit | exact Hmodel].
Qed.

(** X11.  [fit] with an exogenous series on a model constructed without
    [lags_exog], or without one on a model constructed with [lags_exog],
    raises a [ConfigurationError] naming the mismatch, before the
    estimator is touched and without marking the model fitted. *)
Theorem fit_presence_mismatch (series : TimeSeries) (exog : option TimeSeries)
        (kwargs : Kw) (self : RegressionModel E) :
  is_some exog <> is_some (lags_exog self) ->
  exists after msg,
    fit series exog kwargs self = (after, Raise (ConfigurationError msg))
    /\ (exog <> None ->
        msg = "`exog` not None in `fit()` method call, but `lags_exog` is None in constructor. ")
    /\ (exog = None ->
        msg = "`exog` is None in `fit()` method call, but `lags_exog` is not None in constructor. ")
    /\ model after = model self
    /\ _fit_called after = _fit_called self
    /\ prediction_data after = prediction_data self.
Proof.
  intros Hmis. unfold fit, super_fit.
  unfold sbind at 1. cbn [modify]. unfold sbind at 1. cbn [get].
  cbn [lags_exog set_training_series].
  destruct exog as [e|], (lags_exog self) as [le|] eqn:Hle;
    try (exfalso; apply Hmis; reflexivity).
  - eexists. eexists. split; [reflexivity|].
    split; [reflexivity|]. split; [congruence|]. repeat split.
  - eexists. eexists. split; [reflexivity|].
    split; [congruence|]. split; [reflexivity|]. repeat split.
Qed.

(** X12.  The lag-feature builder refuses a target with more than one
    column, whatever the model and the exogenous series; [fit] on such a
    target raises that [ConfigurationError] without calling the estimator
    and without marking the model fitted. *)
Theorem fit_multivariate_target_raises (series : TimeSeries)
        (exog : option TimeSeries) (kwargs : Kw) (self : RegressionModel E) :
  (1 < width series)%nat ->
  (forall (other : RegressionModel E) exog',
      _create_training_data other series exog'
      = Raise (ConfigurationError
                 "Series must not be multivariate. Pass exogenous variables to 'exog' parameter."))
  /\ (is_some exog = is_some (lags_exog self) ->
      exists after,
        fit series exog kwargs self
        = (after,
           Raise (ConfigurationError
                    "Series must not be multivariate. Pass exogenous variables to 'exog' parameter."))
        /\ model after = model self
        /\ _fit_called after = _fit_called self
        /\ prediction_data after = prediction_data self).
Proof.
  intros Hwide.
  assert (Hbuild : forall (other : RegressionModel E) exog',
             _create_training_data other series exog'
             = Raise (ConfigurationError
                        "Series must not be multivariate. Pass exogenous variables to 'exog' parameter.")).
  { intros other exog'. unfold _create_training_data.
    apply Nat.ltb_lt in Hwide. rewrite Hwide. reflexivity. }
  split; [exact Hbuild|]. intros Hpres.
  assert (Htc : exists tc, item (columns series) 0 = Ok tc).
  { unfold columns, df_columns, width, df_width in *.
    destruct (df_cols (ts_df series)) as [|c r]; [cbn in Hwide; lia|].
    eexists. reflexivity. }
  destruct Htc as [tc Htc].
  unfold fit, super_fit.
  unfold sbind at 1. cbn [modify]. unfold sbind at 1. cbn [get].
  cbn [lags_exog set_training_series].
  assert (Hc1 : raise_if (is_some exog && is_none (lags_exog self))
                  "`exog` not None in `fit()` method call, but `lags_exog` is None in constructor. "
                = Ok tt).
  { unfold is_some in *. destruct exog, (lags_exog self); cbn in *; congruence. }
  assert (Hc2 : raise_if (is_none exog && is_some (lags_exog self))
                  "`exog` is None in `fit()` method call, but `lags_exog` is not None in constructor. "
                = Ok tt).
  { unfold is_some in *. destruct exog, (lags_exog self); cbn in *; congruence. }
  rewrite Hc1, sbind_lift_ok, Hc2, sbind_lift_ok.
  unfold sbind at 1. cbn [modify].
  assert (Hnr : exists nr,
             match exog with
             | Some e => (le <- attr (lags_exog self) ;;
                          Ok (Z.of_nat (width e) * Z.of_nat (length le)))%py
             | None => Ok 0
             end = Ok nr).
  { destruct exog as [e|]; [|eexists; reflexivity].
    destruct (lags_exog self) as [le|]; [eexists; reflexivity | discriminate Hpres]. }
  destruct Hnr as [nr Hnr]. rewrite Hnr, sbind_lift_ok.
  unfold sbind at 1. cbn [modify].
  rewrite Htc, sbind_lift_ok.
  unfold sbind at 1. cbn [get].
  rewrite fit_rename_noop.
  match goal with
  | |- context [if ?c then series else series] =>
      replace (if c then series else series) with series by (destruct c; reflexivity)
  end.
  rewrite Htc, sbind_lift_ok.
  unfold sbind at 1. cbn [modify].
  unfold sbind at 1. cbn [get].
  rewrite Hbuild, sbind_lift_raise.
  eexists. split; [reflexivity|]. repeat split.
Qed.

End FitOutcomes.

Lemma ten_days_trainable : trainable ten_days None "y".
Proof.
  split; [reflexivity|]. split; [apply ten_days_sorted|].
  split; [apply series_of_clean|]. split; [reflexivity|]. intros e He. discriminate He.
Qed.

Lemma ar2_configured (a : bool) : configured (ar2 a).
Proof.
  apply (init_configured (Some (LagsList [1; 2])) None (Some (SumModel a 0))).
  reflexivity.
Qed.

Lemma fit_trains_on_aligned_rows_witness :
  exists X y,
    _create_training_data (ar2 false) ten_days None = Ok {| ts_df := X; ts_freq := 1 |}
    /\ df_index X = [3; 4; 5; 6; 7; 8; 9; 10]
    /\ y = map Some [2; 3; 4; 5; 6; 7; 8; 9]
    /\ length y = df_len X.
Proof.
  destruct (fit_trains_on_aligned_rows
              (ar2 false) ten_days None tt "y"
              (map Some [0; 1; 2; 3; 4; 5; 6; 7; 8; 9])
              (ar2_configured false) ten_days_trainable eq_refl eq_refl)
    as (X & y & Hrun & Hidx & Hy & Hlen & _).
  exists X, y. split; [exact Hrun|]. split; [exact Hidx|]. split; [exact Hy | exact Hlen].
Defined.

Lemma fit_short_series_trains_on_nothing_witness :
  exists X,
    _create_training_data (ar2 false) (series_of "y" 1 [5; 6]) None
    = Ok {| ts_df := X; ts_freq := 1 |}
    /\ df_index X = []
    /\ Forall (fun c => snd c = []) (df_cols X).
Proof.
  assert (Htr : trainable (series_of "y" 1 [5; 6]) None "y").
  { split; [reflexivity|]. split; [repeat (constructor; try reflexivity)|].
    split; [apply series_of_clean|]. split; [reflexivity|].
    intros e He. discriminate He. }
  assert (Hshort : Nat.le (ts_len (series_of "y" 1 [5; 6]))
                          (Z.to_nat (max_lag (ar2 false))))
    by (cbn; lia).
  destruct (fit_short_series_trains_on_nothing
              (ar2 false) (series_of "y" 1 [5; 6]) None tt "y"
              (ar2_configured false) Htr eq_refl Hshort)
    as (X & Hrun & Hidx & Hcols & _).
  exists X. split; [exact Hrun|]. split; [exact Hidx | exact Hcols].
Defined.

Lemma fit_presence_mismatch_witness :
  exists after msg,
    fit ten_days (Some (ten_days_exog "a")) tt (ar2 false)
    = (after, Raise (ConfigurationError msg))
    /\ model after = SumModel false 0
    /\ _fit_called after = false.
Proof.
  assert (Hmis : is_some (Some (ten_days_exog "a")) <> is_some (lags_exog (ar2 false)))
    by discriminate.
  destruct (fit_presence_mismatch ten_days (Some (ten_days_exog "a")) tt (ar2 false) Hmis)
    as (after & msg & Hfit & _ & _ & Hmodel & Hcalled & _).
  exists after, msg. split; [exact Hfit|]. split; [exact Hmodel | exact Hcalled].
Defined.

Lemma fit_multivariate_target_raises_witness :
  _create_training_data (ar2 false) (stack ten_days (ten_days_exog "a")) None
  = Raise (ConfigurationError
             "Series must not be multivariate. Pass exogenous variables to 'exog' parameter.").
Proof.
  assert (Hwide : (1 < width (stack ten_days (ten_days_exog "a")))%nat) by (cbn; lia).
  exact (proj1 (fit_multivariate_target_raises
                  (stack ten_days (ten_days_exog "a")) None tt (ar2 false) Hwide)
               (ar2 false) None).
Defined.

(** ** The last rows of a list *)

Lemma last_rows_snoc {A : Type} (k : nat) (h : list A) (x : A) :
  (k <= length h)%nat ->
  skipn (length (h ++ [x]) - S k) (h ++ [x]) = skipn (length h - k) h ++ [x].
Proof.
  intros Hk. rewrite length_app. cbn [length].
  replace (length h + 1 - S k)%nat with (length h - k)%nat by lia.
  rewrite skipn_app. replace (length h - k - length h)%nat with O by lia.
  reflexivity.
Qed.

Lemma last_rows_tl {A : Type} (k : nat) (h : list A) :
  (S k <= length h)%nat ->
  tl (skipn (length h - S k) h) = skipn (length h - k) h.
Proof.
  intros Hk.
  destruct (nth_error h (length h - S k)) as [x|] eqn:Hx;
    [|apply nth_error_None in Hx; lia].
  rewrite (skipn_cons_nth _ h x Hx). cbn [tl]. f_equal. lia.
Qed.

Lemma last_rows_length {A : Type} (k : nat) (h : list A) :
  (k <= length h)%nat -> length (skipn (length h - k) h) = k.
Proof. intros Hk. rewrite length_skipn. lia. Qed.

Lemma slice_to_snoc {A : Type} (l : list A) (x : A) : slice_to (-1) (l ++ [x]) = l.
Proof.
  unfold slice_to. replace (-1 <? 0) with true by reflexivity.
  rewrite length_app. cbn [length].
  replace (Z.to_nat (Z.max 0 (Z.of_nat (length l + 1) + -1))) with (length l) by lia.
  rewrite firstn_app, Nat.sub_diag, firstn_all. cbn [firstn]. apply app_nil_r.
Qed.

Lemma slice_from_one {A : Type} (l : list A) : slice_from 1 l = tl l.
Proof.
  unfold slice_from. replace (1 <? 0) with false by reflexivity.
  destruct l; reflexivity.
Qed.

Lemma slice_from_neg {A : Type} (m : Z) (l : list A) :
  0 < m -> slice_from (- m) l = skipn (length l - Z.to_nat m) l.
Proof.
  intros Hm. unfold slice_from.
  replace (- m <? 0) with true by (symmetry; apply Z.ltb_lt; lia).
  f_equal. lia.
Qed.

Lemma map_combine_left {A B C : Type} (f : A -> C) (l : list A) :
  forall r : list B,
    length r = length l ->
    map (fun p => f (fst p)) (combine l r) = map f l.
Proof.
  induction l as [|x l IH]; intros r Hlen; [reflexivity|].
  destruct r as [|y r]; [discriminate|]. cbn [combine map fst]. f_equal.
  apply IH. cbn in Hlen. lia.
Qed.

Lemma combine_map_first {A B C : Type} (g : A -> C) (l : list A) :
  forall r : list B,
    combine (map g l) r = map (fun p => (g (fst p), snd p)) (combine l r).
Proof.
  induction l as [|x l IH]; intros r; [reflexivity|].
  destruct r as [|y r]; [reflexivity|]. cbn [map combine fst snd]. f_equal. apply IH.
Qed.

Lemma combine_seq_nth {A C : Type} (F : A -> option Z -> C) (l : list A) :
  forall (a : nat) (pre row : list (option Z)),
    length pre = a ->
    length row = length l ->
    map (fun jc => F (snd jc) (nth (fst jc) (pre ++ row) None))
        (combine (seq a (length l)) l)
    = map (fun cx => F (fst cx) (snd cx)) (combine l row).
Proof.
  induction l as [|x l IH]; intros a pre row Hpre Hlen; [reflexivity|].
  destruct row as [|y row]; [discriminate|].
  cbn [length seq combine map fst snd]. f_equal.
  - rewrite app_nth2 by lia. rewrite Hpre, Nat.sub_diag. reflexivity.
  - specialize (IH (S a) (pre ++ [y]) row).
    rewrite <- app_assoc in IH. cbn [app] in IH. apply IH.
    + rewrite length_app. cbn [length]. lia.
    + cbn in Hlen. lia.
Qed.

Lemma last_of_last_rows (k : nat) (l : list Z) (t : Z) :
  (1 <= k <= length l)%nat ->
  nth_error l (pred (length l)) = Some t ->
  nth_error (skipn (length l - k) l) (pred (length (skipn (length l - k) l))) = Some t.
Proof.
  intros Hk Hlast. rewrite length_skipn, nth_error_skipn.
  replace (length l - k + pred (length l - (length l - k)))%nat
    with (pred (length l)) by lia.
  exact Hlast.
Qed.

Lemma firstn_S_nth (a : nat) (l : list (option Z)) :
  (a < length l)%nat -> firstn (S a) l = firstn a l ++ [nth a l None].
Proof.
  revert l. induction a as [|a IH]; intros [|x l] Hlt; try (cbn in Hlt; lia).
  - reflexivity.
  - cbn [firstn nth app]. f_equal. apply IH. cbn in Hlt. lia.
Qed.

Lemma add_row_history (a : nat) (ec : list (string * list (option Z))) :
  forall ec' : list (string * list (option Z)),
    Forall (fun c => (a < length (snd c))%nat) ec' ->
    add_row (map (fun cc : (string * list (option Z)) * (string * list (option Z)) =>
                    (fst (fst cc), snd (fst cc) ++ firstn a (snd (snd cc))))
                 (combine ec ec'))
            (map (fun c => nth a (snd c) None) ec')
    = map (fun cc : (string * list (option Z)) * (string * list (option Z)) =>
             (fst (fst cc), snd (fst cc) ++ firstn (S a) (snd (snd cc))))
          (combine ec ec').
Proof.
  unfold add_row. induction ec as [|c ec IH]; intros ec' Hall; [reflexivity|].
  destruct ec' as [|c' ec']; [reflexivity|].
  apply Forall_cons_iff in Hall. destruct Hall as [Hc' Hall].
  cbn [combine map fst snd]. f_equal.
  - f_equal. rewrite firstn_S_nth by exact Hc'. rewrite app_assoc. reflexivity.
  - apply IH. exact Hall.
Qed.

(** ** The rolling window in closed form *)

Section RollingWindow.

Variable fr : Z.

Lemma add_row_rows Hc row (L : nat) :
  Forall (fun c => length (snd c) = L) Hc ->
  Forall (fun c => length (snd c) = S L) (add_row Hc row).
Proof.
  intros Hall. unfold add_row. apply Forall_map. apply Forall_forall.
  intros [c x] Hin. cbn [fst snd]. apply in_combine_l in Hin.
  rewrite Forall_forall in Hall. rewrite length_app, (Hall c Hin). cbn. lia.
Qed.

Lemma drop_last_row (k : nat) Hc Hi row (t : Z) (L : nat) :
  length row = length Hc ->
  Forall (fun c => length (snd c) = L) Hc ->
  length Hi = L ->
  (k <= L)%nat ->
  getitem_to (-1) (last_rows_of fr (S k) (add_row Hc row) (Hi ++ [t])) = last_rows_of fr k Hc Hi.
Proof.
  intros Hrow Hcols Hidx Hk. unfold getitem_to, last_rows_of, time_index.
  cbn [ts_df df_index df_cols ts_freq]. f_equal. f_equal.
  - rewrite last_rows_snoc by lia. apply slice_to_snoc.
  - unfold add_row. rewrite !map_map. cbn [fst snd].
    rewrite <- (map_combine_left
                  (fun c : string * list (option Z) =>
                     (fst c, skipn (length (snd c) - k) (snd c))) Hc row Hrow).
    apply map_ext_in. intros [c x] Hin. cbn [fst snd]. f_equal.
    apply in_combine_l in Hin. rewrite Forall_forall in Hcols.
    rewrite last_rows_snoc by (rewrite (Hcols c Hin); lia).
    apply slice_to_snoc.
Qed.

Lemma append_row (k : nat) Hc Hi row (t : Z) (L : nat) :
  length row = length Hc ->
  Forall (fun c => length (snd c) = L) Hc ->
  length Hi = L ->
  (1 <= k <= L)%nat ->
  nth_error Hi (pred (length Hi)) = Some t ->
  append_values [row] (last_rows_of fr k Hc Hi)
  = Ok (last_rows_of fr (S k) (add_row Hc row) (Hi ++ [t + 1 * fr])).
Proof.
  intros Hrow Hcols Hidx Hk Hlast. unfold append_values.
  assert (Hend : end_time (last_rows_of fr k Hc Hi) = Ok t).
  { unfold end_time, item, ts_len, df_len, time_index , last_rows_of. cbn [ts_df df_index].
    rewrite (last_of_last_rows k Hi t) by (auto; lia). reflexivity. }
  rewrite Hend. cbn [bind forallb].
  assert (Hw : width (last_rows_of fr k Hc Hi) = length Hc).
  { unfold width, df_width , last_rows_of. cbn [ts_df df_cols]. apply length_map. }
  rewrite Hw, Hrow, Nat.eqb_refl. cbn [andb]. f_equal.
  unfold last_rows_of, time_index. cbn [ts_df df_index df_cols ts_freq length seq map].
  f_equal. f_equal.
  - rewrite last_rows_snoc by lia. reflexivity.
  - unfold add_row. rewrite !map_map. cbn [fst snd].
    rewrite <- (length_map (fun c : string * list (option Z) =>
                              (fst c, skipn (length (snd c) - k) (snd c))) Hc).
    rewrite (combine_seq_nth
               (fun (c : string * list (option Z)) x => (fst c, snd c ++ [x]))
               _ 0%nat [] row eq_refl)
      by (rewrite length_map; exact Hrow).
    rewrite combine_map_first, map_map. 
    apply map_ext_in. intros [c x] Hin. cbn [fst snd]. f_equal.
    apply in_combine_l in Hin. rewrite Forall_forall in Hcols.
    rewrite last_rows_snoc by (rewrite (Hcols c Hin); lia). reflexivity.
Qed.

Lemma drop_first_row (k : nat) Hc Hi (L : nat) :
  Forall (fun c => length (snd c) = L) Hc ->
  length Hi = L ->
  (S k <= L)%nat ->
  getitem_from 1 (last_rows_of fr (S k) Hc Hi) = last_rows_of fr k Hc Hi.
Proof.
  intros Hcols Hidx Hk. unfold getitem_from, last_rows_of, time_index.
  cbn [ts_df df_index df_cols ts_freq]. f_equal. f_equal.
  - rewrite slice_from_one. apply last_rows_tl. lia.
  - rewrite map_map. cbn [fst snd]. apply map_ext_in. intros c Hin.
    f_equal. rewrite slice_from_one. apply last_rows_tl.
    rewrite Forall_forall in Hcols. rewrite (Hcols c Hin). exact Hk.
Qed.

End RollingWindow.

(** ** The feature table of a step, in closed form *)

Section StepFeatures.

Context {E Kw : Type} `{Estimator E Kw}.

Variable self : RegressionModel E.
Variable tc : string.
Variable exog_names : list string.
Variable fr : Z.

Hypothesis self_configured : configured self.
Hypothesis names_distinct : NoDup (tc :: exog_names).
Hypothesis self_target : target_column self = Some tc.
Hypothesis self_exog :
  exog_columns self
  = Some (match lags_exog self with Some _ => Some exog_names | None => None end).
Hypothesis exog_nonempty : lags_exog self <> None -> exog_names <> [].

(** The feature table of a step, in closed form: the builder's table for
    the target column of the window and, when exogenous lags are
    configured, for its other columns. *)
Lemma forecasting_data_closed (w : TimeSeries) :
  window_ok (tc :: exog_names) fr (S (Z.to_nat (max_lag self))) w ->
  forecasting_data self w
  = Ok (pd_dataframe
          (expected_features
             (Z.to_nat (max_lag self)) (lags self) (lags_exog self)
             {| ts_df := {| df_index := time_index w;
                            df_cols := firstn 1 (df_cols (ts_df w)) |};
                ts_freq := ts_freq w |}
             match lags_exog self with
             | Some _ => Some {| ts_df := {| df_index := time_index w;
                                             df_cols := skipn 1 (df_cols (ts_df w)) |};
                                 ts_freq := ts_freq w |}
             | None => None
             end)).
Proof.
  intros Hw. pose proof (window_clean _ _ _ _ names_distinct Hw) as Hclean.
  destruct Hw as (Hc & Hf & [Hi Hcols] & Hs & Hd).
  destruct Hclean as (_ & Hnd & Hcl).
  unfold columns, df_columns in Hc.
  destruct (df_cols (ts_df w)) as [|c rest] eqn:Hdf; [discriminate|].
  cbn [map] in Hc. injection Hc as Hc1 Hc2.
  unfold forecasting_data. rewrite self_target. cbn [attr bind].
  rewrite <- Hc1.
  assert (Hndw : NoDup (columns w)).
  { unfold columns, df_columns. rewrite Hdf. cbn [map]. rewrite Hc1, Hc2.
    exact names_distinct. }
  rewrite (getitem_one_col w c Hndw) by (rewrite Hdf; left; reflexivity).
  cbn [bind]. rewrite self_exog. cbn [attr bind firstn skipn].
  set (target_data := {| ts_df := {| df_index := time_index w; df_cols := [c] |};
                         ts_freq := ts_freq w |}).
  set (exog_data := match lags_exog self with
                    | Some _ => Some {| ts_df := {| df_index := time_index w;
                                                    df_cols := rest |};
                                        ts_freq := ts_freq w |}
                    | None => None
                    end).
  assert (Hexog :
            match match lags_exog self with
                  | Some _ => Some exog_names
                  | None => None
                  end with
            | Some cols => (e <- getitem_cols cols w ;; Ok (Some e))%py
            | None => Ok None
            end = Ok exog_data
            /\ is_some exog_data = is_some (lags_exog self)
            /\ (forall e, exog_data = Some e ->
                          clean_on (time_index w) (ts_df e) /\ (1 <= width e)%nat)).
  { subst exog_data. destruct (lags_exog self) as [le|] eqn:Hle.
    - unfold getitem_cols. rewrite Hdf, <- Hc2.
      rewrite (select_cols_sublist (c :: rest) rest).
      + cbn [bind]. split; [reflexivity|]. split; [reflexivity|].
        intros e He. injection He as <-. cbn [ts_df]. split.
        * split; [reflexivity|]. split.
          -- unfold df_columns. cbn [df_cols]. rewrite Hc2.
             apply NoDup_cons_iff in names_distinct. tauto.
          -- cbn [df_cols]. apply Forall_inv_tail in Hcl. exact Hcl.
        * unfold width, df_width. cbn [ts_df df_cols].
          assert (Hne : exog_names <> []) by (apply exog_nonempty; discriminate).
          rewrite <- Hc2 in Hne. destruct rest; [cbn in Hne; congruence | cbn; lia].
      + cbn [map]. rewrite Hc1, Hc2. exact names_distinct.
      + intros c' Hc'. right. exact Hc'.
    - split; [reflexivity|]. split; [reflexivity|].
      intros e0 He0. discriminate. }
  destruct Hexog as (-> & Hpres & Hec). cbn [bind].
  rewrite (training_data_closed self target_data exog_data self_configured Hs);
    [reflexivity | | reflexivity | exact Hpres | exact Hec].
  subst target_data. cbn [ts_df]. split; [reflexivity|]. split.
  - unfold df_columns. cbn [df_cols map]. constructor; [intros [] | constructor].
  - cbn [df_cols]. constructor; [|constructor]. apply Forall_inv in Hcl. exact Hcl.
Qed.

End StepFeatures.

(** ** One row of the feature table, from a window of [max_lag + 1] rows *)

Lemma singleton_eq {A : Type} (l1 l2 : list A) :
  length l1 = 1%nat -> length l2 = 1%nat -> nth_error l1 0 = nth_error l2 0 -> l1 = l2.
Proof.
  destruct l1 as [|x [|? ?]], l2 as [|y [|? ?]]; cbn; try discriminate.
  intros _ _ Heq. congruence.
Qed.

Lemma nth_error_app_firstn {A : Type} (t l : list A) (a q : nat) :
  (q < length t + a)%nat -> nth_error (t ++ firstn a l) q = nth_error (t ++ l) q.
Proof.
  intros Hq. destruct (Nat.lt_ge_cases q (length t)) as [Hlt|Hge].
  - rewrite !nth_error_app1 by exact Hlt. reflexivity.
  - rewrite !nth_error_app2 by exact Hge. rewrite nth_error_firstn.
    replace (q - length t <? a)%nat with true by (symmetry; apply Nat.ltb_lt; lia).
    reflexivity.
Qed.

(** The cell a lag takes from the last [M + 1] rows of a history is the
    cell it takes, at the same distance from the end, from any column that
    agrees with the history there. *)
Lemma window_feature_cell (M : nat) (lag : Z) (h full : list (option Z)) (x : option Z) :
  0 <= lag -> (Z.to_nat lag <= M)%nat -> (M <= length h)%nat ->
  (length h < length full)%nat ->
  nth_error (h ++ [x]) (length h - Z.to_nat lag)
  = nth_error full (length h - Z.to_nat lag) ->
  skipn M (shift lag (skipn (length (h ++ [x]) - S M) (h ++ [x])))
  = firstn 1 (skipn (length h - M) (skipn M (shift lag full))).
Proof.
  intros Hlag HM Hh Hfull Hcell.
  assert (Hwl : length (skipn (length (h ++ [x]) - S M) (h ++ [x])) = S M).
  { apply last_rows_length. rewrite length_app. cbn [length]. lia. }
  apply singleton_eq.
  - rewrite length_skipn, shift_length, Hwl by exact Hlag. lia.
  - rewrite length_firstn, !length_skipn, shift_length by exact Hlag. lia.
  - rewrite (lag_feature_cell M lag _ 0 Hlag HM) by (rewrite Hwl; lia).
    rewrite nth_error_firstn. cbn [Nat.ltb Nat.leb].
    rewrite (nth_error_skipn (length h - M)), !Nat.add_0_r.
    rewrite (lag_feature_cell M lag full (length h - M) Hlag HM) by lia.
    rewrite nth_error_skipn, length_app. cbn [length].
    replace (length h + 1 - S M + (M - Z.to_nat lag))%nat
      with (length h - Z.to_nat lag)%nat by lia.
    replace (M + (length h - M) - Z.to_nat lag)%nat
      with (length h - Z.to_nat lag)%nat by lia.
    exact Hcell.
Qed.

Lemma combine_map_both {A B C D : Type} (g : A * B -> C) (r : B -> D) (l : list A) :
  forall l' : list B,
    combine (map g (combine l l')) (map r l')
    = map (fun p => (g p, r (snd p))) (combine l l').
Proof.
  induction l as [|x l IH]; intros [|y l']; try reflexivity.
  cbn [combine map snd]. f_equal. apply IH.
Qed.

Lemma combine_repeat {A B : Type} (z : B) (l : list A) :
  forall k : nat, (length l <= k)%nat -> combine l (repeat z k) = map (fun x => (x, z)) l.
Proof.
  induction l as [|x l IH]; intros k Hk; [reflexivity|].
  destruct k as [|k]; [cbn in Hk; lia|]. cbn [repeat combine map]. f_equal.
  apply IH. cbn in Hk. lia.
Qed.

Lemma combine_map_second {A B C : Type} (f : B -> C) (l : list A) :
  forall r : list B,
    combine l (map f r) = map (fun p => (fst p, f (snd p))) (combine l r).
Proof.
  induction l as [|x l IH]; intros [|y r]; try reflexivity.
  cbn [map combine fst snd]. f_equal. apply IH.
Qed.

Lemma flat_map_map_rows {A B C D : Type} (rowf : C -> D) (f1 : B -> list D)
      (f2 : B -> list C) (g1 g2 : A -> B) (l : list A) :
  (forall x, In x l -> f1 (g1 x) = map rowf (f2 (g2 x))) ->
  flat_map f1 (map g1 l) = map rowf (flat_map f2 (map g2 l)).
Proof.
  induction l as [|x l IH]; intros Hall; [reflexivity|].
  cbn [map flat_map]. rewrite map_app, (Hall x (or_introl eq_refl)). f_equal.
  apply IH. intros y Hy. apply Hall. right. exact Hy.
Qed.

Lemma firstn_one_skipn {A : Type} (p : nat) (l : list A) (x : A) :
  nth_error l p = Some x -> firstn 1 (skipn p l) = [x].
Proof.
  revert l. induction p as [|p IH]; intros [|y l] Hx; try discriminate.
  - cbn in Hx. injection Hx as ->. reflexivity.
  - cbn [skipn]. apply IH. exact Hx.
Qed.

(** ** The loop of [predict], step by step *)

Section Feedback.

Context {E Kw : Type} `{Estimator E Kw}.

Variable self : RegressionModel E.
Variable series : TimeSeries.
Variable exog : option TimeSeries.
Variable tc : string.
Variable tvals : list (option Z).
Variable last : Z.
Variable exog_df : option DataFrame.
Variable n : nat.
Variable kwargs : Kw.

Let exog_names : list string :=
  match exog with Some e => columns e | None => [] end.
Let names : list string := tc :: exog_names.
Let fr : Z := freq series.
Let M : nat := Z.to_nat (max_lag self).
Let N : nat := ts_len series.
Let ecols : list (string * list (option Z)) :=
  match exog with Some e => df_cols (ts_df e) | None => [] end.
Let ecols' : list (string * list (option Z)) :=
  match exog_df with Some e' => df_cols e' | None => [] end.
Let tau (k : nat) : Z := last + Z.of_nat k * fr.
Let zeros : list (option Z) := repeat (Some 0) (length names).

(** The training columns followed by the first [a] forecasts of [fs] and
    the first [a] rows of the exogenous frame given to [predict]; their
    index. *)
Let Hc (a : nat) (fs : list (option Z)) : list (string * list (option Z)) :=
  (tc, tvals ++ firstn a fs)
    :: map (fun cc => (fst (fst cc), snd (fst cc) ++ firstn a (snd (snd cc))))
           (combine ecols ecols').
Let Hi (a : nat) : list Z := time_index series ++ map tau (seq 1 a).

(** Row [a] of the exogenous frame given to [predict]. *)
Let erow (a : nat) : list (option Z) := map (fun c => nth a (snd c) None) ecols'.

Let lag0 : bool :=
  match lags_exog self with Some le => existsb (Z.eqb 0) le | None => false end.

(** The window between two steps, and the window the features of step
    [a] are built on. *)
Let W (a : nat) (fs : list (option Z)) : TimeSeries :=
  last_rows_of fr (S M) (add_row (Hc a fs) zeros) (Hi a ++ [tau (S a)]).
Let P (a : nat) (fs : list (option Z)) : TimeSeries :=
  last_rows_of fr (S M)
               (add_row (Hc a fs) (if lag0 then Some 0 :: erow a else zeros))
               (Hi a ++ [tau (S a)]).

Hypothesis self_configured : configured self.
Hypothesis self_target : target_column self = Some tc.
Hypothesis self_exog : exog_columns self = Some (option_map columns exog).
Hypothesis self_presence : is_some exog = is_some (lags_exog self).
Hypothesis self_training : training_series self = Some series.
Hypothesis self_seed : prediction_data self = seed_of (max_lag self) series exog.
Hypothesis series_trainable : trainable series exog tc.
Hypothesis series_cols : df_cols (ts_df series) = [(tc, tvals)].
Hypothesis series_end : end_time series = Ok last.
Hypothesis enough_rows : (M <= N)%nat.
Hypothesis lag_positive : 0 < max_lag self.
Hypothesis exog_absent : exog = None -> exog_df = None.
Hypothesis exog_rows :
  lags_exog self <> None ->
  exists e',
    exog_df = Some e'
    /\ (n <= df_len e')%nat
    /\ df_width e' = length exog_names
    /\ Forall (fun c => length (snd c) = df_len e'
                        /\ Forall (fun v => notna v = true) (snd c))
              (df_cols e').
Hypothesis estimator_answers :
  forall X, feature_row X ->
            exists v, est_predict (model self) X kwargs = Ok [RScalar (Some v)]
                      \/ est_predict (model self) X kwargs = Ok [RArray [Some v]].

Lemma M_positive : (1 <= M)%nat.
Proof. subst M. lia. Qed.

Lemma tvals_length : length tvals = N.
Proof.
  destruct series_trainable as (_ & _ & (_ & _ & Hcl) & _).
  rewrite series_cols in Hcl. apply Forall_inv in Hcl. exact (proj1 Hcl).
Qed.

Lemma index_length : length (time_index series) = N.
Proof. reflexivity. Qed.

Lemma ecols_names : map fst ecols = exog_names.
Proof. subst ecols exog_names. destruct exog; reflexivity. Qed.

Lemma ecols_rows : Forall (fun c => length (snd c) = N) ecols.
Proof.
  pose proof series_trainable as (_ & _ & _ & _ & Hexog).
  subst ecols. destruct exog as [e|]; [|constructor].
  destruct (Hexog e eq_refl) as ((_ & _ & Hcl) & _).
  eapply Forall_impl; [|exact Hcl]. intros c [Hl _]. exact Hl.
Qed.

Lemma ecols'_shape :
  length ecols' = length ecols
  /\ Forall (fun c => (n <= length (snd c))%nat) ecols'.
Proof.
  pose proof self_presence as Hpres. pose proof exog_rows as Hrows.
  pose proof exog_absent as Habs.
  subst ecols ecols' exog_names. destruct exog as [e|].
  - destruct (lags_exog self) as [le|]; [|discriminate Hpres].
    destruct (Hrows ltac:(discriminate)) as (e' & -> & Hn & Hw & Hcells).
    split.
    + unfold df_width, columns, df_columns in Hw. rewrite length_map in Hw. exact Hw.
    + eapply Forall_impl; [|exact Hcells]. intros c [Hl _]. cbn beta. lia.
  - rewrite (Habs eq_refl). split; [reflexivity | constructor].
Qed.

Lemma Hc_names (a : nat) (fs : list (option Z)) : map fst (Hc a fs) = names.
Proof.
  subst Hc names. cbn [map fst]. f_equal. rewrite map_map. cbn [fst].
  rewrite <- ecols_names.
  apply (map_combine_left (fun c : string * list (option Z) => fst c)).
  apply ecols'_shape.
Qed.

Lemma Hc_length (a : nat) (fs : list (option Z)) : length (Hc a fs) = length names.
Proof. rewrite <- (Hc_names a fs). symmetry. apply length_map. Qed.

Lemma Hc_rows (a : nat) (fs : list (option Z)) :
  (a <= n)%nat -> length fs = n ->
  Forall (fun c => length (snd c) = (N + a)%nat) (Hc a fs).
Proof.
  intros Ha Hfs. subst Hc. cbn beta. constructor.
  - cbn beta. cbn [snd]. rewrite length_app, tvals_length, length_firstn. lia.
  - apply Forall_map. apply Forall_forall. intros [c c'] Hin. cbn beta. cbn [fst snd].
    pose proof (in_combine_l _ _ _ _ Hin) as Hc.
    pose proof (in_combine_r _ _ _ _ Hin) as Hc'.
    pose proof ecols_rows as Hr. rewrite Forall_forall in Hr.
    destruct ecols'_shape as [_ Hs]. rewrite Forall_forall in Hs.
    specialize (Hs c' Hc'). cbn beta in Hs.
    rewrite length_app, (Hr c Hc), length_firstn. lia.
Qed.

Lemma Hi_length (a : nat) : length (Hi a) = (N + a)%nat.
Proof. subst Hi. cbn beta. rewrite length_app, length_map, length_seq. reflexivity. Qed.

Lemma Hi_last (a : nat) : nth_error (Hi a) (pred (length (Hi a))) = Some (tau a).
Proof.
  rewrite Hi_length. subst Hi. cbn beta. destruct a as [|a].
  - cbn [seq map]. rewrite app_nil_r, Nat.add_0_r.
    pose proof series_end as Hend. unfold end_time, item, ts_len, df_len in Hend.
    fold (time_index series) in Hend. fold N. unfold N, ts_len, df_len.
    fold (time_index series).
    destruct (nth_error (time_index series) (pred (length (time_index series))))
      as [t|]; [|discriminate].
    injection Hend as ->. subst tau. cbn beta. f_equal. lia.
  - rewrite nth_error_app2 by (rewrite index_length; lia).
    rewrite index_length.
    replace (pred (N + S a) - N)%nat with a by lia.
    rewrite nth_error_map, seq_S, nth_error_app2 by (rewrite length_seq; lia).
    rewrite length_seq, Nat.sub_diag. reflexivity.
Qed.

Lemma Hi_step (a : nat) : Hi a ++ [tau (S a)] = Hi (S a).
Proof. subst Hi. cbn beta. rewrite seq_S, map_app, app_assoc. reflexivity. Qed.

Lemma tau_step (a : nat) : tau a + 1 * fr = tau (S a).
Proof. subst tau. cbn beta. lia. Qed.


Lemma ecols'_long (a : nat) :
  (a < n)%nat -> Forall (fun c => (a < length (snd c))%nat) ecols'.
Proof.
  intros Ha. destruct ecols'_shape as [_ Hs].
  eapply Forall_impl; [|exact Hs]. intros c Hcl. cbn beta in *. lia.
Qed.

(** The history after step [a]: one more forecast, one more exogenous
    row. *)
Lemma Hc_step (a : nat) (fs fs' : list (option Z)) (v : option Z) :
  (a < n)%nat ->
  firstn (S a) fs' = firstn a fs ++ [v] ->
  add_row (Hc a fs) (v :: erow a) = Hc (S a) fs'.
Proof.
  intros Ha Hfs. unfold Hc, erow. unfold add_row at 1.
  cbn [combine map fst snd]. f_equal.
  - f_equal. rewrite Hfs, app_assoc. reflexivity.
  - apply add_row_history. apply ecols'_long. exact Ha.
Qed.

Lemma Hc_start (fs : list (option Z)) : Hc 0 fs = (tc, tvals) :: ecols.
Proof.
  destruct ecols'_shape as [Hlen _].
  unfold Hc. cbn [firstn]. rewrite app_nil_r. f_equal.
  transitivity (map (fun cc : (string * list (option Z)) * (string * list (option Z)) =>
                       (fun c : string * list (option Z) => c) (fst cc))
                    (combine ecols ecols')).
  - apply map_ext. intros [[nm col] c']. cbn [fst snd]. rewrite app_nil_r. reflexivity.
  - rewrite (map_combine_left (fun c : string * list (option Z) => c) ecols ecols' Hlen).
    apply map_id.
Qed.

Lemma zeros_length : length zeros = length names.
Proof. subst zeros. apply repeat_length. Qed.

(** Lines 240 to 243. *)
Lemma initial_window_closed (fs : list (option Z)) :
  length fs = n ->
  initial_window self = Ok (Some (W 0 fs), Some [zeros]).
Proof.
  intros Hfs.
  assert (Hseed : prediction_data self
                  = Some (AsSeries (last_rows_of fr M (Hc 0 fs) (Hi 0)))).
  { rewrite self_seed. unfold seed_of.
    replace (max_lag self =? 0) with false by (symmetry; apply Z.eqb_neq; lia).
    f_equal. f_equal. rewrite Hc_start. unfold Hi, ecols.
    cbn [seq map]. rewrite app_nil_r.
    unfold getitem_from, last_rows_of, time_index.
    destruct exog as [e|]; unfold stack, time_index;
      cbn [ts_df df_index df_cols ts_freq]; rewrite series_cols;
      cbn [app map fst snd]; rewrite !slice_from_neg by exact lag_positive;
      fold M; f_equal; f_equal; f_equal.
    apply map_ext. intros c. cbn [fst snd].
    rewrite slice_from_neg by exact lag_positive. reflexivity. }
  unfold initial_window.
  replace (max_lag self =? 0) with false by (symmetry; apply Z.eqb_neq; lia).
  cbn [negb]. rewrite Hseed. cbn [attr bind].
  assert (Hw : width (last_rows_of fr M (Hc 0 fs) (Hi 0)) = length names).
  { unfold width, df_width, last_rows_of. cbn [ts_df df_cols].
    rewrite length_map. apply Hc_length. }
  rewrite Hw. fold zeros.
  pose proof M_positive as HM.
  rewrite (append_row fr M (Hc 0 fs) (Hi 0) zeros (tau 0) (N + 0)).
  - cbn [bind]. rewrite tau_step. reflexivity.
  - rewrite zeros_length, Hc_length. reflexivity.
  - apply Hc_rows; [lia | exact Hfs].
  - apply Hi_length.
  - lia.
  - apply Hi_last.
Qed.

Lemma erow_length (a : nat) : length (erow a) = length exog_names.
Proof.
  unfold erow. rewrite length_map. destruct ecols'_shape as [-> _].
  rewrite <- ecols_names. symmetry. apply length_map.
Qed.

Lemma lag0_exog : lag0 = true -> exists e', exog_df = Some e' /\ (n <= df_len e')%nat.
Proof.
  unfold lag0. intros Hl.
  destruct (lags_exog self) as [le|] eqn:Hle; [|discriminate].
  destruct (exog_rows ltac:(discriminate)) as (e' & He' & Hn & _).
  exists e'. split; assumption.
Qed.

(** Lines 257 to 267, lagged mode. *)
Lemma prepare_window_closed (a : nat) (fs : list (option Z)) :
  (a < n)%nat -> length fs = n ->
  prepare_window self exog_df a (Some (W a fs)) = Ok (Some (P a fs)).
Proof.
  intros Ha Hfs. unfold prepare_window. fold lag0. unfold P.
  destruct lag0 eqn:Hl0; [|reflexivity].
  destruct (lag0_exog Hl0) as (e' & He' & Hn).
  assert (Herow : erow a = df_row e' a).
  { unfold erow, ecols'. rewrite He'. reflexivity. }
  rewrite He'. cbn [attr bind]. unfold df_iloc.
  replace (a <? df_len e')%nat with true by (symmetry; apply Nat.ltb_lt; lia).
  cbn [bind].
  replace (max_lag self =? 0) with false by (symmetry; apply Z.eqb_neq; lia).
  cbn [local bind]. unfold W.
  rewrite (drop_last_row fr M (Hc a fs) (Hi a) zeros (tau (S a)) (N + a)).
  - rewrite (append_row fr M (Hc a fs) (Hi a) (Some 0 :: df_row e' a) (tau a) (N + a)).
    + cbn [bind]. rewrite tau_step, Herow. reflexivity.
    + rewrite <- Herow. cbn [length]. rewrite erow_length, Hc_length. reflexivity.
    + apply Hc_rows; [lia | exact Hfs].
    + apply Hi_length.
    + pose proof M_positive. lia.
    + apply Hi_last.
  - rewrite zeros_length, Hc_length. reflexivity.
  - apply Hc_rows; [lia | exact Hfs].
  - apply Hi_length.
  - lia.
Qed.

Lemma P_drop_last (a : nat) (fs : list (option Z)) :
  (a < n)%nat -> length fs = n ->
  getitem_to (-1) (P a fs) = last_rows_of fr M (Hc a fs) (Hi a).
Proof.
  intros Ha Hfs. unfold P.
  apply (drop_last_row fr M (Hc a fs) (Hi a) _ (tau (S a)) (N + a)).
  - destruct lag0; [cbn [length]; rewrite erow_length|rewrite zeros_length];
      rewrite Hc_length; reflexivity.
  - apply Hc_rows; [lia | exact Hfs].
  - apply Hi_length.
  - lia.
Qed.

(** Lines 276 to 281. *)
Lemma advance_window_closed (a : nat) (fs fs' : list (option Z)) (v : option Z) :
  (a < n)%nat -> length fs = n -> length fs' = n ->
  firstn (S a) fs' = firstn a fs ++ [v] ->
  advance_window self exog_df (Some [zeros]) a [RScalar v] (P a fs)
  = Ok (W (S a) fs').
Proof.
  intros Ha Hfs Hfs' Hstep. unfold advance_window.
  replace (0 <? max_lag self) with true by (symmetry; apply Z.ltb_lt; lia).
  rewrite self_exog. cbn [attr bind].
  assert (Hrow : match option_map columns exog with
                 | Some _ => (f <- forecast0 [RScalar v] ;;
                              e <- attr exog_df ;;
                              values <- df_iloc e a ;;
                              Ok [f :: values])%py
                 | None => (r <- forecast_row [RScalar v] ;; Ok [r])%py
                 end = Ok [v :: erow a]).
  { pose proof self_presence as Hpres. pose proof exog_rows as Hrows.
    pose proof exog_absent as Habs. unfold erow, ecols'.
    destruct exog as [e|]; cbn [option_map].
    - destruct (lags_exog self) as [le|]; [|discriminate Hpres].
      destruct (Hrows ltac:(discriminate)) as (e' & -> & Hn & _).
      unfold forecast0, item. cbn [nth_error bind attr]. unfold df_iloc.
      replace (a <? df_len e')%nat with true by (symmetry; apply Nat.ltb_lt; lia).
      reflexivity.
    - rewrite (Habs eq_refl). reflexivity. }
  rewrite Hrow. cbn [bind]. rewrite (P_drop_last a fs Ha Hfs).
  pose proof M_positive as HM.
  rewrite (append_row fr M (Hc a fs) (Hi a) (v :: erow a) (tau a) (N + a)).
  - cbn [bind local]. rewrite tau_step, Hi_step, (Hc_step a fs fs' v Ha Hstep).
    rewrite (append_row fr (S M) (Hc (S a) fs') (Hi (S a)) zeros (tau (S a)) (N + S a)).
    + cbn [bind]. rewrite tau_step. f_equal.
      apply (drop_first_row fr (S M) _ _ (S (N + S a))).
      * apply add_row_rows. apply Hc_rows; [lia | exact Hfs'].
      * rewrite length_app, Hi_length. cbn [length]. lia.
      * lia.
    + rewrite zeros_length, Hc_length. reflexivity.
    + apply Hc_rows; [lia | exact Hfs'].
    + apply Hi_length.
    + lia.
    + apply Hi_last.
  - cbn [length]. rewrite erow_length, Hc_length. reflexivity.
  - apply Hc_rows; [lia | exact Hfs].
  - apply Hi_length.
  - lia.
  - apply Hi_last.
Qed.

(** The timestamps of the forecasts; the exogenous series continued by
    the rows given to [predict]; row [N + a - M] of the feature table of
    the target continued by [fs]. *)
Let times : list Z := map tau (seq 1 n).
Let full_exog : option TimeSeries :=
  match exog with
  | Some e => Some (continued e times (map (fun c => firstn n (snd c)) ecols'))
  | None => None
  end.
Let Xf (fs : list (option Z)) (a : nat) : DataFrame :=
  row_at (pd_dataframe (expected_features M (lags self) (lags_exog self)
                                          (continued series times [fs]) full_exog))
         (N + a - M).

Lemma lag_bounds (lag : Z) :
  In lag (lags_used self) -> 0 <= lag /\ (Z.to_nat lag <= M)%nat.
Proof.
  intros Hin. destruct self_configured as (Hl & Hle & _ & Hmax). split.
  - unfold lags_used in Hin. apply in_app_or in Hin. destruct Hin as [Hin|Hin].
    + destruct (lags self) as [l|]; [|destruct Hin].
      destruct (Hl l eq_refl) as [_ Hall]. rewrite Forall_forall in Hall.
      specialize (Hall lag Hin). lia.
    + destruct (lags_exog self) as [le|]; [|destruct Hin].
      destruct (Hle le eq_refl) as [_ Hall]. rewrite Forall_forall in Hall.
      exact (Hall lag Hin).
  - unfold M. rewrite Hmax, Nat2Z.id. apply lag_depth_ge. exact Hin.
Qed.

Lemma exog_names_presence :
  exog_columns self
  = Some (match lags_exog self with Some _ => Some exog_names | None => None end).
Proof.
  pose proof self_presence as Hpres. rewrite self_exog. unfold exog_names.
  destruct exog, (lags_exog self); try reflexivity; discriminate Hpres.
Qed.

Lemma exog_names_some : lags_exog self <> None -> exog_names <> [].
Proof.
  pose proof self_presence as Hpres. pose proof series_trainable as (_ & _ & _ & _ & Hexog).
  intros Hle. unfold exog_names. destruct exog as [e|].
  - exact (proj1 (proj2 (Hexog e eq_refl))).
  - destruct (lags_exog self); [discriminate Hpres | congruence].
Qed.

Lemma window_columns (a : nat) (fc : list (option Z)) :
  df_cols (ts_df (P a fc))
  = (tc, skipn (length ((tvals ++ firstn a fc) ++ [Some 0]) - S M)
               ((tvals ++ firstn a fc) ++ [Some 0]))
      :: map (fun cc : (string * list (option Z)) * (string * list (option Z)) =>
                let h := (snd (fst cc) ++ firstn a (snd (snd cc)))
                           ++ [if lag0 then nth a (snd (snd cc)) None else Some 0] in
                (fst (fst cc), skipn (length h - S M) h))
             (combine ecols ecols').
Proof.
  unfold P, last_rows_of. cbn [ts_df df_cols]. unfold Hc, add_row.
  destruct lag0.
  - cbn [combine map fst snd]. f_equal. unfold erow.
    rewrite combine_map_both, !map_map. apply map_ext. intros cc. reflexivity.
  - unfold zeros, names. cbn [length repeat combine map fst snd]. f_equal.
    rewrite combine_repeat.
    + rewrite !map_map. apply map_ext. intros cc. reflexivity.
    + rewrite length_map, length_combine. rewrite <- ecols_names, length_map. lia.
Qed.

Lemma times_nth (a : nat) : (a < n)%nat -> nth_error times a = Some (tau (S a)).
Proof.
  intros Ha. unfold times.
  rewrite nth_error_map, (nth_error_nth' _ 0%nat) by (rewrite length_seq; exact Ha).
  rewrite seq_nth by exact Ha. reflexivity.
Qed.

Lemma full_exog_columns :
  match full_exog with Some e => df_cols (ts_df e) | None => [] end
  = map (fun cc : (string * list (option Z)) * (string * list (option Z)) =>
           (fst (fst cc), snd (fst cc) ++ firstn n (snd (snd cc))))
        (combine ecols ecols').
Proof.
  unfold full_exog, ecols. destruct exog as [e|]; [|reflexivity].
  unfold continued. cbn [ts_df df_cols]. rewrite combine_map_second, map_map.
  reflexivity.
Qed.

Lemma lag0_member (le : list Z) : lags_exog self = Some le -> In 0 le -> lag0 = true.
Proof.
  intros Hle Hin. unfold lag0. rewrite Hle. apply existsb_exists.
  exists 0. split; [exact Hin | reflexivity].
Qed.

(** Lines 270 to 272 on the window of step [a]: the feature table is
    the row the builder makes, for the timestamp of that step, from the
    whole history continued by the forecasts so far. *)
Lemma step_features (a : nat) (fc fs : list (option Z)) :
  (a < n)%nat -> length fc = n -> length fs = n ->
  firstn a fs = firstn a fc ->
  window_ok names fr (S M) (P a fc) ->
  forecasting_data self (P a fc) = Ok (Xf fs a).
Proof.
  intros Ha Hfc Hfs Hagree Hwin.
  rewrite (forecasting_data_closed self tc exog_names fr self_configured
             (trainable_names series exog tc series_trainable) self_target
             exog_names_presence exog_names_some (P a fc) Hwin).
  f_equal. unfold Xf, expected_features, pd_dataframe, row_at.
  cbn [ts_df df_index df_cols]. unfold time_index at 1 2. cbn [ts_df df_index].
  rewrite window_columns.
  pose proof M_positive as HM.
  f_equal.
  - unfold P, last_rows_of, continued, time_index. cbn [ts_df df_index].
    rewrite !skipn_skipn. change (Z.to_nat (max_lag self)) with M.
    fold (time_index series). rewrite length_app, Hi_length. cbn [length].
    replace (M + (N + a + 1 - S M))%nat with (N + a)%nat by lia.
    replace (N + a - M + M)%nat with (N + a)%nat by lia.
    rewrite <- (Hi_length a) at 1. rewrite skipn_app, skipn_all, Nat.sub_diag.
    cbn [skipn app].
    rewrite skipn_app, index_length.
    rewrite skipn_all2 by (rewrite index_length; lia).
    replace (N + a - N)%nat with a by lia. cbn [app].
    symmetry. apply firstn_one_skipn. apply times_nth. exact Ha.
  - rewrite map_app. f_equal.
    + change (Z.to_nat (max_lag self)) with M.
      pose proof lag_bounds as Hb. unfold lags_used in Hb.
      pose proof self_configured as (Hl & _).
      destruct (lags self) as [l|] eqn:Hlags; [|reflexivity].
      destruct (Hl l eq_refl) as [_ Hpos]. rewrite Forall_forall in Hpos.
      unfold continued. cbn [ts_df df_cols]. rewrite series_cols.
      cbn [firstn combine map fst snd flat_map]. rewrite !app_nil_r.
      unfold lag_features. cbn [fst snd]. rewrite map_map. cbn [fst snd].
      apply map_ext_in. intros lag Hlag. f_equal.
      apply (proj1 (distinct_lags_in _ _)) in Hlag.
      destruct (Hb lag (in_or_app _ _ _ (or_introl Hlag))) as [Hnn HleM].
      specialize (Hpos lag Hlag).
      assert (Hh : length (tvals ++ firstn a fc) = (N + a)%nat).
      { rewrite length_app, tvals_length, length_firstn. lia. }
      rewrite <- Hh. apply window_feature_cell; try lia.
      * rewrite Hh, length_app, tvals_length. lia.
      * rewrite nth_error_app1 by lia. rewrite <- Hagree.
        apply nth_error_app_firstn. rewrite length_app, length_firstn, tvals_length. lia.
    + change (Z.to_nat (max_lag self)) with M.
      pose proof lag_bounds as Hb. unfold lags_used in Hb.
      pose proof ecols_rows as Hrows. pose proof ecols'_shape as [_ Hn'].
      pose proof lag0_member as Hl0.
      pose proof full_exog_columns as Hcols.
      destruct (lags_exog self) as [le|] eqn:Hle; [|reflexivity].
      cbn [ts_df df_cols skipn].
      destruct full_exog as [fe|].
      2:{ symmetry in Hcols. apply map_eq_nil in Hcols. rewrite Hcols. reflexivity. }
      rewrite Hcols. apply flat_map_map_rows.
      intros [[nm col] [nm' col']] Hin. cbv zeta. cbn [fst snd].
      unfold lag_features. cbn [fst snd]. rewrite map_map. cbn [fst snd].
      apply map_ext_in. intros lag Hlag. f_equal.
      apply (proj1 (distinct_lags_in _ _)) in Hlag.
      destruct (Hb lag (in_or_app _ _ _ (or_intror Hlag))) as [Hnn HleM].
      rewrite Forall_forall in Hrows, Hn'.
      pose proof (Hrows _ (in_combine_l _ _ _ _ Hin)) as Hcol.
      pose proof (Hn' _ (in_combine_r _ _ _ _ Hin)) as Hcol'.
      cbn [snd] in Hcol, Hcol'.
      assert (Hh : length (col ++ firstn a col') = (N + a)%nat).
      { rewrite length_app, Hcol, length_firstn. lia. }
      rewrite <- Hh. apply window_feature_cell; try lia.
      * rewrite Hh, length_app, Hcol, length_firstn. lia.
      * destruct (Z.eq_dec lag 0) as [-> | Hnz].
        -- rewrite (Hl0 le eq_refl Hlag). cbn [Z.to_nat]. rewrite Nat.sub_0_r.
           rewrite nth_error_app2, Nat.sub_diag by lia. cbn [nth_error].
           rewrite Hh, nth_error_app2 by lia. rewrite Hcol, nth_error_firstn.
           replace (N + a - N)%nat with a by lia.
           replace (a <? n)%nat with true by (symmetry; apply Nat.ltb_lt; lia).
           symmetry. apply nth_error_nth'. lia.
        -- rewrite nth_error_app1 by lia.
           rewrite (nth_error_app_firstn col col' a) by lia.
           symmetry. apply nth_error_app_firstn. lia.
Qed.

Lemma target_is_only_column : columns series = [tc].
Proof. exact (proj1 series_trainable). Qed.

Lemma exog_columns_nonempty : forall e, exog = Some e -> columns e <> [].
Proof.
  pose proof series_trainable as (_ & _ & _ & _ & Hexog).
  intros e He. exact (proj1 (proj2 (Hexog e He))).
Qed.

Lemma training_freq_positive : 0 < fr.
Proof. exact (proj1 (proj2 (proj2 (proj2 series_trainable)))). Qed.

Lemma step_window_ok (a : nat) (fc : list (option Z)) :
  (a < n)%nat -> length fc = n ->
  window_ok names fr (S M) (W a fc) -> window_ok names fr (S M) (P a fc).
Proof.
  intros Ha Hfc Hw.
  destruct (prepare_window_ok self series exog tc self_configured self_exog
              self_presence self_training self_seed target_is_only_column
              (trainable_names series exog tc series_trainable)
              exog_columns_nonempty training_freq_positive exog_df n exog_rows
              a (Some (W a fc)) Ha)
    as (w & Hprep & Hok).
  { intros _. exists (W a fc). split; [reflexivity | exact Hw]. }
  rewrite (prepare_window_closed a fc Ha Hfc) in Hprep.
  injection Hprep as <-. exact Hok.
Qed.

Lemma step_features_agree (a : nat) (fc fs : list (option Z)) :
  (a < n)%nat -> length fc = n -> length fs = n ->
  firstn a fs = firstn a fc ->
  window_ok names fr (S M) (W a fc) ->
  Xf fs a = Xf fc a.
Proof.
  intros Ha Hfc Hfs Hagree Hw.
  pose proof (step_window_ok a fc Ha Hfc Hw) as Hp.
  pose proof (step_features a fc fs Ha Hfc Hfs Hagree Hp) as H1.
  pose proof (step_features a fc fc Ha Hfc Hfc eq_refl Hp) as H2.
  congruence.
Qed.

Lemma setitem_step (a : nat) (fc : list (option Z)) (v : option Z) :
  (a < length fc)%nat ->
  firstn (S a) (firstn a fc ++ v :: skipn (S a) fc) = firstn a fc ++ [v].
Proof.
  intros Ha. rewrite firstn_app, length_firstn.
  replace (S a - Nat.min a (length fc))%nat with 1%nat by lia.
  rewrite firstn_firstn. replace (Nat.min (S a) a) with a by lia. reflexivity.
Qed.

Lemma step_table_one_row (a : nat) (fc : list (option Z)) :
  (a < n)%nat -> length fc = n ->
  window_ok names fr (S M) (W a fc) -> feature_row (Xf fc a).
Proof.
  intros Ha Hfc Hw.
  pose proof (step_window_ok a fc Ha Hfc Hw) as Hp.
  pose proof (step_features a fc fc Ha Hfc Hfc eq_refl Hp) as HX.
  destruct (forecasting_data_one_row self tc exog_names fr self_configured
              (trainable_names series exog tc series_trainable) self_target
              exog_names_presence exog_names_some (P a fc) Hp)
    as (X & HX' & Hone).
  assert (X = Xf fc a) by congruence. subst X. exact Hone.
Qed.

(** One pass of the loop body, lines 257 to 283, in lagged mode, when
    the estimator answers [v]. *)
Lemma feedback_step_given (a : nat) (fc : list (option Z)) (calls : list DataFrame)
      (v : Z) :
  (a < n)%nat -> length fc = n ->
  window_ok names fr (S M) (W a fc) ->
  est_predict (model self) (Xf fc a) kwargs = Ok [RScalar (Some v)]
  \/ est_predict (model self) (Xf fc a) kwargs = Ok [RArray [Some v]] ->
  predict_step self exog_df kwargs (Some [zeros]) a (Some (W a fc), fc) calls
  = (calls ++ [Xf fc a],
     Ok (Some (W (S a) (firstn a fc ++ Some v :: skipn (S a) fc)),
         firstn a fc ++ Some v :: skipn (S a) fc))
  /\ window_ok names fr (S M) (W (S a) (firstn a fc ++ Some v :: skipn (S a) fc)).
Proof.
  intros Ha Hfc Hw Hest.
  pose proof (step_window_ok a fc Ha Hfc Hw) as Hp.
  pose proof (step_features a fc fc Ha Hfc Hfc eq_refl Hp) as HX.
  set (fc' := firstn a fc ++ Some v :: skipn (S a) fc).
  assert (Hfc' : length fc' = n).
  { unfold fc'. rewrite length_app, length_firstn. cbn [length].
    rewrite length_skipn. lia. }
  assert (Hstep : firstn (S a) fc' = firstn a fc ++ [Some v]).
  { apply setitem_step. lia. }
  pose proof (advance_window_closed a fc fc' (Some v) Ha Hfc Hfc' Hstep) as Hadv.
  destruct (advance_window_ok self series exog tc self_exog self_presence self_seed
              (trainable_names series exog tc series_trainable)
              exog_columns_nonempty training_freq_positive exog_df n exog_rows
              (Some [zeros]) a v (P a fc) (fun _ => eq_refl) Ha Hp)
    as (w' & Hadv' & Hw').
  assert (w' = W (S a) fc') by congruence. subst w'.
  split; [|exact (Hw' lag_positive)].
  assert (Hset : setitem fc a (Some v) = Ok fc').
  { unfold setitem. replace (a <? length fc)%nat with true; [reflexivity|].
    symmetry. apply Nat.ltb_lt. lia. }
  unfold predict_step. rewrite (prepare_window_closed a fc Ha Hfc), sbind_lift_ok.
  cbn [local]. rewrite sbind_lift_ok, HX, sbind_lift_ok.
  unfold sbind at 1. unfold call_predict.
  destruct Hest as [Hest|Hest]; rewrite Hest;
    cbn [unwrap_forecast item nth_error bind map];
    rewrite sbind_lift_ok, Hadv, sbind_lift_ok;
    cbn [forecast0 item nth_error bind];
    rewrite sbind_lift_ok, Hset, sbind_lift_ok; reflexivity.
Qed.

(** The same pass when the estimator raises. *)
Lemma feedback_step_raises (a : nat) (fc : list (option Z)) (calls : list DataFrame)
      (err : exn) :
  (a < n)%nat -> length fc = n ->
  window_ok names fr (S M) (W a fc) ->
  est_predict (model self) (Xf fc a) kwargs = Raise err ->
  predict_step self exog_df kwargs (Some [zeros]) a (Some (W a fc), fc) calls
  = (calls ++ [Xf fc a], Raise err).
Proof.
  intros Ha Hfc Hw Hest.
  pose proof (step_window_ok a fc Ha Hfc Hw) as Hp.
  pose proof (step_features a fc fc Ha Hfc Hfc eq_refl Hp) as HX.
  unfold predict_step. rewrite (prepare_window_closed a fc Ha Hfc), sbind_lift_ok.
  cbn [local]. rewrite sbind_lift_ok, HX, sbind_lift_ok.
  unfold sbind at 1. unfold call_predict. rewrite Hest. reflexivity.
Qed.

Lemma feedback_step (a : nat) (fc : list (option Z)) (calls : list DataFrame) :
  (a < n)%nat -> length fc = n ->
  window_ok names fr (S M) (W a fc) ->
  exists v,
    (est_predict (model self) (Xf fc a) kwargs = Ok [RScalar (Some v)]
     \/ est_predict (model self) (Xf fc a) kwargs = Ok [RArray [Some v]])
    /\ predict_step self exog_df kwargs (Some [zeros]) a (Some (W a fc), fc) calls
       = (calls ++ [Xf fc a],
          Ok (Some (W (S a) (firstn a fc ++ Some v :: skipn (S a) fc)),
              firstn a fc ++ Some v :: skipn (S a) fc))
    /\ window_ok names fr (S M) (W (S a) (firstn a fc ++ Some v :: skipn (S a) fc)).
Proof.
  intros Ha Hfc Hw.
  destruct (estimator_answers (Xf fc a) (step_table_one_row a fc Ha Hfc Hw)) as [v Hest].
  exists v. split; [exact Hest|].
  apply feedback_step_given; assumption.
Qed.

Lemma firstn_shorter {A : Type} (a : nat) (l l' : list A) :
  firstn (S a) l = firstn (S a) l' -> firstn a l = firstn a l'.
Proof.
  intros Heq.
  assert (Hcut : forall x : list A, firstn a x = firstn a (firstn (S a) x)).
  { intros x. rewrite firstn_firstn. f_equal. lia. }
  rewrite (Hcut l), (Hcut l'), Heq. reflexivity.
Qed.

(** The loop of lines 254 to 283 from step [a] on. *)
Lemma feedback_loop :
  forall (k a : nat) (fc : list (option Z)) (calls : list DataFrame),
    (a + k = n)%nat ->
    length fc = n ->
    window_ok names fr (S M) (W a fc) ->
    exists fs,
      length fs = n
      /\ firstn a fs = firstn a fc
      /\ for_loop (predict_step self exog_df kwargs (Some [zeros])) (seq a k)
                  (Some (W a fc), fc) calls
         = (calls ++ map (Xf fs) (seq a k), Ok (Some (W n fs), fs))
      /\ forall i, (a <= i < n)%nat ->
                   exists v,
                     nth_error fs i = Some (Some v)
                     /\ (est_predict (model self) (Xf fs i) kwargs = Ok [RScalar (Some v)]
                         \/ est_predict (model self) (Xf fs i) kwargs
                            = Ok [RArray [Some v]]).
Proof.
  induction k as [|k IH]; intros a fc calls Hak Hfc Hw.
  - exists fc. split; [exact Hfc|]. split; [reflexivity|]. split.
    + cbn [seq map for_loop]. rewrite app_nil_r.
      replace n with a by lia. reflexivity.
    + intros i Hlt. lia.
  - destruct (feedback_step a fc calls ltac:(lia) Hfc Hw) as (v & Hest & Hstep & Hw').
    set (fc' := firstn a fc ++ Some v :: skipn (S a) fc) in *.
    assert (Hfc' : length fc' = n).
    { unfold fc'. rewrite length_app, length_firstn. cbn [length].
      rewrite length_skipn. lia. }
    assert (Hpre : firstn (S a) fc' = firstn a fc ++ [Some v]).
    { apply setitem_step. lia. }
    destruct (IH (S a) fc' (calls ++ [Xf fc a]) ltac:(lia) Hfc' Hw')
      as (fs & Hfs & Hagree & Hloop & Hans).
    assert (Hagree' : firstn a fs = firstn a fc).
    { apply firstn_shorter in Hagree. rewrite Hagree. unfold fc'.
      rewrite firstn_app, length_firstn, firstn_firstn.
      replace (a - Nat.min a (length fc))%nat with 0%nat by lia.
      replace (Nat.min a a) with a by lia. cbn [firstn]. apply app_nil_r. }
    assert (HX : Xf fs a = Xf fc a).
    { apply step_features_agree; try assumption. lia. }
    exists fs. split; [exact Hfs|]. split; [exact Hagree'|]. split.
    + cbn [seq for_loop map]. unfold sbind at 1. rewrite Hstep. fold fc'.
      rewrite Hloop, HX, <- app_assoc. reflexivity.
    + intros i Hlt. destruct (Nat.eq_dec i a) as [->|Hne].
      * exists v. split; [|rewrite HX; exact Hest].
        assert (Hn : nth_error (firstn (S a) fs) a = Some (Some v)).
        { rewrite Hagree, Hpre, nth_error_app2 by (rewrite length_firstn; lia).
          rewrite length_firstn. replace (a - Nat.min a (length fc))%nat with 0%nat by lia.
          reflexivity. }
        rewrite nth_error_firstn in Hn.
        replace (a <? S a)%nat with true in Hn by (symmetry; apply Nat.ltb_lt; lia).
        exact Hn.
      * apply Hans. lia.
Qed.

Lemma firstn_snoc_nth {A : Type} (a : nat) (l : list A) (x : A) :
  nth_error l a = Some x -> firstn (S a) l = firstn a l ++ [x].
Proof.
  revert l. induction a as [|a IH]; intros [|y l] Hx; try discriminate.
  - cbn in Hx. injection Hx as ->. reflexivity.
  - cbn [firstn app]. f_equal. apply IH. exact Hx.
Qed.

(** The first [k] passes from step [a] on, when the estimator's answers
    are the values [fs]. *)
Lemma feedback_prefix (fs : list (option Z)) :
  length fs = n ->
  forall (k a : nat) (fc : list (option Z)) (calls : list DataFrame),
    (a + k <= n)%nat ->
    length fc = n ->
    firstn a fc = firstn a fs ->
    window_ok names fr (S M) (W a fc) ->
    (forall i, (a <= i < a + k)%nat ->
               exists v,
                 nth_error fs i = Some (Some v)
                 /\ (est_predict (model self) (Xf fs i) kwargs = Ok [RScalar (Some v)]
                     \/ est_predict (model self) (Xf fs i) kwargs = Ok [RArray [Some v]])) ->
    exists fc',
      length fc' = n
      /\ firstn (a + k) fc' = firstn (a + k) fs
      /\ window_ok names fr (S M) (W (a + k) fc')
      /\ for_loop (predict_step self exog_df kwargs (Some [zeros])) (seq a k)
                  (Some (W a fc), fc) calls
         = (calls ++ map (Xf fs) (seq a k), Ok (Some (W (a + k) fc'), fc')).
Proof.
  intros Hfs. induction k as [|k IH]; intros a fc calls Hak Hfc Hagree Hw Hans.
  - exists fc. rewrite Nat.add_0_r. split; [exact Hfc|]. split; [exact Hagree|].
    split; [exact Hw|]. cbn [seq map for_loop]. rewrite app_nil_r. reflexivity.
  - destruct (Hans a ltac:(lia)) as (v & Hnth & Hest).
    assert (HX : Xf fs a = Xf fc a).
    { apply step_features_agree; try assumption; [lia | symmetry; exact Hagree]. }
    rewrite HX in Hest.
    destruct (feedback_step_given a fc calls v ltac:(lia) Hfc Hw Hest) as [Hstep Hw'].
    set (fc1 := firstn a fc ++ Some v :: skipn (S a) fc) in *.
    assert (Hfc1 : length fc1 = n).
    { unfold fc1. rewrite length_app, length_firstn. cbn [length].
      rewrite length_skipn. lia. }
    assert (Hagree1 : firstn (S a) fc1 = firstn (S a) fs).
    { unfold fc1. rewrite setitem_step by lia.
      rewrite (firstn_snoc_nth a fs (Some v) Hnth), Hagree. reflexivity. }
    destruct (IH (S a) fc1 (calls ++ [Xf fc a]) ltac:(lia) Hfc1 Hagree1 Hw')
      as (fc' & Hfc' & Hagree' & Hwin' & Hloop).
    { intros i Hlt. apply Hans. lia. }
    replace (a + S k)%nat with (S a + k)%nat by lia.
    exists fc'. split; [exact Hfc'|]. split; [exact Hagree'|]. split; [exact Hwin'|].
    cbn [seq for_loop map]. unfold sbind at 1. rewrite Hstep. fold fc1.
    rewrite Hloop, HX, <- app_assoc. reflexivity.
Qed.

Lemma for_loop_app {T X A : Type} (body : X -> A -> stateful T A) (l1 l2 : list X) :
  forall (a : A) (s : T),
    for_loop body (l1 ++ l2) a s
    = sbind (for_loop body l1 a) (for_loop body l2) s.
Proof.
  induction l1 as [|x l1 IH]; intros a s; [reflexivity|].
  cbn [app for_loop]. unfold sbind.
  destruct (body x a s) as [s' [a'|e]]; [|reflexivity].
  rewrite IH. reflexivity.
Qed.

(** The loop when the estimator answers the first [k] tables and raises
    on the next. *)
Lemma feedback_fails (fs fc : list (option Z)) (k : nat) (err : exn)
      (calls : list DataFrame) :
  length fs = n -> length fc = n -> (k < n)%nat ->
  window_ok names fr (S M) (W 0 fc) ->
  (forall i, (i < k)%nat ->
             exists v,
               nth_error fs i = Some (Some v)
               /\ (est_predict (model self) (Xf fs i) kwargs = Ok [RScalar (Some v)]
                   \/ est_predict (model self) (Xf fs i) kwargs = Ok [RArray [Some v]])) ->
  est_predict (model self) (Xf fs k) kwargs = Raise err ->
  for_loop (predict_step self exog_df kwargs (Some [zeros])) (seq 0 n)
           (Some (W 0 fc), fc) calls
  = (calls ++ map (Xf fs) (seq 0 (S k)), Raise err).
Proof.
  intros Hfs Hfc Hk Hw Hans Herr.
  destruct (feedback_prefix fs Hfs k 0%nat fc calls ltac:(lia) Hfc eq_refl Hw)
    as (fc' & Hfc' & Hagree & Hw' & Hloop).
  { intros i Hlt. apply Hans. lia. }
  cbn [Nat.add] in Hagree, Hw', Hloop.
  assert (HX : Xf fs k = Xf fc' k).
  { apply step_features_agree; try assumption. symmetry. exact Hagree. }
  rewrite HX in Herr.
  pose proof (feedback_step_raises k fc' (calls ++ map (Xf fs) (seq 0 k)) err
                Hk Hfc' Hw' Herr) as Hstep.
  rewrite (seq_S k 0), map_app, app_assoc. cbn [Nat.add map].
  replace n with (k + S (n - S k))%nat at 1 by lia.
  rewrite seq_app, for_loop_app. unfold sbind at 1. rewrite Hloop.
  rewrite <- cons_seq. cbn [Nat.add for_loop]. unfold sbind at 1. rewrite Hstep.
  rewrite HX. reflexivity.
Qed.

End Feedback.

(** ** [predict] in lagged mode: forecasts are fed back *)

Section FeedsBack.

Context {E Kw : Type} `{Estimator E Kw}.

Lemma one_column (series : TimeSeries) (tc : string) :
  columns series = [tc] -> exists tvals, df_cols (ts_df series) = [(tc, tvals)].
Proof.
  unfold columns, df_columns. destruct (df_cols (ts_df series)) as [|[nm col] [|? ?]];
    cbn; try discriminate.
  intros Heq. injection Heq as ->. exists col. reflexivity.
Qed.

Lemma predict_lagged_runs series exog (kwargs kwargs' : Kw) (self0 self : RegressionModel E)
      (tc : string) (last : Z) (n : nat) exog' calls :
  configured self0 ->
  fit series exog kwargs self0 = (self, Ok tt) ->
  trainable series exog tc ->
  0 < max_lag self0 ->
  (Z.to_nat (max_lag self0) <= ts_len series)%nat ->
  end_time series = Ok last ->
  usable_exog exog exog' (last + freq series) n ->
  let table := step_table (Z.to_nat (max_lag self0)) (lags self0) (lags_exog self0)
                          series exog exog' last n in
  let answers (X : DataFrame) (v : Z) :=
    est_predict (model self) X kwargs' = Ok [RScalar (Some v)]
    \/ est_predict (model self) X kwargs' = Ok [RArray [Some v]] in
  ((forall X, feature_row X -> exists v, answers X v) ->
   exists fs,
     length fs = n
     /\ predict self n exog' kwargs' calls
        = (calls ++ map (table fs) (seq 0 n), _build_forecast_series self fs)
     /\ forall i, (i < n)%nat ->
                  exists v, nth_error fs i = Some (Some v) /\ answers (table fs i) v)
  /\ (forall (fs : list (option Z)) (k : nat) (err : exn),
         length fs = n -> (k < n)%nat ->
         (forall i, (i < k)%nat ->
                    exists v, nth_error fs i = Some (Some v) /\ answers (table fs i) v) ->
         est_predict (model self) (table fs k) kwargs' = Raise err ->
         predict self n exog' kwargs' calls
         = (calls ++ map (table fs) (seq 0 (S k)), Raise err)).
Proof.
  intros Hconf0 Hfit Htr Hpos Hlen Hend Husable table answers.
  apply fit_ok in Hfit.
  destruct Hfit as (Hcalled & Htrain & Hl & Hle & Hmax & Hpres & Hec
                    & (tc' & Htc' & Htarget) & Hseed).
  assert (Hconf : configured self) by (eapply configured_same; eassumption).
  pose proof Htr as (Hcols & _ & _ & Hfr & Hexog).
  assert (tc' = tc).
  { rewrite Hcols in Htc'. cbn in Htc'. congruence. }
  subst tc'. rewrite <- Hle in Hpres. rewrite <- Hmax in Hseed, Hlen, Hpos.
  subst table answers. rewrite <- Hmax, <- Hl, <- Hle.
  destruct (one_column series tc Hcols) as [tvals Htvals].
  assert (Hcheck : check_exog_start self exog' = Ok tt).
  { unfold usable_exog in Husable. destruct exog as [e|].
    - destruct Husable as (e' & -> & Hstart & _).
      unfold check_exog_start. rewrite Htrain. cbn [attr bind].
      rewrite Hend. cbn [bind]. rewrite Hstart. cbn [bind].
      unfold raise_if_not. rewrite Z.eqb_refl. reflexivity.
    - rewrite Husable. reflexivity. }
  assert (Habs : exog = None -> option_map pd_dataframe exog' = None).
  { intros ->. cbn in Husable. rewrite Husable. reflexivity. }
  assert (Hexog_rows :
            lags_exog self <> None ->
            exists e',
              option_map pd_dataframe exog' = Some e'
              /\ (n <= df_len e')%nat
              /\ df_width e'
                 = length match exog with Some e => columns e | None => [] end
              /\ Forall (fun c => length (snd c) = df_len e'
                                  /\ Forall (fun v => notna v = true) (snd c))
                        (df_cols e')).
  { intros Hlex. unfold usable_exog in Husable. destruct exog as [e|].
    - destruct Husable as (e' & -> & _ & Hn & Hw & Hcells).
      exists (ts_df e'). split; [reflexivity|]. split; [exact Hn|].
      split; [|exact Hcells].
      unfold width, df_width, columns, df_columns in *. rewrite length_map.
      exact Hw.
    - destruct (lags_exog self); [discriminate Hpres | congruence]. }
  set (fc0 := map (fun i => Some (Z.of_nat i)) (seq 0 n)).
  assert (Hfc0 : length fc0 = n).
  { unfold fc0. rewrite length_map, length_seq. reflexivity. }
  pose proof (initial_window_closed self series exog tc tvals last
                (option_map pd_dataframe exog') n Hec Hpres Hseed Htr Htvals Hend
                Hlen Hpos Habs Hexog_rows fc0 Hfc0) as Hinit.
  cbn beta in Hinit.
  destruct (initial_window_ok self series exog tc Htr Hpos Hlen Hseed)
    as (w0 & Hinit' & Hw0).
  rewrite Hinit in Hinit'. injection Hinit' as Hw0eq.
  rewrite <- Hw0eq in Hw0. clear Hw0eq.
  assert (Hconv : forall (gs : list (option Z)) (i : nat),
             row_at
               (pd_dataframe
                  (expected_features (Z.to_nat (max_lag self)) (lags self) (lags_exog self)
                     (continued series
                        (map (fun k : nat => last + Z.of_nat k * freq series) (seq 1 n))
                        [gs])
                     match exog with
                     | Some e =>
                         Some (continued e
                                 (map (fun k : nat => last + Z.of_nat k * freq series)
                                      (seq 1 n))
                                 (map (fun c : string * list (option Z) => firstn n (snd c))
                                      match option_map pd_dataframe exog' with
                                      | Some e' => df_cols e'
                                      | None => []
                                      end))
                     | None => None
                     end))
               (ts_len series + i - Z.to_nat (max_lag self))
             = step_table (Z.to_nat (max_lag self)) (lags self) (lags_exog self)
                          series exog exog' last n gs i).
  { intros gs i. unfold step_table, forecast_times, future_rows.
    destruct exog, exog'; reflexivity. }
  assert (Hpre : forall w d out,
             initial_window self = Ok (w, d) ->
             for_loop (predict_step self (option_map pd_dataframe exog') kwargs' d)
                      (seq 0 n) (w, fc0) calls = out ->
             predict self n exog' kwargs' calls
             = match out with
               | (calls', Ok final) => (calls', _build_forecast_series self (snd final))
               | (calls', Raise e) => (calls', Raise e)
               end).
  { intros w d out Hini Hloop. unfold predict.
    rewrite (super_predict_fitted _ _ _ Hcalled), sbind_lift_ok.
    rewrite Hini, sbind_lift_ok, Hcheck, sbind_lift_ok.
    unfold sbind at 1. cbn [fst snd]. fold fc0. rewrite Hloop.
    destruct out as [calls' [final|e]]; reflexivity. }
  split.
  - intros Hest.
    destruct (feedback_loop self series exog tc tvals last
                (option_map pd_dataframe exog') n kwargs' Hconf Htarget Hec Hpres Htrain
                Hseed Htr Htvals Hend Hlen Hpos Habs Hexog_rows Hest
                n 0%nat fc0 calls eq_refl Hfc0 Hw0)
      as (fs & Hfs & _ & Hloop & Hans).
    cbn beta in Hloop, Hans.
    exists fs. split; [exact Hfs|]. split.
    + rewrite (Hpre _ _ _ Hinit Hloop). cbn [snd].
      rewrite (map_ext _ _ (Hconv fs)). reflexivity.
    + intros i Hi. destruct (Hans i ltac:(lia)) as (v & Hnth & Hv).
      exists v. split; [exact Hnth|]. rewrite <- Hconv. exact Hv.
  - intros fs k err Hfs Hk Hans Herr.
    pose proof (feedback_fails self series exog tc tvals last
                  (option_map pd_dataframe exog') n kwargs' Hconf Htarget Hec Hpres
                  Htrain Hseed Htr Htvals Hend Hlen Hpos Habs Hexog_rows
                  fs fc0 k err calls Hfs Hfc0 Hk Hw0) as Hloop.
    cbn beta in Hloop.
    specialize (Hloop ltac:(intros i Hi; destruct (Hans i Hi) as (v & Hnth & Hv);
                            exists v; split; [exact Hnth|]; rewrite Hconv; exact Hv)
                      ltac:(rewrite Hconv; exact Herr)).
    rewrite (Hpre _ _ _ Hinit Hloop).
    rewrite (map_ext _ _ (Hconv fs)). reflexivity.
Qed.

End FeedsBack.

(** X13.  In lagged mode [predict] feeds its forecasts back: the
    estimator is called once per step, and the table of step [i] is the
    row which the builder of training data makes, for the timestamp of
    that step, from the training series continued by the forecasts of the
    steps before it (and from the training exogenous series continued by
    the rows given to [predict]).  Forecast [i] is the estimator's answer
    to that table. *)
Theorem predict_feeds_forecasts_back {E Kw : Type} `{Estimator E Kw}
        series exog (kwargs kwargs' : Kw) (self0 self : RegressionModel E)
        (tc : string) (last : Z) (n : nat) exog' calls :
  configured self0 ->
  fit series exog kwargs self0 = (self, Ok tt) ->
  trainable series exog tc ->
  0 < max_lag self0 ->
  (Z.to_nat (max_lag self0) <= ts_len series)%nat ->
  end_time series = Ok last ->
  usable_exog exog exog' (last + freq series) n ->
  (forall X, feature_row X ->
             exists v, est_predict (model self) X kwargs' = Ok [RScalar (Some v)]
                       \/ est_predict (model self) X kwargs' = Ok [RArray [Some v]]) ->
  exists fs,
    length fs = n
    /\ predict self n exog' kwargs' calls
       = (calls ++ map (step_table (Z.to_nat (max_lag self0)) (lags self0) (lags_exog self0)
                                   series exog exog' last n fs) (seq 0 n),
          _build_forecast_series self fs)
    /\ forall i, (i < n)%nat ->
                 exists v,
                   nth_error fs i = Some (Some v)
                   /\ let X := step_table (Z.to_nat (max_lag self0)) (lags self0)
                                          (lags_exog self0) series exog exog' last n fs i in
                      est_predict (model self) X kwargs' = Ok [RScalar (Some v)]
                      \/ est_predict (model self) X kwargs' = Ok [RArray [Some v]].
Proof.
  intros Hconf Hfit Htr Hpos Hlen Hend Huse Hest.
  exact (proj1 (predict_lagged_runs series exog kwargs kwargs' self0 self tc last n exog'
                  calls Hconf Hfit Htr Hpos Hlen Hend Huse) Hest).
Qed.

Lemma ten_days_with_exog_trainable (name : string) :
  name <> "y" -> trainable ten_days (Some (ten_days_exog name)) "y".
Proof.
  intros Hname. split; [reflexivity|]. split; [apply ten_days_sorted|].
  split; [apply series_of_clean|]. split; [reflexivity|].
  intros e He. injection He as <-. split; [apply series_of_clean|]. split.
  - discriminate.
  - intros [Hin|[]]. apply Hname. exact Hin.
Qed.

Lemma series_of_usable (name : string) (start : Z) (values : list Z) (old : TimeSeries)
      (n : nat) :
  width old = 1%nat -> (n <= length values)%nat -> values <> [] ->
  usable_exog (Some old) (Some (series_of name start values)) start n.
Proof.
  intros Hw Hn Hne. exists (series_of name start values). split; [reflexivity|].
  split; [|split; [|split]].
  - destruct values as [|v values]; [congruence|].
    unfold start_time, item, time_index, series_of.
    cbn [ts_df df_index length seq map nth_error]. f_equal. lia.
  - unfold ts_len, df_len, series_of. cbn [ts_df df_index].
    rewrite length_map, length_seq. exact Hn.
  - rewrite Hw. reflexivity.
  - constructor; [|constructor]. cbn [snd]. split.
    + unfold ts_len, df_len, series_of. cbn [ts_df df_index].
      rewrite !length_map, length_seq. reflexivity.
    + apply Forall_map. apply Forall_forall. intros v _. reflexivity.
Qed.

Lemma predict_feeds_forecasts_back_witness :
  let self := fst (fit ten_days (Some (ten_days_exog "x")) tt ar2_exog0) in
  exists fs,
    length fs = 3%nat
    /\ predict self 3 (Some (series_of "x" 11 [20; 21; 22])) tt []
       = (map (step_table 2 (Some [1; 2]) (Some [0]) ten_days (Some (ten_days_exog "x"))
                          (Some (series_of "x" 11 [20; 21; 22])) 10 3 fs) (seq 0 3),
          _build_forecast_series self fs).
Proof.
  intros self.
  assert (Hconf : configured ar2_exog0).
  { apply (init_configured (Some (LagsList [1; 2])) (Some (ExogBool false))
                           (Some (SumModel false 0))).
    reflexivity. }
  assert (Hfit : fit ten_days (Some (ten_days_exog "x")) tt ar2_exog0 = (self, Ok tt))
    by (vm_compute; reflexivity).
  assert (Htr : trainable ten_days (Some (ten_days_exog "x")) "y")
    by (apply ten_days_with_exog_trainable; discriminate).
  assert (Hpos : 0 < max_lag ar2_exog0) by reflexivity.
  assert (Hlen : (Z.to_nat (max_lag ar2_exog0) <= ts_len ten_days)%nat) by (cbn; lia).
  assert (Hend : end_time ten_days = Ok 10) by reflexivity.
  assert (Huse : usable_exog (Some (ten_days_exog "x"))
                             (Some (series_of "x" 11 [20; 21; 22])) (10 + freq ten_days) 3).
  { apply series_of_usable; [reflexivity | cbn; lia | discriminate]. }
  assert (Hest : forall X, feature_row X ->
                           exists v,
                             est_predict (model self) X tt = Ok [RScalar (Some v)]
                             \/ est_predict (model self) X tt = Ok [RArray [Some v]]).
  { intros X HX. apply (sum_model_answers false 8). exact HX. }
  destruct (predict_feeds_forecasts_back
              ten_days (Some (ten_days_exog "x")) tt tt ar2_exog0 self "y" 10 3%nat
              (Some (series_of "x" 11 [20; 21; 22])) []
              Hconf Hfit Htr Hpos Hlen Hend Huse Hest)
    as (fs & Hfs & Hrun & _).
  exists fs. split; [exact Hfs | exact Hrun].
Defined.

(** X14.  An exception of the estimator during [predict] surfaces
    unchanged: when the estimator answers the tables of the first [k]
    steps and raises on the table of step [k], [predict] raises that
    exception after exactly [k + 1] calls of the estimator, and no forecast
    is returned. *)
Theorem predict_estimator_error_surfaces {E Kw : Type} `{Estimator E Kw}
        series exog (kwargs kwargs' : Kw) (self0 self : RegressionModel E)
        (tc : string) (last : Z) (n : nat) exog' calls
        (fs : list (option Z)) (k : nat) (err : exn) :
  configured self0 ->
  fit series exog kwargs self0 = (self, Ok tt) ->
  trainable series exog tc ->
  0 < max_lag self0 ->
  (Z.to_nat (max_lag self0) <= ts_len series)%nat ->
  end_time series = Ok last ->
  usable_exog exog exog' (last + freq series) n ->
  length fs = n -> (k < n)%nat ->
  (forall i, (i < k)%nat ->
             exists v,
               nth_error fs i = Some (Some v)
               /\ let X := step_table (Z.to_nat (max_lag self0)) (lags self0)
                                      (lags_exog self0) series exog exog' last n fs i in
                  est_predict (model self) X kwargs' = Ok [RScalar (Some v)]
                  \/ est_predict (model self) X kwargs' = Ok [RArray [Some v]]) ->
  est_predict (model self)
              (step_table (Z.to_nat (max_lag self0)) (lags self0) (lags_exog self0)
                          series exog exog' last n fs k) kwargs'
  = Raise err ->
  predict self n exog' kwargs' calls
  = (calls ++ map (step_table (Z.to_nat (max_lag self0)) (lags self0) (lags_exog self0)
                              series exog exog' last n fs) (seq 0 (S k)),
     Raise err).
Proof.
  intros Hconf Hfit Htr Hpos Hlen Hend Huse Hfs Hk Hans Herr.
  exact (proj2 (predict_lagged_runs series exog kwargs kwargs' self0 self tc last n exog'
                  calls Hconf Hfit Htr Hpos Hlen Hend Huse) fs k err Hfs Hk Hans Herr).
Qed.

Lemma predict_estimator_error_surfaces_witness :
  let self := fst (fit ten_days None tt (ar2_limited 20)) in
  predict self 3 None tt []
  = ([{| df_index := [11]; df_cols := [("y_lag1", [Some 9]); ("y_lag2", [Some 8])] |};
      {| df_index := [12]; df_cols := [("y_lag1", [Some 17]); ("y_lag2", [Some 9])] |};
      {| df_index := [13]; df_cols := [("y_lag1", [Some 26]); ("y_lag2", [Some 17])] |}],
     Raise (EstimatorError "Input contains a value too large")).
Proof.
  intros self.
  assert (Hconf : configured (ar2_limited 20)).
  { apply (init_configured (Some (LagsList [1; 2])) None (Some (Limited 20))).
    reflexivity. }
  assert (Hfit : fit ten_days None tt (ar2_limited 20) = (self, Ok tt))
    by (vm_compute; reflexivity).
  assert (Hpos : 0 < max_lag (ar2_limited 20)) by reflexivity.
  assert (Hlen : (Z.to_nat (max_lag (ar2_limited 20)) <= ts_len ten_days)%nat)
    by (cbn; lia).
  assert (Hend : end_time ten_days = Ok 10) by reflexivity.
  assert (Huse : usable_exog None None (10 + freq ten_days) 3) by reflexivity.
  assert (Hfs : length [Some 17; Some 26; Some 0] = 3%nat) by reflexivity.
  assert (Hk : (2 < 3)%nat) by lia.
  apply (predict_estimator_error_surfaces
           ten_days None tt tt (ar2_limited 20) self "y" 10 3%nat None []
           [Some 17; Some 26; Some 0] 2%nat
           (EstimatorError "Input contains a value too large")
           Hconf Hfit ten_days_trainable Hpos Hlen Hend Huse Hfs Hk).
  - intros [|[|i]] Hi; [exists 17 | exists 26 | lia];
      (split; [reflexivity | left; vm_compute; reflexivity]).
  - vm_compute. reflexivity.
Defined.

(** ** An exogenous series the model has no use for *)

Lemma sbind_ext {S A B : Type} (m : stateful S A) (k k' : A -> stateful S B) (s : S) :
  (forall a s', k a s' = k' a s') -> sbind m k s = sbind m k' s.
Proof.
  intros Hk. unfold sbind. destruct (m s) as [s' [a|e]]; [apply Hk | reflexivity].
Qed.

Lemma for_loop_ext {S X A : Type} (body body' : X -> A -> stateful S A) (l : list X) :
  (forall x a s, body x a s = body' x a s) ->
  forall a s, for_loop body l a s = for_loop body' l a s.
Proof.
  intros Hb. induction l as [|x l IH]; intros a s; [reflexivity|].
  cbn [for_loop]. unfold sbind. rewrite Hb.
  destruct (body' x a s) as [s' [a'|e]]; [apply IH | reflexivity].
Qed.

Section UnusedExog.

Context {E Kw : Type} `{Estimator E Kw}.

Variable self : RegressionModel E.
Hypothesis no_exog_lags : lags_exog self = None.
Hypothesis no_exog_columns : exog_columns self = Some None.

Lemma prepare_window_without_exog exog_df (i : nat) ow :
  prepare_window self exog_df i ow = Ok ow.
Proof. unfold prepare_window. rewrite no_exog_lags. reflexivity. Qed.

Lemma advance_window_without_exog exog_df dr (i : nat) forecast w :
  advance_window self exog_df dr i forecast w = advance_window self None dr i forecast w.
Proof. unfold advance_window. rewrite no_exog_columns. reflexivity. Qed.

Lemma predict_step_without_exog exog_df (kwargs : Kw) dr (i : nat) st calls :
  predict_step self exog_df kwargs dr i st calls
  = predict_step self None kwargs dr i st calls.
Proof.
  unfold predict_step. destruct st as [ow fc].
  rewrite !prepare_window_without_exog.
  apply sbind_ext. intros w0 s0.
  apply sbind_ext. intros w s1.
  apply sbind_ext. intros X s2.
  apply sbind_ext. intros f s3.
  apply sbind_ext. intros f' s4.
  rewrite advance_window_without_exog. reflexivity.
Qed.

End UnusedExog.

(** X15.  A model trained without an exogenous series reads nothing from
    one given to [predict]: when the series starts one step after the end
    of the training series, the forecasts and the estimator calls are those
    of [predict] without it, for every horizon. *)
Theorem predict_ignores_unused_exog {E Kw : Type} `{Estimator E Kw}
        series (kwargs kwargs' : Kw) (self0 self : RegressionModel E)
        (last : Z) (n : nat) (e' : TimeSeries) calls :
  fit series None kwargs self0 = (self, Ok tt) ->
  end_time series = Ok last ->
  start_time e' = Ok (last + freq series) ->
  predict self n (Some e') kwargs' calls = predict self n None kwargs' calls.
Proof.
  intros Hfit Hend Hstart. apply fit_ok in Hfit.
  destruct Hfit as (Hcalled & Htrain & Hl & Hle & Hmax & Hpres & Hec & _ & Hseed).
  assert (Hnone : lags_exog self = None).
  { rewrite Hle. destruct (lags_exog self0); [discriminate Hpres | reflexivity]. }
  cbn [option_map] in Hec.
  unfold predict. rewrite (super_predict_fitted _ _ _ Hcalled), !sbind_lift_ok.
  rewrite (super_predict_fitted _ _ _ Hcalled), !sbind_lift_ok.
  apply sbind_ext. intros init s0.
  assert (Hcheck : check_exog_start self (Some e') = Ok tt).
  { unfold check_exog_start. rewrite Htrain. cbn [attr bind].
    rewrite Hend. cbn [bind]. rewrite Hstart. cbn [bind].
    unfold raise_if_not. rewrite Z.eqb_refl. reflexivity. }
  rewrite Hcheck. cbn [check_exog_start]. rewrite !sbind_lift_ok.
  cbv zeta. cbn [option_map]. unfold sbind.
  rewrite (for_loop_ext _ _ (seq 0 n)
             (predict_step_without_exog self Hnone Hec
                (Some (pd_dataframe e')) kwargs' (snd init))).
  reflexivity.
Qed.

(** ** [predict] with exogenous lag 0 only *)

Lemma fresh_lags_seen_zero (le : list Z) :
  Forall (fun x => x = 0) le -> fresh_lags [0] le = [].
Proof.
  induction 1 as [|x le Hx _ IH]; [reflexivity|]. subst x. cbn [fresh_lags existsb Z.eqb orb].
  exact IH.
Qed.

Lemma distinct_lags_zero (le : list Z) :
  le <> [] -> Forall (fun x => x = 0) le -> distinct_lags le = [0].
Proof.
  intros Hne Hall. destruct le as [|x le]; [congruence|].
  apply Forall_cons_iff in Hall. destruct Hall as [-> Hall].
  unfold distinct_lags. cbn [fresh_lags existsb app]. f_equal.
  apply fresh_lags_seen_zero. exact Hall.
Qed.

Lemma lag0_features (le : list Z) (names : list string) :
  distinct_lags le = [0] ->
  forall row : list (option Z),
    flat_map (lag_features 0 le) (map (fun p => (fst p, [snd p])) (combine names row))
    = map (fun p => (lag_name (fst p) 0, [snd p])) (combine names row).
Proof.
  intros Hd. induction names as [|nm names IH]; intros [|v row]; try reflexivity.
  cbn [combine map flat_map fst snd]. rewrite IH.
  unfold lag_features at 1. rewrite Hd. reflexivity.
Qed.

Section LagZero.

Context {E Kw : Type} `{Estimator E Kw}.

Variable self : RegressionModel E.
Variable series e : TimeSeries.
Variable tc : string.
Variable e' : DataFrame.
Variable n : nat.
Variable kwargs : Kw.

Let names : list string := tc :: columns e.
Let T (i : nat) : DataFrame := exog_row_table (columns e) e' i.

Hypothesis self_configured : configured self.
Hypothesis self_target : target_column self = Some tc.
Hypothesis self_exog : exog_columns self = Some (option_map columns (Some e)).
Hypothesis self_presence : is_some (Some e) = is_some (lags_exog self).
Hypothesis self_training : training_series self = Some series.
Hypothesis self_seed : prediction_data self = seed_of (max_lag self) series (Some e).
Hypothesis series_trainable : trainable series (Some e) tc.
Hypothesis lag_zero : max_lag self = 0.
Hypothesis exog_rows :
  lags_exog self <> None ->
  exists e'' : DataFrame,
    Some e' = Some e''
    /\ (n <= df_len e'')%nat
    /\ df_width e'' = length (columns e)
    /\ Forall (fun c => length (snd c) = df_len e''
                        /\ Forall (fun v => notna v = true) (snd c))
              (df_cols e'').

Lemma lag0_configuration :
  lags self = None /\ exists le, lags_exog self = Some le /\ distinct_lags le = [0].
Proof.
  destruct self_configured as (Hl & Hle & Hsome & Hmax).
  rewrite lag_zero in Hmax.
  assert (Hdepth : (lag_depth (lags_used self) <= 0)%nat) by lia.
  rewrite lag_depth_le in Hdepth. unfold lags_used in Hdepth.
  assert (Hnone : lags self = None).
  { destruct (lags self) as [l|] eqn:Hlags; [|reflexivity].
    destruct (Hl l eq_refl) as [Hne Hpos]. destruct l as [|x l]; [congruence|].
    apply Forall_inv in Hpos.
    specialize (Hdepth x ltac:(left; reflexivity)). lia. }
  split; [exact Hnone|].
  destruct (lags_exog self) as [le|] eqn:Hlx.
  - exists le. split; [reflexivity|]. destruct (Hle le eq_refl) as [Hne Hnn].
    apply distinct_lags_zero; [exact Hne|]. apply Forall_forall. intros x Hx.
    rewrite Forall_forall in Hnn. specialize (Hnn x Hx).
    specialize (Hdepth x ltac:(apply in_or_app; right; exact Hx)). lia.
  - destruct Hsome as [Hs|Hs]; congruence.
Qed.

Lemma exog_frame_rows :
  (n <= df_len e')%nat
  /\ df_width e' = length (columns e)
  /\ Forall (fun c => length (snd c) = df_len e'
                      /\ Forall (fun v => notna v = true) (snd c))
            (df_cols e').
Proof.
  destruct lag0_configuration as (_ & le & Hle & _).
  destruct exog_rows as (e'' & He & Hrows); [congruence|].
  injection He as <-. exact Hrows.
Qed.

(** Lines 257 to 267 without a rolling window: the window of the step is
    built from row [i] of the exogenous frame alone. *)
Lemma lag0_window (i : nat) (ow : option TimeSeries) :
  (i < n)%nat ->
  exists t,
    nth_error (df_index e') i = Some t
    /\ prepare_window self (Some e') i ow
       = Ok (Some {| ts_df := {| df_index := [t];
                                 df_cols := map (fun p => (fst p, [snd p]))
                                                (combine names (Some 0 :: df_row e' i)) |};
                     ts_freq := freq series |}).
Proof.
  intros Hi. destruct lag0_configuration as (_ & le & Hle & Hd).
  destruct exog_frame_rows as (Hn & Hw & _).
  assert (Hlt : (i < df_len e')%nat) by lia.
  destruct (nth_error (df_index e') i) as [t|] eqn:Ht;
    [|apply nth_error_None in Ht; unfold df_len in Hlt; lia].
  exists t. split; [reflexivity|].
  assert (H0 : existsb (Z.eqb 0) le = true).
  { apply existsb_exists. exists 0. split; [|reflexivity].
    apply distinct_lags_in. rewrite Hd. left. reflexivity. }
  unfold prepare_window. rewrite Hle, H0. cbn [attr bind]. unfold df_iloc.
  apply Nat.ltb_lt in Hlt. rewrite Hlt. cbn [bind]. rewrite lag_zero. cbn [Z.eqb].
  rewrite self_seed, lag_zero. unfold seed_of. cbn [Z.eqb option_map attr bind].
  rewrite df_empty_columns, stack_columns, (proj1 series_trainable).
  cbn [app]. unfold item. rewrite Ht. cbn [bind]. unfold df_one_row.
  replace (Nat.eqb (length (Some 0 :: df_row e' i)) (length (tc :: columns e)))
    with true.
  - cbn [bind]. rewrite self_training. reflexivity.
  - symmetry. apply Nat.eqb_eq. cbn [length]. unfold df_row. rewrite length_map.
    f_equal. exact Hw.
Qed.

Lemma lag0_exog_names :
  exog_columns self
  = Some (match lags_exog self with Some _ => Some (columns e) | None => None end).
Proof.
  destruct lag0_configuration as (_ & le & Hle & _). rewrite self_exog, Hle. reflexivity.
Qed.

Lemma lag0_names_some : lags_exog self <> None -> columns e <> [].
Proof.
  intros _. pose proof series_trainable as (_ & _ & _ & _ & Hexog).
  exact (proj1 (proj2 (Hexog e eq_refl))).
Qed.

(** Lines 270 to 272 on that window. *)
Lemma lag0_features_of_step (i : nat) (ow : option TimeSeries) :
  (i < n)%nat ->
  exists w,
    prepare_window self (Some e') i ow = Ok (Some w)
    /\ forecasting_data self w = Ok (T i)
    /\ feature_row (T i).
Proof.
  intros Hi. destruct (lag0_window i ow Hi) as (t & Ht & Hprep).
  destruct lag0_configuration as (Hl & le & Hle & Hd).
  pose proof (trainable_names series (Some e) tc series_trainable) as Hnd.
  destruct (prepare_window_ok self series (Some e) tc self_configured self_exog
              self_presence self_training self_seed (proj1 series_trainable) Hnd
              (fun x Hx => proj1 (proj2 (proj2 (proj2 (proj2 (proj2 series_trainable)))
                                               x Hx)))
              (proj1 (proj2 (proj2 (proj2 series_trainable))))
              (Some e') n exog_rows i ow Hi)
    as (w & Hprep' & Hok).
  { intros Hpos. rewrite lag_zero in Hpos. lia. }
  exists w. split; [exact Hprep'|].
  rewrite Hprep in Hprep'. injection Hprep' as Hw.
  destruct (forecasting_data_one_row self tc (columns e) (freq series) self_configured
              Hnd self_target lag0_exog_names lag0_names_some w Hok)
    as (X & HX & Hone).
  assert (HT : forecasting_data self w = Ok (T i)).
  { rewrite (forecasting_data_closed self tc (columns e) (freq series) self_configured
               Hnd self_target lag0_exog_names lag0_names_some w Hok).
    f_equal. rewrite lag_zero, Hl, Hle. rewrite <- Hw.
    unfold T, exog_row_table, expected_features, pd_dataframe, time_index.
    cbn [ts_df df_index df_cols Z.to_nat skipn combine map firstn app].
    f_equal.
    - symmetry. apply firstn_one_skipn. exact Ht.
    - apply (lag0_features le (columns e) Hd). }
  split; [exact HT|]. congruence.
Qed.

Lemma lag0_advance exog_df dr (i : nat) forecast (w : TimeSeries) :
  advance_window self exog_df dr i forecast w = Ok w.
Proof. unfold advance_window. rewrite lag_zero. reflexivity. Qed.

(** One pass of the loop body, lines 257 to 283, without a rolling
    window. *)
Lemma lag0_step (i : nat) (ow : option TimeSeries) (fc : list (option Z))
      (calls : list DataFrame) (v : Z) :
  (i < n)%nat -> length fc = n ->
  est_predict (model self) (T i) kwargs = Ok [RScalar (Some v)]
  \/ est_predict (model self) (T i) kwargs = Ok [RArray [Some v]] ->
  exists w,
    predict_step self (Some e') kwargs None i (ow, fc) calls
    = (calls ++ [T i], Ok (Some w, firstn i fc ++ Some v :: skipn (S i) fc)).
Proof.
  intros Hi Hfc Hest.
  destruct (lag0_features_of_step i ow Hi) as (w & Hprep & HX & _).
  exists w.
  assert (Hset : setitem fc i (Some v) = Ok (firstn i fc ++ Some v :: skipn (S i) fc)).
  { unfold setitem. replace (i <? length fc)%nat with true; [reflexivity|].
    symmetry. apply Nat.ltb_lt. lia. }
  unfold predict_step. rewrite Hprep, sbind_lift_ok. cbn [local].
  rewrite sbind_lift_ok, HX, sbind_lift_ok.
  unfold sbind at 1. unfold call_predict.
  destruct Hest as [Hest|Hest]; rewrite Hest;
    cbn [unwrap_forecast item nth_error bind map];
    rewrite sbind_lift_ok, lag0_advance, sbind_lift_ok;
    cbn [forecast0 item nth_error bind];
    rewrite sbind_lift_ok, Hset, sbind_lift_ok; reflexivity.
Qed.

Hypothesis estimator_answers :
  forall X, feature_row X ->
            exists v, est_predict (model self) X kwargs = Ok [RScalar (Some v)]
                      \/ est_predict (model self) X kwargs = Ok [RArray [Some v]].

(** The loop of lines 254 to 283 from step [a] on. *)
Lemma lag0_loop :
  forall (k a : nat) (ow : option TimeSeries) (fc : list (option Z))
         (calls : list DataFrame),
    (a + k = n)%nat ->
    length fc = n ->
    exists fs ow',
      length fs = n
      /\ for_loop (predict_step self (Some e') kwargs None) (seq a k) (ow, fc) calls
         = (calls ++ map T (seq a k), Ok (ow', fs))
      /\ (forall j, (j < a)%nat -> nth_error fs j = nth_error fc j)
      /\ forall i, (a <= i < n)%nat ->
                   exists v,
                     nth_error fs i = Some (Some v)
                     /\ (est_predict (model self) (T i) kwargs = Ok [RScalar (Some v)]
                         \/ est_predict (model self) (T i) kwargs = Ok [RArray [Some v]]).
Proof.
  induction k as [|k IH]; intros a ow fc calls Hak Hfc.
  - exists fc, ow. split; [exact Hfc|]. split.
    + cbn [seq map for_loop]. rewrite app_nil_r. reflexivity.
    + split; [reflexivity|]. intros i Hlt. lia.
  - destruct (lag0_features_of_step a ow ltac:(lia)) as (_ & _ & _ & Hone).
    destruct (estimator_answers (T a) Hone) as [v Hest].
    destruct (lag0_step a ow fc calls v ltac:(lia) Hfc Hest) as [w Hstep].
    set (fc1 := firstn a fc ++ Some v :: skipn (S a) fc) in *.
    assert (Hset : setitem fc a (Some v) = Ok fc1).
    { unfold setitem. replace (a <? length fc)%nat with true; [reflexivity|].
      symmetry. apply Nat.ltb_lt. lia. }
    apply setitem_ok in Hset. destruct Hset as (_ & Hlen1 & Hat & Hother).
    destruct (IH (S a) (Some w) fc1 (calls ++ [T a]) ltac:(lia) ltac:(lia))
      as (fs & ow' & Hfs & Hloop & Hkeep & Hans).
    exists fs, ow'. split; [exact Hfs|]. split; [|split].
    + cbn [seq for_loop map]. unfold sbind at 1. rewrite Hstep.
      rewrite Hloop, <- app_assoc. reflexivity.
    + intros j Hj. rewrite (Hkeep j ltac:(lia)). apply Hother. lia.
    + intros i Hlt. destruct (Nat.eq_dec i a) as [->|Hne].
      * exists v. split; [|exact Hest]. rewrite (Hkeep a ltac:(lia)). exact Hat.
      * apply Hans. lia.
Qed.

End LagZero.

(** X16.  With exogenous lag 0 as the only lag, [predict] reads nothing
    but the exogenous series it is given: the estimator is called once per
    step, on row [i] of that series under the training column names with
    the suffix [_lag0] and under that row's own timestamp, and forecast [i]
    is the estimator's answer to that table.  Neither the training values
    nor earlier forecasts enter. *)
Theorem predict_lag0_reads_exog_rows {E Kw : Type} `{Estimator E Kw}
        series (e : TimeSeries) (kwargs kwargs' : Kw) (self0 self : RegressionModel E)
        (tc : string) (last : Z) (n : nat) (e' : TimeSeries) calls :
  configured self0 ->
  fit series (Some e) kwargs self0 = (self, Ok tt) ->
  trainable series (Some e) tc ->
  max_lag self0 = 0 ->
  end_time series = Ok last ->
  usable_exog (Some e) (Some e') (last + freq series) n ->
  (forall X, feature_row X ->
             exists v, est_predict (model self) X kwargs' = Ok [RScalar (Some v)]
                       \/ est_predict (model self) X kwargs' = Ok [RArray [Some v]]) ->
  exists fs,
    length fs = n
    /\ predict self n (Some e') kwargs' calls
       = (calls ++ map (exog_row_table (columns e) (pd_dataframe e')) (seq 0 n),
          _build_forecast_series self fs)
    /\ forall i, (i < n)%nat ->
                 exists v,
                   nth_error fs i = Some (Some v)
                   /\ let X := exog_row_table (columns e) (pd_dataframe e') i in
                      est_predict (model self) X kwargs' = Ok [RScalar (Some v)]
                      \/ est_predict (model self) X kwargs' = Ok [RArray [Some v]].
Proof.
  intros Hconf0 Hfit Htr Hzero Hend Husable Hest.
  apply fit_ok in Hfit.
  destruct Hfit as (Hcalled & Htrain & Hl & Hle & Hmax & Hpres & Hec
                    & (tc' & Htc' & Htarget) & Hseed).
  assert (Hconf : configured self) by (eapply configured_same; eassumption).
  pose proof Htr as (Hcols & _).
  assert (tc' = tc).
  { rewrite Hcols in Htc'. cbn in Htc'. congruence. }
  subst tc'. rewrite <- Hle in Hpres. rewrite <- Hmax in Hseed, Hzero.
  destruct Husable as (e'' & He'' & Hstart & Hn & Hw & Hcells).
  injection He'' as <-.
  assert (Hcheck : check_exog_start self (Some e') = Ok tt).
  { unfold check_exog_start. rewrite Htrain. cbn [attr bind].
    rewrite Hend. cbn [bind]. rewrite Hstart. cbn [bind].
    unfold raise_if_not. rewrite Z.eqb_refl. reflexivity. }
  assert (Hrows : lags_exog self <> None ->
                  exists d : DataFrame,
                    Some (pd_dataframe e') = Some d
                    /\ (n <= df_len d)%nat
                    /\ df_width d = length (columns e)
                    /\ Forall (fun c => length (snd c) = df_len d
                                        /\ Forall (fun v => notna v = true) (snd c))
                              (df_cols d)).
  { intros _. exists (ts_df e'). split; [reflexivity|]. split; [exact Hn|].
    split; [|exact Hcells].
    unfold width, df_width, columns, df_columns in *. rewrite length_map. exact Hw. }
  assert (Hinit : initial_window self = Ok (None, None)).
  { unfold initial_window. rewrite Hzero. reflexivity. }
  set (fc0 := map (fun i => Some (Z.of_nat i)) (seq 0 n)).
  assert (Hfc0 : length fc0 = n).
  { unfold fc0. rewrite length_map, length_seq. reflexivity. }
  destruct (lag0_loop self series e tc (pd_dataframe e') n kwargs' Hconf Htarget Hec Hpres
              Htrain Hseed Htr Hzero Hrows Hest n 0%nat None fc0 calls eq_refl Hfc0)
    as (fs & ow' & Hfs & Hloop & _ & Hans).
  cbn beta in Hloop, Hans.
  exists fs. split; [exact Hfs|]. split.
  - unfold predict. rewrite (super_predict_fitted _ _ _ Hcalled), sbind_lift_ok.
    rewrite Hinit, sbind_lift_ok, Hcheck, sbind_lift_ok.
    unfold sbind at 1. cbn [fst snd option_map]. fold fc0. rewrite Hloop. reflexivity.
  - intros i Hi. apply Hans. lia.
Qed.

Lemma predict_lag0_reads_exog_rows_witness :
  let self := fst (fit ten_days (Some (ten_days_exog "x")) tt lag0_only) in
  exists fs,
    predict self 3 (Some (series_of "x" 11 [20; 21; 22])) tt []
    = ([{| df_index := [11]; df_cols := [("x_lag0", [Some 20])] |};
        {| df_index := [12]; df_cols := [("x_lag0", [Some 21])] |};
        {| df_index := [13]; df_cols := [("x_lag0", [Some 22])] |}],
       _build_forecast_series self fs).
Proof.
  intros self.
  assert (Hconf : configured lag0_only).
  { apply (init_configured None (Some (ExogList [0])) (Some (SumModel false 0))).
    reflexivity. }
  assert (Hfit : fit ten_days (Some (ten_days_exog "x")) tt lag0_only = (self, Ok tt))
    by (vm_compute; reflexivity).
  assert (Htr : trainable ten_days (Some (ten_days_exog "x")) "y")
    by (apply ten_days_with_exog_trainable; discriminate).
  assert (Hzero : max_lag lag0_only = 0) by reflexivity.
  assert (Hend : end_time ten_days = Ok 10) by reflexivity.
  assert (Huse : usable_exog (Some (ten_days_exog "x"))
                             (Some (series_of "x" 11 [20; 21; 22])) (10 + freq ten_days) 3).
  { apply series_of_usable; [reflexivity | cbn; lia | discriminate]. }
  assert (Hest : forall X, feature_row X ->
                           exists v,
                             est_predict (model self) X tt = Ok [RScalar (Some v)]
                             \/ est_predict (model self) X tt = Ok [RArray [Some v]]).
  { intros X HX. apply (sum_model_answers false 10). exact HX. }
  destruct (predict_lag0_reads_exog_rows
              ten_days (ten_days_exog "x") tt tt lag0_only self "y" 10 3%nat
              (series_of "x" 11 [20; 21; 22]) [] Hconf Hfit Htr Hzero Hend Huse Hest)
    as (fs & _ & Hrun & _).
  exists fs. exact Hrun.
Defined.

Lemma predict_ignores_unused_exog_witness :
  let self := fst (fit ten_days None tt (ar2 false)) in
  predict self 3 (Some (series_of "x" 11 [20; 21; 22])) tt []
  = predict self 3 None tt [].
Proof.
  intros self.
  assert (Hfit : fit ten_days None tt (ar2 false) = (self, Ok tt))
    by (vm_compute; reflexivity).
  assert (Hend : end_time ten_days = Ok 10) by reflexivity.
  assert (Hstart : start_time (series_of "x" 11 [20; 21; 22]) = Ok (10 + freq ten_days))
    by reflexivity.
  exact (predict_ignores_unused_exog ten_days tt tt (ar2 false) self 10 3%nat
           (series_of "x" 11 [20; 21; 22]) [] Hfit Hend Hstart).
Defined.

(** ** [predict] without the exogenous series the model was trained with *)

Lemma for_loop_first_raises {T X A : Type} (body : X -> A -> stateful T A)
      (x : X) (l : list X) (a : A) (s s' : T) (e : exn) :
  body x a s = (s', Raise e) -> for_loop body (x :: l) a s = (s', Raise e).
Proof. intros Hb. cbn [for_loop]. unfold sbind. rewrite Hb. reflexivity. Qed.

(** X17.  A model trained with an exogenous series cannot forecast
    without one, and says so with an [AttributeError]: when exogenous lag 0
    is configured, at the first step and before the estimator is called;
    otherwise after the estimator has been called once, on the table built
    from the end of the training data, when the forecast is to be appended
    to the window together with the exogenous values of the step. *)
Theorem predict_without_needed_exog {E Kw : Type} `{Estimator E Kw}
        series (e : TimeSeries) (kwargs kwargs' : Kw) (self0 self : RegressionModel E)
        (tc : string) (n : nat) calls :
  configured self0 ->
  fit series (Some e) kwargs self0 = (self, Ok tt) ->
  trainable series (Some e) tc ->
  (Z.to_nat (max_lag self0) <= ts_len series)%nat ->
  (0 < n)%nat ->
  (forall X, feature_row X ->
             exists v, est_predict (model self) X kwargs' = Ok [RScalar (Some v)]
                       \/ est_predict (model self) X kwargs' = Ok [RArray [Some v]]) ->
  if match lags_exog self0 with
     | Some le => existsb (Z.eqb 0) le
     | None => false
     end
  then predict self n None kwargs' calls = (calls, Raise AttributeError)
  else exists X,
      feature_row X
      /\ predict self n None kwargs' calls = (calls ++ [X], Raise AttributeError).
Proof.
  intros Hconf0 Hfit Htr Hlen Hn Hest.
  apply fit_ok in Hfit.
  destruct Hfit as (Hcalled & Htrain & Hl & Hle & Hmax & Hpres & Hec
                    & (tc' & Htc' & Htarget) & Hseed).
  assert (Hconf : configured self) by (eapply configured_same; eassumption).
  pose proof Htr as (Hcols & _ & _ & Hfr & Hexog).
  assert (tc' = tc).
  { rewrite Hcols in Htc'. cbn in Htc'. congruence. }
  subst tc'. rewrite <- Hle in Hpres. rewrite <- Hmax in Hseed, Hlen. rewrite <- Hle.
  assert (Hnn : 0 <= max_lag self).
  { destruct Hconf as (_ & _ & _ & ->). lia. }
  destruct n as [|n]; [lia|].
  assert (Hrun : forall init out,
             initial_window self = Ok init ->
             predict_step self None kwargs' (snd init) 0
                          (fst init, map (fun i => Some (Z.of_nat i)) (seq 0 (S n))) calls
             = (out, Raise AttributeError) ->
             predict self (S n) None kwargs' calls = (out, Raise AttributeError)).
  { intros init out Hinit Hstep. unfold predict.
    rewrite (super_predict_fitted _ _ _ Hcalled), sbind_lift_ok.
    rewrite Hinit, sbind_lift_ok. cbn [check_exog_start]. rewrite sbind_lift_ok.
    cbv zeta. cbn [option_map]. unfold sbind at 1.
    rewrite <- cons_seq at 1.
    rewrite (for_loop_first_raises _ _ _ _ _ _ _ Hstep). reflexivity. }
  destruct (match lags_exog self with
            | Some le => existsb (Z.eqb 0) le
            | None => false
            end) eqn:Hflag.
  - assert (Hinit : exists init, initial_window self = Ok init).
    { destruct (Z.eq_dec (max_lag self) 0) as [Hz|Hnz].
      - exists (None, None). unfold initial_window. rewrite Hz. reflexivity.
      - destruct (initial_window_ok self series (Some e) tc Htr ltac:(lia) Hlen Hseed)
          as (w & Hw & _).
        eexists. exact Hw. }
    destruct Hinit as [init Hinit]. apply (Hrun init calls Hinit).
    unfold predict_step, prepare_window. rewrite Hflag. reflexivity.
  - pose proof (max_lag_positive_without_lag0 self Hconf Hflag) as Hpos.
    destruct (initial_window_ok self series (Some e) tc Htr Hpos Hlen Hseed)
      as (w & Hinit & Hw).
    assert (Hnames : exog_columns self
                     = Some (match lags_exog self with
                             | Some _ => Some (columns e)
                             | None => None
                             end)).
    { rewrite Hec. destruct (lags_exog self); [reflexivity | discriminate Hpres]. }
    destruct (forecasting_data_one_row self tc (columns e) (freq series) Hconf
                (trainable_names series (Some e) tc Htr) Htarget Hnames
                (fun _ => proj1 (proj2 (Hexog e eq_refl))) w Hw)
      as (X & HX & Hone).
    destruct (Hest X Hone) as [v Hv].
    exists X. split; [exact Hone|].
    apply (Hrun _ (calls ++ [X]) Hinit). cbn [fst snd].
    assert (Hadv : forall dr, advance_window self None dr 0 [RScalar (Some v)] w
                              = Raise AttributeError).
    { intros dr. unfold advance_window.
      replace (0 <? max_lag self) with true by (symmetry; apply Z.ltb_lt; exact Hpos).
      rewrite Hec. reflexivity. }
    unfold predict_step, prepare_window. rewrite Hflag, sbind_lift_ok. cbn [local].
    rewrite sbind_lift_ok, HX, sbind_lift_ok.
    unfold sbind at 1. unfold call_predict.
    destruct Hv as [Hv|Hv]; rewrite Hv;
      cbn [unwrap_forecast item nth_error bind map];
      rewrite sbind_lift_ok, Hadv; reflexivity.
Qed.

Lemma predict_without_needed_exog_witness :
  (let self := fst (fit ten_days (Some (ten_days_exog "x")) tt ar2_exog0) in
   predict self 3 None tt [] = ([], Raise AttributeError))
  /\ (let self := fst (fit ten_days (Some (ten_days_exog "x")) tt ar1_exog12) in
      predict self 3 None tt []
      = ([{| df_index := [11];
             df_cols := [("y_lag1", [Some 9]); ("x_lag1", [Some 19]);
                         ("x_lag2", [Some 18])] |}],
         Raise AttributeError)).
Proof.
  assert (Htr : trainable ten_days (Some (ten_days_exog "x")) "y")
    by (apply ten_days_with_exog_trainable; discriminate).
  assert (Hn : (0 < 3)%nat) by lia.
  split; intros self.
  - assert (Hconf : configured ar2_exog0).
    { apply (init_configured (Some (LagsList [1; 2])) (Some (ExogBool false))
                             (Some (SumModel false 0))).
      reflexivity. }
    assert (Hfit : fit ten_days (Some (ten_days_exog "x")) tt ar2_exog0 = (self, Ok tt))
      by (vm_compute; reflexivity).
    assert (Hlen : (Z.to_nat (max_lag ar2_exog0) <= ts_len ten_days)%nat) by (cbn; lia).
    exact (predict_without_needed_exog
             ten_days (ten_days_exog "x") tt tt ar2_exog0 self "y" 3%nat []
             Hconf Hfit Htr Hlen Hn (fun X HX => sum_model_answers false 8 X HX)).
  - assert (Hconf : configured ar1_exog12).
    { apply (init_configured (Some (LagsInt 1)) (Some (ExogInt 2))
                             (Some (SumModel false 0))).
      reflexivity. }
    assert (Hfit : fit ten_days (Some (ten_days_exog "x")) tt ar1_exog12 = (self, Ok tt))
      by (vm_compute; reflexivity).
    assert (Hlen : (Z.to_nat (max_lag ar1_exog12) <= ts_len ten_days)%nat) by (cbn; lia).
    destruct (predict_without_needed_exog
                ten_days (ten_days_exog "x") tt tt ar1_exog12 self "y" 3%nat []
                Hconf Hfit Htr Hlen Hn (fun X HX => sum_model_answers false 8 X HX))
      as (X & _ & Hrun).
    rewrite Hrun. vm_compute in Hrun. injection Hrun as HX. rewrite <- HX. reflexivity.
Defined.
